(* ===== verification/_CoqProject ===== *)
-Q . S2P
Prelude.v
FixedPoint.v
Primitives.v
Currency.v
Security.v
Oracle.v
Staking.v
PooledRewards.v
RewardPool.v
StellarRelay.v
Chain.v
RewardDistribution.v
Fee.v
VaultRegistry.v
VaultFrames.v
VaultBooks.v
RateLimit.v
Issue.v
Redeem.v
Nomination.v
Replace.v
ClientsInfo.v
Peg.v
Runtime.v
RequestLife.v
Sample.v
Reachable.v
OpenRequests.v
RecoveredVaults.v
OffchainWorker.v
Payments.v
Horizon.v
Wallet.v
WalletCache.v
CollectorTypes.v
Archive.v
ScpCollector.v
ProofBuilding.v
VaultRequests.v
VaultIssues.v
VaultCancellation.v
ParachainClient.v
VaultService.v
Runner.v
RedeemFlow.v
RequestExecution.v
OverlayFrames.v
OverlayConnector.v
OverlaySession.v
