(* ===== verification/Prelude.v ===== *)
(** * Spacewalk: a verification development

    Spacewalk is a bridge between Stellar and a Substrate chain.  Vaults lock
    collateral on the chain and hold assets on Stellar; users pay a vault on
    Stellar and get wrapped tokens (issue), give tokens back and are paid on
    Stellar (redeem), and vaults take over each other's tokens (replace).  A
    payment on Stellar is proven to the chain by the envelopes with which
    Stellar's validators externalized the ledger it is in.

    ** Files and sources

    Foundations.  [Prelude] (this file): errors, outcomes, the state and error
    monad [M] in which extrinsics are written, machine integers, generic lemmas.
    [FixedPoint]: the arithmetic of [sp_arithmetic] as an interface, and
    [Primitives]: [primitives/src/lib.rs].

    Pallets, one file each, under [src/pallets]: [Currency], [Security],
    [Oracle], [Staking], [PooledRewards], [RewardPool] (the [reward] pallet),
    [StellarRelay], [RewardDistribution], [Fee], [VaultRegistry], [Issue],
    [Redeem], [Nomination], [Replace] and [ClientsInfo]; [RateLimit] has what
    issue and redeem share.  [Chain] is the
    storage they have in common, with a field per pallet; a function of a pallet
    is a definition of the same name that maps the storage to an outcome and a
    new storage.  An outcome is a value, an error of the pallet's enumeration,
    or a panic.

    The chain as a whole.  [VaultFrames] (what an operation does not touch),
    [VaultBooks] (what it does to the token counters), [Peg] and [Runtime] (all
    calls together), [RequestLife] (the stores of requests), [Reachable] and
    [Payments] (the theorems about runs), [OpenRequests] (open requests and the
    counters of their vaults), [RecoveredVaults] (requests of a vault that is
    recovered), [OffchainWorker] (the reports of vaults to be liquidated), [Sample] (a concrete chain for evaluation).

    The vault client, under [src/clients].  [Horizon], [Wallet]: [wallet/src];
    [WalletCache]: [wallet/src/cache.rs] and the loops of [resubmissions.rs].
    [CollectorTypes], [Archive], [ScpCollector]: [vault/src/oracle].
    [ProofBuilding]: theorems about the collector and the relay pallet together.
    [VaultRequests]: [vault/src/requests].  [VaultIssues]: [vault/src/issue.rs],
    [wallet/src/task.rs] and the fetcher of [wallet/src/horizon/horizon.rs].
    [VaultCancellation]: [vault/src/cancellation.rs].  [ParachainClient]: errors,
    retries and submission of calls in [runtime/src].  [VaultService]: the vaults
    of the account, the tasks and their start in [vault/src/system.rs],
    [vault/src/replace.rs] and [service/src/lib.rs].  [RedeemFlow]: the listeners
    of [vault/src/redeem.rs] and [replace.rs], and a redeem from the runtime to
    the payment.  [RequestExecution]: payment, proof and execution of a request.
    [Runner]: [runner/src/runner.rs] and [vault/src/process.rs].

    The connection to a Stellar node, [stellar-relay-lib/src].  [OverlayFrames]:
    messages in a stream of bytes.  [OverlayConnector]: certificates, keys,
    handshake, flow control and the handling of a message.  [OverlaySession]:
    theorems about a session.

    ** What is shown

    - Backing: in every state reached from a chain without vaults, by calls that
      succeed or fail, the tokens in circulation are the ones on the books of
      the vaults ([Reachable.supply_backed]); the registry stays well-formed;
      each call refines a step of a counter of tokens; a failed call leaves no
      trace.
    - Requests: tokens are minted only against a validated payment that carries
      the request's identifier, a redeem is completed only when its user was
      paid ([Payments]); requests go through the steps of their life only, and
      settled ones do not change ([Reachable]).  The tokens a vault has to redeem
      are those of its open redeem and replace requests ([OpenRequests]).
    - Proofs: an accepted proof has a quorum behind it, two accepted proofs
      share a validator ([StellarRelay]); what the collector builds was heard or
      archived for the slot, and the proof of a slot a quorum externalized is
      accepted; archived slots are proven within three attempts
      ([ProofBuilding]).
    - Accounting: totals of stakes are sums of stakes, slashes are proportional,
      rewards that can be claimed are covered ([Staking], [PooledRewards]); the
      reward pallet with one wrapped currency implements a pool ([RewardPool]);
      price conversions back and forth gain nothing ([Oracle]).
    - Conversions: assets and amounts survive the way to Stellar and back;
      runtime and client read the same amount out of a payment ([Primitives],
      [Currency]).
    - The vault: open requests are executed or paid once, a redeem paid in time
      cannot be cancelled, a resubmitted envelope makes the payment that failed
      and no other, one task per ledger executes issues, payments of issues are
      collected ([VaultRequests], [Wallet], [VaultIssues]).  What the vault pays
      for a redeem is what the runtime recorded, and passes its checks
      ([RedeemFlow]); a request reported as settled was paid once and is completed
      on the chain ([RequestExecution]); the files of the cache implement the map
      of envelopes, and what is left in it is submitted again ([WalletCache]);
      overdue issues are cancelled and no others ([VaultCancellation]); a call whose fate the client learns is applied once
      ([ParachainClient]); a replace is accepted by one vault and given to payment
      once ([VaultService]).
    - The runner starts only binaries of releases announced on the chain, and one
      at a time ([Runner]).
    - The overlay: a frame that is sent is read back, in pieces as well; an honest
      session delivers its messages in order; what is delivered was authenticated
      under the session's key with the number that was due; the capacity given
      back is the number of messages received ([OverlayFrames],
      [OverlaySession]).
    - Defects: the theorems about panics, lost, repeated or refused payments,
      forgotten requests, issues stranded by the recovery of their vault
      ([RecoveredVaults]) and archives that are never asked describe the code as
      it is.

    ** Parameters

    Code outside the repository is a class, with what is relied on as laws and
    an instance for evaluation: fixed-point numbers ([FixedPoint],
    [FixedPointLaws], [FixedFloor]), the ledger of balances ([Currencies],
    [CurrenciesLaws], [SimpleCurrencies]), the Stellar SDK ([StellarSdk]), the
    configuration of the runtime ([Runtime], [RuntimeLaws], [SampleRuntime]),
    Horizon and signing ([HorizonClient], [Network], [NetworkLaws]), downloads
    and decoders of archives ([ArchiveWorld]), the codec of overlay messages and
    its cryptography ([OverlayCodec], [OverlayCrypto]), the codec of envelopes
    ([EnvelopeXdr]), the transaction pool ([TransactionPool]); the runner's digest and
    the name in a URI are arguments.  Between components, [Canceller] is what the
    cancellation scheduler asks of the chain; the issue and replace pallets are
    its instances.  Origins of calls, prices, clock and block numbers are
    arguments or part of the storage; what a connection does to each call, which
    processes end and what the network answers are explicit sequences over which
    the theorems quantify.

    ** Fuel

    Loops over pages of Horizon take fuel, one unit per transaction visited.
    [submission_check_answers], [open_requests_settled_once] and
    [issue_payments_collected] show that more fuel than there are transactions
    listed gives a result, so fuel is no restriction where the listing is
    finite.  The retry loop of a submission has no bound in the code: its model
    returns [None] while it is still retrying.  [get_proof] makes one attempt
    per element of the list of what is heard during the pauses.  The reader of
    overlay frames takes as much fuel as the stream has bytes and segments, one
    of which goes in every round.  The retries of the parachain client recurse on
    the number of pauses its back-off allows, those of the runner on the seconds
    of its time limit.  The handling of errors in [WalletCache] has no bound in
    the code and says whether errors are left.  All other recursion is
    structural.

    ** Not modelled

    Events, weights, benchmarks, mocks, genesis, and migrations.  Of the clients: sockets,
    HTTP, JSON, the formats of archives, locks and timers, how events are subscribed to,
    the command line, logging, metrics, the faucet and the price feeder; the
    queries of [clients/runtime] that read one entry of the storage; the
    configuration and the channels of [clients/stellar-relay-lib]; the test
    chain's node and remote procedure calls. *)

From Stdlib Require Export ZArith Lia Sorted.
From stdpp Require Export base gmap sets list strings countable.

#[global] Open Scope Z_scope.

(** ** Errors

    One [Error] enumeration per pallet, with the constructors of the source's
    [#[pallet::error]] declaration, and their sum [DispatchError].  Each
    pallet's errors coerce into the sum, as [Error::<T>::X.into()] does. *)

Inductive ArithmeticError := Underflow | Overflow | DivisionByZero.

Module currency.
Inductive Error :=
  AssetConversionError | BalanceConversionError | CompatibleRoundingFailed
| IncompatibleAmount | InvalidCurrency | TryIntoIntError.
End currency.

Module security.
Inductive Error := ParachainNotRunning.
End security.

Module oracle.
Inductive Error := InvalidOracleSource | MissingExchangeRate | TryIntoIntError.
End oracle.

Module staking.
Inductive Error :=
  TryIntoIntError | InsufficientFunds | SlashZeroTotalStake | MaxRewardCurrencies.
End staking.

Module pooled_rewards.
Inductive Error :=
  TryIntoIntError | InsufficientFunds | ZeroTotalStake | MaxRewardCurrencies.
End pooled_rewards.

Module reward.
Inductive Error := TryIntoIntError | InsufficientFunds | ZeroTotalStake.
End reward.

Module reward_distribution.
Inductive Error :=
  Overflow | Underflow | NoRewardsForAccount | NotEnoughRewardsRegistered
| InconsistentRewardCurrencies | CollectAmountTooSmall.
End reward_distribution.

Module vault_registry.
Inductive Error :=
  InsufficientCollateral | ExceedingVaultLimit | InsufficientTokensCommitted
| VaultBanned | InsufficientVaultCollateralAmount | VaultAlreadyRegistered
| VaultNotFound | VaultNotBelowLiquidationThreshold | InvalidPublicKey
| MaxNominationRatioViolation | CurrencyCeilingExceeded | VaultLiquidated
| VaultNotRecoverable | NoStellarPublicKey | PublicKeyAlreadyRegistered
| NoTokensIssued | NoVaultWithSufficientCollateral | NoVaultWithSufficientTokens
| NoVaultUnderThePremiumRedeemThreshold | InvalidCurrency | GlobalThresholdNotSet
| LiquidationCollateralThresholdNotSet | PremiumRedeemThresholdNotSet
| SecureCollateralThresholdNotSet | CeilingNotSet | ThresholdNotAboveGlobalThreshold
| TryIntoIntError | VaultNotAcceptingIssueRequests | MinimumCollateralNotSet.
End vault_registry.

Module fee.
Inductive Error := TryIntoIntError | AboveMaxExpectedValue | Overflow.
End fee.

Module stellar_relay.
Inductive Error :=
  Base64DecodeError | BoundedVecCreationFailed | DuplicateOrganizationId
| DuplicateValidatorPublicKey | EmptyEnvelopeSet | EnvelopeSlotIndexMismatch
| ExternalizedNHMismatch | ExternalizedValueMismatch
| FailedToComputeNonGenericTxSetContentHash | InvalidEnvelopeSignature
| InvalidQuorumSetNotEnoughOrganizations | InvalidQuorumSetNotEnoughValidators
| InvalidScpPledge | InvalidTransactionSetPrefix | InvalidXDR
| MissingExternalizedMessage | NoOrganizationsRegistered | NoValidatorsRegistered
| OrganizationLimitExceeded | SlotIndexIsNone | TransactionMemoDoesNotMatch
| TransactionNotInTransactionSet | TransactionSetHashCreationFailed
| TransactionSetHashMismatch | ValidatorLimitExceeded.
End stellar_relay.

Module issue.
Inductive Error :=
  IssueIdNotFound | TimeNotExpired | IssueCompleted | IssueCancelled
| VaultNotAcceptingNewIssues | InvalidExecutor | AmountBelowMinimumTransferAmount
| ExceedLimitVolumeForIssueRequest.
End issue.

Module redeem.
Inductive Error :=
  AmountExceedsUserBalance | UnauthorizedRedeemer | UnauthorizedVault | TimeNotExpired
| RedeemCancelled | RedeemCompleted | RedeemIdNotFound | TryIntoIntError
| AmountBelowMinimumTransferAmount | ExceedLimitVolumeForRedeemRequest
| InvalidPaymentAmount.
End redeem.

Module replace.
Inductive Error :=
  ReplaceAmountZero | AmountBelowDustAmount | NoPendingRequest | UnauthorizedVault
| ReplaceSelfNotAllowed | VaultHasEnabledNomination | ReplacePeriodNotExpired
| ReplaceCompleted | ReplaceCancelled | ReplaceIdNotFound | InvalidWrappedCurrency
| InvalidPaymentAmount.
End replace.

Module nomination.
Inductive Error :=
  VaultAlreadyOptedInToNomination | VaultNotOptedInToNomination | VaultNotFound
| CannotWithdrawCollateral | VaultNominationDisabled
| DepositViolatesMaxNominationRatio | CollateralizationTooLow.
End nomination.

Module clients_info.
Inductive Error := ThisAccountIdIsNotAuthorized | UserUnableToDeauthorizeThemself.
End clients_info.

Inductive DispatchError :=
| BadOrigin
| Arithmetic (e : ArithmeticError)
| OrmlBalanceTooLow
| External (code : N)
| Other (message : string)
| Currency (e : currency.Error)
| Security (e : security.Error)
| Oracle (e : oracle.Error)
| Staking (e : staking.Error)
| PooledRewards (e : pooled_rewards.Error)
| Reward (e : reward.Error)
| RewardDistribution (e : reward_distribution.Error)
| VaultRegistry (e : vault_registry.Error)
| Fee (e : fee.Error)
| StellarRelay (e : stellar_relay.Error)
| Issue (e : issue.Error)
| Redeem (e : redeem.Error)
| Replace (e : replace.Error)
| Nomination (e : nomination.Error)
| ClientsInfo (e : clients_info.Error).

Coercion Arithmetic : ArithmeticError >-> DispatchError.
Coercion Currency : currency.Error >-> DispatchError.
Coercion Security : security.Error >-> DispatchError.
Coercion Oracle : oracle.Error >-> DispatchError.
Coercion Staking : staking.Error >-> DispatchError.
Coercion PooledRewards : pooled_rewards.Error >-> DispatchError.
Coercion Reward : reward.Error >-> DispatchError.
Coercion RewardDistribution : reward_distribution.Error >-> DispatchError.
Coercion VaultRegistry : vault_registry.Error >-> DispatchError.
Coercion Fee : fee.Error >-> DispatchError.
Coercion StellarRelay : stellar_relay.Error >-> DispatchError.
Coercion Issue : issue.Error >-> DispatchError.
Coercion Redeem : redeem.Error >-> DispatchError.
Coercion Replace : replace.Error >-> DispatchError.
Coercion Nomination : nomination.Error >-> DispatchError.
Coercion ClientsInfo : clients_info.Error >-> DispatchError.

(** ** Computations

    [outcome] is the result of a piece of runtime code: a value, an error that
    is propagated by [?], or a panic.  [M S A] threads a storage of type [S].
    A failing computation keeps the writes it made, as storage does in a
    Substrate call; [transactional] is the roll-back of the storage layer that
    wraps every extrinsic. *)

Inductive outcome (A : Type) : Type :=
| Ok (a : A)
| Err (e : DispatchError)
| Panic.
Arguments Ok {A} a.
Arguments Err {A} e.
Arguments Panic {A}.

Definition M (S A : Type) : Type := S -> outcome A * S.

Definition obind {A B} (o : outcome A) (k : A -> outcome B) : outcome B :=
  match o with Ok a => k a | Err e => Err e | Panic => Panic end.

Definition ok_or {A} (o : option A) (e : DispatchError) : outcome A :=
  match o with Some a => Ok a | None => Err e end.

Definition oensure (b : bool) (e : DispatchError) : outcome unit :=
  if b then Ok tt else Err e.

Definition is_ok {A} (o : outcome A) : bool :=
  match o with Ok _ => true | _ => false end.

Section monad.
Context {S : Type}.

Definition ret {A} (a : A) : M S A := fun s => (Ok a, s).
Definition throw {A} (e : DispatchError) : M S A := fun s => (Err e, s).
Definition lift {A} (o : outcome A) : M S A := fun s => (o, s).
Definition gets {A} (f : S -> A) : M S A := fun s => (Ok (f s), s).
Definition modify (f : S -> S) : M S unit := fun s => (Ok tt, f s).
Definition ensure (b : bool) (e : DispatchError) : M S unit := lift (oensure b e).

Definition bind {A B} (m : M S A) (k : A -> M S B) : M S B := fun s =>
  match m s with
  | (Ok a, s') => k a s'
  | (Err e, s') => (Err e, s')
  | (Panic, s') => (Panic, s')
  end.

(** The result of [m] as a value: the code inspects or discards a [Result].
    The writes of a failed [m] stay. *)
Definition attempt {A} (m : M S A) : M S (outcome A) := fun s =>
  match m s with
  | (Panic, s') => (Panic, s')
  | (o, s') => (Ok o, s')
  end.

(** [m.map_err(|_| e)] *)
Definition map_err {A} (m : M S A) (e : DispatchError) : M S A := fun s =>
  match m s with
  | (Err _, s') => (Err e, s')
  | r => r
  end.

(** Storage layer: nothing of a failed call stays. *)
Definition transactional {A} (m : M S A) : M S A := fun s =>
  match m s with
  | (Ok a, s') => (Ok a, s')
  | (o, _) => (o, s)
  end.

(** [for x in l { f(x)?; }] *)
Fixpoint for_each {A} (l : list A) (f : A -> M S unit) : M S unit :=
  match l with
  | [] => ret tt
  | x :: l' => bind (f x) (fun _ => for_each l' f)
  end.

(** A fold with early exit on an error. *)
Fixpoint fold_m {A B} (f : B -> A -> M S B) (l : list A) (b : B) : M S B :=
  match l with
  | [] => ret b
  | x :: l' => bind (f b x) (fun b' => fold_m f l' b')
  end.

(** A computation on a component [T] of the storage [S]. *)
Definition zoom {T A} (get : S -> T) (put : T -> S -> S) (m : M T A) : M S A := fun s =>
  match m (get s) with (o, t) => (o, put t s) end.

End monad.

#[global] Arguments M : simpl never.
#[global] Arguments ret {S A} a : simpl never.
#[global] Arguments throw {S A} e : simpl never.
#[global] Arguments lift {S A} o : simpl never.
#[global] Arguments gets {S A} f : simpl never.
#[global] Arguments modify {S} f : simpl never.
#[global] Arguments ensure {S} b e : simpl never.
#[global] Arguments bind {S A B} m k : simpl never.
#[global] Arguments attempt {S A} m : simpl never.
#[global] Arguments map_err {S A} m e : simpl never.
#[global] Arguments transactional {S A} m : simpl never.
#[global] Arguments zoom {S T A} get put m : simpl never.

Declare Scope spacewalk_scope.
Delimit Scope spacewalk_scope with sw.
#[global] Open Scope spacewalk_scope.

Notation "'let*' x ':=' m 'in' k" := (bind m (fun x => k))
  (at level 10, x pattern, m at level 100, k at level 200)
  : spacewalk_scope.
Notation "m ';;;' k" := (bind m (fun _ => k))
  (at level 100, k at level 200, right associativity) : spacewalk_scope.
Notation "'let?' x ':=' o 'in' k" := (obind o (fun x => k))
  (at level 10, x pattern, o at level 100, k at level 200)
  : spacewalk_scope.

(** ** Inversion of successful computations *)

Section inversion.
Context {S : Type}.

Lemma bind_ok {A B} (m : M S A) (k : A -> M S B) s b s' :
  bind m k s = (Ok b, s') -> exists a s1, m s = (Ok a, s1) /\ k a s1 = (Ok b, s').
Proof. unfold bind. destruct (m s) as [[a| |] s1]; [eauto | congruence..]. Qed.

(** The other direction: running a computation whose first part is known. *)
Lemma bind_run {A B} (m : M S A) (k : A -> M S B) s a s1 :
  m s = (Ok a, s1) -> bind m k s = k a s1.
Proof. unfold bind. by intros ->. Qed.

Lemma gets_run {A B} (f : S -> A) (k : A -> M S B) s : bind (gets f) k s = k (f s) s.
Proof. reflexivity. Qed.

Lemma lift_run {A B} (o : outcome A) (k : A -> M S B) s a :
  o = Ok a -> bind (lift o) k s = k a s.
Proof. by intros ->. Qed.

Lemma bind_assoc {A B C} (m : M S A) (k : A -> M S B) (h : B -> M S C) s :
  bind (bind m k) h s = bind m (fun a => bind (k a) h) s.
Proof. unfold bind. by destruct (m s) as [[a| |] s1]. Qed.

Lemma ret_ok {A} (a b : A) (s s' : S) : ret a s = (Ok b, s') -> b = a /\ s' = s.
Proof. unfold ret. intros [= -> ->]. auto. Qed.

Lemma throw_ok {A} e (b : A) (s s' : S) : throw e s = (Ok b, s') -> False.
Proof. unfold throw. congruence. Qed.

Lemma lift_ok {A} (o : outcome A) b (s s' : S) : lift o s = (Ok b, s') -> o = Ok b /\ s' = s.
Proof. unfold lift. intros [= -> ->]. auto. Qed.

Lemma gets_ok {A} (f : S -> A) b s s' : gets f s = (Ok b, s') -> b = f s /\ s' = s.
Proof. unfold gets. intros [= -> ->]. auto. Qed.

Lemma modify_ok (f : S -> S) b s s' : modify f s = (Ok b, s') -> s' = f s.
Proof. unfold modify. intros [= _ ->]. auto. Qed.

Lemma ensure_ok b e u (s s' : S) : ensure b e s = (Ok u, s') -> b = true /\ s' = s.
Proof. unfold ensure, lift, oensure. destruct b; intros [=]; auto. Qed.

Lemma attempt_ok {A} (m : M S A) o s s' :
  attempt m s = (Ok o, s') -> m s = (o, s') /\ o <> Panic.
Proof.
  unfold attempt. destruct (m s) as [[a|e|] s1]; intros [= <- <-]; auto.
Qed.

Lemma map_err_ok {A} (m : M S A) e a s s' : map_err m e s = (Ok a, s') -> m s = (Ok a, s').
Proof. unfold map_err. destruct (m s) as [[?|?|] ?]; congruence. Qed.

Lemma transactional_ok {A} (m : M S A) a s s' :
  transactional m s = (Ok a, s') -> m s = (Ok a, s').
Proof. unfold transactional. destruct (m s) as [[?|?|] ?]; congruence. Qed.

(** A failed extrinsic leaves the storage as it was. *)
Lemma transactional_err {A} (m : M S A) o s s' :
  transactional m s = (o, s') -> is_ok o = false -> s' = s.
Proof. unfold transactional. destruct (m s) as [[?|?|] ?]; intros [= <- <-]; simpl; congruence. Qed.

Lemma zoom_ok {T A} (get : S -> T) put (m : M T A) a s s' :
  zoom get put m s = (Ok a, s') -> exists t, m (get s) = (Ok a, t) /\ s' = put t s.
Proof. unfold zoom. destruct (m (get s)) as [o t]. intros [= -> <-]. eauto. Qed.

End inversion.

Lemma obind_ok {A B} (o : outcome A) (k : A -> outcome B) b :
  obind o k = Ok b -> exists a, o = Ok a /\ k a = Ok b.
Proof. destruct o; simpl; [eauto | congruence..]. Qed.

Lemma ok_or_ok {A} (o : option A) e a : ok_or o e = Ok a -> o = Some a.
Proof. destruct o; simpl; congruence. Qed.

Lemma oensure_ok b e u : oensure b e = Ok u -> b = true.
Proof. destruct b; simpl; congruence. Qed.

(** [inv_ok] takes apart every hypothesis that says a computation succeeded. *)
Ltac inv_ok_step :=
  match goal with
  | H : bind _ _ _ = (Ok _, _) |- _ =>
      let a := fresh "a" in let s := fresh "s" in let E := fresh "E" in
      apply bind_ok in H; destruct H as (a & s & E & H); cbv beta in H
  | H : ret _ _ = (Ok _, _) |- _ =>
      apply ret_ok in H; destruct H; subst
  | H : throw _ _ = (Ok _, _) |- _ => apply throw_ok in H; destruct H
  | H : lift _ _ = (Ok _, _) |- _ => apply lift_ok in H; destruct H as [H ?]; subst
  | H : gets _ _ = (Ok _, _) |- _ => apply gets_ok in H; destruct H; subst
  | H : modify _ _ = (Ok _, _) |- _ => apply modify_ok in H; subst
  | H : ensure _ _ _ = (Ok _, _) |- _ => apply ensure_ok in H; destruct H as [H ?]; subst
  | H : attempt _ _ = (Ok _, _) |- _ => apply attempt_ok in H; destruct H as [H ?]
  | H : map_err _ _ _ = (Ok _, _) |- _ => apply map_err_ok in H
  | H : transactional _ _ = (Ok _, _) |- _ => apply transactional_ok in H
  | H : zoom _ _ _ _ = (Ok _, _) |- _ =>
      let t := fresh "t" in let E := fresh "E" in
      apply zoom_ok in H; destruct H as (t & E & H); subst
  | H : obind _ _ = Ok _ |- _ =>
      let a := fresh "a" in let E := fresh "E" in
      apply obind_ok in H; destruct H as (a & E & H); cbv beta in H
  | H : ok_or _ _ = Ok _ |- _ => apply ok_or_ok in H
  | H : oensure _ _ = Ok _ |- _ => apply oensure_ok in H
  | H : Ok _ = Ok _ |- _ => injection H; clear H; intros; subst
  | H : (Ok _, _) = (Ok _, _) |- _ => injection H; clear H; intros; subst
  | H : Some _ = Some _ |- _ => injection H; clear H; intros; subst
  | H : Err _ = Ok _ |- _ => discriminate H
  | H : Panic = Ok _ |- _ => discriminate H
  | H : None = Some _ |- _ => discriminate H
  | H : (let (_, _) := ?p in _) = Ok _ |- _ => destruct p eqn:?
  | H : (let (_, _) := ?p in _) _ = (Ok _, _) |- _ => destruct p eqn:?
  | u : unit |- _ => destruct u
  end.
Ltac inv_ok := repeat inv_ok_step.

(** [inv_case H] splits on the first conditional or match of a success
    hypothesis and goes on with [inv_ok]. *)
Ltac case_in H :=
  match type of H with
  | context [match ?x with _ => _ end] =>
      lazymatch x with
      | context [match _ with _ => _ end] => fail
      | _ => destruct x eqn:?
      end
  end.
Ltac inv_all := repeat (inv_ok_step || match goal with
  | H : (match _ with _ => _ end) _ = (Ok _, _) |- _ => case_in H
  | H : (match _ with _ => _ end) = (Ok _, _) |- _ => case_in H
  | H : (match _ with _ => _ end) = Ok _ |- _ => case_in H
  end).

(** ** Frames

    [preserves f m]: whatever [m] does, and however it ends, the observation
    [f] of the storage is the same before and after.  The [frame] database
    proves it by following the structure of [m]. *)

Definition preserves {S A B} (f : S -> B) (m : M S A) : Prop :=
  forall s, f (snd (m s)) = f s.

Create HintDb frame.

Section frames.
Context {S B : Type} (f : S -> B).

Lemma preserves_ret {A} (a : A) : preserves f (ret a).
Proof. intros s. reflexivity. Qed.

Lemma preserves_throw {A} e : preserves f (@throw S A e).
Proof. intros s. reflexivity. Qed.

Lemma preserves_lift {A} (o : outcome A) : preserves f (lift o).
Proof. intros s. reflexivity. Qed.

Lemma preserves_gets {A} (g : S -> A) : preserves f (gets g).
Proof. intros s. reflexivity. Qed.

Lemma preserves_ensure b e : preserves f (ensure b e).
Proof. intros s. reflexivity. Qed.

Lemma preserves_modify (g : S -> S) : (forall s, f (g s) = f s) -> preserves f (modify g).
Proof. intros H s. apply H. Qed.

Lemma preserves_bind {A C} (m : M S A) (k : A -> M S C) :
  preserves f m -> (forall a, preserves f (k a)) -> preserves f (bind m k).
Proof.
  intros Hm Hk s. unfold bind. specialize (Hm s).
  destruct (m s) as [[a|e|] s1]; simpl in *; rewrite <- Hm; auto. apply Hk.
Qed.

Lemma preserves_attempt {A} (m : M S A) : preserves f m -> preserves f (attempt m).
Proof.
  intros Hm s. unfold attempt. specialize (Hm s).
  destruct (m s) as [[a|e|] s1]; simpl in *; auto.
Qed.

Lemma preserves_map_err {A} (m : M S A) e : preserves f m -> preserves f (map_err m e).
Proof.
  intros Hm s. unfold map_err. specialize (Hm s).
  destruct (m s) as [[a|?|] s1]; simpl in *; auto.
Qed.

Lemma preserves_transactional {A} (m : M S A) :
  preserves f m -> preserves f (transactional m).
Proof.
  intros Hm s. unfold transactional. specialize (Hm s).
  destruct (m s) as [[a|e|] s1]; simpl in *; auto.
Qed.

Lemma preserves_for_each {A} (l : list A) (g : A -> M S unit) :
  (forall x, preserves f (g x)) -> preserves f (for_each l g).
Proof.
  intros H. induction l as [|x l IH]; simpl; [apply preserves_ret|].
  apply preserves_bind; auto.
Qed.

Lemma preserves_fold_m {A C} (g : C -> A -> M S C) (l : list A) c :
  (forall c x, preserves f (g c x)) -> preserves f (fold_m g l c).
Proof.
  intros H. revert c. induction l as [|x l IH]; intros c; simpl; [apply preserves_ret|].
  apply preserves_bind; auto.
Qed.

Lemma preserves_zoom {T A} (get : S -> T) put (m : M T A) :
  (forall t s, f (put t s) = f s) -> preserves f (zoom get put m).
Proof. intros H s. unfold zoom. destruct (m (get s)). apply H. Qed.

(** A frame carried through a successful step. *)
Lemma preserves_ok {A} (m : M S A) o s s' :
  preserves f m -> m s = (o, s') -> f s' = f s.
Proof. intros H E. specialize (H s). rewrite E in H. exact H. Qed.

End frames.

(** A frame of a component is a frame of the storage that contains it. *)
Lemma preserves_zoom_in {S T B A} (g : T -> B) (get : S -> T) put (m : M T A) :
  (forall t s, get (put t s) = t) -> preserves g m ->
  preserves (fun s => g (get s)) (zoom get put m).
Proof.
  intros Hgp Hm s. unfold zoom. specialize (Hm (get s)).
  destruct (m (get s)) as [o t]. simpl in *. rewrite Hgp. exact Hm.
Qed.

(** A computation that only reads. *)
Lemma reads_run {S A} (m : M S A) s a :
  preserves (fun s => s) m -> fst (m s) = Ok a -> m s = (Ok a, s).
Proof.
  intros Hm Ha. specialize (Hm s). destruct (m s) as [o s1]. simpl in *. by subst.
Qed.

(** A run with a known result. *)
Lemma run_ok {S A} (m : M S A) s a : fst (m s) = Ok a -> m s = (Ok a, snd (m s)).
Proof. destruct (m s). simpl. by intros ->. Qed.

Lemma run_outcome {S A} (m : M S A) s o : fst (m s) = o -> m s = (o, snd (m s)).
Proof. intros <-. by destruct (m s). Qed.

Lemma fst_ok {S A} (m : M S A) s a : fst (m s) = Ok a -> exists s', m s = (Ok a, s').
Proof. destruct (m s) as [o s']. simpl. intros ->. eauto. Qed.

#[export] Hint Resolve preserves_ret preserves_throw preserves_lift preserves_gets
  preserves_ensure preserves_modify preserves_bind preserves_attempt
  preserves_map_err preserves_transactional preserves_for_each preserves_fold_m preserves_zoom : frame.

(** [solve_frame] follows the program text; matches and conditionals are split. *)
Ltac solve_frame_step :=
  match goal with
  | |- forall _, _ => intro
  | |- preserves _ (match ?x with _ => _ end) => destruct x
  | |- preserves _ _ => solve [eauto 2 with frame]
  | |- preserves _ (bind _ _) => apply preserves_bind
  | |- preserves _ (attempt _) => apply preserves_attempt
  | |- preserves _ (map_err _ _) => apply preserves_map_err
  | |- preserves _ (transactional _) => apply preserves_transactional
  | |- preserves _ (for_each _ _) => apply preserves_for_each
  | |- preserves _ (fold_m _ _ _) => apply preserves_fold_m
  | |- preserves _ (modify _) => apply preserves_modify
  | |- preserves _ (zoom _ _ _) => apply preserves_zoom
  | |- _ = _ => reflexivity
  end.
Ltac solve_frame := repeat solve_frame_step.

(** ** Invariants

    [maintains P m]: when [m] succeeds from a state with [P], it ends in one.
    Only successful runs count, because a failed extrinsic is rolled back. *)

Definition maintains {S A} (P : S -> Prop) (m : M S A) : Prop :=
  forall s a s', P s -> m s = (Ok a, s') -> P s'.

Create HintDb maintains.

Section maintains.
Context {S : Type} (P : S -> Prop).

Lemma maintains_ret {A} (a : A) : maintains P (ret a).
Proof. intros s b s' Hs H. by inv_ok. Qed.

Lemma maintains_throw {A} e : maintains P (@throw S A e).
Proof. intros s b s' Hs H. by inv_ok. Qed.

Lemma maintains_lift {A} (o : outcome A) : maintains P (lift o).
Proof. intros s b s' Hs H. by inv_ok. Qed.

Lemma maintains_gets {A} (g : S -> A) : maintains P (gets g).
Proof. intros s b s' Hs H. by inv_ok. Qed.

Lemma maintains_ensure b e : maintains P (ensure b e).
Proof. intros s c s' Hs H. by inv_ok. Qed.

Lemma maintains_modify (g : S -> S) : (forall s, P s -> P (g s)) -> maintains P (modify g).
Proof. intros Hg s b s' Hs H. inv_ok. auto. Qed.

Lemma maintains_bind {A B} (m : M S A) (k : A -> M S B) :
  maintains P m -> (forall a, maintains P (k a)) -> maintains P (bind m k).
Proof. intros Hm Hk s b s' Hs (a & s1 & E1 & E2)%bind_ok. eapply Hk, E2. by eapply Hm. Qed.

Lemma maintains_transactional {A} (m : M S A) : maintains P m -> maintains P (transactional m).
Proof. intros Hm s a s' Hs H%transactional_ok. by eapply Hm. Qed.

Lemma maintains_map_err {A} (m : M S A) e : maintains P m -> maintains P (map_err m e).
Proof. intros Hm s a s' Hs H%map_err_ok. by eapply Hm. Qed.

Lemma maintains_for_each {A} (l : list A) (g : A -> M S unit) :
  (forall x, maintains P (g x)) -> maintains P (for_each l g).
Proof.
  intros H. induction l as [|x l IH]; simpl; [apply maintains_ret|]. by apply maintains_bind.
Qed.

Lemma maintains_fold_m {A C} (g : C -> A -> M S C) (l : list A) c :
  (forall c x, maintains P (g c x)) -> maintains P (fold_m g l c).
Proof.
  intros H. revert c. induction l as [|x l IH]; intros c; simpl; [apply maintains_ret|].
  by apply maintains_bind.
Qed.

Lemma maintains_frame {A B} (f : S -> B) (Q : B -> Prop) (m : M S A) :
  (forall s, P s <-> Q (f s)) -> preserves f m -> maintains P m.
Proof.
  intros HQ Hm s a s' Hs E. apply HQ. rewrite (preserves_ok f m _ _ _ Hm E). by apply HQ.
Qed.

(** A caught failure keeps its writes, so the invariant must survive it too. *)
Lemma maintains_attempt {A} (m : M S A) :
  (forall s, P s -> P (snd (m s))) -> maintains P (attempt m).
Proof. intros Hm s o s' Hs [E _]%attempt_ok. specialize (Hm s Hs). by rewrite E in Hm. Qed.

End maintains.

#[export] Hint Resolve maintains_ret maintains_throw maintains_lift maintains_gets
  maintains_ensure : maintains.

(** [solve_maintains] follows the program text, with the [maintains] database
    for the functions it calls. *)
Ltac solve_maintains_step :=
  match goal with
  | |- forall _, _ => intro
  | |- maintains _ (match ?x with _ => _ end) => destruct x
  | |- maintains _ _ => solve [eauto 2 with maintains]
  | |- maintains _ (bind _ _) => apply maintains_bind
  | |- maintains _ (map_err _ _) => apply maintains_map_err
  | |- maintains _ (transactional _) => apply maintains_transactional
  | |- maintains _ (for_each _ _) => apply maintains_for_each
  | |- maintains _ (fold_m _ _ _) => apply maintains_fold_m
  end.
Ltac solve_maintains := repeat solve_maintains_step.

(** ** Computations that fail without a trace *)

(** [m] has not written anything where it returns an error. *)
Definition reverts {S A} (m : M S A) : Prop := forall s e s', m s = (Err e, s') -> s' = s.

(** [m] returns no error. *)
Definition unfailing {S A} (m : M S A) : Prop := forall s e s', m s <> (Err e, s').

Section reverts.
Context {S : Type}.

Lemma reverts_transactional {A} (m : M S A) : reverts (transactional m).
Proof. intros s e s' H. by eapply transactional_err. Qed.

Lemma reverts_zoom {T A} (get : T -> S) (put : S -> T -> T) (m : M S A) :
  (forall t, put (get t) t = t) -> reverts m -> reverts (zoom get put m).
Proof.
  intros Hput Hm s e s' H. unfold zoom in H. destruct (m (get s)) as [o x] eqn:E.
  injection H as -> <-. apply Hm in E as ->. apply Hput.
Qed.

Lemma reverts_drop {A} (m : M S A) : reverts m -> reverts (m ;;; ret tt).
Proof. intros Hm s e s' H. unfold bind in H. destruct (m s) as [[]] eqn:E; simplify_eq. by eapply Hm. Qed.

Lemma unfailing_reverts {A} (m : M S A) : unfailing m -> reverts m.
Proof. intros Hm s e s' H. by apply Hm in H. Qed.
Lemma unfailing_bind {A B} (m : M S A) (k : A -> M S B) :
  unfailing m -> (forall a, unfailing (k a)) -> unfailing (bind m k).
Proof.
  intros Hm Hk s e s' H. unfold bind in H. destruct (m s) as [[]] eqn:E; simplify_eq.
  - by apply Hk in H.
  - by apply Hm in E.
Qed.
Lemma unfailing_modify f : unfailing (modify f : M S unit).
Proof. by intros s e s'. Qed.
Lemma unfailing_gets {A} (f : S -> A) : unfailing (gets f).
Proof. by intros s e s'. Qed.
Lemma unfailing_ret {A} (a : A) : unfailing (ret a : M S A).
Proof. by intros s e s'. Qed.
Lemma unfailing_attempt {A} (m : M S A) : unfailing (attempt m).
Proof. intros s e s' H. unfold attempt in H. destruct (m s) as [[]]; simplify_eq. Qed.
Lemma unfailing_zoom {T A} (get : T -> S) (put : S -> T -> T) (m : M S A) :
  unfailing m -> unfailing (zoom get put m).
Proof.
  intros Hm s e s' H. unfold zoom in H. destruct (m (get s)) as [o x] eqn:E.
  injection H as -> <-. by apply Hm in E.
Qed.

End reverts.

Ltac unfailing_step :=
  first [apply unfailing_bind; [|intros ?] | apply unfailing_modify | apply unfailing_gets
    | apply unfailing_ret | apply unfailing_attempt | apply unfailing_zoom | case_match].
Ltac unfailing := repeat unfailing_step.

(** ** Machine integers *)

Definition u8_max : Z := 255.
Definition u32_max : Z := 2 ^ 32 - 1.
Definition u64_max : Z := 2 ^ 64 - 1.
Definition i64_max : Z := 2 ^ 63 - 1.
Definition i64_min : Z := - 2 ^ 63.
Definition i128_max : Z := 2 ^ 127 - 1.
Definition i128_min : Z := - 2 ^ 127.
Definition u128_max : Z := 2 ^ 128 - 1.
Definition u256_max : Z := 2 ^ 256 - 1.

Definition in_u128 (x : Z) : Prop := 0 <= x <= u128_max.
Definition in_i128 (x : Z) : Prop := i128_min <= x <= i128_max.
Definition in_u32 (x : Z) : Prop := 0 <= x <= u32_max.
Definition in_i64 (x : Z) : Prop := i64_min <= x <= i64_max.

Definition fits (lo hi x : Z) : option Z :=
  if (lo <=? x) && (x <=? hi) then Some x else None.

Definition u128_checked_add (x y : Z) : option Z := fits 0 u128_max (x + y).
Definition u128_checked_sub (x y : Z) : option Z := fits 0 u128_max (x - y).
Definition u128_checked_mul (x y : Z) : option Z := fits 0 u128_max (x * y).
Definition u128_checked_div (x y : Z) : option Z := if y =? 0 then None else Some (x / y).
Definition u128_saturating_add (x y : Z) : Z := Z.min (x + y) u128_max.
Definition u128_saturating_mul (x y : Z) : Z := Z.min (x * y) u128_max.
Definition u128_saturating_sub (x y : Z) : Z := Z.max (x - y) 0.
Definition u128_wrapping_add (x y : Z) : Z := (x + y) mod 2 ^ 128.
Definition u32_checked_add (x y : Z) : option Z := fits 0 u32_max (x + y).
Definition u32_saturating_add (x y : Z) : Z := Z.min (x + y) u32_max.
Definition u32_wrapping_add (x y : Z) : Z := (x + y) mod 2 ^ 32.
Definition i64_saturating_add (x y : Z) : Z := Z.max i64_min (Z.min (x + y) i64_max).
Definition u128_to_i128 (x : Z) : option Z := fits i128_min i128_max x.
Definition i128_to_u128 (x : Z) : option Z := fits 0 u128_max x.

Lemma fits_Some lo hi x y : fits lo hi x = Some y <-> y = x /\ lo <= x <= hi.
Proof.
  unfold fits. destruct (lo <=? x) eqn:E1, (x <=? hi) eqn:E2; simpl;
    (split; [intros [=]; subst; lia | intros [-> ?]; first [done | lia]]).
Qed.

Lemma fits_in lo hi x : lo <= x <= hi -> fits lo hi x = Some x.
Proof. intros. apply fits_Some. auto. Qed.

Lemma fits_None lo hi x : fits lo hi x = None <-> x < lo \/ hi < x.
Proof.
  unfold fits. destruct (lo <=? x) eqn:E1, (x <=? hi) eqn:E2; simpl; split;
    intros H; try discriminate; try lia; auto.
Qed.

(** ** Storage maps

    [storage map k] is a [StorageMap] read with [ValueQuery]: the default where
    there is no entry. *)

Notation "m '!!!!' k 'or' d" := (default d (m !! k)) (at level 20, k at next level, d at next level).

(** Sum of [f] over the entries of a map. *)
Definition map_sum `{Countable K} {A} (f : K -> A -> Z) (m : gmap K A) : Z :=
  map_fold (fun k x acc => f k x + acc) 0 m.

Section map_sum.
Context `{Countable K} {A : Type} (f : K -> A -> Z).
Implicit Types m : gmap K A.

Lemma map_sum_empty : map_sum f (∅ : gmap K A) = 0.
Proof. apply map_fold_empty. Qed.

Lemma map_sum_insert_None m k x :
  m !! k = None -> map_sum f (<[k := x]> m) = f k x + map_sum f m.
Proof. intros Hk. unfold map_sum. rewrite map_fold_insert_L; auto. intros; lia. Qed.

Lemma map_sum_delete m k x :
  m !! k = Some x -> map_sum f (delete k m) = map_sum f m - f k x.
Proof.
  intros Hk. rewrite <- (insert_delete_id m k x Hk) at 2.
  rewrite map_sum_insert_None; [lia | apply lookup_delete_eq].
Qed.

(** The contribution of key [k]. *)
Definition entry m k : Z := match m !! k with Some x => f k x | None => 0 end.

Lemma map_sum_insert m k x : map_sum f (<[k := x]> m) = map_sum f m - entry m k + f k x.
Proof.
  unfold entry. destruct (m !! k) as [y|] eqn:Hk.
  - rewrite <- insert_delete_eq, map_sum_insert_None by apply lookup_delete_eq.
    rewrite (map_sum_delete _ _ _ Hk). lia.
  - rewrite map_sum_insert_None by done. lia.
Qed.

Lemma map_sum_ext (g : K -> A -> Z) m :
  (forall k x, m !! k = Some x -> f k x = g k x) -> map_sum f m = map_sum g m.
Proof.
  unfold map_sum. induction m as [|k x m Hk IH] using map_ind; intros Hfg.
  - by rewrite !map_fold_empty.
  - rewrite !map_fold_insert_L by (auto; intros; lia).
    rewrite IH, (Hfg k x); [done | apply lookup_insert_eq |].
    intros k' y Hy. apply Hfg. rewrite lookup_insert_ne; [done | congruence].
Qed.

Lemma map_sum_nonneg m :
  (forall k x, m !! k = Some x -> 0 <= f k x) -> 0 <= map_sum f m.
Proof.
  unfold map_sum. induction m as [|k x m Hk IH] using map_ind; intros Hf.
  - by rewrite map_fold_empty.
  - rewrite map_fold_insert_L by (auto; intros; lia).
    assert (0 <= f k x) by (apply Hf, lookup_insert_eq).
    enough (0 <= map_fold (fun k x acc => f k x + acc) 0 m) by lia.
    apply IH. intros k' y Hy. apply Hf. rewrite lookup_insert_ne; [done | congruence].
Qed.

(** One entry is at most the whole sum when the entries are nonnegative. *)
Lemma map_sum_ge_entry m k :
  (forall k x, m !! k = Some x -> 0 <= f k x) -> entry m k <= map_sum f m.
Proof.
  intros Hf. unfold entry. destruct (m !! k) as [x|] eqn:Hk; [|by apply map_sum_nonneg].
  enough (0 <= map_sum f (delete k m)) by (rewrite (map_sum_delete _ _ _ Hk) in *; lia).
  apply map_sum_nonneg. intros k' y [_ Hy]%lookup_delete_Some. eauto.
Qed.

End map_sum.

Section map_sum_more.
Context `{Countable K} {A : Type}.
Implicit Types (m : gmap K A) (f g : K -> A -> Z).

Lemma map_sum_update f g m k x :
  (forall k' y, k' <> k -> m !! k' = Some y -> g k' y = f k' y) ->
  map_sum g (<[k := x]> m) = map_sum f m - entry f m k + g k x.
Proof.
  intros Hg. rewrite map_sum_insert.
  assert (map_sum g m - entry g m k = map_sum f m - entry f m k); [|lia].
  unfold entry. destruct (m !! k) as [y|] eqn:Hk.
  - rewrite <- !(map_sum_delete _ _ _ _ Hk). apply map_sum_ext.
    intros k' z [Hne Hz]%lookup_delete_Some. apply Hg; congruence.
  - assert (map_sum g m = map_sum f m) as ->; [|done]. apply map_sum_ext.
    intros k' z Hz. apply Hg; congruence.
Qed.

Lemma map_sum_add f g m : map_sum (fun k x => f k x + g k x) m = map_sum f m + map_sum g m.
Proof.
  unfold map_sum. induction m as [|k x m Hk IH] using map_ind; [by rewrite !map_fold_empty|].
  rewrite !map_fold_insert_L by (done || (intros; lia)). lia.
Qed.

Lemma map_sum_scale f d m : map_sum (fun k x => d * f k x) m = d * map_sum f m.
Proof.
  unfold map_sum. induction m as [|k x m Hk IH] using map_ind; [rewrite !map_fold_empty; lia|].
  rewrite !map_fold_insert_L by (done || (intros; lia)). lia.
Qed.

Lemma map_sum_mono f g m :
  (forall k x, m !! k = Some x -> f k x <= g k x) -> map_sum f m <= map_sum g m.
Proof.
  intros Hfg. enough (0 <= map_sum (fun k x => g k x + -1 * f k x) m) as Hd.
  { rewrite map_sum_add, map_sum_scale in Hd. lia. }
  apply map_sum_nonneg. intros k x Hk. specialize (Hfg k x Hk). lia.
Qed.

(** Distinct keys contribute at most the whole sum. *)
Lemma map_sum_ge_list f m (l : list K) :
  (forall k x, m !! k = Some x -> 0 <= f k x) -> NoDup l ->
  foldr (fun k acc => entry f m k + acc) 0 l <= map_sum f m.
Proof.
  intros Hf Hl. revert m Hf. induction Hl as [|k l Hk Hl IH]; intros m Hf; simpl.
  - by apply map_sum_nonneg.
  - specialize (IH (delete k m)).
    assert (E : foldr (fun k' acc => entry f (delete k m) k' + acc) 0 l =
                foldr (fun k acc => entry f m k + acc) 0 l).
    { clear - Hk. induction l as [|k' l IHl]; simpl; [done|].
      apply not_elem_of_cons in Hk as [Hne Hk]. rewrite IHl by done.
      f_equal. unfold entry.
      rewrite lookup_delete_ne by done. done. }
    assert (map_sum f (delete k m) = map_sum f m - entry f m k).
    { unfold entry. destruct (m !! k) as [x|] eqn:Hkm; [by apply map_sum_delete|].
      rewrite delete_id by done. lia. }
    rewrite E in IH. enough (foldr (fun k acc => entry f m k + acc) 0 l <= map_sum f (delete k m))
      by lia.
    apply IH. intros k' y [_ Hy]%lookup_delete_Some. eauto.
Qed.

End map_sum_more.

(** ** Bytes and identifiers

    Bytes are integers in [0, 255].  An [AccountId] is only compared, so it is
    an abstract number; an [H256] is its 32 bytes, because request identifiers
    are hashed and encoded. *)

Abbreviation Bytes := (list Z) (only parsing).
Abbreviation AccountId := N (only parsing).
Abbreviation H256 := Bytes (only parsing).
Abbreviation Balance := Z (only parsing).
Abbreviation BlockNumber := Z (only parsing).

(** SCALE encoding of a fixed-width unsigned integer: [n] little-endian bytes. *)
Fixpoint le_bytes (n : nat) (x : Z) : Bytes :=
  match n with
  | O => []
  | S n' => x mod 256 :: le_bytes n' (x / 256)
  end.

Lemma length_le_bytes n x : length (le_bytes n x) = n.
Proof. revert x. induction n; intros; simpl; auto. Qed.

Lemma le_bytes_inj n x y :
  0 <= x < 256 ^ Z.of_nat n -> 0 <= y < 256 ^ Z.of_nat n ->
  le_bytes n x = le_bytes n y -> x = y.
Proof.
  revert x y. induction n as [|n IH]; intros x y Hx Hy E.
  - simpl in *. lia.
  - rewrite Nat2Z.inj_succ, Z.pow_succ_r in Hx, Hy by lia.
    simpl in E. injection E as E1 E2. apply IH in E2.
    + rewrite (Z.div_mod x 256), (Z.div_mod y 256) by lia. lia.
    + split; [apply Z.div_pos | apply Z.div_lt_upper_bound]; lia.
    + split; [apply Z.div_pos | apply Z.div_lt_upper_bound]; lia.
Qed.

(** ** Storage items

    A [StorageMap] (or [StorageDoubleMap], with a pair as key) of a pallet whose
    storage is [S], as the map it holds and the way to replace it.  Integer
    valued items are read with [ValueQuery]: zero where there is no entry. *)

Record Storage (S K V : Type) `{Countable K} := mkStorage {
  sread : S -> gmap K V;
  swrite : gmap K V -> S -> S;
}.
Arguments mkStorage {S K V _ _} sread swrite.
Arguments sread {S K V _ _} s : rename.
Arguments swrite {S K V _ _} s : rename.

Section storage.
Context {S K : Type} `{Countable K} (st : Storage S K Z).

Definition sget (k : K) (s : S) : Z := default 0 (sread st s !! k).

Definition sinsert (k : K) (v : Z) : M S unit :=
  modify (fun s => swrite st (<[k := v]> (sread st s)) s).

(** [mutate] with a fallible closure: nothing is written where it fails. *)
Definition smutate (k : K) (f : Z -> outcome Z) : M S Z :=
  let* old := gets (sget k) in
  let* new := lift (f old) in
  sinsert k new ;;; ret new.

End storage.

#[global] Arguments sget {S K _ _} st k s : simpl never.

Lemma sinsert_ok {S K} `{Countable K} (st : Storage S K Z) k v s u s' :
  sinsert st k v s = (Ok u, s') -> s' = swrite st (<[k := v]> (sread st s)) s.
Proof. unfold sinsert. intros. by inv_ok. Qed.

Lemma smutate_ok {S K} `{Countable K} (st : Storage S K Z) k f s v s' :
  smutate st k f s = (Ok v, s') ->
  f (sget st k s) = Ok v /\ s' = swrite st (<[k := v]> (sread st s)) s.
Proof. unfold smutate. intros. inv_ok. apply sinsert_ok in E1. by subst. Qed.

Lemma smutate_run {S K B} `{Countable K} (st : Storage S K Z) k f (c : Z -> M S B) s v :
  f (sget st k s) = Ok v ->
  bind (smutate st k f) c s = c v (swrite st (<[k := v]> (sread st s)) s).
Proof. intros Hf. unfold smutate, bind, gets, lift. by rewrite Hf. Qed.

Lemma sinsert_run {S K B} `{Countable K} (st : Storage S K Z) k v (c : unit -> M S B) s :
  bind (sinsert st k v) c s = c tt (swrite st (<[k := v]> (sread st s)) s).
Proof. reflexivity. Qed.

Lemma preserves_sinsert {S K B} `{Countable K} (g : S -> B) (st : Storage S K Z) k v :
  (forall m s, g (swrite st m s) = g s) -> preserves g (sinsert st k v).
Proof. intros Hg. unfold sinsert. apply preserves_modify. auto. Qed.

Lemma preserves_smutate {S K B} `{Countable K} (g : S -> B) (st : Storage S K Z) k f :
  (forall m s, g (swrite st m s) = g s) -> preserves g (smutate st k f).
Proof.
  intros Hg. unfold smutate. pose proof (preserves_sinsert g st k) as Hi. solve_frame.
Qed.

#[export] Hint Resolve preserves_sinsert preserves_smutate : frame.

(** A storage item that holds what was written. *)
Record lawful {S K} `{Countable K} (st : Storage S K Z) : Prop := {
  sread_swrite m s : sread st (swrite st m s) = m;
  swrite_swrite m m' s : swrite st m' (swrite st m s) = swrite st m' s;
  swrite_sread s : swrite st (sread st s) s = s;
}.

Lemma sget_lawful {S K} `{Countable K} (st : Storage S K Z) k k' v s :
  lawful st ->
  sget st k' (swrite st (<[k := v]> (sread st s)) s) = if decide (k = k') then v else sget st k' s.
Proof.
  intros Hst. unfold sget. rewrite (sread_swrite _ Hst). destruct (decide _) as [<-|Hne].
  - by rewrite lookup_insert_eq.
  - by rewrite lookup_insert_ne.
Qed.

(** A loop that updates the entry [key c] for every [c] of a list, from its value
    and an observation [r c] that the updates leave alone. *)
Section mutate_loop.
Context {S K A : Type} `{Countable K} (st : Storage S K Z) (Hst : lawful st).
Context (key : A -> K) `{!Inj (=) (=) key} (r : A -> S -> Z).
Context (Hr : forall c m s, r c (swrite st m s) = r c s) (g : Z -> Z -> outcome Z).

Definition mutate_each (l : list A) : M S unit :=
  for_each l (fun c => let* x := gets (r c) in smutate st (key c) (g x) ;;; ret tt).

(** What the loop writes, for the new value [z c] of each [c]. *)
Definition written (z : A -> Z) (l : list A) : gmap K Z := list_to_map ((fun c => (key c, z c)) <$> l).

Lemma lookup_written z l c : NoDup l -> c ∈ l -> written z l !! key c = Some (z c).
Proof.
  intros Hl Hc. apply elem_of_list_to_map_1.
  - rewrite <- list_fmap_compose. by apply (NoDup_fmap_2 key).
  - apply list_elem_of_fmap. eauto.
Qed.

Lemma lookup_written_None z l k : (forall c, c ∈ l -> k <> key c) -> written z l !! k = None.
Proof.
  intros Hk. apply not_elem_of_list_to_map_1. rewrite <- list_fmap_compose.
  intros (c & E & Hc)%list_elem_of_fmap. by apply (Hk c).
Qed.

Lemma written_perm z l l' : NoDup l -> l ≡ₚ l' -> written z l = written z l'.
Proof.
  intros Hl Hp. apply list_to_map_proper; [|by apply fmap_Permutation].
  rewrite <- list_fmap_compose. by apply (NoDup_fmap_2 key).
Qed.

Lemma mutate_each_run z l s :
  NoDup l -> (forall c, c ∈ l -> g (r c s) (sget st (key c) s) = Ok (z c)) ->
  mutate_each l s = (Ok tt, swrite st (written z l ∪ sread st s) s).
Proof.
  intros Hl. revert s. induction Hl as [|c0 l Hc0 Hl IH]; intros s Hz.
  - unfold written. cbn. by rewrite (left_id_L ∅ (∪)), (swrite_sread _ Hst).
  - unfold mutate_each in *. cbn [for_each]. rewrite bind_assoc, gets_run, bind_assoc.
    rewrite (smutate_run _ _ _ _ _ (z c0)) by (apply Hz; by left).
    change (bind (ret tt) ?k) with (k tt). cbv beta. rewrite IH.
    + rewrite (swrite_swrite _ Hst), (sread_swrite _ Hst). unfold written. cbn.
      rewrite <- insert_union_r, insert_union_l; [done|].
      apply not_elem_of_list_to_map_1. rewrite <- list_fmap_compose.
      intros (c & E & Hc)%list_elem_of_fmap. apply (inj key) in E. congruence.
    + intros c Hc. rewrite Hr, sget_lawful, decide_False; [apply Hz; by right| |done].
      intros E%(inj key). congruence.
Qed.

Lemma mutate_each_ok l s s' :
  NoDup l -> mutate_each l s = (Ok tt, s') ->
  exists z, (forall c, c ∈ l -> g (r c s) (sget st (key c) s) = Ok (z c)) /\
    s' = swrite st (written z l ∪ sread st s) s.
Proof.
  intros Hl Hm.
  set (z c := match g (r c s) (sget st (key c) s) with Ok x => x | _ => 0 end).
  assert (Hz : forall c, c ∈ l -> g (r c s) (sget st (key c) s) = Ok (z c)).
  2: { exists z. split; [done|]. rewrite (mutate_each_run z l s Hl Hz) in Hm. by injection Hm. }
  subst z. cbv beta. clear -Hl Hm Hst Hr Inj0. revert s Hm. induction Hl as [|c0 l Hc0 Hl IH]; intros s Hm c Hc.
  { by apply not_elem_of_nil in Hc. }
  unfold mutate_each in *. cbn [for_each] in Hm. apply bind_ok in Hm as ([] & s1 & H1 & H2). inv_ok.
  apply smutate_ok in E0 as [Hg ->]. apply elem_of_cons in Hc as [->|Hc]; [by rewrite Hg|].
  specialize (IH _ H2 c Hc). rewrite Hr, sget_lawful, decide_False in IH; [done| |done].
  intros E%(inj key). congruence.
Qed.

End mutate_loop.

(** ** Ordered sets

    A [BTreeSet] is its elements in increasing order; the order of the keys is
    the lexicographic order of their encodings. *)

Fixpoint lex_compare (x y : list Z) : comparison :=
  match x, y with
  | [], [] => Eq
  | [], _ => Lt
  | _, [] => Gt
  | a :: x', b :: y' => match a ?= b with Eq => lex_compare x' y' | c => c end
  end.

Fixpoint btree_insert {A} (key : A -> list Z) (a : A) (l : list A) : list A :=
  match l with
  | [] => [a]
  | b :: l' =>
      match lex_compare (key a) (key b) with
      | Lt => a :: l
      | Eq => l
      | Gt => b :: btree_insert key a l'
      end
  end.

(** [BoundedBTreeSet::try_insert]: an element that is there already is no error. *)
Definition btree_try_insert {A} `{EqDecision A} (key : A -> list Z) (bound : nat) (a : A)
    (l : list A) : option (list A) :=
  if (length l <? bound)%nat || bool_decide (a ∈ l) then Some (btree_insert key a l) else None.

Lemma lex_compare_eq x y : lex_compare x y = Eq <-> x = y.
Proof.
  revert y. induction x as [|a x IH]; intros [|b y]; simpl; try done.
  destruct (Z.compare_spec a b) as [->|Hlt|Hlt]; [rewrite IH|..];
    (split; [intros E; try discriminate E; by subst
            | intros E; injection E; clear E; intros; subst; first [done | lia]]).
Qed.

Lemma elem_of_btree_insert {A} (key : A -> list Z) `{!Inj (=) (=) key} a b l :
  b ∈ btree_insert key a l <-> b = a \/ b ∈ l.
Proof.
  induction l as [|c l IH]; simpl; [by rewrite elem_of_cons|].
  destruct (lex_compare (key a) (key c)) eqn:E; rewrite ?elem_of_cons, ?IH.
  - apply lex_compare_eq, (inj key) in E as ->. tauto.
  - tauto.
  - tauto.
Qed.

(** The order in which the elements are kept. *)
Definition btree_sorted {A} (key : A -> list Z) (l : list A) : Prop :=
  StronglySorted (fun a b => lex_compare (key a) (key b) = Lt) l.

Lemma lex_compare_antisym x y : lex_compare x y = CompOpp (lex_compare y x).
Proof.
  revert y. induction x as [|a x IH]; intros [|b y]; simpl; try done.
  rewrite (Z.compare_antisym b a). destruct (b ?= a); simpl; auto.
Qed.

Lemma lex_compare_trans x y z :
  lex_compare x y = Lt -> lex_compare y z = Lt -> lex_compare x z = Lt.
Proof.
  revert y z. induction x as [|a x IH]; intros [|b y] [|c z]; simpl; try done.
  destruct (Z.compare_spec a b) as [->| |], (Z.compare_spec b c) as [->| |]; try done;
    intros; repeat match goal with |- context [?u ?= ?v] =>
      destruct (Z.compare_spec u v); try lia end; eauto.
Qed.

Lemma btree_insert_sorted {A} (key : A -> list Z) `{!Inj (=) (=) key} a l :
  btree_sorted key l -> btree_sorted key (btree_insert key a l).
Proof.
  unfold btree_sorted. induction 1 as [|b l Hl IH Hb]; simpl; [repeat constructor|].
  destruct (lex_compare (key a) (key b)) eqn:E.
  - by constructor.
  - constructor; [by constructor|]. constructor; [done|].
    apply Forall_forall. intros c Hc. rewrite Forall_forall in Hb.
    eapply lex_compare_trans; [exact E | by apply Hb].
  - constructor; [done|]. apply Forall_forall. intros c Hc.
    apply list_elem_of_In in Hc. rewrite (elem_of_btree_insert key) in Hc.
    destruct Hc as [->|Hc]; [by rewrite lex_compare_antisym, E|].
    rewrite Forall_forall in Hb. by apply Hb, list_elem_of_In.
Qed.

Lemma btree_insert_id {A} (key : A -> list Z) a l :
  btree_sorted key l -> a ∈ l -> btree_insert key a l = l.
Proof.
  unfold btree_sorted. induction 1 as [|b l Hl IH Hb]; intros Ha; [by apply not_elem_of_nil in Ha|].
  simpl. apply elem_of_cons in Ha as [->|Ha]; [by rewrite (proj2 (lex_compare_eq _ _) eq_refl)|].
  rewrite Forall_forall in Hb. specialize (Hb a (proj1 (list_elem_of_In _ _) Ha)).
  rewrite lex_compare_antisym, Hb. simpl. by rewrite IH.
Qed.

Lemma btree_sorted_NoDup {A} (key : A -> list Z) l : btree_sorted key l -> NoDup l.
Proof.
  unfold btree_sorted. induction 1 as [|b l Hl IH Hb]; constructor; [|done].
  intros Hin%list_elem_of_In. rewrite Forall_forall in Hb. specialize (Hb _ Hin).
  by rewrite (proj2 (lex_compare_eq _ _) eq_refl) in Hb.
Qed.
