(* ===== verification/FixedPoint.v ===== *)
(** * Fixed-point numbers

    [FixedU128] and [FixedI128] of [sp_arithmetic] are not part of the
    repository.  A fixed-point number is represented by its inner integer; the
    operations the pallets call are the fields of the class [FixedPoint], and
    what the pallets rely on is the class [FixedPointLaws].  The laws state the
    documented behaviour: the result is the exact quotient rounded down on
    nonnegative operands, [None] where it does not fit.  For operands of mixed
    signs only an error below one unit in the last place is assumed.

    [FixedFloor] is a concrete instance for evaluation.  The conversions that
    the repository itself defines ([src/primitives/src/lib.rs]) follow. *)

From S2P Require Import Prelude.

(** [FixedPointNumber::DIV], also returned by [accuracy()]. *)
Definition DIV : Z := 10 ^ 18.

Class FixedPoint := {
  fu_checked_from_integer : Z -> option Z;
  fu_checked_from_rational : Z -> Z -> option Z;
  fu_checked_mul_int : Z -> Z -> option Z;
  fu_checked_add : Z -> Z -> option Z;
  fu_checked_mul : Z -> Z -> option Z;
  fu_checked_div : Z -> Z -> option Z;
  fu_round : Z -> Z;
  fi_checked_from_integer : Z -> option Z;
  fi_checked_add : Z -> Z -> option Z;
  fi_checked_sub : Z -> Z -> option Z;
  fi_checked_mul : Z -> Z -> option Z;
  fi_checked_div : Z -> Z -> option Z;
}.

(** Operands outside the range of the type do not occur, so the laws do not
    mention it. *)
Class FixedPointLaws (FX : FixedPoint) : Prop := {
  fu_from_integer_spec n :
    0 <= n -> fu_checked_from_integer n = fits 0 u128_max (n * DIV);
  fu_from_rational_spec n d :
    0 <= n -> 0 <= d ->
    fu_checked_from_rational n d =
      if d =? 0 then None else fits 0 u128_max (n * DIV / d);
  fu_mul_int_spec x n :
    0 <= x -> 0 <= n -> fu_checked_mul_int x n = fits 0 u128_max (x * n / DIV);
  fu_add_spec x y : fu_checked_add x y = fits 0 u128_max (x + y);
  fu_mul_spec x y :
    0 <= x -> 0 <= y -> fu_checked_mul x y = fits 0 u128_max (x * y / DIV);
  fu_div_spec x y :
    0 <= x -> 0 <= y ->
    fu_checked_div x y = if y =? 0 then None else fits 0 u128_max (x * DIV / y);
  fu_div_range x y z : fu_checked_div x y = Some z -> in_u128 z;
  fu_round_spec x :
    0 <= x -> (x + DIV / 2) / DIV * DIV <= u128_max ->
    fu_round x = (x + DIV / 2) / DIV * DIV;
  fi_from_integer_spec n : fi_checked_from_integer n = fits i128_min i128_max (n * DIV);
  fi_add_spec x y : fi_checked_add x y = fits i128_min i128_max (x + y);
  fi_sub_spec x y : fi_checked_sub x y = fits i128_min i128_max (x - y);
  fi_mul_spec x y :
    0 <= x -> 0 <= y -> fi_checked_mul x y = fits i128_min i128_max (x * y / DIV);
  fi_mul_close x y z :
    fi_checked_mul x y = Some z -> in_i128 z /\ Z.abs (z * DIV - x * y) < DIV;
  fi_div_spec x y :
    0 <= x -> 0 < y -> fi_checked_div x y = fits i128_min i128_max (x * DIV / y);
  fi_div_zero x : fi_checked_div x 0 = None;
}.

(** ** A concrete instance: every quotient is rounded down *)

Definition FixedFloor : FixedPoint := {|
  fu_checked_from_integer n := fits 0 u128_max (n * DIV);
  fu_checked_from_rational n d := if d =? 0 then None else fits 0 u128_max (n * DIV / d);
  fu_checked_mul_int x n := fits 0 u128_max (x * n / DIV);
  fu_checked_add x y := fits 0 u128_max (x + y);
  fu_checked_mul x y := fits 0 u128_max (x * y / DIV);
  fu_checked_div x y := if y =? 0 then None else fits 0 u128_max (x * DIV / y);
  fu_round x := (x + DIV / 2) / DIV * DIV;
  fi_checked_from_integer n := fits i128_min i128_max (n * DIV);
  fi_checked_add x y := fits i128_min i128_max (x + y);
  fi_checked_sub x y := fits i128_min i128_max (x - y);
  fi_checked_mul x y := fits i128_min i128_max (x * y / DIV);
  fi_checked_div x y := if y =? 0 then None else fits i128_min i128_max (x * DIV / y);
|}.

Lemma floor_close n d : 0 < d -> Z.abs (n / d * d - n) < d.
Proof. intros Hd. pose proof (Z.div_mod n d). pose proof (Z.mod_pos_bound n d Hd). lia. Qed.

#[export] Instance FixedFloor_laws : FixedPointLaws FixedFloor.
Proof.
  split; simpl; intros; auto.
  - destruct (y =? 0); [done|]. match goal with H : fits _ _ _ = Some _ |- _ =>
      apply fits_Some in H as [-> ?] end. done.
  - match goal with H : fits _ _ _ = Some _ |- _ => apply fits_Some in H as [-> ?] end.
    split; [done|]. by apply floor_close.
  - by destruct (y =? 0) eqn:?; [lia|].
Qed.

(** ** Conversions defined by the primitives crate *)

Section conversions.
Context `{FX : FixedPoint}.

(** [BalanceToFixedPoint::to_fixed] for [Balance]. *)
Definition to_fixed (b : Balance) : option Z :=
  match u128_to_i128 b with
  | Some n => fi_checked_from_integer n
  | None => None
  end.

(** [TruncateFixedPointToInt] for [SignedFixedPoint]: [i128] division truncates. *)
Definition fi_truncate_to_inner (x : Z) : option Z := Some (Z.quot x DIV).

(** [TruncateFixedPointToInt] for [UnsignedFixedPoint]. *)
Definition fu_truncate_to_inner (x : Z) : option Z := u128_checked_div x DIV.

End conversions.

(** ** Lemmas *)

Lemma DIV_pos : 0 < DIV.
Proof. reflexivity. Qed.

#[export] Hint Resolve DIV_pos : core.

Lemma half_DIV : DIV / 2 = 500000000000000000.
Proof. reflexivity. Qed.

Section lemmas.
Context `{FX : FixedPoint} {L : FixedPointLaws FX}.

Lemma to_fixed_Some b x : 0 <= b -> to_fixed b = Some x <-> x = b * DIV /\ b * DIV <= i128_max.
Proof.
  intros Hb. unfold to_fixed, u128_to_i128. pose proof DIV_pos.
  destruct (fits i128_min i128_max b) as [n|] eqn:E.
  - apply fits_Some in E as [-> E]. rewrite fi_from_integer_spec, fits_Some by done.
    unfold i128_min in *. split; intros; [lia|]. split; [lia|nia].
  - apply fits_None in E. split; [done|]. unfold i128_min in *. unfold DIV in *. lia.
Qed.

Lemma fu_truncate_spec x : fu_truncate_to_inner x = Some (x / DIV).
Proof. reflexivity. Qed.

End lemmas.
