(* ===== verification/Primitives.v ===== *)
(** * Primitives

    [src/primitives/src/lib.rs]: currencies and assets, the conversions between
    chain amounts (12 decimals) and Stellar stroops (7 decimals), between
    currencies and Stellar assets, the rounding of amounts to what Stellar can
    represent, and the reading of payments out of transaction envelopes.

    The XDR types of [substrate-stellar-sdk] are given by the constructors and
    fields that the repository's code matches on; everything else an envelope
    can hold is an [Other] constructor. *)

From S2P Require Import Prelude FixedPoint.

(** ** Currencies *)

Abbreviation StellarPublicKeyRaw := (list Z) (only parsing).
Abbreviation AssetIssuer := (list Z) (only parsing).
Abbreviation TextMemo := (list Z) (only parsing).

Inductive Asset :=
| StellarNative
| AlphaNum4 (code : Bytes) (issuer : AssetIssuer)
| AlphaNum12 (code : Bytes) (issuer : AssetIssuer).

Inductive CurrencyId :=
| Native
| XCM (index : Z)
| Stellar (asset : Asset)
| ZenlinkLPToken (token1_id token1_type token2_id token2_type : Z)
| Token (id : Z).

#[export] Instance Asset_eq_dec : EqDecision Asset.
Proof. solve_decision. Defined.
#[export] Instance CurrencyId_eq_dec : EqDecision CurrencyId.
Proof. solve_decision. Defined.

#[export] Instance Asset_countable : Countable Asset.
Proof.
  refine (inj_countable'
    (fun a => match a with
       | StellarNative => inl ()
       | AlphaNum4 c i => inr (inl (c, i))
       | AlphaNum12 c i => inr (inr (c, i)) end)
    (fun e => match e with
       | inl _ => StellarNative
       | inr (inl (c, i)) => AlphaNum4 c i
       | inr (inr (c, i)) => AlphaNum12 c i end) _).
  by intros [].
Defined.

#[export] Instance CurrencyId_countable : Countable CurrencyId.
Proof.
  refine (inj_countable'
    (fun c => match c with
       | Native => inl ()
       | XCM i => inr (inl i)
       | Stellar a => inr (inr (inl a))
       | ZenlinkLPToken a b c d => inr (inr (inr (inl (a, b, c, d))))
       | Token i => inr (inr (inr (inr i))) end)
    (fun e => match e with
       | inl _ => Native
       | inr (inl i) => XCM i
       | inr (inr (inl a)) => Stellar a
       | inr (inr (inr (inl (a, b, c, d)))) => ZenlinkLPToken a b c d
       | inr (inr (inr (inr i))) => Token i end) _).
  by intros [].
Defined.

(** The derived order of [CurrencyId] compares the variant, then the fields.
    The length of an asset code, the same for all codes of a variant, only
    delimits it. *)
Definition currency_key (c : CurrencyId) : list Z :=
  match c with
  | Native => [0]
  | XCM i => [1; i]
  | Stellar StellarNative => [2; 0]
  | Stellar (AlphaNum4 code issuer) => 2 :: 1 :: Z.of_nat (length code) :: code ++ issuer
  | Stellar (AlphaNum12 code issuer) => 2 :: 2 :: Z.of_nat (length code) :: code ++ issuer
  | ZenlinkLPToken a b c d => [3; a; b; c; d]
  | Token i => [4; i]
  end.

#[export] Instance currency_key_inj : Inj (=) (=) currency_key.
Proof.
  intros [| |[]| |] [| |[]| |]; simpl; intros E; try discriminate E; try by simplify_eq.
  - injection E as E1 E2. apply app_inj_1 in E2 as [-> ->]; [done | lia].
  - injection E as E1 E2. apply app_inj_1 in E2 as [-> ->]; [done | lia].
Qed.

(** [VaultCurrencyPair] and [VaultId]. *)
Record VaultCurrencyPair := mkPair { collateral : CurrencyId; wrapped : CurrencyId }.

Record VaultId := mkVaultId { account_id : AccountId; currencies : VaultCurrencyPair }.

Definition new_vault_id (account : AccountId) (collateral_currency wrapped_currency : CurrencyId)
  : VaultId := mkVaultId account (mkPair collateral_currency wrapped_currency).
Definition collateral_currency (v : VaultId) : CurrencyId := collateral (currencies v).
Definition wrapped_currency (v : VaultId) : CurrencyId := wrapped (currencies v).

#[export] Instance VaultCurrencyPair_eq_dec : EqDecision VaultCurrencyPair.
Proof. solve_decision. Defined.
#[export] Instance VaultCurrencyPair_countable : Countable VaultCurrencyPair.
Proof.
  refine (inj_countable' (fun p => (collateral p, wrapped p)) (fun '(c, w) => mkPair c w) _).
  by intros [].
Defined.
#[export] Instance VaultId_eq_dec : EqDecision VaultId.
Proof. solve_decision. Defined.
#[export] Instance VaultId_countable : Countable VaultId.
Proof.
  refine (inj_countable' (fun v => (account_id v, currencies v)) (fun '(a, p) => mkVaultId a p) _).
  by intros [].
Defined.

(** ** Decimals *)

Definition asset_decimals (_ : Asset) : Z := 12.

(** [10u128.pow]; the decimals in use are at most 18. *)
Definition asset_one (a : Asset) : Balance := 10 ^ asset_decimals a.

Definition pendulum_decimals (currency_id : CurrencyId) : Z :=
  match currency_id with
  | Stellar asset => asset_decimals asset
  | XCM index =>
      if index =? 0 then 10 else if index =? 1 then 6 else if index =? 2 then 6
      else if index =? 3 then 9 else if index =? 4 then 18 else if index =? 5 then 12
      else if index =? 6 then 18 else if index =? 7 then 10 else if index =? 8 then 12
      else if index =? 9 then 10 else 12
  | Native | ZenlinkLPToken _ _ _ _ | Token _ => 12
  end.

Definition amplitude_decimals (currency_id : CurrencyId) : Z :=
  match currency_id with
  | Stellar asset => asset_decimals asset
  | XCM index => if index =? 0 then 12 else if index =? 1 then 6 else 12
  | Native | ZenlinkLPToken _ _ _ _ | Token _ => 12
  end.

(** ** Asset codes *)

Definition is_ascii_alphanumeric (b : Z) : bool :=
  ((48 <=? b) && (b <=? 57)) || ((65 <=? b) && (b <=? 90)) || ((97 <=? b) && (b <=? 122)).

(** The loop over [input.iter().enumerate().rev()]; [n] elements are left. *)
Fixpoint remove_trailing_loop (input : Bytes) (n : nat) : Bytes :=
  match n with
  | O => []
  | S idx =>
      match input !! idx with
      | Some elem =>
          if is_ascii_alphanumeric elem then take (S idx) input
          else remove_trailing_loop input idx
      | None => remove_trailing_loop input idx
      end
  end.

Definition remove_trailing_non_alphanum_bytes (input : Bytes) : Bytes :=
  remove_trailing_loop input (length input).

(** [code[..len].copy_from_slice(slice)] on a zeroed array of [n] bytes. *)
Definition pad_code (n : nat) (slice : Bytes) : Bytes :=
  slice ++ replicate (n - length slice) 0.

(** [TryFrom<(&str, AssetIssuer)> for CurrencyId]; the error is a message. *)
Definition try_from_code (slice : Bytes) (issuer : AssetIssuer) : option CurrencyId :=
  if bool_decide (length slice <= 4)%nat then Some (Stellar (AlphaNum4 (pad_code 4 slice) issuer))
  else if bool_decide (length slice <= 12)%nat
  then Some (Stellar (AlphaNum12 (pad_code 12 slice) issuer))
  else None.

(** ** Stellar assets *)

Inductive PublicKey := PublicKeyTypeEd25519 (key : Bytes).

Definition into_binary (pk : PublicKey) : Bytes :=
  match pk with PublicKeyTypeEd25519 key => key end.

Inductive StellarAsset :=
| AssetTypeNative
| AssetTypeCreditAlphanum4 (asset_code : Bytes) (issuer : PublicKey)
| AssetTypeCreditAlphanum12 (asset_code : Bytes) (issuer : PublicKey)
| AssetDefault (discriminant : Z).

#[export] Instance PublicKey_eq_dec : EqDecision PublicKey.
Proof. solve_decision. Defined.
#[export] Instance StellarAsset_eq_dec : EqDecision StellarAsset.
Proof. solve_decision. Defined.

(** [From<stellar::Asset> for CurrencyId] *)
Definition currency_from_asset (asset : StellarAsset) : CurrencyId :=
  match asset with
  | AssetDefault _ => Stellar StellarNative
  | AssetTypeNative => Stellar StellarNative
  | AssetTypeCreditAlphanum4 code issuer => Stellar (AlphaNum4 code (into_binary issuer))
  | AssetTypeCreditAlphanum12 code issuer => Stellar (AlphaNum12 code (into_binary issuer))
  end.

(** [TryInto<stellar::Asset> for CurrencyId] *)
Definition asset_from_currency (c : CurrencyId) : option StellarAsset :=
  match c with
  | XCM _ => None
  | Native => None
  | Stellar StellarNative => Some AssetTypeNative
  | Stellar (AlphaNum4 code issuer) =>
      Some (AssetTypeCreditAlphanum4 code (PublicKeyTypeEd25519 issuer))
  | Stellar (AlphaNum12 code issuer) =>
      Some (AssetTypeCreditAlphanum12 code (PublicKeyTypeEd25519 issuer))
  | ZenlinkLPToken _ _ _ _ => None
  | Token _ => None
  end.

(** [StaticLookup for AssetConversion] *)
Definition asset_lookup (currency_id : CurrencyId) : option StellarAsset :=
  asset_from_currency currency_id.
Definition asset_unlookup (stellar_asset : StellarAsset) : CurrencyId :=
  currency_from_asset stellar_asset.

(** ** Amounts: 12 decimals on the chain, 7 on Stellar *)

Definition CHAIN_DECIMALS : Z := 12.
Definition STELLAR_DECIMALS : Z := 7.
Definition DECIMALS_CONVERSION_RATE : Z := 10 ^ (CHAIN_DECIMALS - STELLAR_DECIMALS).

(** [u128::try_from(i64).unwrap_or(0)] is 0 on a negative amount. *)
Definition stellar_stroops_to_u128 (stellar_stroops : Z) : Balance :=
  let value := if 0 <=? stellar_stroops then stellar_stroops else 0 in
  u128_saturating_mul value DECIMALS_CONVERSION_RATE.

(** [StaticLookup for BalanceConversion] *)
Definition balance_lookup (pendulum_balance : Balance) : option Z :=
  let stroops_u128 := pendulum_balance / DECIMALS_CONVERSION_RATE in
  if i64_max <? stroops_u128 then None else Some stroops_u128.
Definition balance_unlookup (stellar_stroops : Z) : Balance :=
  stellar_stroops_to_u128 stellar_stroops.

(** [AmountCompatibility for StellarCompatibility] *)
Definition is_compatible_with_target (source_amount : Balance) : bool :=
  source_amount mod DECIMALS_CONVERSION_RATE =? 0.

Definition round_to_compatible_with_target `{FX : FixedPoint} (source_amount : Balance)
  : option Balance :=
  let conversion_rate := DECIMALS_CONVERSION_RATE in
  match fu_checked_div source_amount conversion_rate with
  | None => None
  | Some q =>
      match fu_checked_mul (fu_round q) conversion_rate with
      | None => None
      | Some rounded_amount =>
          if is_compatible_with_target rounded_amount then Some rounded_amount else None
      end
  end.

(** ** Transaction envelopes *)

Inductive MuxedAccount := KeyTypeEd25519 (key : Bytes) | MuxedOther (tag : Z).

Inductive ClaimPredicate := ClaimPredicateUnconditional | ClaimPredicateOther (tag : Z).

Record Claimant := mkClaimant { claimant_destination : PublicKey; predicate : ClaimPredicate }.

Inductive OperationBody :=
| Payment (destination : MuxedAccount) (asset : StellarAsset) (amount : Z)
| CreateClaimableBalance (asset : StellarAsset) (amount : Z) (claimants : list Claimant)
| CreateAccount (destination : PublicKey) (starting_balance : Z)
| OperationOther (tag : Z).

Inductive Memo := MemoText (text : TextMemo) | MemoOther (tag : Z).

Record Transaction := mkTransaction {
  operations : list OperationBody;
  memo : Memo;
  seq_num : Z;
  fee : Z;
}.

Inductive TransactionEnvelope :=
| EnvelopeTypeTxV0 (tx : Transaction)
| EnvelopeTypeTx (tx : Transaction)
| EnvelopeTypeTxFeeBump (tag : Z)
| EnvelopeDefault (tag : Z).

#[export] Instance MuxedAccount_eq_dec : EqDecision MuxedAccount.
Proof. solve_decision. Defined.
#[export] Instance ClaimPredicate_eq_dec : EqDecision ClaimPredicate.
Proof. solve_decision. Defined.
#[export] Instance Claimant_eq_dec : EqDecision Claimant.
Proof. solve_decision. Defined.
#[export] Instance OperationBody_eq_dec : EqDecision OperationBody.
Proof. solve_decision. Defined.
#[export] Instance Memo_eq_dec : EqDecision Memo.
Proof. solve_decision. Defined.
#[export] Instance Transaction_eq_dec : EqDecision Transaction.
Proof. solve_decision. Defined.
#[export] Instance TransactionEnvelope_eq_dec : EqDecision TransactionEnvelope.
Proof. solve_decision. Defined.

(** [hash.to_base58().as_bytes()[..28].to_vec()]: slicing past the end panics. *)
Definition derive_shortened_request_id (to_base58 : Bytes -> Bytes) (hash : H256)
  : outcome TextMemo :=
  let b := to_base58 hash in
  if (length b <? 28)%nat then Panic else Ok (take 28 b).

Definition get_text_memo_from_tx_env (transaction_envelope : TransactionEnvelope)
  : option TextMemo :=
  match transaction_envelope with
  | EnvelopeTypeTxV0 tx => match memo tx with MemoText text => Some text | _ => None end
  | EnvelopeTypeTx tx => match memo tx with MemoText text => Some text | _ => None end
  | _ => None
  end.

Definition envelope_operations (env : TransactionEnvelope) : list OperationBody :=
  match env with
  | EnvelopeTypeTxV0 tx => operations tx
  | EnvelopeTypeTx tx => operations tx
  | EnvelopeTypeTxFeeBump _ => []
  | EnvelopeDefault _ => []
  end.

Definition get_payment_amount_for_asset_to
    (self : TransactionEnvelope) (to : StellarPublicKeyRaw) (asset : StellarAsset) : Balance :=
  let recipient_account_muxed := KeyTypeEd25519 to in
  let recipient_account_pk := PublicKeyTypeEd25519 to in
  let transferred_amount := 0 in
  let tx_operations := envelope_operations self in
  if bool_decide (tx_operations = []) then balance_unlookup transferred_amount
  else
    let transferred_amount := fold_left (fun acc x =>
      match x with
      | Payment destination payment_asset amount =>
          if bool_decide (destination = recipient_account_muxed)
             && bool_decide (payment_asset = asset)
          then i64_saturating_add acc amount else acc
      | CreateClaimableBalance payment_asset amount claimants =>
          match claimants with
          | [claimant] =>
              if bool_decide (claimant_destination claimant = recipient_account_pk)
                 && bool_decide (payment_asset = asset)
                 && bool_decide (predicate claimant = ClaimPredicateUnconditional)
              then i64_saturating_add acc amount else acc
          | _ => acc
          end
      | _ => acc
      end) tx_operations 0 in
    balance_unlookup transferred_amount.

Definition sequence_number (self : TransactionEnvelope) : option Z :=
  match self with
  | EnvelopeTypeTxV0 tx => Some (seq_num tx)
  | EnvelopeTypeTx tx => Some (seq_num tx)
  | EnvelopeTypeTxFeeBump _ | EnvelopeDefault _ => None
  end.

Definition get_transaction (self : TransactionEnvelope) : option Transaction :=
  match self with
  | EnvelopeTypeTxV0 tx => Some tx
  | EnvelopeTypeTx tx => Some tx
  | _ => None
  end.

(** ** Lemmas *)

Lemma rate_value : DECIMALS_CONVERSION_RATE = 100000.
Proof. reflexivity. Qed.

Lemma stroops_nonneg s :
  0 <= s <= i64_max -> stellar_stroops_to_u128 s = s * 100000.
Proof.
  intros Hs. unfold stellar_stroops_to_u128, u128_saturating_mul. rewrite rate_value.
  destruct (0 <=? s) eqn:?; [|lia]. unfold i64_max, u128_max in *. lia.
Qed.

(** The result of [remove_trailing_loop] is a prefix; what is cut off the first
    [n] bytes has no alphanumeric byte, and the last byte kept is one. *)
Lemma remove_trailing_loop_spec input n :
  (n <= length input)%nat ->
  exists k, (k <= n)%nat /\ remove_trailing_loop input n = take k input /\
    (forall i b, (k <= i < n)%nat -> input !! i = Some b -> is_ascii_alphanumeric b = false) /\
    (forall j, k = S j -> exists b, input !! j = Some b /\ is_ascii_alphanumeric b = true).
Proof.
  induction n as [|n IH]; intros Hn; cbn [remove_trailing_loop].
  - exists 0%nat. split_and!; [lia|done|intros; lia|intros; lia].
  - destruct (lookup_lt_is_Some_2 input n ltac:(lia)) as [b Hb]. rewrite Hb.
    destruct (is_ascii_alphanumeric b) eqn:Ha.
    + exists (S n). split_and!; [lia|done|intros; lia|]. intros j [= <-]. eauto.
    + destruct (IH ltac:(lia)) as (k & Hk & Ht & Hc & Hl). exists k.
      split_and!; [lia|done| |done].
      intros i c Hi Hic. destruct (decide (i = n)) as [->|]; [congruence|].
      apply (Hc i c); [lia|done].
Qed.

Lemma remove_trailing_app p q j b :
  length p = S j -> p !! j = Some b -> is_ascii_alphanumeric b = true ->
  Forall (fun c => is_ascii_alphanumeric c = false) q ->
  remove_trailing_non_alphanum_bytes (p ++ q) = p.
Proof.
  intros Hl Hb Ha Hq. unfold remove_trailing_non_alphanum_bytes.
  destruct (remove_trailing_loop_spec (p ++ q) (length (p ++ q)) ltac:(lia))
    as (k & Hk & -> & Hc & Hlast).
  assert (k = S j) as ->.
  { destruct (Nat.lt_trichotomy k (S j)) as [Hlt|[->|Hgt]]; [|done|].
    - assert (E : (p ++ q) !! j = Some b) by (rewrite lookup_app_l; [done|lia]).
      rewrite (Hc j b) in Ha; [done| |done]. rewrite length_app in *. lia.
    - destruct k as [|k]; [lia|]. destruct (Hlast k eq_refl) as (c & Hc1 & Hc2).
      rewrite lookup_app_r in Hc1 by lia.
      eapply Forall_lookup_1 in Hq; [|exact Hc1]. simpl in Hq. congruence. }
  rewrite <- Hl. by rewrite take_app_length.
Qed.

(** ** Properties *)

(** Stroops survive the way onto the chain and back: converting any
    nonnegative Stellar amount to a chain balance and back gives the amount. *)
Theorem stroops_roundtrip s :
  0 <= s <= i64_max -> balance_lookup (balance_unlookup s) = Some s.
Proof.
  intros Hs. unfold balance_unlookup. rewrite stroops_nonneg by done.
  unfold balance_lookup. rewrite rate_value, Z.div_mul by lia.
  destruct (i64_max <? s) eqn:?; [lia|done].
Qed.

Lemma stroops_roundtrip_witness : balance_lookup (balance_unlookup 12345) = Some 12345.
Proof. apply stroops_roundtrip. unfold i64_max. lia. Defined.

(** A chain balance that can be sent to Stellar loses less than one stroop,
    and loses nothing exactly when it is compatible with the target chain. *)
Theorem balance_lookup_exact_iff_compatible b s :
  0 <= b -> balance_lookup b = Some s ->
  balance_unlookup s <= b < balance_unlookup s + DECIMALS_CONVERSION_RATE /\
  (balance_unlookup s = b <-> is_compatible_with_target b = true).
Proof.
  intros Hb. unfold balance_lookup, is_compatible_with_target.
  destruct (i64_max <? _) eqn:Hlt; [done|]. intros [= <-]. unfold balance_unlookup.
  rewrite rate_value in *. pose proof (Z.div_mod b 100000 ltac:(lia)).
  pose proof (Z.mod_pos_bound b 100000 ltac:(lia)).
  assert (0 <= b / 100000) by (apply Z.div_pos; lia).
  rewrite stroops_nonneg by lia. lia.
Qed.

Lemma balance_lookup_exact_iff_compatible_witness :
  balance_unlookup 12 <= 1234567 < balance_unlookup 12 + DECIMALS_CONVERSION_RATE /\
  (balance_unlookup 12 = 1234567 <-> is_compatible_with_target 1234567 = true).
Proof. apply balance_lookup_exact_iff_compatible; [lia | reflexivity]. Defined.


(** An asset code of at most 12 bytes that ends in an alphanumeric
    character is recovered from the zero-padded code the currency stores. *)
Theorem asset_code_roundtrip slice issuer j b :
  length slice = S j -> slice !! j = Some b -> is_ascii_alphanumeric b = true ->
  (length slice <= 12)%nat ->
  exists code, (try_from_code slice issuer = Some (Stellar (AlphaNum4 code issuer)) \/
                try_from_code slice issuer = Some (Stellar (AlphaNum12 code issuer))) /\
    remove_trailing_non_alphanum_bytes code = slice.
Proof.
  intros Hl Hb Ha H12. unfold try_from_code, pad_code.
  assert (Hz : forall n, Forall (fun c => is_ascii_alphanumeric c = false) (replicate n 0)).
  { intros n. apply Forall_replicate. reflexivity. }
  destruct (bool_decide (length slice <= 4)%nat); [eexists; split; [by left|]|].
  - by eapply remove_trailing_app.
  - rewrite bool_decide_true by done. eexists; split; [by right|].
    by eapply remove_trailing_app.
Qed.

Lemma asset_code_roundtrip_witness :
  exists code, (try_from_code [85; 83; 68] [1] = Some (Stellar (AlphaNum4 code [1])) \/
                try_from_code [85; 83; 68] [1] = Some (Stellar (AlphaNum12 code [1]))) /\
    remove_trailing_non_alphanum_bytes code = [85; 83; 68].
Proof. apply (asset_code_roundtrip [85; 83; 68] [1] 2 68); [reflexivity..|simpl; lia]. Defined.

(** Rounding to the target chain returns the nearest compatible amount: it
    is compatible, at most half a stroop away, and a compatible amount is left
    as it is.  The documentation says "down"; 99999 rounds up to 100000. *)
Theorem round_to_compatible_nearest `{FX : FixedPoint} {L : FixedPointLaws FX} a :
  0 <= a -> a * 10 ^ 13 + DIV / 2 <= u128_max ->
  exists r, round_to_compatible_with_target a = Some r /\
    is_compatible_with_target r = true /\ Z.abs (r - a) <= DECIMALS_CONVERSION_RATE / 2 /\
    (is_compatible_with_target a = true -> r = a).
Proof.
  intros Ha Hmax. unfold round_to_compatible_with_target, is_compatible_with_target.
  rewrite half_DIV in Hmax. rewrite rate_value. assert (Hu : in_u128 a) by (unfold in_u128, DIV in *; lia).
  rewrite fu_div_spec by (done || (unfold in_u128, u128_max; lia)). cbn [Z.eqb].
  replace (a * DIV / 100000) with (a * 10 ^ 13).
  2: { replace (a * DIV) with (a * 10 ^ 13 * 100000) by (unfold DIV; lia).
       by rewrite Z.div_mul. }
  rewrite fits_in by (unfold DIV in *; lia).
  set (k := (a * 10 ^ 13 + 500000000000000000) / DIV).
  assert (Hk : k * DIV <= a * 10 ^ 13 + 500000000000000000 < k * DIV + DIV).
  { subst k. pose proof (Z.div_mod (a * 10 ^ 13 + 500000000000000000) DIV).
    pose proof (Z.mod_pos_bound (a * 10 ^ 13 + 500000000000000000) DIV DIV_pos). lia. }
  assert (Hk0 : 0 <= k) by (unfold DIV in *; lia).
  rewrite fu_round_spec; rewrite ?half_DIV; fold k; try (unfold in_u128, DIV in *; lia).
  rewrite fu_mul_spec by (unfold in_u128, DIV, u128_max in *; lia).
  replace (k * DIV * 100000 / DIV) with (k * 100000).
  2: { replace (k * DIV * 100000) with (k * 100000 * DIV) by lia. by rewrite Z.div_mul. }
  unfold DIV in *. rewrite fits_in by lia. rewrite Z.mod_mul by lia. cbn [Z.eqb].
  eexists; split_and!; [done|by rewrite Z.mod_mul|change (100000 / 2) with 50000; lia|].
  intros Hc%Z.eqb_eq. pose proof (Z.div_mod a 100000 ltac:(lia)) as Hq. rewrite Hc in Hq.
  clearbody k. set (q := a / 100000) in *. clearbody q. subst a. lia.
Qed.

Lemma round_to_compatible_nearest_witness :
  exists r, round_to_compatible_with_target (FX := FixedFloor) 99999 = Some r /\
    is_compatible_with_target r = true /\ Z.abs (r - 99999) <= DECIMALS_CONVERSION_RATE / 2 /\
    (is_compatible_with_target 99999 = true -> r = 99999).
Proof. apply round_to_compatible_nearest; vm_compute; discriminate. Defined.
