(* ===== verification/Currency.v ===== *)
(** * The currency pallet

    [src/pallets/currency/src/amount.rs] and [lib.rs]: amounts tagged with
    their currency, their checked arithmetic, and the actions that move them.

    The balances themselves are kept by [orml-currencies], which is not part of
    the repository: the class [Currencies] has the calls the pallet makes, over
    an abstract ledger, and [CurrenciesLaws] what the callers rely on.  Where
    an account can be reaped as dust the effect of a call is not the documented
    transfer of the amount, so the laws on balances are stated for currencies
    without an existential deposit.  [SimpleLedger] is a concrete instance. *)

From S2P Require Import Prelude FixedPoint Primitives.

(** ** The ledger *)

Class Currencies := {
  Ledger : Type;
  existential_deposit : CurrencyId -> Balance;
  free_balance : CurrencyId -> AccountId -> Ledger -> Balance;
  reserved_balance : CurrencyId -> AccountId -> Ledger -> Balance;
  total_issuance : CurrencyId -> Ledger -> Balance;
  orml_transfer : CurrencyId -> AccountId -> AccountId -> Balance -> M Ledger unit;
  orml_deposit : CurrencyId -> AccountId -> Balance -> M Ledger unit;
  orml_reserve : CurrencyId -> AccountId -> Balance -> M Ledger unit;
  (** Both return the part of the amount that was not available. *)
  orml_unreserve : CurrencyId -> AccountId -> Balance -> Ledger -> Balance * Ledger;
  orml_slash_reserved : CurrencyId -> AccountId -> Balance -> Ledger -> Balance * Ledger;
}.

(** The two ledgers agree on everything but currency [c]. *)
Definition same_others `{CUR : Currencies} (c : CurrencyId) (l l' : Ledger) : Prop :=
  forall c', c' <> c ->
    total_issuance c' l' = total_issuance c' l /\
    (forall a, free_balance c' a l' = free_balance c' a l) /\
    (forall a, reserved_balance c' a l' = reserved_balance c' a l).

(** Account [a] changes by [d] where [a = who]. *)
Definition at_account (who a : AccountId) (d : Z) : Z := if decide (a = who) then d else 0.

Class CurrenciesLaws (CUR : Currencies) : Prop := {
  balances_nonneg c a l :
    0 <= free_balance c a l /\ 0 <= reserved_balance c a l /\ 0 <= total_issuance c l;
  transfer_others c a b x l o l' :
    orml_transfer c a b x l = (o, l') -> same_others c l l';
  deposit_others c a x l o l' : orml_deposit c a x l = (o, l') -> same_others c l l';
  reserve_others c a x l o l' : orml_reserve c a x l = (o, l') -> same_others c l l';
  unreserve_others c a x l r l' : orml_unreserve c a x l = (r, l') -> same_others c l l';
  slash_reserved_others c a x l r l' :
    orml_slash_reserved c a x l = (r, l') -> same_others c l l';
  transfer_spec c src dst x l l' :
    existential_deposit c = 0 -> orml_transfer c src dst x l = (Ok tt, l') ->
    total_issuance c l' = total_issuance c l /\
    (forall a, free_balance c a l' =
       free_balance c a l - at_account src a x + at_account dst a x) /\
    (forall a, reserved_balance c a l' = reserved_balance c a l);
  deposit_spec c who x l l' :
    existential_deposit c = 0 -> orml_deposit c who x l = (Ok tt, l') ->
    total_issuance c l' = total_issuance c l + x /\
    (forall a, free_balance c a l' = free_balance c a l + at_account who a x) /\
    (forall a, reserved_balance c a l' = reserved_balance c a l);
  reserve_spec c who x l l' :
    existential_deposit c = 0 -> orml_reserve c who x l = (Ok tt, l') ->
    total_issuance c l' = total_issuance c l /\
    (forall a, free_balance c a l' = free_balance c a l - at_account who a x) /\
    (forall a, reserved_balance c a l' = reserved_balance c a l + at_account who a x);
  unreserve_spec c who x l r l' :
    existential_deposit c = 0 -> orml_unreserve c who x l = (r, l') ->
    r = x - Z.max 0 (Z.min x (reserved_balance c who l)) /\
    total_issuance c l' = total_issuance c l /\
    (forall a, free_balance c a l' = free_balance c a l + at_account who a (x - r)) /\
    (forall a, reserved_balance c a l' = reserved_balance c a l - at_account who a (x - r));
  slash_reserved_spec c who x l r l' :
    existential_deposit c = 0 -> orml_slash_reserved c who x l = (r, l') ->
    r = x - Z.max 0 (Z.min x (reserved_balance c who l)) /\
    total_issuance c l' = total_issuance c l - (x - r) /\
    (forall a, free_balance c a l' = free_balance c a l) /\
    (forall a, reserved_balance c a l' = reserved_balance c a l - at_account who a (x - r));
}.

(** ** Amounts *)

Record Amount := mkAmount { amount : Balance; currency_id : CurrencyId }.

#[export] Instance Amount_eq_dec : EqDecision Amount.
Proof. solve_decision. Defined.

Module Amount.

Definition new (a : Balance) (c : CurrencyId) : Amount := mkAmount a c.

Definition zero (c : CurrencyId) : Amount := new 0 c.

Definition is_zero (self : Amount) : bool := amount self =? 0.

Definition ensure_is_compatible_with_target_chain (self : Amount) : outcome unit :=
  if negb (is_compatible_with_target (amount self))
  then Err currency.IncompatibleAmount else Ok tt.

Definition checked_fn (self other : Amount) (f : Z -> Z -> option Z) (err : ArithmeticError)
  : outcome Amount :=
  if negb (bool_decide (currency_id self = currency_id other))
  then Err currency.InvalidCurrency
  else
    let? a := ok_or (f (amount self) (amount other)) err in
    Ok (mkAmount a (currency_id self)).

Definition checked_add (self other : Amount) : outcome Amount :=
  checked_fn self other u128_checked_add Overflow.

Definition checked_sub (self other : Amount) : outcome Amount :=
  checked_fn self other u128_checked_sub Underflow.

Definition same_currency (self other : Amount) : outcome unit :=
  oensure (bool_decide (currency_id self = currency_id other)) currency.InvalidCurrency.

Definition saturating_sub (self other : Amount) : outcome Amount :=
  let? _ := same_currency self other in
  match checked_sub self other with
  | Ok a => Ok a
  | Err _ => Ok (new 0 (currency_id self))
  | Panic => Panic
  end.

Definition lt (self other : Amount) : outcome bool :=
  let? _ := same_currency self other in Ok (amount self <? amount other).

Definition le (self other : Amount) : outcome bool :=
  let? _ := same_currency self other in Ok (amount self <=? amount other).

Definition eq (self other : Amount) : outcome bool :=
  let? _ := same_currency self other in Ok (amount self =? amount other).

Definition ne (self other : Amount) : outcome bool :=
  let? b := eq self other in Ok (negb b).

Definition ge (self other : Amount) : outcome bool :=
  let? _ := same_currency self other in Ok (amount other <=? amount self).

Definition gt (self other : Amount) : outcome bool :=
  let? _ := same_currency self other in Ok (amount other <? amount self).

Definition min (self other : Amount) : outcome Amount :=
  let? _ := same_currency self other in
  let? b := le self other in
  Ok (if b then self else other).

Section fixed.
Context `{FX : FixedPoint}.

Definition from_signed_fixed_point (a : Z) (c : CurrencyId) : outcome Amount :=
  let? inner := ok_or (fi_truncate_to_inner a) currency.TryIntoIntError in
  let? b := ok_or (i128_to_u128 inner) currency.TryIntoIntError in
  Ok (new b c).

Definition to_signed_fixed_point (self : Amount) : outcome Z :=
  let? signed_inner := ok_or (u128_to_i128 (amount self)) currency.TryIntoIntError in
  ok_or (fi_checked_from_integer signed_inner) currency.TryIntoIntError.

Definition round_to_target_chain (self : Amount) : outcome Amount :=
  let? rounded_amount := ok_or (round_to_compatible_with_target (amount self))
                           currency.CompatibleRoundingFailed in
  Ok (new rounded_amount (currency_id self)).

Definition checked_fixed_point_mul (self : Amount) (scalar : Z) : outcome Amount :=
  let? a := ok_or (fu_checked_mul_int scalar (amount self)) Underflow in
  Ok (mkAmount a (currency_id self)).

Definition checked_fixed_point_mul_rounded_up (self : Amount) (scalar : Z) : outcome Amount :=
  let? self_fixed_point := ok_or (fu_checked_from_integer (amount self)) currency.TryIntoIntError in
  let? product := ok_or (fu_checked_mul self_fixed_point scalar) Overflow in
  let? x := ok_or (u128_checked_add product DIV) Overflow in
  let? x := ok_or (u128_checked_sub x 1) Underflow in
  let? a := ok_or (u128_checked_div x DIV) Underflow in
  Ok (mkAmount a (currency_id self)).

Definition checked_div (self : Amount) (scalar : Z) : outcome Amount :=
  let? x := ok_or (fu_checked_from_integer (amount self)) currency.TryIntoIntError in
  let? q := ok_or (fu_checked_div x scalar) Overflow in
  let? a := ok_or (fu_truncate_to_inner q) currency.TryIntoIntError in
  Ok (mkAmount a (currency_id self)).

Definition ratio (self other : Amount) : outcome Z :=
  let? _ := same_currency self other in
  ok_or (fu_checked_from_rational (amount self) (amount other)) currency.TryIntoIntError.

Definition rounded_mul (self : Amount) (fraction : Z) : outcome Amount :=
  let? rounding_addition := ok_or (fu_checked_from_rational 1 2) currency.TryIntoIntError in
  let? x := ok_or (fu_checked_from_integer (amount self)) Overflow in
  let? x := ok_or (fu_checked_mul x fraction) Overflow in
  let? x := ok_or (fu_checked_add x rounding_addition) Overflow in
  let? a := ok_or (fu_truncate_to_inner x) currency.TryIntoIntError in
  Ok (mkAmount a (currency_id self)).

End fixed.

Section actions.
Context `{CUR : Currencies}.

Definition transfer (self : Amount) (source destination : AccountId) : M Ledger unit :=
  orml_transfer (currency_id self) source destination (amount self).

Definition lock_on (self : Amount) (who : AccountId) : M Ledger unit :=
  orml_reserve (currency_id self) who (amount self).

Definition unlock_on (self : Amount) (who : AccountId) : M Ledger unit := fun l =>
  let (r, l') := orml_unreserve (currency_id self) who (amount self) l in
  ensure (r =? 0) OrmlBalanceTooLow l'.

Definition burn_from (self : Amount) (who : AccountId) : M Ledger unit := fun l =>
  let (r, l') := orml_slash_reserved (currency_id self) who (amount self) l in
  ensure (r =? 0) OrmlBalanceTooLow l'.

Definition mint_to (self : Amount) (who : AccountId) : M Ledger unit :=
  orml_deposit (currency_id self) who (amount self).

End actions.

Definition map (self : Amount) (f : Balance -> Balance) : Amount :=
  new (f (amount self)) (currency_id self).

End Amount.

Section lib.
Context `{CUR : Currencies}.

Definition get_free_balance (c : CurrencyId) (who : AccountId) (l : Ledger) : Amount :=
  Amount.new (free_balance c who l) c.

Definition get_reserved_balance (c : CurrencyId) (who : AccountId) (l : Ledger) : Amount :=
  Amount.new (reserved_balance c who l) c.

(** [OnSweep for SweepFunds]: the funds go to the treasury account. *)
Definition on_sweep (treasury who : AccountId) (a : Amount) : M Ledger unit :=
  Amount.transfer a who treasury.

End lib.

(** One operation of the loop of [get_amount_from_transaction_envelope]. *)
Definition add_operation (recipient_muxed : MuxedAccount) (recipient_pk : PublicKey)
    (asset : StellarAsset) (transferred_amount : Z) (x : OperationBody) : Z :=
  match x with
  | Payment destination payment_asset amount =>
      if bool_decide (destination = recipient_muxed) && bool_decide (payment_asset = asset)
      then i64_saturating_add transferred_amount amount else transferred_amount
  | CreateClaimableBalance payment_asset amount claimants =>
      if (length claimants =? 1)%nat then
        match claimants !! 0%nat with
        | Some claimant =>
            if bool_decide (claimant_destination claimant = recipient_pk)
               && bool_decide (payment_asset = asset)
               && bool_decide (predicate claimant = ClaimPredicateUnconditional)
            then i64_saturating_add transferred_amount amount else transferred_amount
        | None => transferred_amount
        end
      else transferred_amount
  | _ => transferred_amount
  end.

Definition get_amount_from_transaction_envelope (transaction_envelope : TransactionEnvelope)
    (recipient_stellar_address : StellarPublicKeyRaw) (currency : CurrencyId) : outcome Amount :=
  let? asset := ok_or (asset_lookup currency) currency.AssetConversionError in
  let recipient_account_muxed := KeyTypeEd25519 recipient_stellar_address in
  let recipient_account_pk := PublicKeyTypeEd25519 recipient_stellar_address in
  let tx_operations := envelope_operations transaction_envelope in
  let transferred_amount :=
    fold_left (add_operation recipient_account_muxed recipient_account_pk asset)
      tx_operations 0 in
  Ok (Amount.new (balance_unlookup transferred_amount) currency).

(** ** A concrete ledger *)

Record SimpleLedger := mkLedger {
  sl_free : gmap (CurrencyId * AccountId) Z;
  sl_reserved : gmap (CurrencyId * AccountId) Z;
}.

Definition sl_get_free (c : CurrencyId) (a : AccountId) (l : SimpleLedger) : Z :=
  Z.max 0 (default 0 (sl_free l !! (c, a))).
Definition sl_get_reserved (c : CurrencyId) (a : AccountId) (l : SimpleLedger) : Z :=
  Z.max 0 (default 0 (sl_reserved l !! (c, a))).

Definition of_currency (c : CurrencyId) (k : CurrencyId * AccountId) (x : Z) : Z :=
  if decide (k.1 = c) then Z.max 0 x else 0.

(** What is in circulation: every free and reserved balance. *)
Definition sl_get_issuance (c : CurrencyId) (l : SimpleLedger) : Z :=
  map_sum (of_currency c) (sl_free l) + map_sum (of_currency c) (sl_reserved l).

(** [who]'s free and reserved balance of [c] changed by the given differences. *)
Definition sl_shift (c : CurrencyId) (who : AccountId) (df dr : Z) (l : SimpleLedger)
  : SimpleLedger :=
  mkLedger (<[(c, who) := sl_get_free c who l + df]> (sl_free l))
    (<[(c, who) := sl_get_reserved c who l + dr]> (sl_reserved l)).

Definition sl_transfer (c : CurrencyId) (src dst : AccountId) (x : Z) : M SimpleLedger unit :=
  fun l =>
    if (x <? 0) || (sl_get_free c src l <? x) then (Err (External 0%N), l)
    else (Ok tt, sl_shift c dst x 0 (sl_shift c src (- x) 0 l)).
Definition sl_deposit (c : CurrencyId) (who : AccountId) (x : Z) : M SimpleLedger unit :=
  fun l =>
    if (x <? 0) || (u128_max <? sl_get_issuance c l + x) then (Err (External 1%N), l)
    else (Ok tt, sl_shift c who x 0 l).
Definition sl_reserve (c : CurrencyId) (who : AccountId) (x : Z) : M SimpleLedger unit :=
  fun l =>
    if (x <? 0) || (sl_get_free c who l <? x) then (Err (External 2%N), l)
    else (Ok tt, sl_shift c who (- x) x l).
Definition sl_unreserve (c : CurrencyId) (who : AccountId) (x : Z) (l : SimpleLedger)
  : Z * SimpleLedger :=
  let taken := Z.max 0 (Z.min x (sl_get_reserved c who l)) in
  (x - taken, sl_shift c who taken (- taken) l).
Definition sl_slash_reserved (c : CurrencyId) (who : AccountId) (x : Z) (l : SimpleLedger)
  : Z * SimpleLedger :=
  let taken := Z.max 0 (Z.min x (sl_get_reserved c who l)) in
  (x - taken, sl_shift c who 0 (- taken) l).

Definition SimpleCurrencies : Currencies := {|
  Ledger := SimpleLedger;
  existential_deposit _ := 0;
  free_balance := sl_get_free;
  reserved_balance := sl_get_reserved;
  total_issuance := sl_get_issuance;
  orml_transfer := sl_transfer;
  orml_deposit := sl_deposit;
  orml_reserve := sl_reserve;
  orml_unreserve := sl_unreserve;
  orml_slash_reserved := sl_slash_reserved;
|}.

Lemma sl_shift_free c who df dr l c' a :
  0 <= sl_get_free c who l + df ->
  sl_get_free c' a (sl_shift c who df dr l) =
  sl_get_free c' a l + (if decide (c' = c) then at_account who a df else 0).
Proof.
  intros H. unfold sl_get_free at 1, sl_shift, at_account. simpl.
  destruct (decide (c' = c)) as [->|]; [destruct (decide (a = who)) as [->|]|].
  - rewrite lookup_insert_eq. simpl. lia.
  - rewrite lookup_insert_ne by congruence. unfold sl_get_free. lia.
  - rewrite lookup_insert_ne by congruence. unfold sl_get_free. lia.
Qed.

Lemma sl_shift_reserved c who df dr l c' a :
  0 <= sl_get_reserved c who l + dr ->
  sl_get_reserved c' a (sl_shift c who df dr l) =
  sl_get_reserved c' a l + (if decide (c' = c) then at_account who a dr else 0).
Proof.
  intros H. unfold sl_get_reserved at 1, sl_shift, at_account. simpl.
  destruct (decide (c' = c)) as [->|]; [destruct (decide (a = who)) as [->|]|].
  - rewrite lookup_insert_eq. simpl. lia.
  - rewrite lookup_insert_ne by congruence. unfold sl_get_reserved. lia.
  - rewrite lookup_insert_ne by congruence. unfold sl_get_reserved. lia.
Qed.

Lemma sl_shift_issuance c who df dr l c' :
  0 <= sl_get_free c who l + df -> 0 <= sl_get_reserved c who l + dr ->
  sl_get_issuance c' (sl_shift c who df dr l) =
  sl_get_issuance c' l + (if decide (c' = c) then df + dr else 0).
Proof.
  intros Hf Hr. unfold sl_get_issuance, sl_shift. simpl. rewrite !map_sum_insert.
  unfold entry, of_currency. simpl.
  destruct (decide (c = c')) as [->|]; [rewrite decide_True by done | rewrite decide_False by done].
  - unfold sl_get_free, sl_get_reserved in *.
    destruct (sl_free l !! (c', who)), (sl_reserved l !! (c', who)); simpl in *; lia.
  - destruct (sl_free l !! (c, who)), (sl_reserved l !! (c, who)); lia.
Qed.

Lemma sl_shift_others c who df dr l :
  0 <= sl_get_free c who l + df -> 0 <= sl_get_reserved c who l + dr ->
  same_others (CUR := SimpleCurrencies) c l (sl_shift c who df dr l).
Proof.
  intros Hf Hr c' Hc. cbn. split_and!; intros;
    rewrite ?sl_shift_issuance, ?sl_shift_free, ?sl_shift_reserved by done;
    rewrite decide_False by done; lia.
Qed.

Lemma same_others_refl `{CUR : Currencies} c l : same_others c l l.
Proof. intros c' _. auto. Qed.

Lemma same_others_trans `{CUR : Currencies} c l1 l2 l3 :
  same_others c l1 l2 -> same_others c l2 l3 -> same_others c l1 l3.
Proof.
  intros H1 H2 c' Hc. destruct (H1 c' Hc) as (E1 & A1 & B1).
  destruct (H2 c' Hc) as (E2 & A2 & B2).
  split_and!; intros; etrans; eauto.
Qed.

Lemma sl_nonneg c a l : 0 <= sl_get_free c a l /\ 0 <= sl_get_reserved c a l.
Proof. unfold sl_get_free, sl_get_reserved. lia. Qed.

(** Splits an operation of the concrete ledger on its guard and rewrites the
    balances after it. *)
Ltac sl_solve :=
  repeat match goal with
  | H : (if ?b then _ else _) = _ |- _ => destruct b eqn:?
  | H : (_, _) = (_, _) |- _ => injection H; clear H; intros; subst
  | |- same_others _ ?l ?l => apply same_others_refl
  | |- same_others _ _ _ => apply sl_shift_others
  end.
Ltac sl_balances :=
  split_and!; intros;
  repeat first [ rewrite sl_shift_issuance by lia | rewrite sl_shift_free by lia
               | rewrite sl_shift_reserved by lia ];
  unfold at_account; repeat case_decide; subst; try done; lia.

Lemma sl_transfer_shift c src dst x l :
  (x <? 0) || (sl_get_free c src l <? x) = false ->
  0 <= sl_get_free c src l + - x /\
  0 <= sl_get_free c dst (sl_shift c src (- x) 0 l) + x.
Proof.
  intros H. pose proof (sl_nonneg c dst l).
  assert (0 <= x <= sl_get_free c src l) by lia. split; [lia|].
  rewrite sl_shift_free, decide_True by (done || lia). unfold at_account.
  destruct (decide (dst = src)) as [->|]; lia.
Qed.

#[export] Instance SimpleCurrencies_laws : CurrenciesLaws SimpleCurrencies.
Proof.
  split; cbn; unfold sl_transfer, sl_deposit, sl_reserve, sl_unreserve, sl_slash_reserved.
  - intros c a l. pose proof (sl_nonneg c a l). split_and!; try lia.
    apply Z.add_nonneg_nonneg; apply map_sum_nonneg; intros; unfold of_currency;
      case_decide; lia.
  - intros c a b x l o l' H. pose proof (sl_transfer_shift c a b x l).
    pose proof (sl_nonneg c a l); pose proof (sl_nonneg c b (sl_shift c a (- x) 0 l)).
    sl_solve; eapply same_others_trans; apply sl_shift_others; lia.
  - intros c a x l o l' H. pose proof (sl_nonneg c a l). sl_solve; lia.
  - intros c a x l o l' H. pose proof (sl_nonneg c a l). sl_solve; lia.
  - intros c a x l r l' H. pose proof (sl_nonneg c a l). sl_solve; lia.
  - intros c a x l r l' H. pose proof (sl_nonneg c a l). sl_solve; lia.
  - intros c a b x l l' _ H. pose proof (sl_transfer_shift c a b x l).
    pose proof (sl_nonneg c a l). pose proof (sl_nonneg c b (sl_shift c a (- x) 0 l)).
    sl_solve; [done|]. sl_balances.
  - intros c a x l l' _ H. pose proof (sl_nonneg c a l). sl_solve; [done|].
    sl_balances.
  - intros c a x l l' _ H. pose proof (sl_nonneg c a l). sl_solve; [done|].
    sl_balances.
  - intros c a x l r l' _ H. pose proof (sl_nonneg c a l). sl_solve.
    sl_balances.
  - intros c a x l r l' _ H. pose proof (sl_nonneg c a l). sl_solve.
    sl_balances.
Qed.

(** ** Lemmas on amounts *)

Lemma same_currency_ok x y u :
  Amount.same_currency x y = Ok u -> currency_id x = currency_id y.
Proof. unfold Amount.same_currency. intros H. inv_ok. by apply bool_decide_eq_true in H. Qed.

Lemma same_currency_true x y :
  currency_id x = currency_id y -> Amount.same_currency x y = Ok tt.
Proof. intros. unfold Amount.same_currency. by rewrite bool_decide_true. Qed.

Lemma checked_fn_ok x y f err z :
  Amount.checked_fn x y f err = Ok z ->
  currency_id x = currency_id y /\ currency_id z = currency_id x /\
  f (amount x) (amount y) = Some (amount z).
Proof.
  unfold Amount.checked_fn. destruct (bool_decide _) eqn:E; simpl; intros H; [|done].
  apply bool_decide_eq_true in E. inv_ok. auto.
Qed.

Lemma checked_add_ok x y z :
  Amount.checked_add x y = Ok z ->
  currency_id x = currency_id y /\ currency_id z = currency_id x /\
  amount z = amount x + amount y /\ 0 <= amount z <= u128_max.
Proof.
  intros H. apply checked_fn_ok in H as (? & ? & H). apply fits_Some in H as [-> ?]. auto.
Qed.

Lemma checked_sub_ok x y z :
  Amount.checked_sub x y = Ok z ->
  currency_id x = currency_id y /\ currency_id z = currency_id x /\
  amount z = amount x - amount y /\ 0 <= amount z <= u128_max.
Proof.
  intros H. apply checked_fn_ok in H as (? & ? & H). apply fits_Some in H as [-> ?]. auto.
Qed.

Lemma saturating_sub_ok x y z :
  in_u128 (amount x) -> in_u128 (amount y) -> Amount.saturating_sub x y = Ok z ->
  currency_id x = currency_id y /\ currency_id z = currency_id x /\
  amount z = Z.max 0 (amount x - amount y).
Proof.
  intros Hx Hy. unfold Amount.saturating_sub. intros H. inv_ok.
  apply same_currency_ok in E. split; [done|].
  destruct (Amount.checked_sub x y) eqn:Hs; inv_ok.
  - apply checked_sub_ok in Hs as (? & ? & ? & ?). split; [done|lia].
  - split; [done|]. unfold Amount.checked_sub, Amount.checked_fn in Hs.
    rewrite bool_decide_true in Hs by done. simpl in *.
    destruct (u128_checked_sub (amount x) (amount y)) eqn:Hn; [done|].
    apply fits_None in Hn. unfold in_u128 in *. lia.
Qed.

Lemma min_ok x y z :
  Amount.min x y = Ok z ->
  currency_id x = currency_id y /\ currency_id z = currency_id x /\
  amount z = Z.min (amount x) (amount y).
Proof.
  unfold Amount.min, Amount.le. intros H. inv_ok. apply same_currency_ok in E.
  destruct (amount x <=? amount y) eqn:?; simpl; split_and!; try congruence; lia.
Qed.

(** What a successful comparison says. *)
Lemma le_ok x y b : Amount.le x y = Ok b ->
  currency_id x = currency_id y /\ b = (amount x <=? amount y).
Proof. unfold Amount.le. intros H. inv_ok. by apply same_currency_ok in E. Qed.
Lemma lt_ok x y b : Amount.lt x y = Ok b ->
  currency_id x = currency_id y /\ b = (amount x <? amount y).
Proof. unfold Amount.lt. intros H. inv_ok. by apply same_currency_ok in E. Qed.
Lemma ge_ok x y b : Amount.ge x y = Ok b ->
  currency_id x = currency_id y /\ b = (amount y <=? amount x).
Proof. unfold Amount.ge. intros H. inv_ok. by apply same_currency_ok in E. Qed.
Lemma gt_ok x y b : Amount.gt x y = Ok b ->
  currency_id x = currency_id y /\ b = (amount y <? amount x).
Proof. unfold Amount.gt. intros H. inv_ok. by apply same_currency_ok in E. Qed.
Lemma eq_ok x y b : Amount.eq x y = Ok b ->
  currency_id x = currency_id y /\ b = (amount x =? amount y).
Proof. unfold Amount.eq. intros H. inv_ok. by apply same_currency_ok in E. Qed.

Section ledger_lemmas.
Context `{CUR : Currencies} {LL : CurrenciesLaws CUR}.

Lemma unlock_on_ok a who l u l' :
  Amount.unlock_on a who l = (Ok u, l') ->
  orml_unreserve (currency_id a) who (amount a) l = (0, l').
Proof.
  unfold Amount.unlock_on. destruct (orml_unreserve _ _ _ _) as [r l1] eqn:E.
  intros H. inv_ok. apply Z.eqb_eq in H. by subst.
Qed.

Lemma burn_from_ok a who l u l' :
  Amount.burn_from a who l = (Ok u, l') ->
  orml_slash_reserved (currency_id a) who (amount a) l = (0, l').
Proof.
  unfold Amount.burn_from. destruct (orml_slash_reserved _ _ _ _) as [r l1] eqn:E.
  intros H. inv_ok. apply Z.eqb_eq in H. by subst.
Qed.

(** The effect of each action on the issuance of a currency without dust. *)
Lemma transfer_issuance a src dst c l u l' :
  existential_deposit c = 0 -> Amount.transfer a src dst l = (Ok u, l') ->
  total_issuance c l' = total_issuance c l.
Proof.
  intros Hc H. destruct u. destruct (decide (c = currency_id a)) as [->|Hne].
  - by apply transfer_spec in H as (? & ? & ?).
  - apply transfer_others in H. by destruct (H c Hne).
Qed.

Lemma lock_on_issuance a who c l u l' :
  existential_deposit c = 0 -> Amount.lock_on a who l = (Ok u, l') ->
  total_issuance c l' = total_issuance c l.
Proof.
  intros Hc H. destruct u. destruct (decide (c = currency_id a)) as [->|Hne].
  - by apply reserve_spec in H as (? & ? & ?).
  - apply reserve_others in H. by destruct (H c Hne).
Qed.

Lemma unlock_on_issuance a who c l u l' :
  existential_deposit c = 0 -> Amount.unlock_on a who l = (Ok u, l') ->
  total_issuance c l' = total_issuance c l.
Proof.
  intros Hc H. apply unlock_on_ok in H. destruct (decide (c = currency_id a)) as [->|Hne].
  - by apply unreserve_spec in H as (? & ? & ?).
  - apply unreserve_others in H. by destruct (H c Hne).
Qed.

Lemma burn_from_issuance a who c l u l' :
  existential_deposit c = 0 -> Amount.burn_from a who l = (Ok u, l') ->
  total_issuance c l' =
    total_issuance c l - (if decide (c = currency_id a) then amount a else 0).
Proof.
  intros Hc H. apply burn_from_ok in H. destruct (decide (c = currency_id a)) as [->|Hne].
  - apply slash_reserved_spec in H as (? & -> & ?); auto. lia.
  - apply slash_reserved_others in H. destruct (H c Hne) as (-> & _). lia.
Qed.

Lemma mint_to_issuance a who c l u l' :
  existential_deposit c = 0 -> Amount.mint_to a who l = (Ok u, l') ->
  total_issuance c l' =
    total_issuance c l + (if decide (c = currency_id a) then amount a else 0).
Proof.
  intros Hc H. destruct u. destruct (decide (c = currency_id a)) as [->|Hne].
  - by apply deposit_spec in H as (? & ? & ?).
  - apply deposit_others in H. destruct (H c Hne) as (-> & _). lia.
Qed.

End ledger_lemmas.

(** The runtime and the clients count payments alike. *)
Lemma payment_amount_counted env to c :
  get_amount_from_transaction_envelope env to c =
  match asset_lookup c with
  | Some asset => Ok (Amount.new (get_payment_amount_for_asset_to env to asset) c)
  | None => Err currency.AssetConversionError
  end.
Proof.
  unfold get_amount_from_transaction_envelope.
  destruct (asset_lookup c) as [asset|]; simpl; [|done].
  unfold get_payment_amount_for_asset_to.
  case_bool_decide as He; [by rewrite He|]. do 3 f_equal. clear He.
  generalize (envelope_operations env) 0. intros ops.
  induction ops as [|x ops IH]; intros acc; simpl; [done|]. rewrite IH. f_equal.
  destruct x as [|? ? [|cl [|]]| |]; reflexivity.
Qed.

(** ** Properties *)

(** C37: the amount the runtime reads out of a payment proof and the amount the
    clients read out of the same envelope are the same, for every envelope,
    recipient and currency with a Stellar asset. *)
Theorem payment_amounts_agree env to c :
  get_amount_from_transaction_envelope env to c =
  match asset_lookup c with
  | Some asset => Ok (Amount.new (get_payment_amount_for_asset_to env to asset) c)
  | None => Err currency.AssetConversionError
  end.
Proof. apply payment_amount_counted. Qed.

(** The three multiplications of an amount by a fixed-point rate are the
    exact product rounded down, to the nearest integer (halves up), and up. *)
Theorem amount_multiplications `{FX : FixedPoint} {L : FixedPointLaws FX} a f x y z :
  in_u128 (amount a) -> in_u128 f ->
  Amount.checked_fixed_point_mul a f = Ok x ->
  Amount.rounded_mul a f = Ok y ->
  Amount.checked_fixed_point_mul_rounded_up a f = Ok z ->
  amount x = amount a * f / DIV /\
  amount y = (amount a * f + DIV / 2) / DIV /\
  amount z = (amount a * f + DIV - 1) / DIV /\
  amount x <= amount y <= amount z /\ amount z <= amount x + 1.
Proof.
  intros Ha Hf Hx Hy Hz. pose proof DIV_pos as HD.
  assert (Hprod : amount a * DIV * f / DIV = amount a * f).
  { replace (amount a * DIV * f) with (amount a * f * DIV) by lia. by rewrite Z.div_mul by lia. }
  assert (Qx : amount x = amount a * f / DIV).
  { unfold Amount.checked_fixed_point_mul in Hx. inv_ok. simpl.
    rewrite fu_mul_int_spec in E by (unfold in_u128 in *; lia). apply fits_Some in E as [-> _]. f_equal. lia. }
  assert (Hfi : forall i, fu_checked_from_integer (amount a) = Some i ->
            i = amount a * DIV /\ in_u128 (amount a * DIV)).
  { intros i Hi. rewrite fu_from_integer_spec in Hi by (unfold in_u128 in *; lia). by apply fits_Some in Hi. }
  assert (Qy : amount y = (amount a * f + DIV / 2) / DIV).
  { unfold Amount.rounded_mul in Hy. inv_ok. simpl in *. apply Hfi in E0 as [-> ?].
    rewrite fu_from_rational_spec in E by lia.
    rewrite fu_mul_spec in E1 by (unfold in_u128 in *; lia). apply fits_Some in E1 as [-> Hr].
    assert (a0 = DIV / 2) as ->. { simpl in E. apply fits_Some in E as [-> _]. reflexivity. }
    rewrite fu_add_spec in E2.
    apply fits_Some in E2 as [-> _]. unfold fu_truncate_to_inner, u128_checked_div in E3.
    simpl in E3. injection E3 as <-. by rewrite Hprod. }
  assert (Qz : amount z = (amount a * f + DIV - 1) / DIV).
  { unfold Amount.checked_fixed_point_mul_rounded_up in Hz. inv_ok. simpl in *.
    apply Hfi in E as [-> ?]. rewrite fu_mul_spec in E0 by (unfold in_u128 in *; lia).
    apply fits_Some in E0 as [-> Hr]. apply fits_Some in E1 as [-> _].
    apply fits_Some in E2 as [-> _]. unfold u128_checked_div in E3. simpl in E3.
    injection E3 as <-. by rewrite Hprod. }
  split_and!; try done; rewrite ?Qx, ?Qy, ?Qz, ?half_DIV;
    try apply Z.div_le_mono; try (unfold DIV; lia).
  rewrite <- Z.div_add by lia. apply Z.div_le_mono; lia.
Qed.

Lemma amount_multiplications_witness :
  3 = 7 * (DIV / 2) / DIV /\ 4 = (7 * (DIV / 2) + DIV / 2) / DIV /\
  4 = (7 * (DIV / 2) + DIV - 1) / DIV /\ 3 <= 4 <= 4 /\ 4 <= 3 + 1.
Proof.
  apply (amount_multiplications (FX := FixedFloor) (mkAmount 7 Native) (DIV / 2)
    (mkAmount 3 Native) (mkAmount 4 Native) (mkAmount 4 Native));
    [unfold in_u128, u128_max; simpl; lia | vm_compute; split; discriminate
    | reflexivity | reflexivity | reflexivity].
Defined.
