(* ===== verification/Security.v ===== *)
(** * The security pallet

    [src/pallets/security/src/lib.rs] and [types.rs]: the status of the
    parachain, the set of errors behind an [Error] status, the counter of
    active blocks that measures request expiry, and the generator of request
    identifiers.

    The result of the FRAME check of an extrinsic's origin ([ensure_root]) is
    an argument of the extrinsic; SHA-256 is a parameter. *)

From S2P Require Import Prelude.

(** ** Data *)

Inductive StatusCode := Running | Error | Shutdown.

Inductive ErrorCode := ErrorCode_None | OracleOffline.

#[export] Instance StatusCode_eq_dec : EqDecision StatusCode.
Proof. solve_decision. Defined.
#[export] Instance ErrorCode_eq_dec : EqDecision ErrorCode.
Proof. solve_decision. Defined.
#[export] Instance ErrorCode_countable : Countable ErrorCode.
Proof.
  refine (inj_countable' (fun c => match c with ErrorCode_None => 0%N | OracleOffline => 1%N end)
    (fun n => match n with 0%N => ErrorCode_None | _ => OracleOffline end) _).
  by intros [].
Defined.

Record SecurityState := mkSecurity {
  ParachainStatus : StatusCode;
  Errors : gset ErrorCode;
  Nonce : Z;              (* U256 *)
  ActiveBlockCount : BlockNumber;
}.

Definition set_ParachainStatus (v : StatusCode) (s : SecurityState) : SecurityState :=
  mkSecurity v (Errors s) (Nonce s) (ActiveBlockCount s).
Definition set_Errors (v : gset ErrorCode) (s : SecurityState) : SecurityState :=
  mkSecurity (ParachainStatus s) v (Nonce s) (ActiveBlockCount s).
Definition set_Nonce (v : Z) (s : SecurityState) : SecurityState :=
  mkSecurity (ParachainStatus s) (Errors s) v (ActiveBlockCount s).
Definition set_ActiveBlockCount (v : BlockNumber) (s : SecurityState) : SecurityState :=
  mkSecurity (ParachainStatus s) (Errors s) (Nonce s) v.

(** ** Internal functions *)

Definition ensure_parachain_status_running : M SecurityState unit :=
  let* st := gets ParachainStatus in
  if decide (st = Running) then ret tt else throw security.ParachainNotRunning.

Definition is_parachain_shutdown : M SecurityState bool :=
  gets (fun s => bool_decide (ParachainStatus s = Shutdown)).

Definition is_parachain_error_oracle_offline : M SecurityState bool :=
  gets (fun s => bool_decide (ParachainStatus s = Error) && bool_decide (OracleOffline ∈ Errors s)).

Definition set_status (status_code : StatusCode) : M SecurityState unit :=
  modify (set_ParachainStatus status_code).

Definition get_errors : M SecurityState (gset ErrorCode) := gets Errors.

Definition insert_error (error_code : ErrorCode) : M SecurityState unit :=
  modify (fun s => set_Errors ({[error_code]} ∪ Errors s) s).

Definition remove_error (error_code : ErrorCode) : M SecurityState unit :=
  modify (fun s => set_Errors (Errors s ∖ {[error_code]}) s).

Definition active_block_number : M SecurityState BlockNumber := gets ActiveBlockCount.

Definition parachain_block_expired (opentime period : BlockNumber) : M SecurityState bool :=
  let* expiration_block := lift (ok_or (u32_checked_add opentime period) Overflow) in
  let* now := active_block_number in
  ret (expiration_block <? now).

Definition recover_from_ (error_codes : list ErrorCode) : M SecurityState unit :=
  for_each error_codes remove_error ;;;
  let* errors := get_errors in
  if decide (errors = ∅) then set_status Running else ret tt.

Definition recover_from_oracle_offline : M SecurityState unit :=
  recover_from_ [OracleOffline].

(** [overflowing_add] on [U256]. *)
Definition get_nonce : M SecurityState Z :=
  modify (fun s => set_Nonce ((Nonce s + 1) mod 2 ^ 256) s) ;;;
  gets Nonce.

Definition increment_active_block : M SecurityState unit :=
  let* st := gets ParachainStatus in
  if decide (st = Running)
  then modify (fun s => set_ActiveBlockCount (u32_saturating_add (ActiveBlockCount s) 1) s)
  else ret tt.

(** What [frame_system] says of the block and the extrinsic being executed. *)
Record SystemContext := mkSystemContext {
  extrinsic_index : option Z;
  parent_hash : H256;
}.

Definition secure_id_preimage (sys : SystemContext) (nonce : Z) : Bytes :=
  le_bytes 4 (default 0 (extrinsic_index sys)) ++ le_bytes 32 nonce ++ parent_hash sys.

Definition get_secure_id (sha256 : Bytes -> H256) (sys : SystemContext)
  : M SecurityState H256 :=
  let* nonce := get_nonce in
  ret (sha256 (secure_id_preimage sys nonce)).

(** ** Hooks, extrinsics and genesis *)

Definition on_initialize : M SecurityState unit := increment_active_block.

Definition set_parachain_status (ensure_root : outcome unit) (status_code : StatusCode)
  : M SecurityState unit :=
  transactional (lift ensure_root ;;; set_status status_code).

Definition insert_parachain_error (ensure_root : outcome unit) (error_code : ErrorCode)
  : M SecurityState unit :=
  transactional (lift ensure_root ;;; insert_error error_code).

Definition remove_parachain_error (ensure_root : outcome unit) (error_code : ErrorCode)
  : M SecurityState unit :=
  transactional (lift ensure_root ;;; remove_error error_code).

Definition default_security : SecurityState := mkSecurity Running ∅ 0 0.

Definition build_genesis (initial_status : StatusCode) : M SecurityState unit :=
  set_status initial_status ;;; insert_error OracleOffline.

(** ** Runs of the pallet

    Everything that can change the pallet's storage, as calls that can be
    interleaved in any order: the hook, the root extrinsics, the recovery the
    oracle triggers and the identifiers the request pallets draw. *)

Inductive SecurityCall :=
| OnInitialize
| SetParachainStatus (auth : outcome unit) (c : StatusCode)
| InsertParachainError (auth : outcome unit) (c : ErrorCode)
| RemoveParachainError (auth : outcome unit) (c : ErrorCode)
| RecoverFromOracleOffline
| DrawSecureId (sys : SystemContext).

Definition exec (sha256 : Bytes -> H256) (c : SecurityCall) : M SecurityState (option H256) :=
  match c with
  | OnInitialize => on_initialize ;;; ret None
  | SetParachainStatus auth st => set_parachain_status auth st ;;; ret None
  | InsertParachainError auth e => insert_parachain_error auth e ;;; ret None
  | RemoveParachainError auth e => remove_parachain_error auth e ;;; ret None
  | RecoverFromOracleOffline => recover_from_oracle_offline ;;; ret None
  | DrawSecureId sys => let* h := get_secure_id sha256 sys in ret (Some h)
  end.

#[global] Arguments exec sha256 c : simpl never.

(** A failed call does not stop the chain. *)
Fixpoint run (sha256 : Bytes -> H256) (calls : list SecurityCall) (s : SecurityState)
  : SecurityState :=
  match calls with
  | [] => s
  | c :: calls' => run sha256 calls' (snd (exec sha256 c s))
  end.

(** What each identifier of a run is the hash of. *)
Fixpoint preimages (sha256 : Bytes -> H256) (calls : list SecurityCall) (s : SecurityState)
  : list Bytes :=
  match calls with
  | [] => []
  | c :: calls' =>
      let s' := snd (exec sha256 c s) in
      let rest := preimages sha256 calls' s' in
      match c with
      | DrawSecureId sys => secure_id_preimage sys (Nonce s') :: rest
      | _ => rest
      end
  end.

(** ** Lemmas *)

Lemma set_status_nonce c : preserves Nonce (set_status c).
Proof. unfold set_status. solve_frame. Qed.
Lemma insert_error_nonce c : preserves Nonce (insert_error c).
Proof. unfold insert_error. solve_frame. Qed.
Lemma remove_error_nonce c : preserves Nonce (remove_error c).
Proof. unfold remove_error. solve_frame. Qed.
Lemma set_status_active c : preserves ActiveBlockCount (set_status c).
Proof. unfold set_status. solve_frame. Qed.
Lemma insert_error_active c : preserves ActiveBlockCount (insert_error c).
Proof. unfold insert_error. solve_frame. Qed.
Lemma remove_error_active c : preserves ActiveBlockCount (remove_error c).
Proof. unfold remove_error. solve_frame. Qed.

#[export] Hint Resolve set_status_nonce insert_error_nonce remove_error_nonce
  set_status_active insert_error_active remove_error_active : frame.

Lemma recover_from_nonce l : preserves Nonce (recover_from_ l).
Proof. unfold recover_from_, get_errors. solve_frame. Qed.
Lemma recover_from_active l : preserves ActiveBlockCount (recover_from_ l).
Proof. unfold recover_from_, get_errors. solve_frame. Qed.
Lemma increment_active_block_nonce : preserves Nonce increment_active_block.
Proof. unfold increment_active_block. solve_frame. Qed.

#[export] Hint Resolve recover_from_nonce recover_from_active
  increment_active_block_nonce : frame.

Lemma exec_nonce sha256 c s :
  Nonce (snd (exec sha256 c s)) =
  match c with DrawSecureId _ => (Nonce s + 1) mod 2 ^ 256 | _ => Nonce s end.
Proof.
  destruct c as [|auth c|auth c|auth c| |sys]; [..|reflexivity]; revert s;
    match goal with |- forall s, Nonce (snd (?m s)) = _ =>
      change (preserves Nonce m) end;
    unfold exec, on_initialize, set_parachain_status, insert_parachain_error,
      remove_parachain_error, recover_from_oracle_offline; solve_frame.
Qed.

Lemma exec_active sha256 c s :
  ActiveBlockCount (snd (exec sha256 c s)) =
  match c with
  | OnInitialize => if decide (ParachainStatus s = Running)
                    then u32_saturating_add (ActiveBlockCount s) 1 else ActiveBlockCount s
  | _ => ActiveBlockCount s
  end.
Proof.
  destruct c as [|auth c|auth c|auth c| |sys]; [|revert s..|reflexivity];
    try match goal with |- forall s, ActiveBlockCount (snd (?m s)) = _ =>
      change (preserves ActiveBlockCount m);
      unfold exec, set_parachain_status, insert_parachain_error,
        remove_parachain_error, recover_from_oracle_offline; solve_frame end.
  unfold exec, on_initialize, increment_active_block, bind, gets, modify, ret.
  simpl. by destruct (decide _).
Qed.

Lemma run_active_le sha256 calls s :
  ActiveBlockCount s <= u32_max ->
  ActiveBlockCount s <= ActiveBlockCount (run sha256 calls s) <= u32_max.
Proof.
  revert s. induction calls as [|c calls IH]; intros s Hs; simpl; [lia|].
  assert (H : ActiveBlockCount s <= ActiveBlockCount (snd (exec sha256 c s)) <= u32_max).
  { rewrite exec_active. destruct c; try lia.
    destruct (decide _); unfold u32_saturating_add; lia. }
  specialize (IH _ (proj2 H)). lia.
Qed.

Lemma secure_id_preimage_inj sys1 sys2 n1 n2 :
  0 <= n1 < 2 ^ 256 -> 0 <= n2 < 2 ^ 256 ->
  secure_id_preimage sys1 n1 = secure_id_preimage sys2 n2 -> n1 = n2.
Proof.
  intros H1 H2 E. unfold secure_id_preimage in E.
  apply app_inj_1 in E as [_ E]; [|by rewrite !length_le_bytes].
  apply app_inj_1 in E as [E _]; [|by rewrite !length_le_bytes].
  apply le_bytes_inj in E; auto.
Qed.

(** Every preimage of a run carries one of the nonces that follow the first. *)
Lemma preimages_spec sha256 calls s p :
  0 <= Nonce s < 2 ^ 256 -> p ∈ preimages sha256 calls s ->
  exists i sys, 1 <= i <= Z.of_nat (length (preimages sha256 calls s)) /\
    p = secure_id_preimage sys ((Nonce s + i) mod 2 ^ 256).
Proof.
  revert s. induction calls as [|c calls IH]; intros s Hs Hp; simpl in Hp;
    [by apply not_elem_of_nil in Hp|].
  assert (Hs' : 0 <= Nonce (snd (exec sha256 c s)) < 2 ^ 256).
  { rewrite exec_nonce. destruct c; auto. by apply Z.mod_pos_bound. }
  specialize (IH _ Hs').
  assert (Hn := exec_nonce sha256 c s).
  destruct c as [|auth c|auth c|auth c| |sys]; cbn [preimages length];
    try (specialize (IH Hp); by rewrite Hn in IH).
  apply elem_of_cons in Hp as [->|Hp].
  - exists 1, sys. rewrite Hn. split; [lia|done].
  - destruct (IH Hp) as (i & sys' & Hi & ->). exists (i + 1), sys'.
    split; [lia|]. rewrite Hn, Zplus_mod_idemp_l. do 2 f_equal. lia.
Qed.

(** ** Properties *)

(** A request that has expired stays expired.  Whatever the chain does
    next, in any order (status changes, recoveries, new blocks, further
    requests), [parachain_block_expired] keeps answering [true]. *)
Theorem expired_stays_expired sha256 calls s opentime period :
  ActiveBlockCount s <= u32_max ->
  fst (parachain_block_expired opentime period s) = Ok true ->
  fst (parachain_block_expired opentime period (run sha256 calls s)) = Ok true.
Proof.
  intros Hs. pose proof (run_active_le sha256 calls s Hs) as Hle.
  unfold parachain_block_expired, active_block_number, bind, lift, gets, ret.
  destruct (u32_checked_add opentime period) as [e|]; simpl; [|discriminate].
  intros [= H]. f_equal. lia.
Qed.

Definition witness_security : SecurityState := mkSecurity Running ∅ 0 11.

Lemma expired_stays_expired_witness :
  fst (parachain_block_expired 4 6
    (run (fun b => b) [OnInitialize; SetParachainStatus (Ok tt) Shutdown; OnInitialize]
       witness_security)) = Ok true.
Proof. apply expired_stays_expired; [unfold u32_max; simpl; lia | reflexivity]. Defined.

(** Request identifiers are hashes of pairwise different preimages: in a
    run that draws at most 2^256 identifiers no preimage repeats, whatever the
    extrinsic indices and parent hashes are (in particular if they repeat). *)
Theorem secure_id_preimages_distinct sha256 calls s :
  0 <= Nonce s < 2 ^ 256 ->
  Z.of_nat (length (preimages sha256 calls s)) <= 2 ^ 256 ->
  NoDup (preimages sha256 calls s).
Proof.
  revert s. induction calls as [|c calls IH]; intros s Hs Hl; [constructor|].
  assert (Hn := exec_nonce sha256 c s).
  assert (Hs' : 0 <= Nonce (snd (exec sha256 c s)) < 2 ^ 256).
  { rewrite Hn. destruct c; auto. by apply Z.mod_pos_bound. }
  specialize (IH _ Hs'). cbn [preimages] in Hl |- *.
  destruct c as [|auth c|auth c|auth c| |sys]; auto.
  cbn [length] in Hl. constructor; [|apply IH; lia].
  intros Hp. destruct (preimages_spec _ _ _ _ Hs' Hp) as (i & sys' & Hi & E).
  apply secure_id_preimage_inj in E; [|done|by apply Z.mod_pos_bound].
  set (n := Nonce (snd (exec sha256 (DrawSecureId sys) s))) in *.
  assert (Hi' : 1 <= i < 2 ^ 256) by lia. clear - E Hs' Hi'.
  destruct (Z_lt_ge_dec (n + i) (2 ^ 256)).
  - rewrite Z.mod_small in E; lia.
  - rewrite <- (Z_mod_plus_full _ (-1)), Z.mod_small in E; lia.
Qed.

Lemma secure_id_preimages_distinct_witness :
  NoDup (preimages (fun b => b)
    [DrawSecureId (mkSystemContext (Some 1) []); DrawSecureId (mkSystemContext (Some 1) [])]
    witness_security).
Proof. apply secure_id_preimages_distinct; [simpl; lia | simpl; lia]. Defined.
