(* ===== verification/Oracle.v ===== *)
(** * The oracle pallet

    [src/pallets/oracle/src/lib.rs] and [dia.rs]: the block hook that reports
    whether every configured price is fresh, the conversion of amounts between
    currencies, and the translation of oracle keys to and from the keys of the
    DIA price feed.

    The price feed ([T::DataProvider]) and the clock ([pallet_timestamp]) are
    external: the prices and the time they give are part of the storage the
    functions read. *)

From S2P Require Import Prelude FixedPoint Primitives Currency Security.

(** ** Storage *)

(** [OracleKey::ExchangeRate(currency_id)] *)
Inductive OracleKey := ExchangeRate (currency_id : CurrencyId).

#[export] Instance OracleKey_eq_dec : EqDecision OracleKey.
Proof. solve_decision. Defined.
#[export] Instance OracleKey_countable : Countable OracleKey.
Proof.
  refine (inj_countable' (fun '(ExchangeRate c) => c) ExchangeRate _). by intros [].
Defined.

Record TimestampedValue := mkTimestamped { value : Z; timestamp : Z }.

Record OracleStorage := mkOracle {
  MaxDelay : Z;                                   (* u64 *)
  OracleKeys : list OracleKey;
  data_provider : gmap OracleKey TimestampedValue;
  now : Z;                                        (* u64 *)
}.

Definition set_MaxDelay (v : Z) (s : OracleStorage) : OracleStorage :=
  mkOracle v (OracleKeys s) (data_provider s) (now s).
Definition set_OracleKeys (v : list OracleKey) (s : OracleStorage) : OracleStorage :=
  mkOracle (MaxDelay s) v (data_provider s) (now s).

(** The pallet reads and writes the security pallet's storage. *)
Record OracleState := mkOracleState { sec : SecurityState; orc : OracleStorage }.

Definition set_sec (v : SecurityState) (s : OracleState) : OracleState := mkOracleState v (orc s).
Definition set_orc (v : OracleStorage) (s : OracleState) : OracleState := mkOracleState (sec s) v.

Definition on_security {A} (m : M SecurityState A) : M OracleState A := zoom sec set_sec m.

Definition USD_DECIMALS : Z := 12.

(** ** The block hook *)

Definition get_timestamped (key : OracleKey) (s : OracleState) : option TimestampedValue :=
  data_provider (orc s) !! key.

(** [price.timestamp + max_delay] is a plain [u64] addition. *)
Definition is_outdated (s : OracleState) (price : TimestampedValue) : bool :=
  (timestamp price + MaxDelay (orc s)) mod 2 ^ 64 <? now (orc s).

Definition updated_items (s : OracleState) : list (OracleKey * Z) :=
  foldr (fun key items =>
    match get_timestamped key s with
    | None => items
    | Some price => if is_outdated s price then items else (key, value price) :: items
    end) [] (OracleKeys (orc s)).

Definition is_oracle_online (s : OracleState) : bool :=
  negb (bool_decide (OracleOffline ∈ Errors (sec s))).

Definition report_oracle_offline : M OracleState unit :=
  on_security (set_status Error) ;;; on_security (insert_error OracleOffline).

Definition begin_block : M OracleState unit :=
  let* oracle_keys := gets (fun s => OracleKeys (orc s)) in
  let* updated_items_len := gets (fun s => length (updated_items s)) in
  let* current_status_is_online := gets is_oracle_online in
  let new_status_is_online :=
    negb (bool_decide (oracle_keys = [])) && (0 <? updated_items_len)%nat
    && (updated_items_len =? length oracle_keys)%nat in
  if negb (Bool.eqb current_status_is_online new_status_is_online) then
    if new_status_is_online then on_security recover_from_oracle_offline
    else report_oracle_offline
  else ret tt.

(** ** Extrinsics *)

Definition update_oracle_keys (ensure_root : outcome unit) (oracle_keys : list OracleKey)
  : M OracleState unit :=
  transactional (lift ensure_root ;;; modify (fun s => set_orc (set_OracleKeys oracle_keys (orc s)) s)).

Definition set_max_delay (ensure_root : outcome unit) (new_max_delay : Z) : M OracleState unit :=
  transactional (lift ensure_root ;;; modify (fun s => set_orc (set_MaxDelay new_max_delay (orc s)) s)).

(** ** Prices *)

Section prices.
Context `{FX : FixedPoint} (decimals : CurrencyId -> Z).

Definition get_price (key : OracleKey) : M OracleState Z :=
  on_security ensure_parachain_status_running ;;;
  let* price := gets (get_timestamped key) in
  match price with
  | None => throw oracle.MissingExchangeRate
  | Some p => ret (value p)
  end.

Definition get_exchange_rate (currency_id : CurrencyId) : M OracleState Z :=
  get_price (ExchangeRate currency_id).

Definition convert_amount (from_amount : Balance) (from_price to_price from_decimals to_decimals : Z)
  : outcome Balance :=
  if from_amount =? 0 then Ok 0
  else if to_decimals <? from_decimals then
    let? x := ok_or (fu_checked_mul from_price from_amount) Overflow in
    let? y := ok_or (fu_checked_div x to_price) Underflow in
    let? f := ok_or (fu_checked_from_integer (10 ^ (from_decimals - to_decimals)))
                oracle.TryIntoIntError in
    ok_or (fu_checked_div y f) Underflow
  else
    let? x := ok_or (fu_checked_mul from_price from_amount) Overflow in
    let? f := ok_or (fu_checked_from_integer (10 ^ (to_decimals - from_decimals)))
                oracle.TryIntoIntError in
    let? y := ok_or (fu_checked_mul x f) Overflow in
    ok_or (fu_checked_div y to_price) Underflow.

Definition convert (a : Amount) (c : CurrencyId) : M OracleState Amount :=
  if bool_decide (currency_id a = c) then ret (Amount.new (amount a) c)
  else
    let* from_price := get_price (ExchangeRate (currency_id a)) in
    let* to_price := get_price (ExchangeRate c) in
    let* converted := lift (convert_amount (amount a) from_price to_price
                              (decimals (currency_id a)) (decimals c)) in
    ret (Amount.new converted c).

(** [UnsignedFixedPoint::one()] *)
Definition fu_one : Z := DIV.

Definition currency_to_usd (a : Balance) (c : CurrencyId) : M OracleState Balance :=
  let* asset_rate := get_price (ExchangeRate c) in
  lift (convert_amount a asset_rate fu_one (decimals c) USD_DECIMALS).

Definition usd_to_currency (a : Balance) (c : CurrencyId) : M OracleState Balance :=
  let* asset_rate := get_price (ExchangeRate c) in
  lift (convert_amount a fu_one asset_rate USD_DECIMALS (decimals c)).

End prices.

(** ** DIA keys *)

Definition ascii_upper (b : Z) : Z := if (97 <=? b) && (b <=? 122) then b - 32 else b.
Definition to_ascii_uppercase (l : Bytes) : Bytes := map ascii_upper l.

Definition STELLAR_DIA_BLOCKCHAIN : Bytes := [83; 116; 101; 108; 108; 97; 114].
Definition STELLAR_DIA_SYMBOL : Bytes := [88; 76; 77].
Definition FIAT_DIA_BLOCKCHAIN : Bytes := [70; 73; 65; 84].
Definition TARGET_QUOTE : Bytes := [85; 83; 68].

Definition construct_fiat_usd_symbol_for_currency (base : Bytes) : Bytes :=
  let base_currency :=
    if bool_decide (to_ascii_uppercase base = [85; 83; 68; 67]) then [85; 83; 68]
    else if bool_decide (to_ascii_uppercase base = [69; 85; 82; 67]) then [69; 85; 82]
    else if bool_decide (to_ascii_uppercase base = [65; 85; 68; 68]) then [65; 85; 68]
    else if bool_decide (to_ascii_uppercase base = [78; 71; 78; 67]) then [78; 71; 78]
    else remove_trailing_non_alphanum_bytes (to_ascii_uppercase base) in
  base_currency ++ [45] ++ TARGET_QUOTE.

(** [NativeCurrencyKey] and [XCMCurrencyConversion], which the runtime provides. *)
Class DiaKeys := {
  native_symbol : Bytes;
  native_chain : Bytes;
  convert_to_dia_currency_id : Z -> option (Bytes * Bytes);
  convert_from_dia_currency_id : Bytes -> Bytes -> option Z;
}.

Definition dia_key_of `{DiaKeys} (key : OracleKey) : option (Bytes * Bytes) :=
  let 'ExchangeRate currency_id := key in
  match currency_id with
  | XCM token_symbol => convert_to_dia_currency_id token_symbol
  | Native => Some (native_chain, native_symbol)
  | Stellar StellarNative => Some (STELLAR_DIA_BLOCKCHAIN, STELLAR_DIA_SYMBOL)
  | Stellar (AlphaNum4 code _) =>
      Some (FIAT_DIA_BLOCKCHAIN, construct_fiat_usd_symbol_for_currency code)
  | Stellar (AlphaNum12 _ _) | ZenlinkLPToken _ _ _ _ => None
  | Token _ => None
  end.

(** [symbol.try_into().unwrap()] panics unless the symbol has four bytes. *)
Definition key_of_dia `{DiaKeys} (blockchain symbol : Bytes) : outcome (option OracleKey) :=
  match convert_from_dia_currency_id blockchain symbol with
  | Some xcm_currency_id => Ok (Some (ExchangeRate (XCM xcm_currency_id)))
  | None =>
      if bool_decide (blockchain = native_chain) && bool_decide (symbol = native_symbol)
      then Ok (Some (ExchangeRate Native))
      else if bool_decide (blockchain = STELLAR_DIA_BLOCKCHAIN)
              && bool_decide (symbol = STELLAR_DIA_SYMBOL)
      then Ok (Some (ExchangeRate (Stellar StellarNative)))
      else if bool_decide (blockchain = FIAT_DIA_BLOCKCHAIN) then
        if (length symbol =? 4)%nat
        then Ok (Some (ExchangeRate (Stellar (AlphaNum4 symbol (replicate 32 0)))))
        else Panic
      else Ok None
  end.

(** ** Properties *)

(** Every configured key has a price that is not outdated. *)
Definition all_fresh (s : OracleState) : Prop :=
  OracleKeys (orc s) <> [] /\
  Forall (fun key => exists price, get_timestamped key s = Some price /\ is_outdated s price = false)
    (OracleKeys (orc s)).

Lemma updated_items_fresh s :
  (length (updated_items s) <= length (OracleKeys (orc s)))%nat /\
  (length (updated_items s) = length (OracleKeys (orc s)) <->
   Forall (fun key => exists price, get_timestamped key s = Some price /\ is_outdated s price = false)
     (OracleKeys (orc s))).
Proof.
  unfold updated_items. induction (OracleKeys (orc s)) as [|key keys [IHle IH]]; simpl; [done|].
  rewrite Forall_cons_iff. destruct (get_timestamped key s) as [price|] eqn:E.
  - destruct (is_outdated s price) eqn:Ho; simpl.
    + split; [lia|]. split; [lia|]. intros [(p & [= <-] & Hp) _]. congruence.
    + split; [lia|]. rewrite <- IH. split; [intros; split; [eauto|lia] | intros [_ ?]; lia].
  - split; [lia|]. split; [lia|]. intros [(p & ? & _) _]. done.
Qed.

Lemma new_status_fresh s :
  negb (bool_decide (OracleKeys (orc s) = [])) && (0 <? length (updated_items s))%nat
    && (length (updated_items s) =? length (OracleKeys (orc s)))%nat = true <-> all_fresh s.
Proof.
  pose proof (updated_items_fresh s) as [Hle Hf]. unfold all_fresh.
  destruct (OracleKeys (orc s)) as [|key keys] eqn:E.
  - rewrite bool_decide_true by done. simpl. split; [done|]. by intros [? _].
  - rewrite bool_decide_false by done. simpl negb. cbn [andb]. rewrite <- Hf.
    rewrite andb_true_iff, Nat.ltb_lt, Nat.eqb_eq. simpl in *.
    split; [intros [? ?]; split; [done|lia] | intros [_ ?]; split; lia].
Qed.

(** After the block hook the oracle counts as offline exactly if some
    configured price is missing or outdated, or none is configured; the status
    moves to [Error] when the oracle goes offline, and to [Running] when it
    comes back and no other error is left, whatever the status was. *)
Theorem begin_block_reports s :
  exists s', begin_block s = (Ok tt, s') /\ orc s' = orc s /\
    (OracleOffline ∉ Errors (sec s') <-> all_fresh s) /\
    (OracleOffline ∉ Errors (sec s) -> all_fresh s -> s' = s) /\
    (OracleOffline ∈ Errors (sec s) -> ~ all_fresh s -> s' = s) /\
    (OracleOffline ∉ Errors (sec s) -> ~ all_fresh s -> ParachainStatus (sec s') = Error) /\
    (OracleOffline ∈ Errors (sec s) -> all_fresh s ->
       ParachainStatus (sec s') =
         if decide (Errors (sec s) ∖ {[OracleOffline]} = ∅) then Running
         else ParachainStatus (sec s)).
Proof.
  unfold begin_block. rewrite !gets_run. pose proof (new_status_fresh s) as Hf.
  unfold is_oracle_online. set (fresh := negb _ && _ && _) in *. clearbody fresh.
  destruct (decide (OracleOffline ∈ Errors (sec s))) as [Hoff|Hon].
  - rewrite bool_decide_true by done. destruct fresh; simpl.
    + assert (all_fresh s) by (by apply Hf). clear Hf.
      unfold on_security, zoom, recover_from_oracle_offline, recover_from_, remove_error, get_errors,
        set_status, for_each, bind, gets, modify, ret. simpl.
      destruct (decide (Errors (sec s) ∖ {[OracleOffline]} = ∅)) as [He|He]; simpl;
        eexists; (split; [reflexivity|]); simpl; split_and!; try done;
        rewrite not_elem_of_difference, elem_of_singleton; tauto.
    + assert (~ all_fresh s) by (rewrite <- Hf; done).
      eexists. split; [reflexivity|]. split_and!; try done; tauto.
  - rewrite bool_decide_false by done. destruct fresh; simpl.
    + assert (all_fresh s) by (by apply Hf).
      eexists. split; [reflexivity|]. split_and!; try done; tauto.
    + assert (~ all_fresh s) by (rewrite <- Hf; done). clear Hf.
      eexists. split; [reflexivity|]. split_and!; simpl; try done; set_solver.
Qed.

Section conversion.
Context `{FX : FixedPoint} {L : FixedPointLaws FX}.

(** A successful conversion is at most the exact value. *)
Lemma convert_amount_le a p q df dt r :
  0 <= a -> 0 <= p -> 0 < q -> 0 <= df -> 0 <= dt -> convert_amount a p q df dt = Ok r ->
  0 <= r /\ r * q * 10 ^ df <= a * p * 10 ^ dt.
Proof.
  intros Ha Hp Hq Hdf Hdt. unfold convert_amount. pose proof DIV_pos as HD.
  destruct (a =? 0) eqn:Ha0; [intros; inv_ok; lia|].
  destruct (dt <? df) eqn:Hlt; intros H; inv_ok.
  - assert (Hk : 0 < 10 ^ (df - dt)) by (apply Z.pow_pos_nonneg; lia).
    rewrite fu_mul_spec in E by lia. apply fits_Some in E as [-> [Hx _]].
    rewrite fu_div_spec in E0 by lia. destruct (q =? 0) eqn:?; [lia|].
    apply fits_Some in E0 as [-> [Hy _]].
    rewrite fu_from_integer_spec in E1 by lia. apply fits_Some in E1 as [-> _].
    rewrite fu_div_spec in H by nia. destruct (10 ^ (df - dt) * DIV =? 0) eqn:?; [nia|].
    apply fits_Some in H as [-> [Hr _]]. split; [done|].
    rewrite Z.div_mul_cancel_r in * by lia.
    set (x := p * a / DIV) in *. set (y := x * DIV / q) in *. set (z := y / 10 ^ (df - dt)) in *.
    assert (z * 10 ^ (df - dt) <= y) by (rewrite Z.mul_comm; apply Z.mul_div_le; lia).
    assert (y * q <= x * DIV) by (rewrite Z.mul_comm; apply Z.mul_div_le; lia).
    assert (x * DIV <= p * a) by (rewrite Z.mul_comm; apply Z.mul_div_le; lia).
    replace (10 ^ df) with (10 ^ (df - dt) * 10 ^ dt) by (rewrite <- Z.pow_add_r by lia; f_equal; lia).
    assert (0 < 10 ^ dt) by (apply Z.pow_pos_nonneg; lia).
    assert (z * q * 10 ^ (df - dt) <= a * p) by nia. nia.
  - assert (Hk : 0 < 10 ^ (dt - df)) by (apply Z.pow_pos_nonneg; lia).
    rewrite fu_mul_spec in E by lia. apply fits_Some in E as [-> [Hx _]].
    rewrite fu_from_integer_spec in E0 by lia. apply fits_Some in E0 as [-> _].
    rewrite fu_mul_spec in E1 by nia. apply fits_Some in E1 as [-> [Hy _]].
    rewrite fu_div_spec in H by lia. destruct (q =? 0) eqn:?; [lia|].
    apply fits_Some in H as [-> [Hr _]]. split; [done|].
    set (x := p * a / DIV) in *.
    replace (x * (10 ^ (dt - df) * DIV) / DIV) with (x * 10 ^ (dt - df)) in *
      by (rewrite Z.mul_assoc, Z.div_mul; lia).
    set (y := x * 10 ^ (dt - df)) in *. set (z := y * DIV / q) in *.
    assert (z * q <= y * DIV) by (rewrite Z.mul_comm; apply Z.mul_div_le; lia).
    assert (x * DIV <= p * a) by (rewrite Z.mul_comm; apply Z.mul_div_le; lia).
    replace (10 ^ dt) with (10 ^ (dt - df) * 10 ^ df) by (rewrite <- Z.pow_add_r by lia; f_equal; lia).
    assert (0 < 10 ^ df) by (apply Z.pow_pos_nonneg; lia).
    assert (z * q <= a * p * 10 ^ (dt - df)) by (subst y; nia). nia.
Qed.

(** C38: a conversion never creates value: converting an amount to another
    currency and the result back at the same prices gives at most the amount,
    for any prices and any decimals. *)
Theorem convert_roundtrip_no_gain decimals a c b a' s :
  0 <= amount a -> (forall c, 0 <= decimals c) ->
  (forall c p, get_timestamped (ExchangeRate c) s = Some p -> 0 < value p) ->
  fst (convert decimals a c s) = Ok b -> fst (convert decimals b (currency_id a) s) = Ok a' ->
  currency_id a' = currency_id a /\ 0 <= amount a' <= amount a.
Proof.
  intros Ha Hd Hpos Hb Ha'. unfold convert in *.
  destruct (bool_decide (currency_id a = c)) eqn:Hc; simpl in *.
  - apply bool_decide_eq_true in Hc as <-. injection Hb as <-. simpl in *.
    rewrite bool_decide_true in Ha' by done. injection Ha' as <-. simpl. split; [done|lia].
  - apply fst_ok in Hb as [t1 Hb], Ha' as [t2 Ha'].
    assert (Hp : forall k t x s1, get_price k t = (Ok x, s1) ->
      s1 = t /\ exists p, get_timestamped k t = Some p /\ x = value p).
    { intros k t x s1. unfold get_price, on_security, ensure_parachain_status_running. intros H. inv_ok.
      destruct (decide _) eqn:?; inv_ok. destruct t. simpl in *.
      unfold set_sec in *. simpl in *. destruct (get_timestamped _ _) eqn:E; inv_ok. eauto. }
    inv_ok. apply Hp in E as (-> & p & Hgp & ->), E0 as (-> & q & Hgq & ->). simpl in *.
    destruct (bool_decide (c = currency_id a)) eqn:Hc'.
    { apply bool_decide_eq_true in Hc' as ->. by rewrite bool_decide_true in Hc. }
    inv_ok. apply Hp in E as (-> & q' & Hgq' & ->), E0 as (-> & p' & Hgp' & ->). simpl in *.
    rewrite Hgp in Hgp'. rewrite Hgq in Hgq'. injection Hgp' as <-. injection Hgq' as <-.
    pose proof (Hpos _ _ Hgp). pose proof (Hpos _ _ Hgq).
    pose proof (Hd c). pose proof (Hd (currency_id a)).
    apply convert_amount_le in E1 as [Hr1 Hle1]; try lia.
    apply convert_amount_le in E2 as [Hr2 Hle2]; try lia. split; [done|].
    assert (0 < 10 ^ decimals c) by (apply Z.pow_pos_nonneg; lia).
    split; [done|]. apply (Zmult_le_reg_r _ _ (value p * 10 ^ decimals c)); nia.
Qed.

End conversion.

(** The DIA key of a Stellar asset cannot be converted back: for every
    asset code with an alphanumeric character the reverse conversion of the key
    the forward conversion builds panics, because "<code>-USD" is not a
    four-byte code. *)
Theorem fiat_dia_key_reverse_panics `{DK : DiaKeys} code issuer blockchain symbol :
  dia_key_of (ExchangeRate (Stellar (AlphaNum4 code issuer))) = Some (blockchain, symbol) ->
  remove_trailing_non_alphanum_bytes (to_ascii_uppercase code) <> [] ->
  native_chain <> FIAT_DIA_BLOCKCHAIN ->
  convert_from_dia_currency_id blockchain symbol = None ->
  key_of_dia blockchain symbol = Panic.
Proof.
  intros [= <- <-] Hne Hnat Hxcm. unfold key_of_dia. rewrite Hxcm.
  rewrite (bool_decide_false (FIAT_DIA_BLOCKCHAIN = native_chain)) by congruence. simpl.
  destruct (_ =? 4)%nat eqn:Hlen; [|done]. exfalso. apply Nat.eqb_eq in Hlen.
  unfold construct_fiat_usd_symbol_for_currency in Hlen. rewrite !length_app in Hlen. simpl in Hlen.
  repeat case_bool_decide; simpl in Hlen; try lia.
  destruct (remove_trailing_non_alphanum_bytes _); simpl in *; [done|lia].
Qed.

(** ** Witnesses *)

Definition w_oracle : OracleState :=
  mkOracleState (mkSecurity Running ∅ 0 0)
    (mkOracle 100 [ExchangeRate (XCM 0)]
       (<[ExchangeRate (XCM 0) := mkTimestamped (7 * DIV) 50]>
          (<[ExchangeRate Native := mkTimestamped (3 * DIV) 50]> ∅)) 120).

Lemma convert_roundtrip_no_gain_witness :
  Native = Native /\ 0 <= 999999933 <= 1000000000.
Proof.
  apply (convert_roundtrip_no_gain (FX := FixedFloor) pendulum_decimals (mkAmount 1000000000 Native)
    (XCM 0) (mkAmount 4285714 (XCM 0)) (mkAmount 999999933 Native) w_oracle).
  - simpl. lia.
  - intros [| |[]| |]; simpl; try (unfold asset_decimals; lia).
    repeat match goal with |- context [if ?b then _ else _] => destruct b end; lia.
  - intros c p H. unfold get_timestamped, w_oracle in H. simpl in H.
    apply lookup_insert_Some in H as [[_ <-]|[_ H]]; [reflexivity|].
    apply lookup_insert_Some in H as [[_ <-]|[_ H]]; [reflexivity|done].
  - vm_compute; reflexivity.
  - vm_compute; reflexivity.
Defined.

Lemma fiat_dia_key_reverse_panics_witness :
  let DK := {| native_symbol := [80; 69; 78]; native_chain := [80]; 
               convert_to_dia_currency_id _ := None; convert_from_dia_currency_id _ _ := None |} in
  key_of_dia FIAT_DIA_BLOCKCHAIN [66; 82; 76; 45; 85; 83; 68] = Panic.
Proof.
  intros DK. apply (fiat_dia_key_reverse_panics (DK := DK) [66; 82; 76; 0] []).
  - reflexivity.
  - discriminate.
  - discriminate.
  - reflexivity.
Defined.
