(* ===== verification/Staking.v ===== *)
(** * The staking pallet

    [src/pallets/staking/src/lib.rs]: the stake that a vault operator and its
    nominators keep in the vault's pool, slashing, and the rewards the pool
    earns.  Pools are numbered per vault by a nonce; a force refund moves the
    vault to a new pool.

    Storage double maps are maps from pairs; [checked_add_mut!] and
    [checked_sub_mut!] are [checked_add_mut] and [checked_sub_mut].  All stakes,
    tallies and rewards are [FixedI128] inner values.  The functions that the
    [Staking] trait exports, which convert balances, have the prefix
    [staking_]. *)

From S2P Require Import Prelude FixedPoint Primitives.

(** ** Storage *)

Record StakingState := mkStaking {
  TotalStake_ : gmap (Z * VaultId) Z;
  TotalCurrentStake_ : gmap (Z * VaultId) Z;
  TotalRewards_ : gmap (CurrencyId * (Z * VaultId)) Z;
  RewardPerToken_ : gmap (CurrencyId * (Z * VaultId)) Z;
  SlashPerToken_ : gmap (Z * VaultId) Z;
  Stake_ : gmap (Z * (VaultId * AccountId)) Z;
  RewardTally_ : gmap (CurrencyId * (Z * VaultId * AccountId)) Z;
  SlashTally_ : gmap (Z * (VaultId * AccountId)) Z;
  Nonce_ : gmap VaultId Z;
  RewardCurrencies : list CurrencyId;
}.

Definition empty_staking : StakingState := mkStaking ∅ ∅ ∅ ∅ ∅ ∅ ∅ ∅ ∅ [].

Definition TotalStake : Storage StakingState (Z * VaultId) Z :=
  mkStorage TotalStake_ (fun m '(mkStaking a b c d e f g h i j) => mkStaking m b c d e f g h i j).
Definition TotalCurrentStake : Storage StakingState (Z * VaultId) Z :=
  mkStorage TotalCurrentStake_
    (fun m '(mkStaking a b c d e f g h i j) => mkStaking a m c d e f g h i j).
Definition TotalRewards : Storage StakingState (CurrencyId * (Z * VaultId)) Z :=
  mkStorage TotalRewards_
    (fun m '(mkStaking a b c d e f g h i j) => mkStaking a b m d e f g h i j).
Definition RewardPerToken : Storage StakingState (CurrencyId * (Z * VaultId)) Z :=
  mkStorage RewardPerToken_
    (fun m '(mkStaking a b c d e f g h i j) => mkStaking a b c m e f g h i j).
Definition SlashPerToken : Storage StakingState (Z * VaultId) Z :=
  mkStorage SlashPerToken_
    (fun m '(mkStaking a b c d e f g h i j) => mkStaking a b c d m f g h i j).
Definition Stake : Storage StakingState (Z * (VaultId * AccountId)) Z :=
  mkStorage Stake_ (fun m '(mkStaking a b c d e f g h i j) => mkStaking a b c d e m g h i j).
Definition RewardTally : Storage StakingState (CurrencyId * (Z * VaultId * AccountId)) Z :=
  mkStorage RewardTally_
    (fun m '(mkStaking a b c d e f g h i j) => mkStaking a b c d e f m h i j).
Definition SlashTally : Storage StakingState (Z * (VaultId * AccountId)) Z :=
  mkStorage SlashTally_
    (fun m '(mkStaking a b c d e f g h i j) => mkStaking a b c d e f g m i j).
Definition Nonce : Storage StakingState VaultId Z :=
  mkStorage Nonce_ (fun m '(mkStaking a b c d e f g h i j) => mkStaking a b c d e f g h m j).
Definition set_RewardCurrencies (l : list CurrencyId) (s : StakingState) : StakingState :=
  let '(mkStaking a b c d e f g h i j) := s in mkStaking a b c d e f g h i l.

(** ** Operations *)

Section staking.
Context `{FX : FixedPoint}.
(** [T::MaxRewardCurrencies] and [T::GetNativeCurrencyId] *)
Context (MaxRewardCurrencies : nat) (GetNativeCurrencyId : CurrencyId).

Definition checked_add_mut {K} `{Countable K} (st : Storage StakingState K Z) (k : K) (x : Z)
  : M StakingState Z :=
  smutate st k (fun value => ok_or (fi_checked_add value x) Overflow).

Definition checked_sub_mut {K} `{Countable K} (st : Storage StakingState K Z) (k : K) (x : Z)
  : M StakingState Z :=
  smutate st k (fun value => ok_or (fi_checked_sub value x) Underflow).

Definition nonce (vault_id : VaultId) (s : StakingState) : Z := sget Nonce vault_id s.

Definition stake_at_index (n : Z) (vault_id : VaultId) (nominator_id : AccountId)
    (s : StakingState) : Z := sget Stake (n, (vault_id, nominator_id)) s.

Definition stake (vault_id : VaultId) (nominator_id : AccountId) (s : StakingState) : Z :=
  stake_at_index (nonce vault_id s) vault_id nominator_id s.

Definition total_current_stake_at_index (n : Z) (vault_id : VaultId) (s : StakingState) : Z :=
  sget TotalCurrentStake (n, vault_id) s.

Definition total_stake_at_index (n : Z) (vault_id : VaultId) (s : StakingState) : Z :=
  sget TotalStake (n, vault_id) s.

Definition total_current_stake (vault_id : VaultId) : M StakingState Z :=
  let* total := gets (fun s => total_current_stake_at_index (nonce vault_id s) vault_id s) in
  lift (ok_or (fi_truncate_to_inner total) staking.TryIntoIntError).

Definition reward_tally (n : Z) (currency_id : CurrencyId) (vault_id : VaultId)
    (nominator_id : AccountId) (s : StakingState) : Z :=
  sget RewardTally (currency_id, (n, vault_id, nominator_id)) s.

Definition slash_tally_at_index (n : Z) (vault_id : VaultId) (nominator_id : AccountId)
    (s : StakingState) : Z := sget SlashTally (n, (vault_id, nominator_id)) s.

Definition slash_tally (vault_id : VaultId) (nominator_id : AccountId) (s : StakingState) : Z :=
  slash_tally_at_index (nonce vault_id s) vault_id nominator_id s.

Definition slash_per_token_at_index (n : Z) (vault_id : VaultId) (s : StakingState) : Z :=
  sget SlashPerToken (n, vault_id) s.

Definition slash_per_token (vault_id : VaultId) (s : StakingState) : Z :=
  slash_per_token_at_index (nonce vault_id s) vault_id s.

Definition reward_per_token (currency_id : CurrencyId) (k : Z * VaultId) (s : StakingState) : Z :=
  sget RewardPerToken (currency_id, k) s.

Definition get_all_reward_currencies : M StakingState (list CurrencyId) :=
  let* values := gets RewardCurrencies in
  ret (values ++ [GetNativeCurrencyId]).

Definition compute_amount_to_slash (stake slash_per_token slash_tally : Z) : outcome Z :=
  let? stake_mul_slash_per_token := ok_or (fi_checked_mul stake slash_per_token) Overflow in
  ok_or (fi_checked_sub stake_mul_slash_per_token slash_tally) Underflow.

Definition apply_slash (vault_id : VaultId) (nominator_id : AccountId) : M StakingState Z :=
  let* n := gets (nonce vault_id) in
  let* stake := gets (stake_at_index n vault_id nominator_id) in
  let* slash_per_token := gets (slash_per_token_at_index n vault_id) in
  let* slash_tally := gets (slash_tally_at_index n vault_id nominator_id) in
  let* to_slash := lift (compute_amount_to_slash stake slash_per_token slash_tally) in
  checked_sub_mut TotalStake (n, vault_id) to_slash ;;;
  let* stake := checked_sub_mut Stake (n, (vault_id, nominator_id)) to_slash in
  let* tally := lift (ok_or (fi_checked_mul stake slash_per_token) Overflow) in
  sinsert SlashTally (n, (vault_id, nominator_id)) tally ;;;
  ret stake.

(** The closures of the two [SlashTally::mutate] and [RewardTally::mutate]
    calls: the tally moves by the amount's share. *)
Definition increase_tally (per_token amount : Z) (tally : Z) : outcome Z :=
  let? per_token_mul_amount := ok_or (fi_checked_mul per_token amount) Overflow in
  ok_or (fi_checked_add tally per_token_mul_amount) Overflow.

Definition decrease_tally (per_token amount : Z) (tally : Z) : outcome Z :=
  let? per_token_mul_amount := ok_or (fi_checked_mul per_token amount) Overflow in
  ok_or (fi_checked_sub tally per_token_mul_amount) Underflow.

Definition deposit_stake (vault_id : VaultId) (nominator_id : AccountId) (amount : Z)
  : M StakingState unit :=
  let* n := gets (nonce vault_id) in
  apply_slash vault_id nominator_id ;;;
  checked_add_mut Stake (n, (vault_id, nominator_id)) amount ;;;
  checked_add_mut TotalStake (n, vault_id) amount ;;;
  checked_add_mut TotalCurrentStake (n, vault_id) amount ;;;
  let* slash_per_token := gets (slash_per_token_at_index n vault_id) in
  smutate SlashTally (n, (vault_id, nominator_id)) (increase_tally slash_per_token amount) ;;;
  let* all_reward_currencies := get_all_reward_currencies in
  for_each all_reward_currencies (fun currency_id =>
    let* reward_per_token := gets (reward_per_token currency_id (n, vault_id)) in
    smutate RewardTally (currency_id, (n, vault_id, nominator_id))
      (increase_tally reward_per_token amount) ;;;
    ret tt).

Definition increase_rewards (n : Z) (currency_id : CurrencyId) (vault_id : VaultId) (reward : Z)
  : M StakingState Z :=
  let* total_current_stake := gets (total_current_stake_at_index n vault_id) in
  if total_current_stake =? 0 then ret 0
  else
    let* reward_div_total_current_stake :=
      lift (ok_or (fi_checked_div reward total_current_stake) Underflow) in
    checked_add_mut RewardPerToken (currency_id, (n, vault_id)) reward_div_total_current_stake ;;;
    ret reward.

Definition slash_stake (vault_id : VaultId) (amount : Z) : M StakingState unit :=
  let* n := gets (nonce vault_id) in
  let* total_stake := gets (total_stake_at_index n vault_id) in
  if amount =? 0 then ret tt
  else if total_stake =? 0 then throw staking.SlashZeroTotalStake
  else
    let* amount_div_total_stake := lift (ok_or (fi_checked_div amount total_stake) Underflow) in
    checked_add_mut SlashPerToken (n, vault_id) amount_div_total_stake ;;;
    checked_sub_mut TotalCurrentStake (n, vault_id) amount ;;;
    let* all_reward_currencies := get_all_reward_currencies in
    for_each all_reward_currencies (fun currency_id =>
      let* reward_per_token := gets (reward_per_token currency_id (n, vault_id)) in
      let* lost := lift (ok_or (fi_checked_mul reward_per_token amount) Overflow) in
      increase_rewards n currency_id vault_id lost ;;;
      ret tt).

Definition compute_stake_at_index (n : Z) (vault_id : VaultId) (nominator_id : AccountId)
  : M StakingState Z :=
  let* stake := gets (stake_at_index n vault_id nominator_id) in
  let* slash_per_token := gets (slash_per_token_at_index n vault_id) in
  let* slash_tally := gets (slash_tally_at_index n vault_id nominator_id) in
  let* to_slash := lift (compute_amount_to_slash stake slash_per_token slash_tally) in
  let* x := lift (ok_or (fi_checked_sub stake to_slash) Underflow) in
  let* stake_sub_to_slash := lift (ok_or (fi_truncate_to_inner x) staking.TryIntoIntError) in
  ret (Z.max 0 stake_sub_to_slash).

Definition compute_stake (vault_id : VaultId) (nominator_id : AccountId) : M StakingState Z :=
  let* n := gets (nonce vault_id) in
  compute_stake_at_index n vault_id nominator_id.

Definition distribute_reward (currency_id : CurrencyId) (vault_id : VaultId) (reward : Z)
  : M StakingState Z :=
  let* n := gets (nonce vault_id) in
  let* reward := increase_rewards n currency_id vault_id reward in
  if reward =? 0 then ret 0
  else
    checked_add_mut TotalRewards (currency_id, (n, vault_id)) reward ;;;
    ret reward.

Definition compute_reward_at_index (n : Z) (currency_id : CurrencyId) (vault_id : VaultId)
    (nominator_id : AccountId) : M StakingState Z :=
  let* st := compute_stake_at_index n vault_id nominator_id in
  let* stake := lift (ok_or (fi_checked_from_integer st) staking.TryIntoIntError) in
  let* reward_per_token := gets (reward_per_token currency_id (n, vault_id)) in
  let* stake_mul_reward_per_token :=
    lift (ok_or (fi_checked_mul stake reward_per_token) Overflow) in
  let* reward_tally := gets (reward_tally n currency_id vault_id nominator_id) in
  let* x := lift (ok_or (fi_checked_sub stake_mul_reward_per_token reward_tally) Underflow) in
  let* reward := lift (ok_or (fi_truncate_to_inner x) staking.TryIntoIntError) in
  ret (Z.max 0 reward).

Definition compute_reward (currency_id : CurrencyId) (vault_id : VaultId)
    (nominator_id : AccountId) : M StakingState Z :=
  let* n := gets (nonce vault_id) in
  compute_reward_at_index n currency_id vault_id nominator_id.

Definition withdraw_stake (vault_id : VaultId) (nominator_id : AccountId) (amount : Z)
    (index : option Z) : M StakingState unit :=
  let* n := gets (fun s => default (nonce vault_id s) index) in
  let* stake := apply_slash vault_id nominator_id in
  if amount =? 0 then ret tt
  else if stake <? amount then throw staking.InsufficientFunds
  else
    checked_sub_mut Stake (n, (vault_id, nominator_id)) amount ;;;
    checked_sub_mut TotalStake (n, vault_id) amount ;;;
    checked_sub_mut TotalCurrentStake (n, vault_id) amount ;;;
    let* slash_per_token := gets (slash_per_token_at_index n vault_id) in
    smutate SlashTally (n, (vault_id, nominator_id)) (decrease_tally slash_per_token amount) ;;;
    let* all_reward_currencies := get_all_reward_currencies in
    for_each all_reward_currencies (fun currency_id =>
      let* reward_per_token := gets (reward_per_token currency_id (n, vault_id)) in
      smutate RewardTally (currency_id, (n, vault_id, nominator_id))
        (decrease_tally reward_per_token amount) ;;;
      ret tt).

Definition withdraw_reward_at_index (n : Z) (currency_id : CurrencyId) (vault_id : VaultId)
    (nominator_id : AccountId) : M StakingState Z :=
  apply_slash vault_id nominator_id ;;;
  let* reward := compute_reward_at_index n currency_id vault_id nominator_id in
  let* reward_as_fixed := lift (ok_or (fi_checked_from_integer reward) staking.TryIntoIntError) in
  checked_sub_mut TotalRewards (currency_id, (n, vault_id)) reward_as_fixed ;;;
  let* stake := gets (stake_at_index n vault_id nominator_id) in
  let* reward_per_token := gets (reward_per_token currency_id (n, vault_id)) in
  let* tally := lift (ok_or (fi_checked_mul stake reward_per_token) Overflow) in
  sinsert RewardTally (currency_id, (n, vault_id, nominator_id)) tally ;;;
  ret reward.

Definition withdraw_reward (currency_id : CurrencyId) (vault_id : VaultId)
    (nominator_id : AccountId) : M StakingState Z :=
  let* n := gets (nonce vault_id) in
  withdraw_reward_at_index n currency_id vault_id nominator_id.

Definition increment_nonce (vault_id : VaultId) : M StakingState unit :=
  smutate Nonce vault_id (fun n => ok_or (u32_checked_add n 1) Overflow) ;;; ret tt.

Definition force_refund (vault_id : VaultId) : M StakingState Z :=
  let* n := gets (nonce vault_id) in
  let* total_current_stake := gets (total_current_stake_at_index n vault_id) in
  let* st := compute_stake_at_index n vault_id (account_id vault_id) in
  let* stake := lift (ok_or (fi_checked_from_integer st) staking.TryIntoIntError) in
  withdraw_stake vault_id (account_id vault_id) stake (Some n) ;;;
  increment_nonce vault_id ;;;
  deposit_stake vault_id (account_id vault_id) stake ;;;
  let* x := lift (ok_or (fi_checked_sub total_current_stake stake) Underflow) in
  lift (ok_or (fi_truncate_to_inner x) staking.TryIntoIntError).

Definition add_reward_currency (currency_id : CurrencyId) : M StakingState unit :=
  let* reward_currencies := gets RewardCurrencies in
  match btree_try_insert currency_key MaxRewardCurrencies currency_id reward_currencies with
  | Some l => modify (set_RewardCurrencies l)
  | None => throw staking.MaxRewardCurrencies
  end.

(** ** The [Staking] trait *)

Definition staking_nonce (vault_id : VaultId) : M StakingState Z := gets (nonce vault_id).

(** [amount.to_fixed().ok_or(TryIntoIntError)?] *)
Definition fixed_arg (b : Balance) : M StakingState Z :=
  lift (ok_or (to_fixed b) staking.TryIntoIntError).

(** [.try_into().map_err(|_| TryIntoIntError)] *)
Definition balance_result (i : Z) : M StakingState Balance :=
  lift (ok_or (i128_to_u128 i) staking.TryIntoIntError).

Definition staking_deposit_stake (vault_id : VaultId) (nominator_id : AccountId)
    (amount : Balance) : M StakingState unit :=
  let* a := fixed_arg amount in deposit_stake vault_id nominator_id a.

Definition staking_slash_stake (vault_id : VaultId) (amount : Balance) : M StakingState unit :=
  let* a := fixed_arg amount in slash_stake vault_id a.

Definition staking_compute_stake (vault_id : VaultId) (nominator_id : AccountId)
  : M StakingState Balance :=
  let* x := compute_stake vault_id nominator_id in balance_result x.

Definition staking_total_stake (vault_id : VaultId) : M StakingState Balance :=
  let* x := total_current_stake vault_id in balance_result x.

Definition staking_distribute_reward (vault_id : VaultId) (amount : Balance)
    (currency_id : CurrencyId) : M StakingState Balance :=
  let* a := fixed_arg amount in
  let* r := distribute_reward currency_id vault_id a in
  let* t := lift (ok_or (fi_truncate_to_inner r) staking.TryIntoIntError) in
  balance_result t.

Definition staking_compute_reward (vault_id : VaultId) (nominator_id : AccountId)
    (currency_id : CurrencyId) : M StakingState Balance :=
  let* x := compute_reward currency_id vault_id nominator_id in balance_result x.

Definition staking_withdraw_stake (vault_id : VaultId) (nominator_id : AccountId)
    (amount : Balance) (index : option Z) : M StakingState unit :=
  let* a := fixed_arg amount in withdraw_stake vault_id nominator_id a index.

Definition staking_withdraw_reward (vault_id : VaultId) (nominator_id : AccountId)
    (index : option Z) (currency_id : CurrencyId) : M StakingState Balance :=
  let* n := gets (fun s => default (nonce vault_id s) index) in
  let* x := withdraw_reward_at_index n currency_id vault_id nominator_id in balance_result x.

Definition staking_force_refund (vault_id : VaultId) : M StakingState Balance :=
  let* x := force_refund vault_id in balance_result x.

End staking.

(** ** Lemmas on the storage *)

Lemma sget_swrite {S K} `{Countable K} (st : Storage S K Z) k k' v m s :
  (forall m s, sread st (swrite st m s) = m) ->
  sget st k' (swrite st (<[k := v]> m) s) =
  if decide (k = k') then v else default 0 (m !! k').
Proof.
  intros Hrw. unfold sget. rewrite Hrw. destruct (decide (k = k')) as [->|].
  - by rewrite lookup_insert_eq.
  - by rewrite lookup_insert_ne.
Qed.

Section lemmas.
Context `{FX : FixedPoint} {L : FixedPointLaws FX}.
Implicit Types s : StakingState.

Lemma checked_add_mut_ok {K} `{Countable K} (st : Storage StakingState K Z) k x s w s' :
  checked_add_mut st k x s = (Ok w, s') ->
  w = sget st k s + x /\ in_i128 w /\ s' = swrite st (<[k := w]> (sread st s)) s.
Proof.
  intros Hm. apply smutate_ok in Hm as [Hf ->]. inv_ok. rewrite fi_add_spec in Hf.
  by apply fits_Some in Hf as [-> ?].
Qed.

Lemma checked_sub_mut_ok {K} `{Countable K} (st : Storage StakingState K Z) k x s w s' :
  checked_sub_mut st k x s = (Ok w, s') ->
  w = sget st k s - x /\ in_i128 w /\ s' = swrite st (<[k := w]> (sread st s)) s.
Proof.
  intros Hm. apply smutate_ok in Hm as [Hf ->]. inv_ok. rewrite fi_sub_spec in Hf.
  by apply fits_Some in Hf as [-> ?].
Qed.

End lemmas.

Ltac inv_mut := repeat match goal with
  | H : checked_add_mut _ _ _ _ = (Ok _, _) |- _ =>
      apply checked_add_mut_ok in H; destruct H as (-> & ? & ->)
  | H : checked_sub_mut _ _ _ _ = (Ok _, _) |- _ =>
      apply checked_sub_mut_ok in H; destruct H as (-> & ? & ->)
  | H : sinsert _ _ _ _ = (Ok _, _) |- _ => apply sinsert_ok in H; subst
  | H : smutate _ _ _ _ = (Ok _, _) |- _ =>
      apply smutate_ok in H; destruct H as (? & ->)
  end.

(** ** Stakes and their total *)

Section balance.
Context `{FX : FixedPoint} {L : FixedPointLaws FX}.
Implicit Types s : StakingState.

(** The stakes of all participants of a pool. *)
Definition in_pool (n : Z) (v : VaultId) (k : Z * (VaultId * AccountId)) (x : Z) : Z :=
  if decide (k.1 = n /\ k.2.1 = v) then x else 0.

Definition pool_stake (n : Z) (v : VaultId) (s : StakingState) : Z :=
  map_sum (in_pool n v) (Stake_ s).

(** What the recorded total and the stakes of pool [(n, v)] differ by. *)
Definition imbalance (n : Z) (v : VaultId) (s : StakingState) : Z :=
  total_stake_at_index n v s - pool_stake n v s.

Definition at_pool (k k' : Z * VaultId) (x : Z) : Z := if decide (k = k') then x else 0.

Lemma pool_stake_write n v n0 v0 a w s :
  pool_stake n v (swrite Stake (<[(n0, (v0, a)) := w]> (sread Stake s)) s) =
  pool_stake n v s + at_pool (n0, v0) (n, v) (w - sget Stake (n0, (v0, a)) s).
Proof.
  destruct s. unfold pool_stake, at_pool, sget. simpl. rewrite map_sum_insert.
  unfold entry, in_pool. simpl.
  destruct (decide ((n0, v0) = (n, v))) as [[= -> ->]|Hne].
  - destruct (_ !! _); simpl; rewrite ?decide_True by done; lia.
  - destruct (_ !! _); rewrite ?decide_False by (intros [-> ->]; done); lia.
Qed.

Lemma total_stake_write n v n0 v0 w s :
  total_stake_at_index n v (swrite TotalStake (<[(n0, v0) := w]> (sread TotalStake s)) s) =
  total_stake_at_index n v s + at_pool (n0, v0) (n, v) (w - sget TotalStake (n0, v0) s).
Proof.
  unfold total_stake_at_index. rewrite sget_swrite by (by intros ? []). unfold at_pool.
  destruct (decide _) as [[= -> ->]|]; [lia|]. unfold sget. lia.
Qed.

Lemma imbalance_stake_write n v n0 v0 a w s :
  imbalance n v (swrite Stake (<[(n0, (v0, a)) := w]> (sread Stake s)) s) =
  imbalance n v s - at_pool (n0, v0) (n, v) (w - sget Stake (n0, (v0, a)) s).
Proof.
  unfold imbalance. rewrite pool_stake_write.
  assert (total_stake_at_index n v (swrite Stake (<[(n0, (v0, a)) := w]> (sread Stake s)) s)
    = total_stake_at_index n v s) as -> by (by destruct s). lia.
Qed.

Lemma imbalance_total_write n v n0 v0 w s :
  imbalance n v (swrite TotalStake (<[(n0, v0) := w]> (sread TotalStake s)) s) =
  imbalance n v s + at_pool (n0, v0) (n, v) (w - sget TotalStake (n0, v0) s).
Proof.
  unfold imbalance. rewrite total_stake_write.
  assert (pool_stake n v (swrite TotalStake (<[(n0, v0) := w]> (sread TotalStake s)) s)
    = pool_stake n v s) as -> by (by destruct s). lia.
Qed.

(** The other storage items do not matter. *)
Lemma imbalance_frame_current n v m s : imbalance n v (swrite TotalCurrentStake m s) = imbalance n v s.
Proof. by destruct s. Qed.
Lemma imbalance_frame_slash_per n v m s : imbalance n v (swrite SlashPerToken m s) = imbalance n v s.
Proof. by destruct s. Qed.
Lemma imbalance_frame_slash_tally n v m s : imbalance n v (swrite SlashTally m s) = imbalance n v s.
Proof. by destruct s. Qed.
Lemma imbalance_frame_reward_tally n v m s : imbalance n v (swrite RewardTally m s) = imbalance n v s.
Proof. by destruct s. Qed.
Lemma imbalance_frame_reward_per n v m s : imbalance n v (swrite RewardPerToken m s) = imbalance n v s.
Proof. by destruct s. Qed.
Lemma imbalance_frame_rewards n v m s : imbalance n v (swrite TotalRewards m s) = imbalance n v s.
Proof. by destruct s. Qed.
Lemma imbalance_frame_nonce n v m s : imbalance n v (swrite Nonce m s) = imbalance n v s.
Proof. by destruct s. Qed.
Lemma imbalance_frame_currencies n v l s : imbalance n v (set_RewardCurrencies l s) = imbalance n v s.
Proof. by destruct s. Qed.


(** [keeps n v m]: when [m] succeeds, the pool is as balanced as before. *)
Definition keeps {A} (n : Z) (v : VaultId) (m : M StakingState A) : Prop :=
  forall s a s', m s = (Ok a, s') -> imbalance n v s' = imbalance n v s.

Lemma keeps_frame {A} n v (m : M StakingState A) : preserves (imbalance n v) m -> keeps n v m.
Proof. intros H s a s' E. exact (preserves_ok _ _ _ _ _ H E). Qed.

Lemma keeps_bind {A B} n v (m : M StakingState A) (k : A -> M StakingState B) :
  keeps n v m -> (forall a, keeps n v (k a)) -> keeps n v (bind m k).
Proof. intros Hm Hk s b s' E. inv_ok. rewrite (Hk _ _ _ _ E). eauto. Qed.

Lemma keeps_if {A} n v (b : bool) (m1 m2 : M StakingState A) :
  keeps n v m1 -> keeps n v m2 -> keeps n v (if b then m1 else m2).
Proof. by destruct b. Qed.

Lemma checked_add_mut_frame {K B} `{Countable K} (g : StakingState -> B)
    (st : Storage StakingState K Z) k x :
  (forall m s, g (swrite st m s) = g s) -> preserves g (checked_add_mut st k x).
Proof. intros. unfold checked_add_mut. by apply preserves_smutate. Qed.

Lemma checked_sub_mut_frame {K B} `{Countable K} (g : StakingState -> B)
    (st : Storage StakingState K Z) k x :
  (forall m s, g (swrite st m s) = g s) -> preserves g (checked_sub_mut st k x).
Proof. intros. unfold checked_sub_mut. by apply preserves_smutate. Qed.

End balance.

Create HintDb keeps.

#[export] Hint Resolve imbalance_frame_current imbalance_frame_slash_per
  imbalance_frame_slash_tally imbalance_frame_reward_tally imbalance_frame_reward_per
  imbalance_frame_rewards imbalance_frame_nonce imbalance_frame_currencies : frame.
#[export] Hint Resolve checked_add_mut_frame checked_sub_mut_frame : frame.

(** [solve_keeps] walks a program whose steps leave the pools balanced. *)
Ltac solve_keeps :=
  repeat match goal with
  | |- forall _, _ => intro
  | |- keeps _ _ (if _ then _ else _) => apply keeps_if
  | |- keeps _ _ _ => solve [eauto 2 with keeps]
  | |- keeps _ _ _ => solve [apply keeps_frame; solve_frame]
  | |- keeps _ _ (bind _ _) => apply keeps_bind
  end.

Section balanced.
Context `{FX : FixedPoint} {L : FixedPointLaws FX}.
Implicit Types s : StakingState.

Lemma apply_slash_keeps n v vault_id nominator_id : keeps n v (apply_slash vault_id nominator_id).
Proof.
  intros s a s' E. unfold apply_slash in E. inv_ok. inv_mut. 
  rewrite imbalance_frame_slash_tally, imbalance_stake_write, imbalance_total_write.
  unfold at_pool. destruct (decide _); lia.
Qed.

Lemma add_stake_imbalance n v n0 v0 a x s w s' :
  checked_add_mut Stake (n0, (v0, a)) x s = (Ok w, s') ->
  imbalance n v s' = imbalance n v s - at_pool (n0, v0) (n, v) x.
Proof.
  intros E. apply checked_add_mut_ok in E as (-> & _ & ->). rewrite imbalance_stake_write.
  unfold at_pool. destruct (decide _); lia.
Qed.

Lemma sub_stake_imbalance n v n0 v0 a x s w s' :
  checked_sub_mut Stake (n0, (v0, a)) x s = (Ok w, s') ->
  imbalance n v s' = imbalance n v s + at_pool (n0, v0) (n, v) x.
Proof.
  intros E. apply checked_sub_mut_ok in E as (-> & _ & ->). rewrite imbalance_stake_write.
  unfold at_pool. destruct (decide _); lia.
Qed.

Lemma add_total_imbalance n v n0 v0 x s w s' :
  checked_add_mut TotalStake (n0, v0) x s = (Ok w, s') ->
  imbalance n v s' = imbalance n v s + at_pool (n0, v0) (n, v) x.
Proof.
  intros E. apply checked_add_mut_ok in E as (-> & _ & ->). rewrite imbalance_total_write.
  unfold at_pool. destruct (decide _); lia.
Qed.

Lemma sub_total_imbalance n v n0 v0 x s w s' :
  checked_sub_mut TotalStake (n0, v0) x s = (Ok w, s') ->
  imbalance n v s' = imbalance n v s - at_pool (n0, v0) (n, v) x.
Proof.
  intros E. apply checked_sub_mut_ok in E as (-> & _ & ->). rewrite imbalance_total_write.
  unfold at_pool. destruct (decide _); lia.
Qed.


Lemma add_both_keeps {A} n v n0 v0 a x (k : M StakingState A) :
  keeps n v k ->
  keeps n v (checked_add_mut Stake (n0, (v0, a)) x ;;;
             checked_add_mut TotalStake (n0, v0) x ;;; k).
Proof.
  intros Hk s b s' E. inv_ok. rewrite (Hk _ _ _ E), (add_total_imbalance _ _ _ _ _ _ _ _ E1),
    (add_stake_imbalance _ _ _ _ _ _ _ _ _ E0). lia.
Qed.

Lemma sub_both_keeps {A} n v n0 v0 a x (k : M StakingState A) :
  keeps n v k ->
  keeps n v (checked_sub_mut Stake (n0, (v0, a)) x ;;;
             checked_sub_mut TotalStake (n0, v0) x ;;; k).
Proof.
  intros Hk s b s' E. inv_ok. rewrite (Hk _ _ _ E), (sub_total_imbalance _ _ _ _ _ _ _ _ E1),
    (sub_stake_imbalance _ _ _ _ _ _ _ _ _ E0). lia.
Qed.

#[local] Hint Resolve apply_slash_keeps : keeps.

Lemma deposit_stake_keeps native n v vault_id nominator_id x :
  keeps n v (deposit_stake native vault_id nominator_id x).
Proof.
  unfold deposit_stake, get_all_reward_currencies.
  do 2 (apply keeps_bind; [solve_keeps|intro]). apply add_both_keeps. solve_keeps.
Qed.

Lemma withdraw_stake_keeps native n v vault_id nominator_id x index :
  keeps n v (withdraw_stake native vault_id nominator_id x index).
Proof.
  unfold withdraw_stake, get_all_reward_currencies.
  do 2 (apply keeps_bind; [solve_keeps|intro]). do 2 (apply keeps_if; [solve_keeps|]).
  apply sub_both_keeps. solve_keeps.
Qed.

Lemma increase_rewards_imbalance n v n0 c v0 r :
  preserves (imbalance n v) (increase_rewards n0 c v0 r).
Proof. unfold increase_rewards. solve_frame. Qed.
#[local] Hint Resolve increase_rewards_imbalance : frame.

Lemma slash_stake_keeps native n v vault_id x : keeps n v (slash_stake native vault_id x).
Proof. unfold slash_stake, get_all_reward_currencies. solve_keeps. Qed.

Lemma compute_stake_frame {B} (g : StakingState -> B) n vault_id nominator_id :
  preserves g (compute_stake_at_index n vault_id nominator_id).
Proof. unfold compute_stake_at_index. solve_frame. Qed.
#[local] Hint Resolve compute_stake_frame : frame.

Lemma compute_reward_frame {B} (g : StakingState -> B) n c vault_id nominator_id :
  preserves g (compute_reward_at_index n c vault_id nominator_id).
Proof. unfold compute_reward_at_index. solve_frame. Qed.
#[local] Hint Resolve compute_reward_frame : frame.

#[local] Hint Resolve deposit_stake_keeps withdraw_stake_keeps slash_stake_keeps : keeps.

Lemma withdraw_reward_at_index_keeps n v n0 c vault_id nominator_id :
  keeps n v (withdraw_reward_at_index n0 c vault_id nominator_id).
Proof. unfold withdraw_reward_at_index. solve_keeps. Qed.

Lemma force_refund_keeps native n v vault_id : keeps n v (force_refund native vault_id).
Proof. unfold force_refund, increment_nonce. solve_keeps. Qed.

#[local] Hint Resolve withdraw_reward_at_index_keeps force_refund_keeps : keeps.

End balanced.

#[export] Hint Resolve increase_rewards_imbalance compute_stake_frame compute_reward_frame : frame.
#[export] Hint Resolve deposit_stake_keeps withdraw_stake_keeps slash_stake_keeps
  withdraw_reward_at_index_keeps force_refund_keeps : keeps.

(** ** Runs of the pallet

    The calls other pallets make, through the trait, in any order and with any
    arguments.  Each runs inside an extrinsic, so a failed one leaves nothing. *)

Inductive StakingCall :=
| DepositStake (v : VaultId) (a : AccountId) (x : Balance)
| SlashStake (v : VaultId) (x : Balance)
| DistributeReward (v : VaultId) (x : Balance) (c : CurrencyId)
| WithdrawStake (v : VaultId) (a : AccountId) (x : Balance) (index : option Z)
| WithdrawReward (v : VaultId) (a : AccountId) (index : option Z) (c : CurrencyId)
| ForceRefund (v : VaultId)
| AddRewardCurrency (c : CurrencyId).

Section runs.
Context `{FX : FixedPoint} (bound : nat) (native : CurrencyId).

Definition exec (call : StakingCall) : M StakingState unit :=
  transactional match call with
  | DepositStake v a x => staking_deposit_stake native v a x
  | SlashStake v x => staking_slash_stake native v x
  | DistributeReward v x c => staking_distribute_reward v x c ;;; ret tt
  | WithdrawStake v a x index => staking_withdraw_stake native v a x index
  | WithdrawReward v a index c => staking_withdraw_reward v a index c ;;; ret tt
  | ForceRefund v => staking_force_refund native v ;;; ret tt
  | AddRewardCurrency c => add_reward_currency bound c
  end.

Fixpoint run (calls : list StakingCall) (s : StakingState) : StakingState :=
  match calls with
  | [] => s
  | c :: calls' => run calls' (snd (exec c s))
  end.

End runs.

Section properties.
Context `{FX : FixedPoint} {L : FixedPointLaws FX}.
Implicit Types s : StakingState.

Lemma transactional_keeps {A} n v (m : M StakingState A) s :
  keeps n v m -> imbalance n v (snd (transactional m s)) = imbalance n v s.
Proof.
  intros Hm. unfold transactional. destruct (m s) as [[a|e|] s1] eqn:E; simpl; eauto.
Qed.

Lemma exec_imbalance bound native n v call s :
  imbalance n v (snd (exec bound native call s)) = imbalance n v s.
Proof.
  unfold exec. apply transactional_keeps. destruct call;
    unfold staking_deposit_stake, staking_slash_stake, staking_distribute_reward,
      staking_withdraw_stake, staking_withdraw_reward, staking_force_refund,
      fixed_arg, balance_result, distribute_reward, add_reward_currency.
  all: solve_keeps.
Qed.

(** C9: in every pool of every vault the recorded total stake is the sum of the
    stakes of the participants, after any sequence of deposits, withdrawals
    (from the current or an old pool), slashes, reward operations and force
    refunds. *)
Theorem total_stake_is_sum bound native calls n v :
  let s := run bound native calls empty_staking in
  total_stake_at_index n v s = pool_stake n v s.
Proof.
  cbv zeta. enough (imbalance n v (run bound native calls empty_staking) = 0)
    by (unfold imbalance in *; lia).
  assert (H0 : imbalance n v empty_staking = 0).
  { unfold imbalance, pool_stake. simpl. by rewrite map_sum_empty. }
  revert H0. generalize empty_staking. induction calls as [|c calls IH]; intros s Hs; simpl; [done|].
  apply IH. by rewrite exec_imbalance.
Qed.

(** *** Slashing *)

Lemma compute_stake_at_index_ok n v a s c s' :
  compute_stake_at_index n v a s = (Ok c, s') ->
  s' = s /\ exists m,
    fi_checked_mul (stake_at_index n v a s) (slash_per_token_at_index n v s) = Some m /\
    c = Z.max 0 (Z.quot (stake_at_index n v a s - (m - slash_tally_at_index n v a s)) DIV).
Proof.
  unfold compute_stake_at_index, compute_amount_to_slash. intros H. inv_ok.
  match goal with H : fi_checked_mul _ _ = Some ?m |- _ => rename H into Hm end.
  match goal with H : fi_checked_sub _ (slash_tally_at_index _ _ _ _) = Some _ |- _ =>
    rewrite fi_sub_spec in H; apply fits_Some in H as [-> _] end.
  match goal with H : fi_checked_sub _ _ = Some _ |- _ =>
    rewrite fi_sub_spec in H; apply fits_Some in H as [-> _] end.
  match goal with H : fi_truncate_to_inner _ = Some _ |- _ => injection H as <- end.
  eauto.
Qed.

(** What [apply_slash] leaves: the stake after slashing, and a tally under which
    nothing more is due. *)
Lemma apply_slash_ok v a s st s' :
  apply_slash v a s = (Ok st, s') ->
  let n := nonce v s in
  nonce v s' = n /\ slash_per_token_at_index n v s' = slash_per_token_at_index n v s /\
  (exists m, fi_checked_mul (stake_at_index n v a s) (slash_per_token_at_index n v s) = Some m /\
     st = stake_at_index n v a s - (m - slash_tally_at_index n v a s)) /\
  stake_at_index n v a s' = st /\ in_i128 st /\ in_i128 (total_stake_at_index n v s') /\
  fi_checked_mul st (slash_per_token_at_index n v s) = Some (slash_tally_at_index n v a s') /\
  (forall c k, reward_per_token c k s' = reward_per_token c k s) /\
  (forall c, reward_tally n c v a s' = reward_tally n c v a s) /\
  (forall k, sget TotalRewards k s' = sget TotalRewards k s).
Proof.
  unfold apply_slash, compute_amount_to_slash. intros H. inv_ok.
  match goal with H : fi_checked_sub _ (slash_tally_at_index _ _ _ _) = Some _ |- _ =>
    rewrite fi_sub_spec in H; apply fits_Some in H as [-> _] end.
  inv_mut. destruct s as [tot cur rew rpt spt stk rt slt nn rc]. unfold nonce, stake_at_index,
    total_stake_at_index, slash_tally_at_index, slash_per_token_at_index, reward_per_token,
    reward_tally, sget in *. simpl in *.
  rewrite !lookup_insert_eq. simpl. split_and!; eauto.
Qed.

(** With nothing due the computed stake is the recorded one, rounded down. *)
Lemma compute_stake_settled n v a s st :
  stake_at_index n v a s = st -> 0 <= st -> in_i128 st ->
  fi_checked_mul st (slash_per_token_at_index n v s) = Some (slash_tally_at_index n v a s) ->
  compute_stake_at_index n v a s = (Ok (st / DIV), s).
Proof.
  intros Hs H0 Hi Hm. unfold compute_stake_at_index. rewrite !gets_run, Hs.
  erewrite lift_run; [|unfold compute_amount_to_slash; rewrite Hm; simpl;
    rewrite fi_sub_spec, Z.sub_diag, fits_in by (unfold i128_min, i128_max; lia); reflexivity].
  erewrite lift_run; [|rewrite fi_sub_spec, Z.sub_0_r, fits_in by exact Hi; reflexivity].
  erewrite lift_run; [|reflexivity]. unfold ret. do 2 f_equal.
  rewrite Z.quot_div_nonneg by auto. pose proof (Z.div_pos st DIV H0 DIV_pos). lia.
Qed.

(** Where nothing is due, [apply_slash] succeeds and changes nothing. *)
Lemma apply_slash_again v a s st :
  let n := nonce v s in
  stake_at_index n v a s = st -> in_i128 st -> in_i128 (total_stake_at_index n v s) ->
  fi_checked_mul st (slash_per_token_at_index n v s) = Some (slash_tally_at_index n v a s) ->
  exists s', apply_slash v a s = (Ok st, s').
Proof.
  intros n Hs Hi Ht Hm. unfold apply_slash, checked_sub_mut. rewrite !gets_run.
  fold n. rewrite Hs.
  erewrite lift_run; [|unfold compute_amount_to_slash; rewrite Hm; simpl;
    rewrite fi_sub_spec, Z.sub_diag, fits_in by (unfold i128_min, i128_max; lia); reflexivity].
  erewrite smutate_run; [|rewrite fi_sub_spec, Z.sub_0_r, fits_in by exact Ht; reflexivity].
  erewrite smutate_run.
  2: { assert (sget Stake (n, (v, a)) (swrite TotalStake
         (<[(n, v) := sget TotalStake (n, v) s]> (sread TotalStake s)) s) = st) as ->
         by (by rewrite <- Hs; destruct s).
       rewrite fi_sub_spec, Z.sub_0_r, fits_in by exact Hi. reflexivity. }
  erewrite lift_run; [|by rewrite Hm]. rewrite sinsert_run. unfold ret. eauto.
Qed.

(** Slashing is settled once: after [apply_slash] the computed stake is
    what it was before, it is the recorded stake rounded down, and applying
    the slash again changes neither. *)
Theorem apply_slash_settles v a s st s' c :
  fst (compute_stake v a s) = Ok c -> apply_slash v a s = (Ok st, s') ->
  0 <= st ->
  fst (compute_stake v a s') = Ok c /\ c = st / DIV /\
  exists s'', apply_slash v a s' = (Ok st, s'') /\ fst (compute_stake v a s'') = Ok c.
Proof.
  intros Hc Ha Hst. apply reads_run in Hc; [|unfold compute_stake; solve_frame].
  unfold compute_stake in Hc. rewrite gets_run in Hc.
  apply compute_stake_at_index_ok in Hc as (_ & m & Hm & ->).
  assert (Hone : forall t, nonce v t = nonce v s ->
    stake_at_index (nonce v s) v a t = st -> in_i128 st ->
    slash_per_token_at_index (nonce v s) v t = slash_per_token_at_index (nonce v s) v s ->
    fi_checked_mul st (slash_per_token_at_index (nonce v s) v s) =
      Some (slash_tally_at_index (nonce v s) v a t) ->
    fst (compute_stake v a t) = Ok (st / DIV)).
  { intros t Hn Hs Hi Hp Hml. unfold compute_stake. rewrite gets_run, Hn.
    rewrite (compute_stake_settled _ _ _ _ st); auto. by rewrite Hp. }
  pose proof (apply_slash_ok _ _ _ _ _ Ha) as Hok. simpl in Hok.
  destruct Hok as (Hn & Hp & (m' & Hm' & Est) & Hs & Hi & Htot & Htl & _).
  rewrite Hm' in Hm. injection Hm as <-.
  assert (Ec : Z.max 0 (Z.quot (stake_at_index (nonce v s) v a s -
     (m' - slash_tally_at_index (nonce v s) v a s)) DIV) = st / DIV).
  { rewrite <- Est. rewrite Z.quot_div_nonneg by (done || apply DIV_pos).
    pose proof (Z.div_pos st DIV Hst DIV_pos). lia. }
  rewrite Ec. split_and!; [by apply Hone | done |].
  destruct (apply_slash_again v a s' st) as [s'' Ha'']; rewrite ?Hn, ?Hp; auto.
  exists s''. split; [done|].
  pose proof (apply_slash_ok _ _ _ _ _ Ha'') as Hok. simpl in Hok. rewrite Hn in Hok.
  destruct Hok as (Hn2 & Hp2 & _ & Hs2 & Hi2 & _ & Htl2 & _).
  apply Hone; try congruence.
Qed.

(** *** Rewards *)

(** With the stake settled and the tally at the full claim, the reward is 0. *)
Lemma compute_reward_settled n c v a s st :
  stake_at_index n v a s = st -> 0 <= st -> in_i128 st -> 0 <= reward_per_token c (n, v) s ->
  fi_checked_mul st (slash_per_token_at_index n v s) = Some (slash_tally_at_index n v a s) ->
  fi_checked_mul st (reward_per_token c (n, v) s) = Some (reward_tally n c v a s) ->
  compute_reward_at_index n c v a s = (Ok 0, s).
Proof.
  intros Hs H0 Hi Hr Hm Ht. unfold compute_reward_at_index. pose proof DIV_pos.
  erewrite bind_run; [|by apply (compute_stake_settled _ _ _ _ st)].
  assert (Hq : 0 <= st / DIV * DIV <= st).
  { pose proof (Z.div_pos st DIV H0 DIV_pos). pose proof (Z.mul_div_le st DIV). nia. }
  erewrite lift_run; [|rewrite fi_from_integer_spec, fits_in by (unfold in_i128, i128_min in *; lia); reflexivity].
  rewrite gets_run. rewrite fi_mul_spec in Ht by done.
  apply fits_Some in Ht as [Ht Hfit]. set (rpt := reward_per_token c (n, v) s) in *.
  assert (Hle : 0 <= st / DIV * DIV * rpt / DIV <= st * rpt / DIV).
  { split; [apply Z.div_pos; nia | apply Z.div_le_mono; nia]. }
  rewrite <- Ht in *. set (x := st / DIV * DIV * rpt / DIV) in *.
  erewrite lift_run; [|rewrite fi_mul_spec by lia; fold x; clearbody x;
    rewrite fits_in by (unfold i128_min in *; lia); reflexivity].
  clearbody x. set (t := reward_tally n c v a s) in *.
  rewrite gets_run. fold t. clearbody t. erewrite lift_run;
    [|rewrite fi_sub_spec, fits_in by (unfold i128_min, i128_max in *; lia); reflexivity].
  erewrite lift_run; [|reflexivity]. unfold ret. do 2 f_equal.
  replace (x - t) with (- (t - x)) by lia. rewrite Z.quot_opp_l by lia.
  pose proof (Z.quot_pos (t - x) DIV). lia.
Qed.

(** A participant whose slashes and rewards are all accounted for. *)
Definition settled (n : Z) (c : CurrencyId) (v : VaultId) (a : AccountId) (s : StakingState) : Prop :=
  in_i128 (stake_at_index n v a s) /\ in_i128 (total_stake_at_index n v s) /\
  in_i128 (sget TotalRewards (c, (n, v)) s) /\
  fi_checked_mul (stake_at_index n v a s) (slash_per_token_at_index n v s) =
    Some (slash_tally_at_index n v a s) /\
  fi_checked_mul (stake_at_index n v a s) (reward_per_token c (n, v) s) =
    Some (reward_tally n c v a s).

Lemma withdraw_reward_settles c v a s r s' :
  withdraw_reward_at_index (nonce v s) c v a s = (Ok r, s') ->
  nonce v s' = nonce v s /\ settled (nonce v s) c v a s'.
Proof.
  unfold withdraw_reward_at_index. intros H. inv_ok.
  match goal with H : apply_slash _ _ _ = (Ok _, _) |- _ =>
    pose proof (apply_slash_ok _ _ _ _ _ H) as Hok; clear H end. simpl in *.
  destruct Hok as (Hn & Hp & _ & Hs & Hi & Htot & Htl & _).
  match goal with H : compute_reward_at_index _ _ _ _ ?t = (Ok _, ?t') |- _ =>
    assert (t' = t) as -> by (exact (preserves_ok (fun x => x) _ _ _ _
      (compute_reward_frame _ _ _ _ _) H)); clear H end.
  inv_mut. set (n := nonce v s) in *. clearbody n.
  destruct s0 as [tot cur rew rpt spt stk rt slt nn rc].
  unfold settled, nonce, stake_at_index, total_stake_at_index, slash_tally_at_index,
    slash_per_token_at_index, reward_per_token, reward_tally, sget in *. simpl in *.
  rewrite !lookup_insert_eq. simpl. rewrite Hp in *. split_and!; auto.
Qed.

(** Rewards are paid once: a withdrawal right after a successful one
    succeeds and pays nothing. *)
Theorem withdraw_reward_twice v a c s r s' :
  staking_withdraw_reward v a None c s = (Ok r, s') ->
  0 <= stake v a s' -> 0 <= reward_per_token c (nonce v s', v) s' ->
  exists s'', staking_withdraw_reward v a None c s' = (Ok 0, s'').
Proof.
  unfold staking_withdraw_reward, stake. intros H Hst Hrpt. rewrite gets_run in H. simpl in H.
  apply bind_ok in H as (x & s1 & H & Hb). apply lift_ok in Hb as [_ <-].
  apply withdraw_reward_settles in H as (Hn & Hi & Htot & Htr & Hsl & Hrw).
  rewrite gets_run, Hn in *. set (n := nonce v s) in *.
  unfold withdraw_reward_at_index.
  destruct (apply_slash_again v a s' (stake_at_index n v a s')) as [s2 Ha]; rewrite ?Hn; auto.
  pose proof (apply_slash_ok _ _ _ _ _ Ha) as Hok. simpl in Hok. rewrite Hn in Hok.
  destruct Hok as (Hn2 & Hp2 & _ & Hs2 & _ & _ & Htl2 & Hrp2 & Hrt2 & Htr2).
  assert (Hrw2 : fi_checked_mul (stake_at_index n v a s2) (reward_per_token c (n, v) s2) =
    Some (reward_tally n c v a s2)) by (by rewrite Hs2, Hrp2, Hrt2).
  assert (Hc0 : compute_reward_at_index n c v a s2 = (Ok 0, s2)).
  { apply (compute_reward_settled _ _ _ _ _ (stake_at_index n v a s'));
      rewrite ?Hs2, ?Hrp2, ?Hrt2; try done. by rewrite Hp2. }
  erewrite bind_run; [|erewrite bind_run; [|exact Ha];
    erewrite bind_run; [|exact Hc0];
    erewrite lift_run; [|rewrite fi_from_integer_spec, Z.mul_0_l, fits_in
      by (unfold i128_min, i128_max; lia); reflexivity];
    unfold checked_sub_mut; erewrite smutate_run;
      [|rewrite fi_sub_spec, Z.sub_0_r, Htr2, fits_in by exact Htr; reflexivity];
    rewrite !gets_run; erewrite lift_run;
      [|assert (forall k w, stake_at_index n v a (swrite TotalRewards (<[k := w]>
           (sread TotalRewards s2)) s2) = stake_at_index n v a s2) as -> by (by destruct s2);
        assert (forall k w, reward_per_token c (n, v) (swrite TotalRewards (<[k := w]>
           (sread TotalRewards s2)) s2) = reward_per_token c (n, v) s2) as -> by (by destruct s2);
        rewrite Hrw2; reflexivity];
    rewrite sinsert_run; reflexivity].
  eexists. reflexivity.
Qed.

(** *** Old pools *)

(** Stake left in an old pool cannot be withdrawn by a nominator without
    stake in the current one: whatever the old pool [index] holds, the amount
    is compared with the stake in the current pool and refused. *)
Theorem stale_pool_withdrawal_refused native v a x index s :
  0 < x -> x * DIV <= i128_max ->
  stake v a s = 0 -> slash_tally v a s = 0 -> 0 <= slash_per_token v s ->
  in_i128 (total_stake_at_index (nonce v s) v s) ->
  fst (staking_withdraw_stake native v a x (Some index) s) = Err staking.InsufficientFunds.
Proof.
  intros Hx Hfit Hst Htl Hspt Htot. pose proof DIV_pos.
  unfold staking_withdraw_stake, fixed_arg, withdraw_stake.
  assert (to_fixed x = Some (x * DIV)) as Hto by (apply to_fixed_Some; lia).
  erewrite lift_run; [|rewrite Hto; reflexivity]. rewrite gets_run.
  destruct (apply_slash_again v a s 0) as [s' Ha]; auto.
  - unfold in_i128, i128_min, i128_max; lia.
  - unfold slash_per_token, slash_tally in *. rewrite fi_mul_spec by lia.
    rewrite Z.mul_0_l, Z.div_0_l, fits_in by (unfold i128_min, i128_max; lia). by rewrite Htl.
  - erewrite bind_run by exact Ha.
    destruct (x * DIV =? 0) eqn:?; [lia|]. destruct (0 <? x * DIV) eqn:?; [done|lia].
Qed.

(** *** Deposits and slashes *)

Lemma staking_compute_stake_frame {B} (g : StakingState -> B) v a :
  preserves g (staking_compute_stake v a).
Proof. unfold staking_compute_stake, compute_stake, balance_result. solve_frame. Qed.

Lemma div_add_floor a b : 0 <= a -> 0 <= b ->
  a / DIV + b / DIV <= (a + b) / DIV <= a / DIV + b / DIV + 1.
Proof.
  intros Ha Hb. pose proof DIV_pos. pose proof (Z.div_mod a DIV). pose proof (Z.div_mod b DIV).
  pose proof (Z.div_mod (a + b) DIV). pose proof (Z.mod_pos_bound a DIV).
  pose proof (Z.mod_pos_bound b DIV). pose proof (Z.mod_pos_bound (a + b) DIV). nia.
Qed.

Lemma deposit_stake_ok native v a x s s' :
  deposit_stake native v a x s = (Ok tt, s') ->
  exists st t1 n, n = nonce v s /\ apply_slash v a s = (Ok st, t1) /\
    nonce v s' = n /\ stake_at_index n v a s' = st + x /\
    slash_per_token_at_index n v s' = slash_per_token_at_index n v s /\
    (exists m, fi_checked_mul (slash_per_token_at_index n v s) x = Some m /\
       slash_tally_at_index n v a s' = slash_tally_at_index n v a t1 + m).
Proof.
  unfold deposit_stake, get_all_reward_currencies. intros H. inv_ok.
  match goal with H : apply_slash _ _ _ = (Ok ?x, ?t) |- _ => rename H into Ha; rename x into st; rename t into t1 end.
  pose proof (apply_slash_ok _ _ _ _ _ Ha) as Hok. simpl in Hok.
  destruct Hok as (Hn & Hp & _ & Hs & _). exists st, t1, (nonce v s).
  match goal with H : for_each ?l ?f ?t = (Ok _, ?t') |- _ =>
    assert (Hfr : forall B (g : StakingState -> B), (forall m s, g (swrite RewardTally m s) = g s) ->
      g t' = g t) by (intros B g Hg; refine (preserves_ok g _ _ _ _ _ H); solve_frame); clear H end.
  inv_mut. unfold increase_tally in *. inv_ok.
  match goal with H : fi_checked_add _ _ = Some _ |- _ =>
    rewrite fi_add_spec in H; apply fits_Some in H as [-> _] end.
  split_and!; auto.
  - rewrite (Hfr _ (nonce v)) by (by intros ? []). rewrite <- Hn. by destruct t1.
  - rewrite (Hfr _ (stake_at_index (nonce v s) v a)) by (by intros ? []).
    rewrite <- Hs. destruct t1. unfold stake_at_index, sget. simpl. by rewrite lookup_insert_eq.
  - rewrite (Hfr _ (slash_per_token_at_index (nonce v s) v)) by (by intros ? []).
    rewrite <- Hp. by destruct t1.
  - eexists. split; [|rewrite (Hfr _ (slash_tally_at_index (nonce v s) v a)) by (by intros ? [])].
    + rewrite <- Hp. match goal with H : fi_checked_mul ?y _ = Some _ |- _ =>
        replace y with (slash_per_token_at_index (nonce v s) v t1) in H by (by destruct t1);
        exact H end.
    + destruct t1. unfold slash_tally_at_index, sget. simpl. by rewrite lookup_insert_eq.
Qed.
(** A deposit is credited: the participant's computed stake grows by the
    amount, or by one unit less, which the rounding of the slash tally can
    cost. *)
Theorem deposit_stake_credits native v a x s s' c c' :
  0 <= x -> 0 <= slash_per_token v s ->
  fst (staking_compute_stake v a s) = Ok c ->
  staking_deposit_stake native v a x s = (Ok tt, s') ->
  fst (staking_compute_stake v a s') = Ok c' ->
  0 <= stake v a s' - x * DIV ->
  c + x - 1 <= c' <= c + x.
Proof.
  intros Hx Hspt Hc Hd Hc' Hpos. pose proof DIV_pos as HD.
  apply reads_run in Hc, Hc'; [|apply staking_compute_stake_frame..].
  unfold staking_compute_stake, compute_stake, balance_result in Hc, Hc'.
  rewrite bind_assoc, gets_run in Hc, Hc'.
  apply bind_ok in Hc as (c0 & s0 & Hc & Hb). apply lift_ok in Hb as [Hb <-].
  apply bind_ok in Hc' as (c1 & s1 & Hc' & Hb'). apply lift_ok in Hb' as [Hb' <-].
  apply ok_or_ok, fits_Some in Hb as [-> _]. apply ok_or_ok, fits_Some in Hb' as [-> _].
  unfold staking_deposit_stake, fixed_arg in Hd. apply bind_ok in Hd as (y & s2 & Hy & Hd).
  apply lift_ok in Hy as [Hy ->]. apply ok_or_ok, to_fixed_Some in Hy as [-> Hmax]; [|done].
  apply deposit_stake_ok in Hd as (st & t1 & n & -> & Ha & Hn' & Hst' & Hspt' & m & Hm & Htl').
  set (n := nonce v s) in *. unfold stake in Hpos. rewrite Hn', Hst' in Hpos.
  pose proof (apply_slash_ok _ _ _ _ _ Ha) as Hok. simpl in Hok. fold n in Hok.
  destruct Hok as (_ & _ & (m0 & Hm0 & Est) & _ & _ & _ & Htl & _).
  apply compute_stake_at_index_ok in Hc as (_ & m1 & Hm1 & ->).
  rewrite Hm0 in Hm1. injection Hm1 as <-. rewrite <- Est.
  rewrite Hn' in Hc'. apply compute_stake_at_index_ok in Hc' as (_ & m2 & Hm2 & ->).
  unfold slash_per_token in Hspt. fold n in Hspt. rewrite Hst', Hspt', Htl' in *.
  set (p := slash_per_token_at_index n v s) in *.
  rewrite fi_mul_spec in Htl, Hm2, Hm by nia.
  apply fits_Some in Htl as [Htl _]. apply fits_Some in Hm2 as [-> _].
  apply fits_Some in Hm as [-> _]. rewrite Htl.
  replace ((st + x * DIV) * p) with (st * p + p * (x * DIV)) by lia.
  pose proof (div_add_floor (st * p) (p * (x * DIV)) ltac:(nia) ltac:(nia)) as Hf.
  set (e := (st * p + p * (x * DIV)) / DIV - (st * p / DIV + p * (x * DIV) / DIV)) in *.
  assert (0 <= e <= 1) by lia.
  rewrite (Z.quot_div_nonneg st) by lia.
  pose proof (Z.div_pos st DIV ltac:(lia) HD). pose proof (Z.div_mod st DIV ltac:(lia)).
  pose proof (Z.mod_pos_bound st DIV HD). replace (st + x * DIV - _) with (st - e + x * DIV) by (subst e; lia).
  destruct (decide (st + x * DIV = 0)) as [Hz|Hnz].
  - assert (st = 0 /\ x = 0) as [-> ->] by nia. rewrite Z.div_0_l in * by lia.
    destruct (decide (e = 0)) as [->|]; [by rewrite Z.quot_0_l by lia|].
    assert (e = 1) as -> by lia. vm_compute; split; discriminate.
  - rewrite Z.quot_div_nonneg by lia. rewrite Z.div_add by lia.
    assert (st / DIV - 1 <= (st - e) / DIV <= st / DIV); [|lia]. split.
    + replace (st / DIV - 1) with ((st + -1 * DIV) / DIV) by (rewrite Z.div_add; lia).
      apply Z.div_le_mono; lia.
    + apply Z.div_le_mono; lia.
Qed.

Lemma slash_stake_ok native v x s s' :
  slash_stake native v x s = (Ok tt, s') -> x <> 0 ->
  let n := nonce v s in
  exists d, fi_checked_div x (total_stake_at_index n v s) = Some d /\
    nonce v s' = n /\
    slash_per_token_at_index n v s' = slash_per_token_at_index n v s + d /\
    total_current_stake_at_index n v s' = total_current_stake_at_index n v s - x /\
    (forall a, stake_at_index n v a s' = stake_at_index n v a s) /\
    (forall a, slash_tally_at_index n v a s' = slash_tally_at_index n v a s).
Proof.
  unfold slash_stake, get_all_reward_currencies. intros H Hx. inv_ok.
  destruct (x =? 0) eqn:?; [lia|]. destruct (total_stake_at_index _ _ _ =? 0) eqn:?; inv_ok.
  match goal with H : for_each ?l ?f ?t = (Ok _, ?t') |- _ =>
    assert (Hfr : forall B (g : StakingState -> B), (forall m s, g (swrite RewardPerToken m s) = g s) ->
      g t' = g t) by (intros B g Hg; refine (preserves_ok g _ _ _ _ _ H);
        unfold increase_rewards; solve_frame); clear H end.
  inv_mut. cbv zeta. set (n := nonce v s) in *. eexists. split; [eassumption|].
  destruct s as [tot cur rew rpt spt stk rt slt nn rc]. simpl in *. split_and!; intros.
  - by rewrite (Hfr _ (nonce v)) by (by intros ? []).
  - rewrite (Hfr _ (slash_per_token_at_index n v)) by (by intros ? []).
    unfold slash_per_token_at_index, sget. simpl. by rewrite lookup_insert_eq.
  - rewrite (Hfr _ (total_current_stake_at_index n v)) by (by intros ? []).
    unfold total_current_stake_at_index, sget. simpl. by rewrite lookup_insert_eq.
  - by rewrite (Hfr _ (stake_at_index n v a0)) by (by intros ? []).
  - by rewrite (Hfr _ (slash_tally_at_index n v a0)) by (by intros ? []).
Qed.


End properties.

(** ** Witnesses *)

Lemma total_stake_is_sum_witness :
  let s := run (FX := FixedFloor) 5 Native
    [DepositStake (new_vault_id 1 Native Native) 2 30; SlashStake (new_vault_id 1 Native Native) 7;
     WithdrawStake (new_vault_id 1 Native Native) 2 3 None] empty_staking in
  total_stake_at_index 0 (new_vault_id 1 Native Native) s =
  pool_stake 0 (new_vault_id 1 Native Native) s.
Proof. exact (total_stake_is_sum (FX := FixedFloor) 5 Native _ 0 _). Defined.



(** A vault with its operator's and one nominator's stake, slashed once and
    rewarded once. *)
Definition w_vault : VaultId := new_vault_id 1 Native (XCM 0).
Definition w_state : StakingState :=
  run (FX := FixedFloor) 5 Native
    [DepositStake w_vault 1 100; DepositStake w_vault 2 50; SlashStake w_vault 30;
     DistributeReward w_vault 1000 Native] empty_staking.

Lemma apply_slash_settles_witness :
  let s' := snd (apply_slash (FX := FixedFloor) w_vault 2 w_state) in
  fst (compute_stake (FX := FixedFloor) w_vault 2 s') = Ok 40 /\ 40 = 40 * DIV / DIV /\
  exists s'', apply_slash (FX := FixedFloor) w_vault 2 s' = (Ok (40 * DIV), s'') /\
    fst (compute_stake (FX := FixedFloor) w_vault 2 s'') = Ok 40.
Proof.
  apply (apply_slash_settles (FX := FixedFloor) w_vault 2%N w_state (40 * DIV)).
  - vm_compute; reflexivity.
  - apply run_ok. vm_compute; reflexivity.
  - vm_compute; discriminate.
Defined.

Lemma withdraw_reward_twice_witness :
  exists s'', staking_withdraw_reward (FX := FixedFloor) w_vault 1 None Native
    (snd (staking_withdraw_reward (FX := FixedFloor) w_vault 1 None Native w_state)) = (Ok 0, s'').
Proof.
  apply (withdraw_reward_twice (FX := FixedFloor) w_vault 1%N Native w_state 666).
  - apply run_ok. vm_compute; reflexivity.
  - vm_compute; discriminate.
  - vm_compute; discriminate.
Defined.

(** After a force refund the nominator's 50 stay in pool 0. *)
Lemma stale_pool_withdrawal_refused_witness :
  let s := run (FX := FixedFloor) 5 Native
    [DepositStake w_vault 1 100; DepositStake w_vault 2 50; ForceRefund w_vault] empty_staking in
  stake_at_index 0 w_vault 2 s = 50 * DIV /\
  fst (staking_withdraw_stake (FX := FixedFloor) Native w_vault 2 50 (Some 0) s) =
    Err staking.InsufficientFunds.
Proof.
  split; [vm_compute; reflexivity|].
  apply (stale_pool_withdrawal_refused (FX := FixedFloor));
    try (vm_compute; reflexivity); try (vm_compute; discriminate).
  vm_compute; split; discriminate.
Defined.

Lemma deposit_stake_credits_witness : 40 + 7 - 1 <= 47 <= 40 + 7.
Proof.
  apply (deposit_stake_credits (FX := FixedFloor) Native w_vault 2%N 7 w_state
    (snd (staking_deposit_stake (FX := FixedFloor) Native w_vault 2%N 7 w_state))).
  - lia.
  - vm_compute; discriminate.
  - vm_compute; reflexivity.
  - apply run_ok. vm_compute; reflexivity.
  - vm_compute; reflexivity.
  - vm_compute; discriminate.
Defined.

