(* ===== verification/PooledRewards.v ===== *)
(** * The pooled-rewards pallet

    [src/pallets/pooled-rewards/src/lib.rs]: one reward pool per collateral
    currency, in which the vaults that use this collateral have a stake.  The
    pallet is generic in pool, stake and reward identifiers; the runtime uses
    collateral currencies, vaults and reward currencies.

    Stakes, tallies and rewards are [FixedI128] inner values.  The functions of
    the [RewardsApi] trait, which convert balances, have the prefix
    [rewards_]. *)

From S2P Require Import Prelude FixedPoint Primitives.

(** ** Storage *)

Record PoolState := mkPool {
  TotalStake_ : gmap CurrencyId Z;
  TotalRewards_ : gmap CurrencyId Z;
  RewardPerToken_ : gmap (CurrencyId * CurrencyId) Z;
  Stake_ : gmap (CurrencyId * VaultId) Z;
  RewardTally_ : gmap (CurrencyId * (CurrencyId * VaultId)) Z;
  RewardCurrencies_ : gmap CurrencyId (list CurrencyId);
}.

Definition empty_pool : PoolState := mkPool ∅ ∅ ∅ ∅ ∅ ∅.

Definition TotalStake : Storage PoolState CurrencyId Z :=
  mkStorage TotalStake_ (fun m '(mkPool a b c d e f) => mkPool m b c d e f).
Definition TotalRewards : Storage PoolState CurrencyId Z :=
  mkStorage TotalRewards_ (fun m '(mkPool a b c d e f) => mkPool a m c d e f).
Definition RewardPerToken : Storage PoolState (CurrencyId * CurrencyId) Z :=
  mkStorage RewardPerToken_ (fun m '(mkPool a b c d e f) => mkPool a b m d e f).
Definition Stake : Storage PoolState (CurrencyId * VaultId) Z :=
  mkStorage Stake_ (fun m '(mkPool a b c d e f) => mkPool a b c m e f).
Definition RewardTally : Storage PoolState (CurrencyId * (CurrencyId * VaultId)) Z :=
  mkStorage RewardTally_ (fun m '(mkPool a b c d e f) => mkPool a b c d m f).
Definition set_RewardCurrencies (m : gmap CurrencyId (list CurrencyId)) (s : PoolState)
  : PoolState := let '(mkPool a b c d e f) := s in mkPool a b c d e m.

(** ** Operations *)

Section pooled_rewards.
Context `{FX : FixedPoint} (MaxRewardCurrencies : nat).

Definition checked_add_mut {K} `{Countable K} (st : Storage PoolState K Z) (k : K) (x : Z)
  : M PoolState unit :=
  smutate st k (fun value => ok_or (fi_checked_add value x) Overflow) ;;; ret tt.

Definition checked_sub_mut {K} `{Countable K} (st : Storage PoolState K Z) (k : K) (x : Z)
  : M PoolState unit :=
  smutate st k (fun value => ok_or (fi_checked_sub value x) Underflow) ;;; ret tt.

Definition stake (pool_id : CurrencyId) (stake_id : VaultId) (s : PoolState) : Z :=
  sget Stake (pool_id, stake_id) s.

Definition total_stake (pool_id : CurrencyId) (s : PoolState) : Z := sget TotalStake pool_id s.

Definition total_rewards (currency_id : CurrencyId) (s : PoolState) : Z :=
  sget TotalRewards currency_id s.

Definition reward_per_token (currency_id pool_id : CurrencyId) (s : PoolState) : Z :=
  sget RewardPerToken (currency_id, pool_id) s.

Definition reward_tally (currency_id pool_id : CurrencyId) (stake_id : VaultId) (s : PoolState)
  : Z := sget RewardTally (currency_id, (pool_id, stake_id)) s.

Definition reward_currencies (pool_id : CurrencyId) (s : PoolState) : list CurrencyId :=
  default [] (RewardCurrencies_ s !! pool_id).

Definition get_total_rewards (currency_id : CurrencyId) : M PoolState Z :=
  let* total := gets (total_rewards currency_id) in
  lift (ok_or (fi_truncate_to_inner total) pooled_rewards.TryIntoIntError).

Definition deposit_stake (pool_id : CurrencyId) (stake_id : VaultId) (amount : Z)
  : M PoolState unit :=
  checked_add_mut Stake (pool_id, stake_id) amount ;;;
  checked_add_mut TotalStake pool_id amount ;;;
  let* currencies := gets (reward_currencies pool_id) in
  for_each currencies (fun currency_id =>
    let* reward_per_token := gets (reward_per_token currency_id pool_id) in
    smutate RewardTally (currency_id, (pool_id, stake_id)) (fun reward_tally =>
      let? reward_per_token_mul_amount :=
        ok_or (fi_checked_mul reward_per_token amount) Overflow in
      ok_or (fi_checked_add reward_tally reward_per_token_mul_amount) Overflow) ;;;
    ret tt).

Definition distribute_reward (pool_id currency_id : CurrencyId) (reward : Z) : M PoolState unit :=
  if reward =? 0 then ret tt
  else
    let* total_stake := gets (total_stake pool_id) in
    ensure (negb (total_stake =? 0)) pooled_rewards.ZeroTotalStake ;;;
    let* currencies := gets (reward_currencies pool_id) in
    let* currencies := lift (ok_or
      (btree_try_insert currency_key MaxRewardCurrencies currency_id currencies)
      pooled_rewards.MaxRewardCurrencies) in
    modify (fun s => set_RewardCurrencies (<[pool_id := currencies]> (RewardCurrencies_ s)) s) ;;;
    let* reward_div_total_stake := lift (ok_or (fi_checked_div reward total_stake) Underflow) in
    checked_add_mut RewardPerToken (currency_id, pool_id) reward_div_total_stake ;;;
    checked_add_mut TotalRewards currency_id reward.

Definition compute_reward (pool_id : CurrencyId) (stake_id : VaultId) (currency_id : CurrencyId)
  : M PoolState Z :=
  let* stake := gets (stake pool_id stake_id) in
  let* reward_per_token := gets (reward_per_token currency_id pool_id) in
  let* stake_mul_reward_per_token :=
    lift (ok_or (fi_checked_mul stake reward_per_token) Overflow) in
  let* reward_tally := gets (reward_tally currency_id pool_id stake_id) in
  let* x := lift (ok_or (fi_checked_sub stake_mul_reward_per_token reward_tally) Underflow) in
  lift (ok_or (fi_truncate_to_inner x) pooled_rewards.TryIntoIntError).

Definition withdraw_stake (pool_id : CurrencyId) (stake_id : VaultId) (amount : Z)
  : M PoolState unit :=
  let* current := gets (stake pool_id stake_id) in
  if current <? amount then throw pooled_rewards.InsufficientFunds
  else
    checked_sub_mut Stake (pool_id, stake_id) amount ;;;
    checked_sub_mut TotalStake pool_id amount ;;;
    let* currencies := gets (reward_currencies pool_id) in
    for_each currencies (fun currency_id =>
      let* reward_per_token := gets (reward_per_token currency_id pool_id) in
      smutate RewardTally (currency_id, (pool_id, stake_id)) (fun reward_tally =>
        let? reward_per_token_mul_amount :=
          ok_or (fi_checked_mul reward_per_token amount) Overflow in
        ok_or (fi_checked_sub reward_tally reward_per_token_mul_amount) Underflow) ;;;
      ret tt).

Definition withdraw_reward (pool_id : CurrencyId) (stake_id : VaultId) (currency_id : CurrencyId)
  : M PoolState Z :=
  let* reward := compute_reward pool_id stake_id currency_id in
  let* reward_as_fixed :=
    lift (ok_or (fi_checked_from_integer reward) pooled_rewards.TryIntoIntError) in
  checked_sub_mut TotalRewards currency_id reward_as_fixed ;;;
  let* stake := gets (stake pool_id stake_id) in
  let* reward_per_token := gets (reward_per_token currency_id pool_id) in
  let* tally := lift (ok_or (fi_checked_mul stake reward_per_token) Overflow) in
  sinsert RewardTally (currency_id, (pool_id, stake_id)) tally ;;;
  ret reward.

(** ** The [RewardsApi] trait *)

Definition fixed_arg (b : Balance) : M PoolState Z :=
  lift (ok_or (to_fixed b) pooled_rewards.TryIntoIntError).

Definition balance_result (i : Z) : M PoolState Balance :=
  lift (ok_or (i128_to_u128 i) pooled_rewards.TryIntoIntError).

Definition rewards_reward_currencies_len (pool_id : CurrencyId) : M PoolState Z :=
  gets (fun s => Z.of_nat (length (reward_currencies pool_id s)) mod 2 ^ 32).

Definition rewards_distribute_reward (pool_id currency_id : CurrencyId) (amount : Balance)
  : M PoolState unit :=
  let* a := fixed_arg amount in distribute_reward pool_id currency_id a.

Definition rewards_compute_reward (pool_id : CurrencyId) (stake_id : VaultId)
    (currency_id : CurrencyId) : M PoolState Balance :=
  let* x := compute_reward pool_id stake_id currency_id in balance_result x.

Definition rewards_withdraw_reward (pool_id : CurrencyId) (stake_id : VaultId)
    (currency_id : CurrencyId) : M PoolState Balance :=
  let* x := withdraw_reward pool_id stake_id currency_id in balance_result x.

Definition rewards_get_total_stake (pool_id : CurrencyId) : M PoolState Balance :=
  let* total := gets (total_stake pool_id) in
  let* x := lift (ok_or (fi_truncate_to_inner total) pooled_rewards.TryIntoIntError) in
  balance_result x.

Definition rewards_get_stake (pool_id : CurrencyId) (stake_id : VaultId) : M PoolState Balance :=
  let* current := gets (stake pool_id stake_id) in
  let* x := lift (ok_or (fi_truncate_to_inner current) pooled_rewards.TryIntoIntError) in
  balance_result x.

Definition rewards_deposit_stake (pool_id : CurrencyId) (stake_id : VaultId) (amount : Balance)
  : M PoolState unit :=
  let* a := fixed_arg amount in deposit_stake pool_id stake_id a.

Definition rewards_withdraw_stake (pool_id : CurrencyId) (stake_id : VaultId) (amount : Balance)
  : M PoolState unit :=
  let* a := fixed_arg amount in withdraw_stake pool_id stake_id a.

Definition rewards_withdraw_all_stake (pool_id : CurrencyId) (stake_id : VaultId)
  : M PoolState Balance :=
  let* amount := rewards_get_stake pool_id stake_id in
  rewards_withdraw_stake pool_id stake_id amount ;;;
  ret amount.

Definition rewards_set_stake (pool_id : CurrencyId) (stake_id : VaultId) (amount : Balance)
  : M PoolState unit :=
  let* current_stake := rewards_get_stake pool_id stake_id in
  if current_stake <? amount then
    rewards_deposit_stake pool_id stake_id (u128_saturating_sub amount current_stake)
  else if amount <? current_stake then
    rewards_withdraw_stake pool_id stake_id (u128_saturating_sub current_stake amount)
  else ret tt.

(** The order of the pools is the order of the storage iterator, which is
    unspecified. *)
Definition rewards_get_total_stake_all_pools : M PoolState (list (CurrencyId * Balance)) :=
  let* entries := gets (fun s => map_to_list (TotalStake_ s)) in
  fold_m (fun pool_vec '(pool_id, pool_total_stake) =>
    let* x := lift (ok_or (fi_truncate_to_inner pool_total_stake)
                      pooled_rewards.TryIntoIntError) in
    let* pool_stake_as_balance := balance_result x in
    ret (pool_vec ++ [(pool_id, pool_stake_as_balance)])) entries [].

End pooled_rewards.

(** ** Runs of the pallet

    The calls other pallets make, through the trait; a failed one is rolled
    back with the extrinsic it is part of. *)

Inductive PoolCall :=
| DepositStake (p : CurrencyId) (v : VaultId) (x : Balance)
| WithdrawStake (p : CurrencyId) (v : VaultId) (x : Balance)
| SetStake (p : CurrencyId) (v : VaultId) (x : Balance)
| WithdrawAllStake (p : CurrencyId) (v : VaultId)
| DistributeReward (p c : CurrencyId) (x : Balance)
| WithdrawReward (p : CurrencyId) (v : VaultId) (c : CurrencyId).

Section runs.
Context `{FX : FixedPoint} (bound : nat).

Definition exec (call : PoolCall) : M PoolState unit :=
  transactional match call with
  | DepositStake p v x => rewards_deposit_stake p v x
  | WithdrawStake p v x => rewards_withdraw_stake p v x
  | SetStake p v x => rewards_set_stake p v x
  | WithdrawAllStake p v => rewards_withdraw_all_stake p v ;;; ret tt
  | DistributeReward p c x => rewards_distribute_reward bound p c x
  | WithdrawReward p v c => rewards_withdraw_reward p v c ;;; ret tt
  end.

Fixpoint run (calls : list PoolCall) (s : PoolState) : PoolState :=
  match calls with
  | [] => s
  | c :: calls' => run calls' (snd (exec c s))
  end.

End runs.

(** ** Solvency

    [claim c s k x] is what the participant [k] with stake [x] can claim in
    currency [c], exactly, in units of 1/DIV^2: the tally is subtracted before
    any rounding.  [phi] adds up the positive claims. *)

Definition claim (c : CurrencyId) (s : PoolState) (k : CurrencyId * VaultId) (x : Z) : Z :=
  x * reward_per_token c k.1 s - sget RewardTally (c, k) s * DIV.

Definition phi (c : CurrencyId) (s : PoolState) : Z :=
  map_sum (fun k x => Z.max 0 (claim c s k x)) (Stake_ s).

Definition in_pool (p : CurrencyId) (k : CurrencyId * VaultId) (x : Z) : Z :=
  if decide (k.1 = p) then x else 0.

(** The invariant of the pallet for reward currency [c]; [n] bounds the number
    of roundings so far. *)
Record PoolInv (c : CurrencyId) (n : Z) (s : PoolState) : Prop := mkPoolInv {
  inv_stake : forall k x, Stake_ s !! k = Some x -> 0 <= x;
  inv_total : forall p, total_stake p s = map_sum (in_pool p) (Stake_ s);
  inv_rpt : forall p, 0 <= reward_per_token c p s;
  inv_sorted : forall p, btree_sorted currency_key (reward_currencies p s);
  inv_tracked : forall p, c ∉ reward_currencies p s -> reward_per_token c p s = 0;
  inv_tally : forall k, Stake_ s !! k = None -> sget RewardTally (c, k) s = 0;
  inv_whole : exists t, total_rewards c s = t * DIV;
  inv_phi : phi c s <= (total_rewards c s + n) * DIV;
}.

Lemma empty_pool_inv c : PoolInv c 0 empty_pool.
Proof.
  split; unfold phi, total_stake, total_rewards, reward_per_token, reward_currencies, sget; simpl;
    intros; rewrite ?lookup_empty, ?map_sum_empty; simpl; try done.
  - constructor.
  - by exists 0.
Qed.

Section solvency.
Context `{FX : FixedPoint} {L : FixedPointLaws FX}.
Implicit Types s : PoolState.

Lemma pool_checked_add_mut_ok {K} `{Countable K} (st : Storage PoolState K Z) k x s u s' :
  checked_add_mut st k x s = (Ok u, s') ->
  in_i128 (sget st k s + x) /\ s' = swrite st (<[k := sget st k s + x]> (sread st s)) s.
Proof.
  unfold checked_add_mut. intros Hm. inv_ok. apply smutate_ok in E as [Hf ->]. inv_ok.
  rewrite fi_add_spec in Hf. by apply fits_Some in Hf as [-> ?].
Qed.

Lemma pool_checked_sub_mut_ok {K} `{Countable K} (st : Storage PoolState K Z) k x s u s' :
  checked_sub_mut st k x s = (Ok u, s') ->
  in_i128 (sget st k s - x) /\ s' = swrite st (<[k := sget st k s - x]> (sread st s)) s.
Proof.
  unfold checked_sub_mut. intros Hm. inv_ok. apply smutate_ok in E as [Hf ->]. inv_ok.
  rewrite fi_sub_spec in Hf. by apply fits_Some in Hf as [-> ?].
Qed.

Lemma lawful_RewardTally : lawful RewardTally.
Proof. split; by intros; destruct s. Qed.

#[local] Instance tally_key_inj (p : CurrencyId) (v : VaultId) :
  Inj (=) (=) (fun c : CurrencyId => (c, (p, v))).
Proof. by intros c c' [=]. Qed.

(** The loop over the reward currencies of a pool moves the tally of [c] once
    where [c] is tracked, and nothing else of [c]. *)
Lemma tally_loop p v (g : Z -> Z -> outcome Z) l s s' :
  NoDup l ->
  for_each l (fun currency_id =>
    let* r := gets (reward_per_token currency_id p) in
    smutate RewardTally (currency_id, (p, v)) (g r) ;;; ret tt) s = (Ok tt, s') ->
  (exists m, s' = swrite RewardTally m s) /\
  (forall c, c ∈ l -> g (reward_per_token c p s) (reward_tally c p v s) = Ok (reward_tally c p v s')) /\
  (forall c k, c ∉ l \/ k <> (p, v) -> sget RewardTally (c, k) s' = sget RewardTally (c, k) s).
Proof.
  intros Hl H.
  destruct (mutate_each_ok RewardTally lawful_RewardTally (fun c => (c, (p, v)))
    (fun c => reward_per_token c p) ltac:(by intros ? ? []) g l s s' Hl H) as (z & Hz & ->).
  split_and!; [by eexists| |].
  - intros c Hc. etrans; [exact (Hz c Hc)|]. unfold reward_tally, sget.
    rewrite (sread_swrite _ lawful_RewardTally), lookup_union, (lookup_written (fun c => (c, (p, v)))) by done.
    by destruct (_ !! _).
  - intros c k Hck. unfold sget. rewrite (sread_swrite _ lawful_RewardTally), lookup_union.
    rewrite lookup_written_None; [by rewrite (left_id_L None union)|].
    intros c' Hc' [= -> ->]. by destruct Hck.
Qed.

Lemma entry_claim c n s k :
  PoolInv c n s ->
  entry (fun k x => Z.max 0 (claim c s k x)) (Stake_ s) k =
  Z.max 0 (claim c s k (sget Stake k s)).
Proof.
  intros I. unfold entry. change (sget Stake k s) with (default 0 (Stake_ s !! k)).
  destruct (Stake_ s !! k) as [x|] eqn:E; simpl; [done|].
  unfold claim. rewrite (inv_tally _ _ _ I k E). lia.
Qed.

(** A change of one stake whose tally follows keeps the invariant; [e] is the
    rounding it may cost. *)
Lemma stake_change_inv c n s s' p v a e :
  PoolInv c n s -> 0 <= e -> 0 <= stake p v s + a ->
  Stake_ s' = <[(p, v) := stake p v s + a]> (Stake_ s) ->
  TotalStake_ s' = <[p := total_stake p s + a]> (TotalStake_ s) ->
  RewardPerToken_ s' = RewardPerToken_ s -> RewardCurrencies_ s' = RewardCurrencies_ s ->
  TotalRewards_ s' = TotalRewards_ s ->
  (forall k, k <> (p, v) -> sget RewardTally (c, k) s' = sget RewardTally (c, k) s) ->
  claim c s' (p, v) (stake p v s + a) <= claim c s (p, v) (stake p v s) + e * DIV ->
  PoolInv c (n + e) s'.
Proof.
  intros I He Ha Hst Htot Hrpt Hcur Hrew Htal Hcl.
  assert (Er : forall q, reward_per_token c q s' = reward_per_token c q s)
    by (intros; unfold reward_per_token, sget; simpl; by rewrite Hrpt).
  assert (Ec : forall q, reward_currencies q s' = reward_currencies q s)
    by (intros; unfold reward_currencies; by rewrite Hcur).
  assert (Et : total_rewards c s' = total_rewards c s)
    by (unfold total_rewards, sget; simpl; by rewrite Hrew).
  split; intros; rewrite ?Er, ?Ec, ?Et in *; try (by apply I).
  - rewrite Hst in *. destruct (decide (k = (p, v))) as [->|Hne].
    + rewrite lookup_insert_eq in H. injection H as <-. lia.
    + rewrite lookup_insert_ne in H by done. by eapply I.
  - rewrite Hst, map_sum_insert. unfold total_stake, sget. simpl. rewrite Htot.
    assert (E0 : entry (in_pool p0) (Stake_ s) (p, v) = if decide (p = p0) then stake p v s else 0).
    { unfold entry, in_pool, stake, sget. simpl. destruct (Stake_ s !! (p, v)); simpl; by destruct (decide _). }
    rewrite E0. pose proof (inv_total _ _ _ I p0) as Hp. unfold in_pool at 2. simpl.
    unfold total_stake, sget in Hp. simpl in Hp.
    destruct (decide (p = p0)) as [->|Hne].
    + rewrite lookup_insert_eq. simpl. unfold total_stake, sget. simpl. lia.
    + rewrite lookup_insert_ne by done. lia.
  - rewrite Hst in *. destruct (decide (k = (p, v))) as [->|Hne].
    + by rewrite lookup_insert_eq in H.
    + rewrite lookup_insert_ne in H by done. rewrite Htal by done. by eapply I.
  - unfold phi. rewrite Hst. rewrite (map_sum_update (fun k x => Z.max 0 (claim c s k x))).
    + rewrite (entry_claim _ _ _ _ I). pose proof (inv_phi _ _ _ I) as Hphi. unfold phi in Hphi.
      change (sget Stake (p, v) s) with (stake p v s). pose proof DIV_pos. nia.
    + intros k y Hne Hy. unfold claim. by rewrite Er, Htal.
Qed.

Lemma deposit_stake_inv c n p v x s s' :
  PoolInv c n s -> 0 <= x -> deposit_stake p v x s = (Ok tt, s') -> PoolInv c (n + 1) s'.
Proof.
  intros I Hx H. unfold deposit_stake in H.
  apply bind_ok in H as (? & s1 & H1 & H). apply pool_checked_add_mut_ok in H1 as [_ ->].
  apply bind_ok in H as (? & s2 & H1 & H). apply pool_checked_add_mut_ok in H1 as [_ ->].
  rewrite gets_run in H.
  assert (Hcur : forall a b, reward_currencies p (swrite TotalStake a (swrite Stake b s)) =
    reward_currencies p s) by (by destruct s). rewrite Hcur in H.
  apply tally_loop in H as ((m & ->) & Hin & Hout); [|eapply btree_sorted_NoDup, I].
  set (s2 := swrite TotalStake _ _) in *.
  assert (Hr : reward_per_token c p s2 = reward_per_token c p s) by (by destruct s).
  assert (Ht : forall k, sget RewardTally (c, k) s2 = sget RewardTally (c, k) s) by (by destruct s).
  assert (0 <= stake p v s).
  { unfold stake, sget. simpl. destruct (Stake_ s !! (p, v)) eqn:E; simpl; [by eapply I in E|lia]. }
  pose proof (inv_rpt _ _ _ I p) as Hrpt. pose proof DIV_pos.
  eapply (stake_change_inv c n s _ p v x 1); try done; try (by subst s2; destruct s); try lia.
  - intros k Hk. rewrite <- Ht. apply Hout. by right.
  - assert (Hr' : reward_per_token c p (swrite RewardTally m s2) = reward_per_token c p s)
      by (by destruct s).
    unfold claim. cbn [fst]. rewrite Hr'. set (r := reward_per_token c p s) in *.
    destruct (decide (c ∈ reward_currencies p s)) as [Hc|Hc].
    + specialize (Hin c Hc). rewrite Hr in Hin. unfold reward_tally in Hin. rewrite Ht in Hin. inv_ok.
      rewrite fi_mul_spec in E by done. apply fits_Some in E as [-> _].
      rewrite fi_add_spec in Hin. apply fits_Some in Hin as [-> _].
      pose proof (Z.mul_div_le (r * x) DIV ltac:(lia)). pose proof (Z.mod_pos_bound (r * x) DIV ltac:(lia)).
      pose proof (Z.div_mod (r * x) DIV ltac:(lia)). nia.
    + assert (r = 0) as -> by (by eapply inv_tracked). rewrite Hout by (by left). rewrite Ht. lia.
Qed.

Lemma withdraw_stake_inv c n p v x s s' :
  PoolInv c n s -> 0 <= x -> withdraw_stake p v x s = (Ok tt, s') -> PoolInv c n s'.
Proof.
  intros I Hx H. unfold withdraw_stake in H. rewrite gets_run in H.
  destruct (stake p v s <? x) eqn:Hle; [inv_ok|].
  apply bind_ok in H as (? & s1 & H1 & H). apply pool_checked_sub_mut_ok in H1 as [_ ->].
  apply bind_ok in H as (? & s2 & H1 & H). apply pool_checked_sub_mut_ok in H1 as [_ ->].
  rewrite gets_run in H.
  assert (Hcur : forall a b, reward_currencies p (swrite TotalStake a (swrite Stake b s)) =
    reward_currencies p s) by (by destruct s). rewrite Hcur in H.
  apply tally_loop in H as ((m & ->) & Hin & Hout); [|eapply btree_sorted_NoDup, I].
  set (s2 := swrite TotalStake _ _) in *.
  assert (Hr : reward_per_token c p s2 = reward_per_token c p s) by (by destruct s).
  assert (Ht : forall k, sget RewardTally (c, k) s2 = sget RewardTally (c, k) s) by (by destruct s).
  pose proof (inv_rpt _ _ _ I p) as Hrpt. pose proof DIV_pos.
  replace n with (n + 0) by lia.
  eapply (stake_change_inv c n s _ p v (- x) 0); try done; try (by subst s2; destruct s); try lia.
  - intros k Hk. rewrite <- Ht. apply Hout. by right.
  - assert (Hr' : reward_per_token c p (swrite RewardTally m s2) = reward_per_token c p s)
      by (by destruct s).
    unfold claim. cbn [fst]. rewrite Hr'. set (r := reward_per_token c p s) in *.
    destruct (decide (c ∈ reward_currencies p s)) as [Hc|Hc].
    + specialize (Hin c Hc). rewrite Hr in Hin. unfold reward_tally in Hin. rewrite Ht in Hin. inv_ok.
      rewrite fi_mul_spec in E by done. apply fits_Some in E as [-> _].
      rewrite fi_sub_spec in Hin. apply fits_Some in Hin as [-> _].
      pose proof (Z.mul_div_le (r * x) DIV ltac:(lia)). nia.
    + assert (r = 0) as -> by (by eapply inv_tracked). rewrite Hout by (by left). rewrite Ht. lia.
Qed.

Lemma PoolInv_mono c n n' s : n <= n' -> PoolInv c n s -> PoolInv c n' s.
Proof.
  intros Hn []. split; auto. pose proof DIV_pos. nia.
Qed.

(** The state after a distribution of [x] in currency [c'] to pool [p]. *)
Lemma distribute_reward_ok bound p c' x s s' :
  distribute_reward bound p c' x s = (Ok tt, s') -> x <> 0 ->
  total_stake p s <> 0 /\
  exists d, fi_checked_div x (total_stake p s) = Some d /\
  s' = mkPool (TotalStake_ s) (<[c' := total_rewards c' s + x]> (TotalRewards_ s))
    (<[(c', p) := reward_per_token c' p s + d]> (RewardPerToken_ s)) (Stake_ s) (RewardTally_ s)
    (<[p := btree_insert currency_key c' (reward_currencies p s)]> (RewardCurrencies_ s)).
Proof.
  unfold distribute_reward. intros H Hx. destruct (x =? 0) eqn:?; [lia|]. inv_ok.
  split; [by intros Ht; rewrite Ht in *|].
  match goal with H : btree_try_insert _ _ _ _ = Some _ |- _ =>
    unfold btree_try_insert in H; destruct (_ || _); [|done]; injection H as <- end.
  match goal with H : fi_checked_div _ _ = Some ?d |- _ => exists d; split; [exact H|] end.
  repeat match goal with H : checked_add_mut _ _ _ _ = _ |- _ =>
    apply pool_checked_add_mut_ok in H as [_ ->] end.
  by destruct s.
Qed.

Lemma distribute_reward_inv bound c n p c' x s s' :
  PoolInv c n s -> 0 <= x -> (exists t, x = t * DIV) ->
  distribute_reward bound p c' x s = (Ok tt, s') -> PoolInv c n s'.
Proof.
  intros I Hx [t Ht] H. destruct (decide (x = 0)) as [->|Hx0].
  { unfold distribute_reward in H. simpl in H. by inv_ok. }
  apply distribute_reward_ok in H as (Htot0 & d & Hd & ->); [|done]. pose proof DIV_pos as HD.
  assert (HT : 0 < total_stake p s).
  { enough (0 <= total_stake p s) by lia. rewrite (inv_total _ _ _ I). apply map_sum_nonneg.
    intros k y Hk. unfold in_pool. case_decide; [by eapply I|lia]. }
  rewrite fi_div_spec in Hd by lia. apply fits_Some in Hd as [-> _].
  set (T := total_stake p s) in *. set (d := x * DIV / T).
  assert (Hd0 : 0 <= d) by (apply Z.div_pos; nia).
  assert (HdT : d * T <= x * DIV) by (rewrite Z.mul_comm; apply Z.mul_div_le; lia).
  set (s' := mkPool _ _ _ _ _ _).
  assert (Er : forall q, reward_per_token c q s' =
    reward_per_token c q s + if decide ((c', p) = (c, q)) then d else 0).
  { intros q. unfold reward_per_token, sget, s'. simpl. destruct (decide _) as [[= <- <-]|Hne].
    - by rewrite lookup_insert_eq.
    - rewrite lookup_insert_ne by done. lia. }
  assert (Ec : forall q, reward_currencies q s' =
    if decide (q = p) then btree_insert currency_key c' (reward_currencies p s)
    else reward_currencies q s).
  { intros q. unfold reward_currencies, s'. simpl. destruct (decide (q = p)) as [->|].
    - by rewrite lookup_insert_eq.
    - by rewrite lookup_insert_ne. }
  assert (Et : total_rewards c s' = total_rewards c s + if decide (c' = c) then x else 0).
  { unfold total_rewards, sget, s'. simpl. destruct (decide (c' = c)) as [->|].
    - by rewrite lookup_insert_eq.
    - rewrite lookup_insert_ne by done. lia. }
  split; try (by apply I).
  - intros q. rewrite Er. pose proof (inv_rpt _ _ _ I q). destruct (decide ((c', p) = (c, q))); lia.
  - intros q. rewrite Ec. destruct (decide (q = p)); [apply btree_insert_sorted; [apply _|]|]; apply I.
  - intros q. rewrite Ec, Er. destruct (decide (q = p)) as [->|Hq].
    + rewrite (elem_of_btree_insert currency_key). intros Hn. rewrite decide_False by (intros [= ->]; tauto).
      rewrite (inv_tracked _ _ _ I p) by tauto. done.
    + intros Hn. rewrite decide_False by congruence. rewrite (inv_tracked _ _ _ I q Hn). done.
  - rewrite Et. destruct (inv_whole _ _ _ I) as [u Hu]. destruct (decide (c' = c)).
    + exists (u + t). lia.
    + exists u. lia.
  - rewrite Et. pose proof (inv_phi _ _ _ I) as Hphi. unfold phi in *.
    destruct (decide (c' = c)) as [->|Hc].
    + etrans; [apply (map_sum_mono _ (fun k x => Z.max 0 (claim c s k x) + d * in_pool p k x))|].
      * intros k y Hy. pose proof (inv_stake _ _ _ I k y Hy). unfold claim. rewrite Er.
        change (sget RewardTally (c, k) s') with (sget RewardTally (c, k) s). unfold in_pool.
        destruct k as [q w]. simpl. destruct (decide ((c, p) = (c, q))) as [[= <-]|Hne].
        -- rewrite decide_True by done. nia.
        -- rewrite decide_False by congruence. lia.
      * change (Stake_ s') with (Stake_ s). rewrite map_sum_add, map_sum_scale.
        rewrite <- (inv_total _ _ _ I p). fold T. nia.
    + rewrite (map_sum_ext _ (fun k x => Z.max 0 (claim c s k x))); [simpl; lia|].
      intros k y _. unfold claim. rewrite Er, decide_False by congruence.
      change (sget RewardTally (c, k) s') with (sget RewardTally (c, k) s). f_equal. lia.
Qed.

Lemma compute_reward_ok p v c r s s' :
  compute_reward p v c s = (Ok r, s') ->
  s' = s /\ exists m, fi_checked_mul (stake p v s) (reward_per_token c p s) = Some m /\
    r = Z.quot (m - reward_tally c p v s) DIV.
Proof.
  unfold compute_reward. intros H. inv_ok. split; [done|].
  match goal with H : fi_checked_sub _ _ = Some _ |- _ =>
    rewrite fi_sub_spec in H; apply fits_Some in H as [-> _] end.
  match goal with H : fi_truncate_to_inner _ = Some _ |- _ => injection H as <- end. eauto.
Qed.

Lemma withdraw_reward_ok p v c r s s' :
  withdraw_reward p v c s = (Ok r, s') ->
  exists m, fi_checked_mul (stake p v s) (reward_per_token c p s) = Some m /\
    r = Z.quot (m - reward_tally c p v s) DIV /\
    s' = mkPool (TotalStake_ s) (<[c := total_rewards c s - r * DIV]> (TotalRewards_ s))
      (RewardPerToken_ s) (Stake_ s) (<[(c, (p, v)) := m]> (RewardTally_ s)) (RewardCurrencies_ s).
Proof.
  unfold withdraw_reward. intros H. apply bind_ok in H as (r0 & s0 & Hc & H).
  apply compute_reward_ok in Hc as [-> (m & Hm & Hr)]. inv_ok.
  match goal with H : checked_sub_mut _ _ _ _ = _ |- _ => apply pool_checked_sub_mut_ok in H as [_ ->] end.
  match goal with H : sinsert _ _ _ _ = _ |- _ => apply sinsert_ok in H; subst end.
  match goal with H : fi_checked_from_integer _ = Some _ |- _ =>
    rewrite fi_from_integer_spec in H; apply fits_Some in H as [-> _] end.
  assert (Es : forall t, stake p v (swrite TotalRewards t s) = stake p v s) by (by destruct s).
  assert (Er : forall t, reward_per_token c p (swrite TotalRewards t s) = reward_per_token c p s)
    by (by destruct s).
  rewrite Es, Er in *. exists m. split_and!; [done|done|].
  match goal with H : fi_checked_mul _ _ = Some ?w |- _ =>
    assert (w = m) as -> by congruence end.
  by destruct s.
Qed.

Lemma withdraw_reward_inv c n p v c' r s s' :
  PoolInv c n s -> withdraw_reward p v c' s = (Ok r, s') -> 0 <= r -> PoolInv c (n + 1) s'.
Proof.
  intros I H Hr0. apply withdraw_reward_ok in H as (m & Hm & Hr & ->). pose proof DIV_pos as HD.
  set (s' := mkPool _ _ _ _ _ _).
  assert (Ht : forall k, sget RewardTally (c, k) s' =
    if decide ((c', (p, v)) = (c, k)) then m else sget RewardTally (c, k) s).
  { intros k. unfold s', sget. simpl. destruct (decide _) as [[= <- <-]|].
    - by rewrite lookup_insert_eq.
    - by rewrite lookup_insert_ne. }
  destruct (decide (c' = c)) as [->|Hc].
  2: { apply (PoolInv_mono _ n); [lia|].
       assert (Et : total_rewards c s' = total_rewards c s).
       { unfold total_rewards, sget, s'. simpl. by rewrite lookup_insert_ne. }
       split; rewrite ?Et; try (by apply I).
       - intros k Hk. rewrite Ht, decide_False by congruence. by apply I.
       - pose proof (inv_phi _ _ _ I). unfold phi in *.
         rewrite (map_sum_ext _ (fun k x => Z.max 0 (claim c s k x))); [simpl; lia|].
         intros k y _. unfold claim. by rewrite Ht, decide_False by congruence. }
  assert (Et : total_rewards c s' = total_rewards c s - r * DIV).
  { unfold total_rewards, sget, s'. simpl. by rewrite lookup_insert_eq. }
  assert (H0 : 0 <= stake p v s).
  { unfold stake, sget. simpl. destruct (Stake_ s !! (p, v)) eqn:E; simpl; [by eapply I in E|lia]. }
  pose proof (inv_rpt _ _ _ I p) as Hp. rewrite fi_mul_spec in Hm by done.
  apply fits_Some in Hm as [-> _]. set (x := stake p v s) in *. set (rr := reward_per_token c p s) in *.
  split; rewrite ?Et; try (by apply I).
  - intros k Hk. rewrite Ht. destruct (decide _) as [[= <-]|]; [|by apply I].
    assert (x = 0) as -> by (unfold x, stake, sget; simpl in *; by rewrite Hk). done.
  - destruct (inv_whole _ _ _ I) as [u ->]. exists (u - r). lia.
  - pose proof (inv_phi _ _ _ I) as Hphi. unfold phi in *.
    assert (Hne : forall k y, k <> (p, v) -> claim c s' k y = claim c s k y).
    { intros k y Hk. unfold claim. by rewrite Ht, decide_False by congruence. }
    set (F := x * rr / DIV - reward_tally c p v s) in *.
    assert (Hold : claim c s (p, v) x = F * DIV + x * rr mod DIV).
    { unfold claim, F, reward_tally. simpl. fold rr. pose proof (Z.div_mod (x * rr) DIV ltac:(lia)). lia. }
    assert (Hnew : claim c s' (p, v) x = x * rr mod DIV).
    { unfold claim. rewrite Ht, decide_True by done. simpl.
      change (reward_per_token c p s') with rr. pose proof (Z.div_mod (x * rr) DIV ltac:(lia)). lia. }
    pose proof (Z.mod_pos_bound (x * rr) DIV HD).
    destruct (Stake_ s !! (p, v)) as [y|] eqn:Hk.
    + assert (y = x) as -> by (unfold x, stake, sget; simpl; by rewrite Hk).
      change (Stake_ s') with (Stake_ s). rewrite <- (insert_id _ _ _ Hk).
      rewrite (map_sum_update (fun k x => Z.max 0 (claim c s k x))) by (intros; by rewrite Hne).
      rewrite (entry_claim _ _ _ _ I). change (sget Stake (p, v) s) with x.
      rewrite Hold, Hnew. destruct (Z_le_gt_dec 0 F).
      * assert (r * DIV <= F) by (rewrite Hr, Z.quot_div_nonneg, Z.mul_comm by lia; apply Z.mul_div_le; lia).
        nia.
      * assert (r = 0) as ->; [|nia].
        assert (Z.quot F DIV <= 0); [|lia]. rewrite <- (Z.quot_0_l DIV) by lia. apply Z.quot_le_mono; lia.
    + assert (x = 0) as Hx by (unfold x, stake, sget; simpl; by rewrite Hk).
      assert (r = 0) as ->.
      { rewrite Hr. unfold F, reward_tally. rewrite (inv_tally _ _ _ I _ Hk), Hx. done. }
      rewrite (map_sum_ext _ (fun k x => Z.max 0 (claim c s k x))); [simpl; nia|].
      intros k z Hz. rewrite Hne; [done|]. intros ->. simpl in Hz. congruence.
Qed.

(** Amounts are balances. *)
Definition call_wf (call : PoolCall) : Prop :=
  match call with
  | DepositStake _ _ x | WithdrawStake _ _ x | SetStake _ _ x | DistributeReward _ _ x => 0 <= x
  | _ => True
  end.

Lemma fixed_arg_ok x y s s' :
  0 <= x -> fixed_arg x s = (Ok y, s') -> y = x * DIV /\ s' = s.
Proof.
  unfold fixed_arg. intros Hx H. inv_ok. by apply to_fixed_Some in H as [-> _].
Qed.

Lemma rewards_get_stake_ok p v x s s' :
  rewards_get_stake p v s = (Ok x, s') -> 0 <= x /\ x = Z.quot (stake p v s) DIV /\ s' = s.
Proof.
  unfold rewards_get_stake, balance_result. intros H. inv_ok.
  match goal with H : fi_truncate_to_inner _ = Some _ |- _ => injection H as <- end.
  apply fits_Some in H as [-> ?]. auto with lia.
Qed.

Lemma rewards_deposit_stake_inv c n p v x s s' :
  PoolInv c n s -> 0 <= x -> rewards_deposit_stake p v x s = (Ok tt, s') -> PoolInv c (n + 1) s'.
Proof.
  unfold rewards_deposit_stake. intros I Hx H. apply bind_ok in H as (y & s1 & Hy & H).
  apply fixed_arg_ok in Hy as [-> ->]; [|done]. pose proof DIV_pos.
  eapply deposit_stake_inv; [exact I | | exact H]. nia.
Qed.

Lemma rewards_withdraw_stake_inv c n p v x s s' :
  PoolInv c n s -> 0 <= x -> rewards_withdraw_stake p v x s = (Ok tt, s') -> PoolInv c n s'.
Proof.
  unfold rewards_withdraw_stake. intros I Hx H. apply bind_ok in H as (y & s1 & Hy & H).
  apply fixed_arg_ok in Hy as [-> ->]; [|done]. pose proof DIV_pos.
  eapply withdraw_stake_inv; [exact I | | exact H]. nia.
Qed.

Lemma exec_inv bound c n call s :
  PoolInv c n s -> call_wf call -> PoolInv c (n + 1) (snd (exec bound call s)).
Proof.
  intros I Hwf. assert (I1 : PoolInv c (n + 1) s) by (eapply PoolInv_mono; [|exact I]; lia).
  unfold exec, transactional.
  match goal with |- context [match ?m s with _ => _ end] => destruct (m s) as [[[]|e|] s'] eqn:E end;
    simpl; try exact I1.
  destruct call; simpl in Hwf.
  - by eapply rewards_deposit_stake_inv.
  - eapply PoolInv_mono; [|by eapply rewards_withdraw_stake_inv]. lia.
  - unfold rewards_set_stake in E. apply bind_ok in E as (cur & s1 & Hg & E).
    apply rewards_get_stake_ok in Hg as (Hc0 & _ & ->).
    destruct (cur <? x); [|destruct (x <? cur); [|by inv_ok]].
    + eapply rewards_deposit_stake_inv; [exact I| |exact E]. unfold u128_saturating_sub. lia.
    + eapply PoolInv_mono; [|eapply rewards_withdraw_stake_inv; [exact I| |exact E]]; [lia|].
      unfold u128_saturating_sub. lia.
  - unfold rewards_withdraw_all_stake in E. inv_ok.
    match goal with H : rewards_get_stake _ _ _ = _ |- _ =>
      apply rewards_get_stake_ok in H as (Hc0 & _ & ->) end.
    eapply PoolInv_mono; [|by eapply rewards_withdraw_stake_inv]. lia.
  - unfold rewards_distribute_reward in E. apply bind_ok in E as (y & s1 & Hy & E).
    apply fixed_arg_ok in Hy as [-> ->]; [|done]. pose proof DIV_pos.
    eapply PoolInv_mono; [|eapply distribute_reward_inv; [exact I| | |exact E]]; [lia|nia|eauto].
  - unfold rewards_withdraw_reward, balance_result in E. inv_ok.
    match goal with H : i128_to_u128 _ = Some _ |- _ => apply fits_Some in H as [-> ?] end.
    eapply withdraw_reward_inv; [exact I|eassumption|]. lia.
Qed.

Lemma run_inv bound c calls n s :
  PoolInv c n s -> Forall call_wf calls -> PoolInv c (n + Z.of_nat (length calls)) (run bound calls s).
Proof.
  revert n s. induction calls as [|call calls IH]; intros n s I Hwf; simpl.
  - eapply PoolInv_mono; [|exact I]. lia.
  - inversion Hwf; subst. eapply PoolInv_mono; [|apply IH; [by apply exec_inv|done]]. lia.
Qed.

Lemma pool_compute_reward_frame {B} (g : PoolState -> B) p v c : preserves g (rewards_compute_reward p v c).
Proof. unfold rewards_compute_reward, compute_reward, balance_result. solve_frame. Qed.

(** What one participant can claim is covered by the exact claim. *)
Lemma compute_reward_le_claim c n s k r :
  PoolInv c n s -> fst (rewards_compute_reward k.1 k.2 c s) = Ok r ->
  r * DIV * DIV <= entry (fun k x => Z.max 0 (claim c s k x)) (Stake_ s) k.
Proof.
  intros I H. apply reads_run in H; [|apply pool_compute_reward_frame]. pose proof DIV_pos as HD.
  unfold rewards_compute_reward, balance_result in H. apply bind_ok in H as (x & s1 & Hc & Hb).
  apply compute_reward_ok in Hc as (-> & m & Hm & Hr). apply lift_ok in Hb as [Hb _].
  apply ok_or_ok, fits_Some in Hb as [-> ?].
  destruct k as [p v]. simpl in *. rewrite (entry_claim _ _ _ _ I).
  assert (H0 : 0 <= stake p v s).
  { unfold stake, sget. simpl. destruct (Stake_ s !! (p, v)) eqn:E; simpl; [by eapply I in E|lia]. }
  pose proof (inv_rpt _ _ _ I p) as Hp. rewrite fi_mul_spec in Hm by done. apply fits_Some in Hm as [-> _].
  unfold claim. cbn [fst]. change (sget Stake (p, v) s) with (stake p v s).
  change (sget RewardTally (c, (p, v)) s) with (reward_tally c p v s).
  set (y := stake p v s * reward_per_token c p s) in *. set (t := reward_tally c p v s) in *.
  pose proof (Z.mul_div_le y DIV HD). destruct (Z_le_gt_dec 0 (y / DIV - t)).
  - rewrite Z.quot_div_nonneg in Hr by lia. pose proof (Z.mul_div_le (y / DIV - t) DIV HD). nia.
  - assert (Z.quot (y / DIV - t) DIV <= 0) by (rewrite <- (Z.quot_0_l DIV) by lia; apply Z.quot_le_mono; lia).
    nia.
Qed.

(** Where the invariant holds, the participants' claims are covered. *)
Lemma claims_covered c n s (l : list ((CurrencyId * VaultId) * Z)) t :
  PoolInv c n s -> n < DIV -> NoDup l.*1 ->
  Forall (fun '(k, r) => fst (rewards_compute_reward k.1 k.2 c s) = Ok r) l ->
  fst (get_total_rewards c s) = Ok t ->
  foldr (fun x acc => x.2 + acc) 0 l <= t.
Proof.
  intros I Hlen Hnd Hl Ht. pose proof DIV_pos as HD.
  pose proof (inv_phi _ _ _ I) as Hphi. destruct (inv_whole _ _ _ I) as [u Hu].
  assert (Hsum : foldr (fun x acc => x.2 + acc) 0 l * DIV * DIV <= phi c s).
  { etrans; [|apply (map_sum_ge_list _ _ l.*1); [intros; lia | done]].
    clear - I Hl L. induction l as [|[k r] l IH]; [simpl; lia|].
    rewrite fmap_cons. cbn [foldr fst snd]. inversion Hl as [|? ? Hk Hl']; subst. specialize (IH Hl').
    pose proof (compute_reward_le_claim _ _ _ _ _ I Hk). rewrite !Z.mul_add_distr_r. lia. }
  unfold get_total_rewards, bind, gets, lift in Ht. simpl in Ht. injection Ht as <-.
  rewrite Hu. rewrite Z.quot_mul by lia. rewrite Hu in Hphi. nia.
Qed.

(** C10: the pallet never promises more than it has: after fewer than 10^18
    calls, the rewards that any set of participants can claim in a currency
    add up to at most the rewards distributed and not yet withdrawn. *)
Theorem rewards_solvent bound calls c (l : list ((CurrencyId * VaultId) * Z)) t :
  let s := run bound calls empty_pool in
  Forall call_wf calls -> Z.of_nat (length calls) < DIV ->
  NoDup l.*1 ->
  Forall (fun '(k, r) => fst (rewards_compute_reward k.1 k.2 c s) = Ok r) l ->
  fst (get_total_rewards c s) = Ok t ->
  foldr (fun x acc => x.2 + acc) 0 l <= t.
Proof.
  intros s Hwf Hlen. apply (claims_covered c (0 + Z.of_nat (length calls)) s); [|lia].
  exact (run_inv bound c calls 0 _ (empty_pool_inv c) Hwf).
Qed.

Lemma pool_deposit_stake_ok p v x s s' :
  deposit_stake p v x s = (Ok tt, s') -> stake p v s' = stake p v s + x.
Proof.
  unfold deposit_stake. intros H. inv_ok.
  match goal with H : for_each _ _ _ = _ |- _ =>
    apply (preserves_ok (stake p v)) in H; [rewrite H|] end.
  - repeat match goal with H : checked_add_mut _ _ _ _ = _ |- _ =>
      apply pool_checked_add_mut_ok in H as [_ ->] end.
    destruct s. unfold stake, sget. simpl. by rewrite lookup_insert_eq.
  - solve_frame. apply preserves_smutate. by intros ? [].
Qed.

Lemma withdraw_stake_ok p v x s s' :
  withdraw_stake p v x s = (Ok tt, s') -> stake p v s' = stake p v s - x.
Proof.
  unfold withdraw_stake. intros H. rewrite gets_run in H. destruct (_ <? _); inv_ok.
  match goal with H : for_each _ _ _ = _ |- _ =>
    apply (preserves_ok (stake p v)) in H; [rewrite H|] end.
  - repeat match goal with H : checked_sub_mut _ _ _ _ = _ |- _ =>
      apply pool_checked_sub_mut_ok in H as [_ ->] end.
    destruct s. unfold stake, sget. simpl. by rewrite lookup_insert_eq.
  - solve_frame. apply preserves_smutate. by intros ? [].
Qed.

(** [set_stake] sets: whatever the participant's stake was, afterwards it is
    the requested amount. *)
Theorem set_stake_exact p v x k s s' :
  stake p v s = k * DIV -> 0 <= k -> 0 <= x ->
  rewards_set_stake p v x s = (Ok tt, s') ->
  stake p v s' = x * DIV /\ (x <= u128_max -> fst (rewards_get_stake p v s') = Ok x).
Proof.
  intros Hk Hk0 Hx H. pose proof DIV_pos as HD. unfold rewards_set_stake in H.
  apply bind_ok in H as (cur & s1 & Hg & H). apply rewards_get_stake_ok in Hg as (Hc & Hcur & ->).
  rewrite Hk, Z.quot_mul in Hcur by lia. subst cur.
  assert (Hst : stake p v s' = x * DIV); [|split; [done|]].
  - unfold rewards_deposit_stake, rewards_withdraw_stake, u128_saturating_sub in H.
    destruct (k <? x) eqn:Hlt; [|destruct (x <? k) eqn:Hgt].
    + apply bind_ok in H as (y & s1 & Hy & H). apply fixed_arg_ok in Hy as [-> ->]; [|lia].
      apply pool_deposit_stake_ok in H. rewrite H, Hk. lia.
    + apply bind_ok in H as (y & s1 & Hy & H). apply fixed_arg_ok in Hy as [-> ->]; [|lia].
      apply withdraw_stake_ok in H. rewrite H, Hk. lia.
    + inv_ok. assert (k = x) as <- by lia. done.
  - intros Hmax. unfold rewards_get_stake, balance_result, bind, gets, lift. simpl. rewrite Hst.
    unfold i128_to_u128. rewrite Z.quot_mul, fits_in by lia. done.
Qed.

End solvency.

(** ** Witnesses *)

Definition w_vault (a : N) : VaultId := new_vault_id a (XCM 0) (Stellar StellarNative).
Definition w_calls : list PoolCall :=
  [SetStake (XCM 0) (w_vault 1) 30; SetStake (XCM 0) (w_vault 2) 70;
   DistributeReward (XCM 0) Native 1001; WithdrawReward (XCM 0) (w_vault 1) Native;
   SetStake (XCM 0) (w_vault 1) 10; DistributeReward (XCM 0) Native 501].

Lemma rewards_solvent_witness :
  let s := run (FX := FixedFloor) 5 w_calls empty_pool in
  fst (get_total_rewards Native s) = Ok 1202 /\ 62 + (1139 + 0) <= 1202.
Proof.
  intros s. split; [vm_compute; reflexivity|].
  apply (rewards_solvent (FX := FixedFloor) 5 w_calls Native
    [((XCM 0, w_vault 1), 62); ((XCM 0, w_vault 2), 1139)]).
  - repeat constructor; simpl; lia.
  - vm_compute; reflexivity.
  - apply (bool_decide_unpack _). vm_compute. exact I.
  - repeat constructor; vm_compute; reflexivity.
  - vm_compute; reflexivity.
Defined.

Lemma set_stake_exact_witness :
  let s := run (FX := FixedFloor) 5 w_calls empty_pool in
  let s' := snd (rewards_set_stake (FX := FixedFloor) (XCM 0) (w_vault 2) 25 s) in
  stake (XCM 0) (w_vault 2) s' = 25 * DIV /\
  (25 <= u128_max -> fst (rewards_get_stake (XCM 0) (w_vault 2) s') = Ok 25).
Proof.
  intros s s'.
  apply (set_stake_exact (FX := FixedFloor) (XCM 0) (w_vault 2) 25 70 s s').
  - vm_compute; reflexivity.
  - lia.
  - lia.
  - apply run_ok. vm_compute; reflexivity.
Defined.
