(* ===== verification/RewardPool.v ===== *)
(** * The reward pallet

    [src/pallets/reward/src/lib.rs]: a single reward pool.  Unlike the
    pooled-rewards pallet it does not remember which currencies rewards were paid
    in: every change of a stake settles the native currency and the wrapped
    currency it is given.

    The pallet is generic in the identifiers of participants.  The functions of
    the [Rewards] and [ModifyStake] traits have the prefixes [rewards_] and
    [modify_]. *)

From S2P Require Import Prelude FixedPoint Primitives PooledRewards.

Module RewardPool.

(** ** Storage *)

Section storage.
Context (RewardId : Type) `{Countable RewardId}.

Record RewardState := mkReward {
  TotalStake : Z;
  TotalRewards_ : gmap CurrencyId Z;
  RewardPerToken_ : gmap CurrencyId Z;
  Stake_ : gmap RewardId Z;
  RewardTally_ : gmap (CurrencyId * RewardId) Z;
}.

Definition empty_reward : RewardState := mkReward 0 ∅ ∅ ∅ ∅.

Definition TotalRewards : Storage RewardState CurrencyId Z :=
  mkStorage TotalRewards_ (fun m '(mkReward a b c d e) => mkReward a m c d e).
Definition RewardPerToken : Storage RewardState CurrencyId Z :=
  mkStorage RewardPerToken_ (fun m '(mkReward a b c d e) => mkReward a b m d e).
Definition Stake : Storage RewardState RewardId Z :=
  mkStorage Stake_ (fun m '(mkReward a b c d e) => mkReward a b c m e).
Definition RewardTally : Storage RewardState (CurrencyId * RewardId) Z :=
  mkStorage RewardTally_ (fun m '(mkReward a b c d e) => mkReward a b c d m).
Definition set_TotalStake (x : Z) (s : RewardState) : RewardState :=
  let '(mkReward a b c d e) := s in mkReward x b c d e.

End storage.

Arguments TotalStake {_ _ _} r.
Arguments TotalRewards_ {_ _ _} r.
Arguments RewardPerToken_ {_ _ _} r.
Arguments Stake_ {_ _ _} r.
Arguments RewardTally_ {_ _ _} r.
Arguments mkReward {_ _ _}.
Arguments empty_reward {_ _ _}.
Arguments TotalRewards {_ _ _}.
Arguments RewardPerToken {_ _ _}.
Arguments Stake {_ _ _}.
Arguments RewardTally {_ _ _}.
Arguments set_TotalStake {_ _ _}.

(** ** Operations *)

Section reward.
Context {RewardId : Type} `{Countable RewardId} `{FX : FixedPoint} (GetNativeCurrencyId : CurrencyId).
#[local] Abbreviation State := (RewardState RewardId).

(** [checked_add_mut!] and [checked_sub_mut!], on a map and on the total. *)
Definition checked_add_mut {K} `{Countable K} (st : Storage State K Z) (k : K) (x : Z) : M State unit :=
  smutate st k (fun value => ok_or (fi_checked_add value x) Overflow) ;;; ret tt.
Definition checked_sub_mut {K} `{Countable K} (st : Storage State K Z) (k : K) (x : Z) : M State unit :=
  smutate st k (fun value => ok_or (fi_checked_sub value x) Underflow) ;;; ret tt.
Definition total_add_mut (x : Z) : M State unit :=
  let* value := gets TotalStake in
  let* value := lift (ok_or (fi_checked_add value x) Overflow) in
  modify (set_TotalStake value).
Definition total_sub_mut (x : Z) : M State unit :=
  let* value := gets TotalStake in
  let* value := lift (ok_or (fi_checked_sub value x) Underflow) in
  modify (set_TotalStake value).

Definition get_total_rewards (currency_id : CurrencyId) : M State Z :=
  let* total := gets (sget TotalRewards currency_id) in
  lift (ok_or (fi_truncate_to_inner total) reward.TryIntoIntError).

Definition deposit_stake (reward_id : RewardId) (amount : Z) (wrapped_currency : CurrencyId)
  : M State unit :=
  checked_add_mut Stake reward_id amount ;;;
  total_add_mut amount ;;;
  for_each [GetNativeCurrencyId; wrapped_currency] (fun currency_id =>
    let* reward_per_token := gets (sget RewardPerToken currency_id) in
    smutate RewardTally (currency_id, reward_id) (fun reward_tally =>
      let? reward_per_token_mul_amount :=
        ok_or (fi_checked_mul reward_per_token amount) Overflow in
      ok_or (fi_checked_add reward_tally reward_per_token_mul_amount) Overflow) ;;;
    ret tt).

Definition distribute_reward (currency_id : CurrencyId) (reward : Z) : M State unit :=
  let* total_stake := gets TotalStake in
  ensure (negb (total_stake =? 0)) reward.ZeroTotalStake ;;;
  let* reward_div_total_stake := lift (ok_or (fi_checked_div reward total_stake) Underflow) in
  checked_add_mut RewardPerToken currency_id reward_div_total_stake ;;;
  checked_add_mut TotalRewards currency_id reward.

Definition compute_reward (currency_id : CurrencyId) (account_id : RewardId) : M State Z :=
  let* stake := gets (sget Stake account_id) in
  let* reward_per_token := gets (sget RewardPerToken currency_id) in
  let* stake_mul_reward_per_token :=
    lift (ok_or (fi_checked_mul stake reward_per_token) Overflow) in
  let* reward_tally := gets (sget RewardTally (currency_id, account_id)) in
  let* x := lift (ok_or (fi_checked_sub stake_mul_reward_per_token reward_tally) Underflow) in
  lift (ok_or (fi_truncate_to_inner x) reward.TryIntoIntError).

Definition withdraw_stake (reward_id : RewardId) (amount : Z) (wrapped_currency : CurrencyId)
  : M State unit :=
  let* stake := gets (sget Stake reward_id) in
  if stake <? amount then throw reward.InsufficientFunds
  else
    checked_sub_mut Stake reward_id amount ;;;
    total_sub_mut amount ;;;
    for_each [GetNativeCurrencyId; wrapped_currency] (fun currency_id =>
      let* reward_per_token := gets (sget RewardPerToken currency_id) in
      smutate RewardTally (currency_id, reward_id) (fun reward_tally =>
        let? reward_per_token_mul_amount :=
          ok_or (fi_checked_mul reward_per_token amount) Overflow in
        ok_or (fi_checked_sub reward_tally reward_per_token_mul_amount) Underflow) ;;;
      ret tt).

Definition withdraw_reward (reward_id : RewardId) (currency_id : CurrencyId) : M State Z :=
  let* reward := compute_reward currency_id reward_id in
  let* reward_as_fixed := lift (ok_or (fi_checked_from_integer reward) reward.TryIntoIntError) in
  checked_sub_mut TotalRewards currency_id reward_as_fixed ;;;
  let* stake := gets (sget Stake reward_id) in
  let* reward_per_token := gets (sget RewardPerToken currency_id) in
  let* tally := lift (ok_or (fi_checked_mul stake reward_per_token) Overflow) in
  sinsert RewardTally (currency_id, reward_id) tally ;;;
  ret reward.

(** ** The [Rewards] and [ModifyStake] traits *)

Definition fixed_arg (b : Balance) : M State Z :=
  lift (ok_or (to_fixed b) reward.TryIntoIntError).
Definition balance_result (i : Z) : M State Balance :=
  lift (ok_or (i128_to_u128 i) reward.TryIntoIntError).

Definition rewards_get_stake (reward_id : RewardId) : M State Balance :=
  let* stake := gets (sget Stake reward_id) in
  let* x := lift (ok_or (fi_truncate_to_inner stake) reward.TryIntoIntError) in
  balance_result x.

Definition rewards_set_stake (reward_id : RewardId) (amount : Balance) (wrapped_currency : CurrencyId)
  : M State unit :=
  let* current_stake := rewards_get_stake reward_id in
  if current_stake <? amount then
    let* additional_stake := fixed_arg (u128_saturating_sub amount current_stake) in
    deposit_stake reward_id additional_stake wrapped_currency
  else if amount <? current_stake then
    let* surplus_stake := fixed_arg (u128_saturating_sub current_stake amount) in
    withdraw_stake reward_id surplus_stake wrapped_currency
  else ret tt.

Definition rewards_distribute_reward (amount : Balance) (currency_id : CurrencyId) : M State unit :=
  let* amount := fixed_arg amount in distribute_reward currency_id amount.

Definition rewards_compute_reward (reward_id : RewardId) (currency_id : CurrencyId) : M State Balance :=
  let* x := compute_reward currency_id reward_id in balance_result x.

Definition rewards_withdraw_reward (reward_id : RewardId) (currency_id : CurrencyId) : M State Balance :=
  let* x := withdraw_reward reward_id currency_id in balance_result x.

Definition modify_deposit_stake (reward_id : RewardId) (amount : Balance) (wrapped_currency : CurrencyId)
  : M State unit :=
  let* amount := fixed_arg amount in deposit_stake reward_id amount wrapped_currency.

Definition modify_withdraw_stake (reward_id : RewardId) (wrapped_currency : CurrencyId) : M State unit :=
  let* stake := gets (sget Stake reward_id) in
  withdraw_stake reward_id stake wrapped_currency.

End reward.

(** ** Runs

    The calls of the two traits; a failed one is rolled back. *)

Inductive RewardCall (RewardId : Type) :=
| SetStake (a : RewardId) (x : Balance) (wrapped : CurrencyId)
| DepositStake (a : RewardId) (x : Balance) (wrapped : CurrencyId)
| WithdrawStake (a : RewardId) (wrapped : CurrencyId)
| DistributeReward (x : Balance) (c : CurrencyId)
| WithdrawReward (a : RewardId) (c : CurrencyId).
Arguments SetStake {_}.
Arguments DepositStake {_}.
Arguments WithdrawStake {_}.
Arguments DistributeReward {_}.
Arguments WithdrawReward {_}.

Section runs.
Context {RewardId : Type} `{Countable RewardId} `{FX : FixedPoint} (native : CurrencyId).

Definition exec (call : RewardCall RewardId) : M (RewardState RewardId) unit :=
  transactional match call with
  | SetStake a x wrapped => rewards_set_stake native a x wrapped
  | DepositStake a x wrapped => modify_deposit_stake native a x wrapped
  | WithdrawStake a wrapped => modify_withdraw_stake native a wrapped
  | DistributeReward x c => rewards_distribute_reward x c
  | WithdrawReward a c => rewards_withdraw_reward a c ;;; ret tt
  end.

Fixpoint run (calls : list (RewardCall RewardId)) (s : RewardState RewardId) : RewardState RewardId :=
  match calls with
  | [] => s
  | c :: calls' => run calls' (snd (exec c s))
  end.

(** Amounts are balances, something is distributed, and the wrapped currency is
    [wrapped] throughout. *)
Definition call_wf (wrapped : CurrencyId) (call : RewardCall RewardId) : Prop :=
  match call with
  | SetStake _ x w | DepositStake _ x w => 0 <= x /\ w = wrapped
  | WithdrawStake _ w => w = wrapped
  | DistributeReward x c => 0 < x /\ c ∈ [native; wrapped]
  | WithdrawReward _ _ => True
  end.

End runs.

(** ** Refinement

    With one wrapped currency, the pool is a pool [p] of the pooled-rewards
    pallet whose reward currencies are the native and the wrapped one.
    [pool_step] is a successful operation of that pallet on it. *)

Inductive pool_step `{FX : FixedPoint} (bound : nat) (p : CurrencyId) : PoolState -> PoolState -> Prop :=
| pool_deposit v x s s' :
    0 <= x -> PooledRewards.deposit_stake p v x s = (Ok tt, s') -> pool_step bound p s s'
| pool_withdraw v x s s' :
    0 <= x -> PooledRewards.withdraw_stake p v x s = (Ok tt, s') -> pool_step bound p s s'
| pool_distribute c x s s' :
    0 <= x -> PooledRewards.distribute_reward bound p c (x * DIV) s = (Ok tt, s') -> pool_step bound p s s'
| pool_reward v c r s s' :
    0 <= r -> PooledRewards.withdraw_reward p v c s = (Ok r, s') -> pool_step bound p s s'.

Section refinement.
Context {RewardId : Type} `{Countable RewardId} `{FX : FixedPoint} {L : FixedPointLaws FX}.
Context (p native wrapped : CurrencyId) (Hnw : native <> wrapped).
Context (vault_of : RewardId -> VaultId) `{!Inj (=) (=) vault_of}.
#[local] Abbreviation State := (RewardState RewardId).
Implicit Types (s : State) (a : RewardId) (c : CurrencyId).

Definition currencies : list CurrencyId :=
  btree_insert currency_key wrapped (btree_insert currency_key native []).
Definition rpt_key (c : CurrencyId) : CurrencyId * CurrencyId := (c, p).
Definition stake_key (a : RewardId) : CurrencyId * VaultId := (p, vault_of a).
Definition tally_key (k : CurrencyId * RewardId) : CurrencyId * (CurrencyId * VaultId) :=
  (k.1, stake_key k.2).

Definition pool_of (s : State) : PoolState :=
  mkPool {[p := TotalStake s]} (TotalRewards_ s) (kmap rpt_key (RewardPerToken_ s))
    (kmap stake_key (Stake_ s)) (kmap tally_key (RewardTally_ s)) {[p := currencies]}.

#[local] Instance rpt_key_inj : Inj (=) (=) rpt_key.
Proof. by intros c c' [=]. Qed.
#[local] Instance stake_key_inj : Inj (=) (=) stake_key.
Proof. intros a a' [= E]. by apply (inj vault_of). Qed.
#[local] Instance tally_key_inj : Inj (=) (=) tally_key.
Proof. intros [c a] [c' a'] [= -> E]. by apply (inj vault_of) in E as ->. Qed.

Lemma stake_pool_of a s : stake p (vault_of a) (pool_of s) = sget Stake a s.
Proof. unfold stake, sget. simpl. by rewrite (lookup_kmap stake_key _ a). Qed.
Lemma rpt_pool_of c s : reward_per_token c p (pool_of s) = sget RewardPerToken c s.
Proof. unfold reward_per_token, sget. simpl. by rewrite (lookup_kmap rpt_key _ c). Qed.
Lemma tally_pool_of c a s : reward_tally c p (vault_of a) (pool_of s) = sget RewardTally (c, a) s.
Proof. unfold reward_tally, sget. simpl. by rewrite (lookup_kmap tally_key _ (c, a)). Qed.
Lemma total_stake_pool_of s : total_stake p (pool_of s) = TotalStake s.
Proof. unfold total_stake, sget. simpl. by rewrite lookup_singleton_eq. Qed.
Lemma currencies_pool_of s : reward_currencies p (pool_of s) = currencies.
Proof. unfold reward_currencies. simpl. by rewrite lookup_singleton_eq. Qed.

Lemma elem_of_currencies c : c ∈ currencies <-> c ∈ [native; wrapped].
Proof.
  unfold currencies. rewrite !(elem_of_btree_insert currency_key), !elem_of_cons, elem_of_nil. tauto.
Qed.

Lemma currencies_sorted : btree_sorted currency_key currencies.
Proof. repeat (apply btree_insert_sorted; [apply _|]). constructor. Qed.

Lemma currencies_perm : [native; wrapped] ≡ₚ currencies.
Proof.
  apply NoDup_Permutation.
  - apply list.NoDup_cons. rewrite list_elem_of_singleton. split; [done|apply NoDup_singleton].
  - eapply btree_sorted_NoDup, currencies_sorted.
  - intros c. symmetry. apply elem_of_currencies.
Qed.

Lemma lawful_tally : lawful (@RewardTally RewardId _ _).
Proof. split; by intros; destruct s. Qed.

Lemma reward_checked_add_ok {K} `{Countable K} (st : Storage State K Z) k x s u s' :
  checked_add_mut st k x s = (Ok u, s') ->
  in_i128 (sget st k s + x) /\ s' = swrite st (<[k := sget st k s + x]> (sread st s)) s.
Proof.
  unfold checked_add_mut. intros Hm. inv_ok. apply smutate_ok in E as [Hf ->]. inv_ok.
  rewrite fi_add_spec in Hf. by apply fits_Some in Hf as [-> ?].
Qed.

Lemma reward_checked_sub_ok {K} `{Countable K} (st : Storage State K Z) k x s u s' :
  checked_sub_mut st k x s = (Ok u, s') ->
  in_i128 (sget st k s - x) /\ s' = swrite st (<[k := sget st k s - x]> (sread st s)) s.
Proof.
  unfold checked_sub_mut. intros Hm. inv_ok. apply smutate_ok in E as [Hf ->]. inv_ok.
  rewrite fi_sub_spec in Hf. by apply fits_Some in Hf as [-> ?].
Qed.

(** An item of this pallet that [pool_of] keeps under another key of an item of
    the pooled-rewards pallet: reading, writing and moving it commute with
    [pool_of]. *)
Record linked {K K'} `{Countable K} `{Countable K'} (st : Storage State K Z)
    (st' : Storage PoolState K' Z) (key : K -> K') : Prop := {
  linked_get k s : sget st' (key k) (pool_of s) = sget st k s;
  linked_write k x s : swrite st' (<[key k := x]> (sread st' (pool_of s))) (pool_of s) =
    pool_of (swrite st (<[k := x]> (sread st s)) s);
}.

Lemma linked_stake : linked Stake PooledRewards.Stake stake_key.
Proof.
  split; [exact stake_pool_of|]. intros k x []. unfold pool_of. cbn. by rewrite (kmap_insert stake_key).
Qed.
Lemma linked_rpt : linked RewardPerToken PooledRewards.RewardPerToken rpt_key.
Proof. split; [exact rpt_pool_of|]. intros k x []. unfold pool_of. cbn. by rewrite (kmap_insert rpt_key). Qed.
Lemma linked_tally : linked RewardTally PooledRewards.RewardTally tally_key.
Proof.
  split; [intros []; apply tally_pool_of|]. intros k x []. unfold pool_of. cbn.
  by rewrite (kmap_insert tally_key).
Qed.
Lemma linked_rewards : linked TotalRewards PooledRewards.TotalRewards id.
Proof. split; [done|]. by intros k x []. Qed.

Section linked.
Context {K K'} `{Countable K} `{Countable K'} {st : Storage State K Z} {st' : Storage PoolState K' Z}.
Context {key : K -> K'} (Hst : linked st st' key).

Lemma linked_add {B} k x s s' (f : unit -> M PoolState B) :
  checked_add_mut st k x s = (Ok tt, s') ->
  bind (PooledRewards.checked_add_mut st' (key k) x) f (pool_of s) = f tt (pool_of s').
Proof.
  intros [Hx ->]%reward_checked_add_ok. unfold PooledRewards.checked_add_mut. rewrite bind_assoc.
  rewrite (smutate_run _ _ _ _ _ (sget st k s + x)).
  - change (bind (ret tt) f) with (f tt). by rewrite (linked_write _ _ _ Hst).
  - by rewrite (linked_get _ _ _ Hst), fi_add_spec, fits_in.
Qed.

Lemma linked_sub {B} k x s s' (f : unit -> M PoolState B) :
  checked_sub_mut st k x s = (Ok tt, s') ->
  bind (PooledRewards.checked_sub_mut st' (key k) x) f (pool_of s) = f tt (pool_of s').
Proof.
  intros [Hx ->]%reward_checked_sub_ok. unfold PooledRewards.checked_sub_mut. rewrite bind_assoc.
  rewrite (smutate_run _ _ _ _ _ (sget st k s - x)).
  - change (bind (ret tt) f) with (f tt). by rewrite (linked_write _ _ _ Hst).
  - by rewrite (linked_get _ _ _ Hst), fi_sub_spec, fits_in.
Qed.

End linked.

Lemma total_write t s :
  swrite PooledRewards.TotalStake (<[p := t]> (sread PooledRewards.TotalStake (pool_of s))) (pool_of s) =
  pool_of (set_TotalStake t s).
Proof. destruct s. unfold pool_of. cbn. by rewrite insert_singleton_eq. Qed.

Lemma total_add {B} x s s' (f : unit -> M PoolState B) :
  total_add_mut x s = (Ok tt, s') ->
  bind (PooledRewards.checked_add_mut PooledRewards.TotalStake p x) f (pool_of s) = f tt (pool_of s').
Proof.
  unfold total_add_mut, PooledRewards.checked_add_mut. intros Hm. inv_ok. rewrite bind_assoc.
  rewrite (smutate_run _ _ _ _ _ a0); [by rewrite total_write|].
  change (sget PooledRewards.TotalStake p (pool_of s)) with (total_stake p (pool_of s)).
  by rewrite total_stake_pool_of, E0.
Qed.

Lemma total_sub {B} x s s' (f : unit -> M PoolState B) :
  total_sub_mut x s = (Ok tt, s') ->
  bind (PooledRewards.checked_sub_mut PooledRewards.TotalStake p x) f (pool_of s) = f tt (pool_of s').
Proof.
  unfold total_sub_mut, PooledRewards.checked_sub_mut. intros Hm. inv_ok. rewrite bind_assoc.
  rewrite (smutate_run _ _ _ _ _ a0); [by rewrite total_write|].
  change (sget PooledRewards.TotalStake p (pool_of s)) with (total_stake p (pool_of s)).
  by rewrite total_stake_pool_of, E0.
Qed.

(** Settling the two currencies is settling the currencies of the pool. *)
Lemma settle_pool_of a (g : Z -> Z -> outcome Z) s s' :
  for_each [native; wrapped] (fun c =>
    let* r := gets (sget RewardPerToken c) in
    smutate RewardTally (c, a) (g r) ;;; ret tt) s = (Ok tt, s') ->
  for_each currencies (fun c =>
    let* r := gets (reward_per_token c p) in
    smutate PooledRewards.RewardTally (c, (p, vault_of a)) (g r) ;;; ret tt) (pool_of s) =
    (Ok tt, pool_of s').
Proof.
  intros Hm. pose proof currencies_perm as Hp.
  assert (Hnd : NoDup [native; wrapped]) by (rewrite Hp; eapply btree_sorted_NoDup, currencies_sorted).
  assert (Ha : Inj (=) (=) (fun c : CurrencyId => (c, a))) by (by intros c c' [=]).
  assert (Hv : Inj (=) (=) (fun c : CurrencyId => (c, (p, vault_of a)))) by (by intros c c' [=]).
  destruct (mutate_each_ok RewardTally lawful_tally (fun c => (c, a)) (fun c => sget RewardPerToken c)
    ltac:(by intros ? ? []) g _ s s' Hnd Hm) as (z & Hz & ->).
  etrans; [apply (mutate_each_run PooledRewards.RewardTally lawful_RewardTally
    (fun c => (c, (p, vault_of a))) (fun c => reward_per_token c p) ltac:(by intros ? ? []) g z)|].
  - by rewrite <- Hp.
  - intros c Hc. rewrite rpt_pool_of. etrans; [|apply Hz, elem_of_currencies, Hc].
    f_equal. exact (tally_pool_of c a s).
  - f_equal. rewrite <- (written_perm (fun c => (c, (p, vault_of a))) z _ _ Hnd Hp).
    unfold pool_of, written. destruct s. cbn -[list_to_map]. f_equal.
    by rewrite (kmap_union tally_key), (kmap_list_to_map tally_key).
Qed.

(** Each operation that succeeds, succeeds in the pool. *)
Lemma deposit_stake_pool_of a x s s' :
  deposit_stake native a x wrapped s = (Ok tt, s') ->
  PooledRewards.deposit_stake p (vault_of a) x (pool_of s) = (Ok tt, pool_of s').
Proof.
  unfold deposit_stake, PooledRewards.deposit_stake. intros Hm.
  apply bind_ok in Hm as ([] & s1 & H1 & Hm). apply bind_ok in Hm as ([] & s2 & H2 & Hm).
  rewrite (linked_add linked_stake a x s s1) by done. rewrite (total_add x s1 s2) by done.
  rewrite gets_run, currencies_pool_of. exact (settle_pool_of _ _ _ _ Hm).
Qed.

Lemma withdraw_stake_pool_of a x s s' :
  withdraw_stake native a x wrapped s = (Ok tt, s') ->
  PooledRewards.withdraw_stake p (vault_of a) x (pool_of s) = (Ok tt, pool_of s').
Proof.
  unfold withdraw_stake, PooledRewards.withdraw_stake. rewrite !gets_run, stake_pool_of.
  destruct (_ <? _); intros Hm; [by inv_ok|].
  apply bind_ok in Hm as ([] & s1 & H1 & Hm). apply bind_ok in Hm as ([] & s2 & H2 & Hm).
  rewrite (linked_sub linked_stake a x s s1) by done. rewrite (total_sub x s1 s2) by done.
  rewrite gets_run, currencies_pool_of. exact (settle_pool_of _ _ _ _ Hm).
Qed.

Lemma distribute_reward_pool_of bound c x s s' :
  c ∈ [native; wrapped] -> x <> 0 ->
  distribute_reward c x s = (Ok tt, s') ->
  PooledRewards.distribute_reward bound p c x (pool_of s) = (Ok tt, pool_of s').
Proof.
  intros Hc%elem_of_currencies Hx Hm. unfold distribute_reward, PooledRewards.distribute_reward in *.
  rewrite (proj2 (Z.eqb_neq x 0) Hx), gets_run, total_stake_pool_of.
  rewrite gets_run in Hm. unfold ensure in *.
  apply bind_ok in Hm as ([] & s1 & H1 & Hm). apply lift_ok in H1 as [H1 ->].
  apply bind_ok in Hm as (d & s2 & H2 & Hm). apply lift_ok in H2 as [H2 ->].
  apply bind_ok in Hm as ([] & s3 & H3 & Hm).
  rewrite (lift_run _ _ _ tt) by (apply oensure_ok in H1; by rewrite H1).
  rewrite gets_run, currencies_pool_of.
  assert (Hi : btree_try_insert currency_key bound c currencies = Some currencies).
  { unfold btree_try_insert. rewrite (bool_decide_eq_true_2 _ Hc), orb_true_r.
    by rewrite (btree_insert_id _ _ _ currencies_sorted Hc). }
  rewrite Hi, (lift_run _ _ _ currencies) by done.
  assert (Hw : set_RewardCurrencies (<[p := currencies]> (RewardCurrencies_ (pool_of s))) (pool_of s) =
    pool_of s) by (destruct s; unfold pool_of; cbn; by rewrite insert_singleton_eq).
  rewrite (bind_run _ _ _ tt (pool_of s)) by (unfold modify; by rewrite Hw).
  apply ok_or_ok in H2. rewrite (lift_run _ _ _ d) by (by rewrite H2). rewrite (linked_add linked_rpt c d s s3) by done.
  pose proof (linked_add linked_rewards c x s3 s' ret Hm) as E. unfold bind in E.
  by destruct (PooledRewards.checked_add_mut _ _ _ _) as [[[]| |] ?].
Qed.

Lemma compute_reward_pool_of c a r s s' :
  compute_reward c a s = (Ok r, s') ->
  s' = s /\ PooledRewards.compute_reward p (vault_of a) c (pool_of s) = (Ok r, pool_of s).
Proof.
  unfold compute_reward, PooledRewards.compute_reward. rewrite !gets_run, stake_pool_of, rpt_pool_of.
  intros Hm. apply bind_ok in Hm as (m & s1 & H1 & Hm). apply lift_ok in H1 as [H1 ->].
  apply ok_or_ok in H1. rewrite (lift_run _ _ _ m) by (by rewrite H1). rewrite gets_run, tally_pool_of. rewrite gets_run in Hm.
  apply bind_ok in Hm as (y & s2 & H2 & Hm). apply lift_ok in H2 as [H2 ->].
  apply ok_or_ok in H2. rewrite (lift_run _ _ _ y) by (by rewrite H2). apply lift_ok in Hm as [[= <-] ->]. done.
Qed.

Lemma withdraw_reward_pool_of c a r s s' :
  withdraw_reward a c s = (Ok r, s') ->
  PooledRewards.withdraw_reward p (vault_of a) c (pool_of s) = (Ok r, pool_of s').
Proof.
  unfold withdraw_reward, PooledRewards.withdraw_reward. intros Hm.
  apply bind_ok in Hm as (r0 & s1 & H1 & Hm). apply compute_reward_pool_of in H1 as [-> H1].
  rewrite (bind_run _ _ _ _ _ H1). apply bind_ok in Hm as (f & s2 & H2 & Hm). apply lift_ok in H2 as [H2 ->].
  apply ok_or_ok in H2. rewrite (lift_run _ _ _ f) by (by rewrite H2).
  apply bind_ok in Hm as ([] & s3 & H3 & Hm). rewrite (linked_sub linked_rewards c f s s3) by done.
  rewrite !gets_run, stake_pool_of, rpt_pool_of. rewrite !gets_run in Hm.
  apply bind_ok in Hm as (t & s4 & H4 & Hm). apply lift_ok in H4 as [H4 ->].
  apply ok_or_ok in H4. rewrite (lift_run _ _ _ t) by (by rewrite H4). inv_ok. apply sinsert_ok in E. subst.
  rewrite sinsert_run. unfold ret. f_equal. exact (linked_write _ _ _ linked_tally (c, a) t s3).
Qed.

(** What can be read of the pallet is what can be read of the pool. *)
Lemma rewards_compute_reward_pool_of c a r s :
  fst (rewards_compute_reward a c s) = Ok r ->
  fst (PooledRewards.rewards_compute_reward p (vault_of a) c (pool_of s)) = Ok r.
Proof.
  unfold rewards_compute_reward, PooledRewards.rewards_compute_reward. intros Hm.
  destruct (bind _ _ s) as [o s'] eqn:E. simpl in Hm. subst o.
  apply bind_ok in E as (x & s1 & [-> Hx]%compute_reward_pool_of & Hb). rewrite (bind_run _ _ _ _ _ Hx).
  unfold balance_result, PooledRewards.balance_result in *. inv_ok. by rewrite Hb.
Qed.

Lemma get_total_rewards_pool_of c s :
  fst (PooledRewards.get_total_rewards c (pool_of s)) = fst (get_total_rewards c s).
Proof. done. Qed.

Lemma empty_pool_of_inv c : PoolInv c 0 (pool_of empty_reward).
Proof.
  split; unfold phi, total_stake, total_rewards, reward_per_token, reward_currencies, sget, pool_of; simpl;
    intros; rewrite ?kmap_empty in *; rewrite ?lookup_empty, ?map_sum_empty; simpl; try done.
  - by destruct (decide (p = p0)) as [->|]; [rewrite lookup_singleton_eq|rewrite lookup_singleton_ne].
  - destruct (decide (p = p0)) as [->|]; [rewrite lookup_singleton_eq; apply currencies_sorted|].
    rewrite lookup_singleton_ne by done. constructor.
  - by exists 0.
Qed.

Lemma pool_step_inv bound c n (ps ps' : PoolState) :
  PoolInv c n ps -> pool_step bound p ps ps' -> PoolInv c (n + 1) ps'.
Proof.
  intros I Hs. pose proof DIV_pos. destruct Hs as [v x ps ps' Hx E|v x ps ps' Hx E|c' x ps ps' Hx E|v c' r ps ps' Hr E].
  - by eapply deposit_stake_inv.
  - eapply PoolInv_mono; [|by eapply withdraw_stake_inv]. lia.
  - eapply PoolInv_mono; [|eapply distribute_reward_inv; [exact I| | |exact E]]; [lia|nia|eauto].
  - by eapply withdraw_reward_inv.
Qed.

Lemma pool_steps_inv bound c k n (ps ps' : PoolState) :
  PoolInv c n ps -> nsteps (pool_step bound p) k ps ps' -> PoolInv c (n + Z.of_nat k) ps'.
Proof.
  intros I Hk. revert n I. induction Hk as [ps|k ps ps1 ps' H1 Hk IH]; intros n I.
  - eapply PoolInv_mono; [|exact I]. lia.
  - eapply PoolInv_mono; [|apply IH; by eapply pool_step_inv]. lia.
Qed.

Ltac fixed_amount :=
  match goal with H : to_fixed _ = Some _ |- _ =>
    apply to_fixed_Some in H as [-> _]; [|unfold u128_saturating_sub; lia] end.

Lemma exec_pool_step bound n call s :
  PoolInv native n (pool_of s) -> call_wf native wrapped call ->
  let s' := snd (exec native call s) in
  pool_of s' = pool_of s \/ pool_step bound p (pool_of s) (pool_of s').
Proof.
  intros I Hwf. unfold exec, transactional. pose proof DIV_pos.
  match goal with |- context [match ?m s with _ => _ end] => destruct (m s) as [[[]|e|] s'] eqn:E end;
    simpl; try (by left).
  destruct call as [a x w|a x w|a w|x c|a c]; simpl in Hwf.
  - destruct Hwf as [Hx ->]. unfold rewards_set_stake in E.
    apply bind_ok in E as (cur & s1 & Hg & E). unfold rewards_get_stake, balance_result in Hg. inv_ok.
    apply fits_Some in Hg as [-> ?]. unfold fixed_arg in E.
    destruct (_ <? x) eqn:?; [|destruct (x <? _) eqn:?; [|inv_ok; by left]]; inv_ok;
      fixed_amount; right.
    + eapply pool_deposit; [|by apply deposit_stake_pool_of]. unfold u128_saturating_sub. nia.
    + eapply pool_withdraw; [|by apply withdraw_stake_pool_of]. unfold u128_saturating_sub. nia.
  - destruct Hwf as [Hx ->]. unfold modify_deposit_stake, fixed_arg in E. inv_ok. right.
    fixed_amount. eapply pool_deposit; [|by apply deposit_stake_pool_of]. nia.
  - subst w. unfold modify_withdraw_stake in E. rewrite gets_run in E. right.
    eapply pool_withdraw; [|by apply withdraw_stake_pool_of]. rewrite <- stake_pool_of.
    unfold stake, sget. destruct (_ !! _) eqn:Ek; simpl; [by eapply I in Ek|lia].
  - destruct Hwf as [Hx Hc]. unfold rewards_distribute_reward, fixed_arg in E. inv_ok. right.
    fixed_amount. eapply pool_distribute; [|apply distribute_reward_pool_of; [done| |done]]; lia.
  - unfold rewards_withdraw_reward, balance_result in E. inv_ok. right.
    match goal with H : i128_to_u128 _ = Some _ |- _ => apply fits_Some in H as [-> ?] end. eapply pool_reward; [|by apply withdraw_reward_pool_of]. lia.
Qed.

Lemma run_pool_steps bound n calls s :
  PoolInv native n (pool_of s) -> Forall (call_wf native wrapped) calls ->
  exists k, (k <= length calls)%nat /\
    nsteps (pool_step bound p) k (pool_of s) (pool_of (run native calls s)).
Proof.
  intros I Hwf. revert n s I. induction Hwf as [|call calls Hc Hwf IH]; intros n s I; simpl.
  - exists 0%nat. split; [done|constructor].
  - destruct (exec_pool_step bound n call s I Hc) as [E|Hs].
    + destruct (IH n (snd (exec native call s))) as (k & Hk & Hks); [by rewrite E|].
      exists k. rewrite <- E. auto with lia.
    + destruct (IH (n + 1) (snd (exec native call s))) as (k & Hk & Hks); [by eapply pool_step_inv|].
      exists (S k). split; [lia|]. by econstructor.
Qed.

(** C22: with one wrapped currency, other than the native one, the reward pallet
    implements a pool of the pooled-rewards pallet whose reward currencies are
    these two: every run of the pallet is, step by step, a run of successful
    operations of that pool, at most one per call; and the stakes, the rewards
    that can be claimed and the total rewards read from the pallet are those of
    the pool. *)
Theorem reward_refines_pool bound calls :
  Forall (call_wf native wrapped) calls ->
  let s := run native calls empty_reward in
  (exists k, (k <= length calls)%nat /\
     nsteps (pool_step bound p) k (pool_of empty_reward) (pool_of s)) /\
  (forall a, stake p (vault_of a) (pool_of s) = sget Stake a s) /\
  (forall a c r, fst (rewards_compute_reward a c s) = Ok r ->
     fst (PooledRewards.rewards_compute_reward p (vault_of a) c (pool_of s)) = Ok r) /\
  (forall c, fst (PooledRewards.get_total_rewards c (pool_of s)) = fst (get_total_rewards c s)).
Proof.
  intros Hwf s. split_and!.
  - exact (run_pool_steps bound 0 calls empty_reward (empty_pool_of_inv native) Hwf).
  - intros a. apply stake_pool_of.
  - intros a c r. apply rewards_compute_reward_pool_of.
  - intros c. apply get_total_rewards_pool_of.
Qed.

(** The invariant of the pool, after a run. *)
Lemma run_pool_inv calls c :
  Forall (call_wf native wrapped) calls ->
  PoolInv c (Z.of_nat (length calls)) (pool_of (run native calls empty_reward)).
Proof.
  intros Hwf. destruct (run_pool_steps 0 0 calls empty_reward (empty_pool_of_inv native) Hwf) as (k & Hk & Hs).
  eapply PoolInv_mono; [|exact (pool_steps_inv _ c k 0 _ _ (empty_pool_of_inv c) Hs)]. lia.
Qed.

End refinement.

(** ** Solvency *)

Section solvency.
Context {RewardId : Type} `{Countable RewardId} `{FX : FixedPoint} {L : FixedPointLaws FX}.

(** The vault that stands for a participant in the pool. *)
Definition vault_for (native wrapped : CurrencyId) (a : RewardId) : VaultId :=
  new_vault_id (N.pos (encode a)) native wrapped.
#[local] Instance vault_for_inj native wrapped : Inj (=) (=) (vault_for native wrapped).
Proof. intros a a' [= E]. by apply (inj encode). Qed.

(** With one wrapped currency, other than the native one, the reward pallet
    never promises more than it has: after fewer than 10^18 calls, the rewards
    that any set of participants can claim in a currency add up to at most the
    rewards distributed and not yet withdrawn. *)
Theorem reward_pool_solvent native wrapped calls c (l : list (RewardId * Z)) t :
  let s := run native calls empty_reward in
  native <> wrapped -> Forall (call_wf native wrapped) calls -> Z.of_nat (length calls) < DIV ->
  NoDup l.*1 ->
  Forall (fun '(a, r) => fst (rewards_compute_reward a c s) = Ok r) l ->
  fst (get_total_rewards c s) = Ok t ->
  foldr (fun x acc => x.2 + acc) 0 l <= t.
Proof.
  intros s Hnw Hwf Hlen Hnd Hl Ht. set (v := vault_for native wrapped).
  pose proof (run_pool_inv native native wrapped Hnw v calls c Hwf) as I.
  set (l' := (fun x : RewardId * Z => ((native, v x.1), x.2)) <$> l).
  assert (E : foldr (fun x acc => x.2 + acc) 0 l = foldr (fun x acc => x.2 + acc) 0 l').
  { subst l'. clear. induction l as [|x l IH]; [done|].
    rewrite fmap_cons. cbn [foldr snd]. by rewrite IH. }
  rewrite E. apply (claims_covered c _ _ l' t I Hlen).
  - assert (l'.*1 = (fun a => (native, v a)) <$> l.*1) as ->
      by (subst l'; by rewrite <- !list_fmap_compose).
    assert (Inj (=) (=) (fun a => (native, v a))) by (intros a a' [= Ea]; by apply (inj encode)).
    by apply (NoDup_fmap_2 _).
  - subst l'. apply Forall_fmap. eapply Forall_impl; [|exact Hl]. intros [a r] Ha.
    by apply (rewards_compute_reward_pool_of native native wrapped v).
  - exact Ht.
Qed.

End solvency.

(** ** Witnesses *)

Definition w_native : CurrencyId := Native.
Definition w_wrapped : CurrencyId := Stellar StellarNative.
Definition w_other : CurrencyId := XCM 7.

Definition w_calls : list (RewardCall N) :=
  [SetStake 1%N 30 w_wrapped; DepositStake 2%N 70 w_wrapped; DistributeReward 1001 w_wrapped;
   WithdrawReward 1%N w_wrapped; SetStake 1%N 10 w_wrapped; DistributeReward 501 w_wrapped;
   WithdrawStake 2%N w_wrapped].

Lemma w_native_wrapped : w_native <> w_wrapped.
Proof. discriminate. Qed.

Lemma w_calls_wf : Forall (call_wf w_native w_wrapped) w_calls.
Proof. repeat constructor; simpl; lia. Qed.

Lemma reward_pool_solvent_witness :
  let s := run (FX := FixedFloor) w_native w_calls empty_reward in
  fst (get_total_rewards w_wrapped s) = Ok 1202 /\ 62 + (1139 + 0) <= 1202.
Proof.
  intros s. split; [vm_compute; reflexivity|].
  apply (reward_pool_solvent (FX := FixedFloor) w_native w_wrapped w_calls w_wrapped [(1%N, 62); (2%N, 1139)]).
  - exact w_native_wrapped.
  - exact w_calls_wf.
  - vm_compute; reflexivity.
  - apply (bool_decide_unpack _). vm_compute. exact I.
  - repeat constructor; vm_compute; reflexivity.
  - vm_compute; reflexivity.
Defined.

Lemma w_vault_for_inj : Inj (=) (=) (vault_for (RewardId := N) w_native w_wrapped).
Proof. intros a a' [= E]. by apply (inj encode). Qed.

Lemma reward_refines_pool_witness :
  let s := run (FX := FixedFloor) w_native w_calls empty_reward in
  let ps := pool_of w_native w_native w_wrapped (vault_for w_native w_wrapped) s in
  sget Stake 1%N s = 10 * DIV /\
  stake w_native (vault_for w_native w_wrapped 1%N) ps = sget Stake 1%N s.
Proof.
  intros s ps. split; [vm_compute; reflexivity|].
  destruct (reward_refines_pool (FX := FixedFloor) w_native w_native w_wrapped w_native_wrapped
    (vault_for w_native w_wrapped) (Inj0 := w_vault_for_inj) 5 w_calls w_calls_wf) as (_ & H & _).
  exact (H 1%N).
Defined.

(** The condition on the wrapped currency is needed: a change of stake settles
    the given wrapped currency only.  A stake deposited after a reward in another
    currency has a share of that reward, and the two participants can claim 1000
    each of the 1000 distributed. *)
Lemma other_currency_overpromised :
  let s := run (FX := FixedFloor) w_native
    [DepositStake 1%N 100 w_wrapped; DistributeReward 1000 w_other; DepositStake 2%N 100 w_wrapped]
    empty_reward in
  fst (get_total_rewards w_other s) = Ok 1000 /\
  fst (rewards_compute_reward (FX := FixedFloor) 1%N w_other s) = Ok 1000 /\
  fst (rewards_compute_reward (FX := FixedFloor) 2%N w_other s) = Ok 1000.
Proof. vm_compute. auto. Qed.

End RewardPool.
