(* ===== verification/StellarRelay.v ===== *)
(** * The stellar-relay pallet

    [src/pallets/stellar-relay/src/lib.rs] and [validation.rs]: the tier-1
    validators and organizations, their replacement, and the check that a
    Stellar transaction was externalized by a quorum of them.

    XDR, base64, hashing and signature verification belong to the Stellar SDK:
    they are the class [StellarSdk].  The block number of [frame_system] is an
    argument.  Counts are [u32] and [usize] values of the 32-bit runtime, with
    their wrap-around written out as [wrap32]. *)

From S2P Require Import Prelude Primitives.

(** ** Data *)

Record Validator := mkValidator {
  validator_name : Bytes;
  public_key : Bytes;
  organization_id : Z;
}.

Record Organization := mkOrganization { organization_key : Z; organization_name : Bytes }.

#[export] Instance Validator_eq_dec : EqDecision Validator.
Proof. solve_decision. Defined.
#[export] Instance Organization_eq_dec : EqDecision Organization.
Proof. solve_decision. Defined.

Record RelayState := mkRelay {
  Organizations : list Organization;
  Validators : list Validator;
  OldOrganizations : list Organization;
  OldValidators : list Validator;
  NewValidatorsEnactmentBlockHeight : BlockNumber;
}.

Inductive ScpStatementPledges :=
| ScpStPrepare (tag : Z)
| ScpStConfirm (ballot_value : Bytes) (n_h : Z)
| ScpStExternalize (commit_value : Bytes) (n_h : Z)
| ScpStNominate (tag : Z).

Record ScpStatement := mkStatement {
  node_id : PublicKey;
  slot_index : Z;
  pledges : ScpStatementPledges;
}.

Record ScpEnvelope := mkEnvelope { statement : ScpStatement; signature : Bytes }.

Class StellarSdk := {
  TransactionSetType : Type;
  txes : TransactionSetType -> list TransactionEnvelope;
  tx_set_hash_of : TransactionSetType -> option Bytes;
  network_id : bool -> Bytes;
  get_hash : Bytes -> TransactionEnvelope -> Bytes;
  stellar_value_tx_set_hash : Bytes -> option Bytes;
  to_encoding : PublicKey -> Bytes;
  statement_to_xdr : ScpStatement -> Bytes;
  node_verify_signature : PublicKey -> Bytes -> Bytes -> bool;
  to_base58 : Bytes -> Bytes;
  base64_decode : Bytes -> option Bytes;
  transaction_envelope_from_xdr : Bytes -> option TransactionEnvelope;
  scp_envelopes_from_xdr : Bytes -> option (list ScpEnvelope);
  transaction_set_from_xdr : Bytes -> option TransactionSetType;
}.

Definition wrap32 (x : Z) : Z := x mod 2 ^ 32.

(** [len] of a vector or map. *)
Definition len {A} (l : list A) : Z := Z.of_nat (length l).

(** [entry(k).and_modify(|e| *e += 1).or_insert(1)] for each key of a list. *)
Definition count_entry (m : gmap Z Z) (k : Z) : gmap Z Z :=
  <[k := match m !! k with Some e => wrap32 (e + 1) | None => 1 end]> m.
Definition count_entries (l : list Z) : gmap Z Z := fold_left count_entry l ∅.

(** ** validation.rs *)

Definition validator_count_per_org (validators : list Validator) : gmap Z Z :=
  count_entries (map organization_id validators).

Section sdk.
Context `{SDK : StellarSdk}.

Definition is_node (v : Validator) (envelope : ScpEnvelope) : bool :=
  bool_decide (to_encoding (node_id (statement envelope)) = public_key v).

Definition targeted_organization_map (envelopes : list ScpEnvelope) (validators : list Validator)
  : gmap Z Z :=
  let targeted_validators :=
    List.filter (fun validator => List.existsb (is_node validator) envelopes) validators in
  count_entries (map organization_id targeted_validators).

Definition get_externalized_info (envelope : ScpEnvelope) : outcome (Bytes * Z) :=
  match pledges (statement envelope) with
  | ScpStExternalize value n_h => Ok (value, n_h)
  | ScpStConfirm value n_h => Ok (value, n_h)
  | _ => Err stellar_relay.InvalidScpPledge
  end.

Definition is_node_id_exist (envelope : ScpEnvelope) (validators : list Validator)
  : option PublicKey :=
  if List.existsb (fun validator => is_node validator envelope) validators
  then Some (node_id (statement envelope)) else None.

Definition check_for_valid_quorum_set (envelopes : list ScpEnvelope) (validators : list Validator)
    (orgs_length : Z) : outcome unit :=
  let validator_count_per_organization_map := validator_count_per_org validators in
  let targeted_organization_map := targeted_organization_map envelopes validators in
  let targeted_organization_count := Z.of_nat (size targeted_organization_map) in
  let? _ := oensure (wrap32 (orgs_length * 2) <? wrap32 (targeted_organization_count * 3))
              stellar_relay.InvalidQuorumSetNotEnoughOrganizations in
  let? validator_requirement_reached_count :=
    fold_left (fun acc '(organization_id, count) =>
      let? reached := acc in
      let? total := ok_or (validator_count_per_organization_map !! organization_id)
                      stellar_relay.NoOrganizationsRegistered in
      Ok (if total <? wrap32 (count * 2) then wrap32 (reached + 1) else reached))
      (map_to_list targeted_organization_map) (Ok 0) in
  oensure (wrap32 (orgs_length * 2) <? wrap32 (validator_requirement_reached_count * 3))
    stellar_relay.InvalidQuorumSetNotEnoughValidators.

(** [get_tx_set_hash] of the pallet: the hash inside an SCP value. *)
Definition get_tx_set_hash (scp_value : Bytes) : outcome Bytes :=
  ok_or (stellar_value_tx_set_hash scp_value) stellar_relay.TransactionSetHashCreationFailed.

(** [copy_from_slice] panics unless the signature has 64 bytes. *)
Definition verify_signature (envelope : ScpEnvelope) (node_id : PublicKey) (network : Bytes)
  : outcome bool :=
  if negb (length (signature envelope) =? 64)%nat then Panic
  else
    let envelope_type_scp := [0; 0; 0; 1] in
    let body := network ++ envelope_type_scp ++ statement_to_xdr (statement envelope) in
    Ok (node_verify_signature node_id body (signature envelope)).

Fixpoint validate_envelopes (envelopes : list ScpEnvelope) (validators : list Validator)
    (network externalized_value : Bytes) (externalized_n_h : Z) (expected_tx_set_hash : Bytes)
    (slot : Z) : outcome (list ScpEnvelope) :=
  match envelopes with
  | [] => Ok []
  | envelope :: rest =>
      match is_node_id_exist envelope validators with
      | None =>
          validate_envelopes rest validators network externalized_value externalized_n_h
            expected_tx_set_hash slot
      | Some node_id =>
          let? _ := oensure (slot =? slot_index (statement envelope))
                      stellar_relay.EnvelopeSlotIndexMismatch in
          let? signature_valid := verify_signature envelope node_id network in
          let? _ := oensure signature_valid stellar_relay.InvalidEnvelopeSignature in
          let? info := get_externalized_info envelope in
          let '(value, n_h) := info in
          let? tx_set_hash := get_tx_set_hash value in
          let? _ := oensure (bool_decide (tx_set_hash = expected_tx_set_hash))
                      stellar_relay.TransactionSetHashMismatch in
          let? _ := oensure (bool_decide (externalized_value = value))
                      stellar_relay.ExternalizedValueMismatch in
          let? externalized_n_h :=
            if externalized_n_h =? u32_max then Ok n_h
            else if n_h <? u32_max then
              let? _ := oensure (externalized_n_h =? n_h) stellar_relay.ExternalizedNHMismatch in
              Ok externalized_n_h
            else Ok externalized_n_h in
          let? validated := validate_envelopes rest validators network externalized_value
                              externalized_n_h expected_tx_set_hash slot in
          Ok (envelope :: validated)
      end
  end.

Definition validators_and_orgs (block_number : BlockNumber) (s : RelayState)
  : outcome (list Validator * list Organization) :=
  let should_use_new_validator_set := NewValidatorsEnactmentBlockHeight s <=? block_number in
  let validators := if should_use_new_validator_set then Validators s else OldValidators s in
  let? _ := oensure (negb (bool_decide (validators = []))) stellar_relay.NoValidatorsRegistered in
  let organizations :=
    if should_use_new_validator_set then Organizations s else OldOrganizations s in
  let? _ := oensure (negb (bool_decide (organizations = [])))
              stellar_relay.NoOrganizationsRegistered in
  Ok (validators, organizations).

(** ** lib.rs *)

(** [!n] on [usize] is the bitwise complement. *)
Definition usize_not (n : Z) : Z := 2 ^ 32 - 1 - n.

Definition is_externalize (envelope : ScpEnvelope) : bool :=
  match pledges (statement envelope) with ScpStExternalize _ _ => true | _ => false end.

Definition validate_stellar_transaction (IsPublicNetwork : bool) (block_number : BlockNumber)
    (transaction_envelope : TransactionEnvelope) (envelopes : list ScpEnvelope)
    (transaction_set : TransactionSetType) (s : RelayState) : outcome unit :=
  let? _ := oensure (0 <? usize_not (len envelopes)) stellar_relay.EmptyEnvelopeSet in
  let network := network_id IsPublicNetwork in
  let tx_hash := get_hash network transaction_envelope in
  let tx_included :=
    List.existsb (fun tx => bool_decide (get_hash network tx = tx_hash)) (txes transaction_set) in
  let? _ := oensure tx_included stellar_relay.TransactionNotInTransactionSet in
  let? sets := validators_and_orgs block_number s in
  let '(validators, organizations) := sets in
  let? externalized_envelope :=
    ok_or (List.find is_externalize envelopes) stellar_relay.MissingExternalizedMessage in
  let? info :=
    match get_externalized_info externalized_envelope with
    | Err _ => Err stellar_relay.MissingExternalizedMessage
    | o => o
    end in
  let '(externalized_value, externalized_n_h) := info in
  let? expected_tx_set_hash := ok_or (tx_set_hash_of transaction_set)
    stellar_relay.FailedToComputeNonGenericTxSetContentHash in
  let? validated_envelopes :=
    validate_envelopes envelopes validators network externalized_value externalized_n_h
      expected_tx_set_hash (slot_index (statement externalized_envelope)) in
  check_for_valid_quorum_set validated_envelopes validators (len organizations).

Definition construct_from_raw_encoded_xdr {V} (from_xdr : Bytes -> option V)
    (raw_encoded_xdr : Bytes) : outcome V :=
  let? value_xdr := ok_or (base64_decode raw_encoded_xdr) stellar_relay.Base64DecodeError in
  ok_or (from_xdr value_xdr) stellar_relay.InvalidXDR.

Definition ensure_transaction_memo_matches (transaction_envelope : TransactionEnvelope)
    (expected_memo : TextMemo) : outcome unit :=
  match get_text_memo_from_tx_env transaction_envelope with
  | Some included_memo =>
      oensure (bool_decide (included_memo = expected_memo))
        stellar_relay.TransactionMemoDoesNotMatch
  | None => Err stellar_relay.TransactionMemoDoesNotMatch
  end.

Definition ensure_transaction_memo_matches_hash (transaction_envelope : TransactionEnvelope)
    (expected_hash : H256) : outcome unit :=
  let? expected_memo := derive_shortened_request_id to_base58 expected_hash in
  ensure_transaction_memo_matches transaction_envelope expected_memo.

End sdk.

(** [organizations.len() == organization_id_set.len()]: the map from the keys
    to their number of occurrences has as many entries as the vector. *)
Definition no_duplicates {A} `{Countable A} (l : list A) : bool :=
  (length l =? size (list_to_set l : gset A))%nat.

Definition _update_tier_1_validator_set (ValidatorLimit OrganizationLimit : Z)
    (validators : list Validator) (organizations : list Organization)
    (enactment_block_height : BlockNumber) : M RelayState unit :=
  ensure (wrap32 (len validators) <=? ValidatorLimit) stellar_relay.ValidatorLimitExceeded ;;;
  ensure (wrap32 (len organizations) <=? OrganizationLimit)
    stellar_relay.OrganizationLimitExceeded ;;;
  ensure (no_duplicates (map organization_key organizations))
    stellar_relay.DuplicateOrganizationId ;;;
  ensure (no_duplicates (map public_key validators))
    stellar_relay.DuplicateValidatorPublicKey ;;;
  let* current_validators := gets Validators in
  let* current_organizations := gets Organizations in
  ensure (len validators <=? ValidatorLimit) stellar_relay.BoundedVecCreationFailed ;;;
  ensure (len organizations <=? OrganizationLimit) stellar_relay.BoundedVecCreationFailed ;;;
  modify (fun s => mkRelay (Organizations s) (Validators s) (OldOrganizations s)
                     (OldValidators s) enactment_block_height) ;;;
  if negb (bool_decide (organizations = current_organizations))
     || negb (bool_decide (validators = current_validators))
  then modify (fun s => mkRelay organizations validators current_organizations
                          current_validators (NewValidatorsEnactmentBlockHeight s))
  else ret tt.

Definition update_tier_1_validator_set (ValidatorLimit OrganizationLimit : Z)
    (ensure_root : outcome unit) (validators : list Validator) (organizations : list Organization)
    (enactment_block_height : BlockNumber) : M RelayState unit :=
  transactional (lift ensure_root ;;;
    _update_tier_1_validator_set ValidatorLimit OrganizationLimit validators organizations
      enactment_block_height).

(** ** Counting *)

(** Number of occurrences of a key. *)
Definition occ (k : Z) (l : list Z) : Z := len (List.filter (Z.eqb k) l).

Lemma len_nonneg {A} (l : list A) : 0 <= len l.
Proof. unfold len. lia. Qed.

Lemma occ_nonneg k l : 0 <= occ k l.
Proof. apply len_nonneg. Qed.

Lemma occ_app k l l' : occ k (l ++ l') = occ k l + occ k l'.
Proof. unfold occ, len. rewrite List.filter_app, length_app. lia. Qed.

Lemma occ_le k l : occ k l <= len l.
Proof. unfold occ, len. pose proof (List.filter_length_le (Z.eqb k) l). lia. Qed.

Lemma occ_single k x : occ k [x] = if k =? x then 1 else 0.
Proof. unfold occ, len. simpl. by destruct (k =? x). Qed.

Lemma occ_zero k l : occ k l = 0 <-> k ∉ l.
Proof.
  induction l as [|x l IH]; [by split; [intros _; apply not_elem_of_nil|]|].
  change (x :: l) with ([x] ++ l). rewrite occ_app, occ_single, not_elem_of_app.
  pose proof (occ_nonneg k l). rewrite list_elem_of_singleton. destruct (Z.eqb_spec k x); lia || tauto.
Qed.

Lemma count_entries_spec l k :
  len l < 2 ^ 32 ->
  count_entries l !! k = if occ k l =? 0 then None else Some (occ k l).
Proof.
  unfold count_entries. induction l as [|x l IH] using rev_ind; intros Hl; [done|].
  assert (len l < 2 ^ 32) by (unfold len in *; rewrite length_app in Hl; lia).
  rewrite fold_left_app, occ_app, occ_single. simpl. unfold count_entry at 1.
  pose proof (occ_nonneg k l). pose proof (occ_le k l).
  destruct (Z.eqb_spec k x) as [->|Hne].
  - rewrite lookup_insert_eq, IH by done. destruct (occ x l =? 0) eqn:E.
    + apply Z.eqb_eq in E. by rewrite E.
    + replace (occ x l + 1 =? 0) with false by lia. f_equal. unfold wrap32.
      apply Z.mod_small. unfold len in *. rewrite length_app in Hl. simpl in Hl. lia.
  - rewrite lookup_insert_ne, IH by done. by rewrite Z.add_0_r.
Qed.

(** ** Quorums *)

Section quorum.
Context `{SDK : StellarSdk}.

(** More than half of the organization's validators are targeted. *)
Definition is_reached (m : gmap Z Z) (x : Z * Z) : bool :=
  match m !! x.1 with Some total => total <? wrap32 (x.2 * 2) | None => false end.

Lemma reached_fold (m : gmap Z Z) l acc n :
  fold_left (fun acc '(organization_id, count) =>
      let? reached := acc in
      let? total := ok_or (m !! organization_id) stellar_relay.NoOrganizationsRegistered in
      Ok (if total <? wrap32 (count * 2) then wrap32 (reached + 1) else reached)) l (Ok acc)
    = Ok n ->
  0 <= acc -> acc + len l < 2 ^ 32 -> n = acc + len (List.filter (is_reached m) l).
Proof.
  revert acc. induction l as [|[o count] l IH]; intros acc; simpl; intros H Hacc Hl.
  { inv_ok. unfold len. simpl. lia. }
  unfold len in Hl. simpl in Hl. unfold is_reached at 1. simpl.
  destruct (m !! o) as [total|] eqn:E; simpl in H.
  - destruct (total <? wrap32 (count * 2)).
    + apply IH in H; unfold wrap32 in *; rewrite ?Z.mod_small in * by lia; unfold len in *;
        simpl in *; lia.
    + apply IH in H; unfold len in *; lia.
  - exfalso. clear - H. induction l as [|[o' c'] l IH]; simpl in H; [done|auto].
Qed.

Lemma len_filter_le {A} (f : A -> bool) l : len (List.filter f l) <= len l.
Proof. unfold len. pose proof (List.filter_length_le f l). lia. Qed.

Lemma size_list_to_set_le `{Countable K} (l : list K) :
  (size (list_to_set l : gset K) <= length l)%nat.
Proof.
  induction l as [|x l IH]; [apply Nat.eq_le_incl, (size_empty (C:=gset K))|]. simpl.
  pose proof (size_union_alt ({[x]} : gset K) (list_to_set l)).
  rewrite size_singleton in *.
  assert (size ((list_to_set l : gset K) ∖ {[x]}) <= size (list_to_set l : gset K))%nat
    by (apply subseteq_size; by intros ? [? _]%elem_of_difference). lia.
Qed.

Lemma size_le_len `{Countable K} {A} (m : gmap K A) (l : list K) :
  (forall k, is_Some (m !! k) -> k ∈ l) -> Z.of_nat (size m) <= len l.
Proof.
  intros Hm. rewrite <- size_dom. unfold len.
  assert (size (dom m) <= size (list_to_set l : gset K))%nat.
  { apply subseteq_size. intros k Hk%elem_of_dom. apply elem_of_list_to_set. auto. }
  pose proof (size_list_to_set_le l). lia.
Qed.

Lemma NoDup_fst_filter {A} (f : Z * A -> bool) (l : list (Z * A)) :
  NoDup (map fst l) -> NoDup (map fst (List.filter f l)).
Proof.
  induction l as [|[k x] l IH]; simpl; [done|]. inversion_clear 1 as [|? ? Hk Hl].
  destruct (f (k, x)); [|auto]. simpl. constructor; [|auto].
  intros ([k' y] & -> & Hy%list_elem_of_In)%list_elem_of_fmap. apply List.filter_In in Hy as [Hy _].
  apply Hk, list_elem_of_fmap. exists (k', y). by rewrite list_elem_of_In.
Qed.

Definition targeted (envelopes : list ScpEnvelope) (v : Validator) : bool :=
  List.existsb (is_node v) envelopes.

(** What a passed quorum check says. *)
Lemma quorum_check_ok envelopes validators n u :
  len validators < 2 ^ 30 -> 0 <= n < 2 ^ 30 ->
  check_for_valid_quorum_set envelopes validators n = Ok u ->
  exists Q, NoDup Q /\ 2 * n < 3 * len Q /\
    forall o, o ∈ Q ->
      occ o (map organization_id validators) <
      2 * occ o (map organization_id (List.filter (targeted envelopes) validators)).
Proof.
  intros Hv Hn H. unfold check_for_valid_quorum_set in H. inv_ok.
  set (tv := List.filter (targeted envelopes) validators) in *.
  assert (Htv : len (map organization_id tv) <= len validators).
  { unfold len. rewrite length_map. apply (len_filter_le (targeted envelopes) validators). }
  assert (Hm : forall o, targeted_organization_map envelopes validators !! o =
      if occ o (map organization_id tv) =? 0 then None
      else Some (occ o (map organization_id tv))).
  { intros o. unfold targeted_organization_map. apply count_entries_spec. lia. }
  assert (Hsz : len (map_to_list (targeted_organization_map envelopes validators))
      <= len validators).
  { unfold len at 1. rewrite length_map_to_list. etrans; [|exact Htv]. apply size_le_len.
    intros o Ho. rewrite Hm in Ho. destruct (occ o (map organization_id tv) =? 0) eqn:Eo.
    - by destruct Ho.
    - apply Z.eqb_neq in Eo. destruct (decide (o ∈ map organization_id tv)); [done|].
      by apply occ_zero in n0. }
  match goal with E : fold_left _ _ _ = Ok _ |- _ => apply reached_fold in E; [|lia|lia] end.
  set (R := List.filter (is_reached (validator_count_per_org validators))
              (map_to_list (targeted_organization_map envelopes validators))) in *.
  assert (Hr : 0 <= len R <= len validators)
    by (split; [apply len_nonneg | etrans; [apply len_filter_le | exact Hsz]]).
  exists (map fst R). split_and!.
  - apply NoDup_fst_filter, NoDup_fst_map_to_list.
  - subst. unfold wrap32 in H. rewrite !Z.mod_small in H by lia.
    replace (len (map fst R)) with (len R) by (unfold len; by rewrite length_map). lia.
  - intros o Ho. apply list_elem_of_fmap in Ho as ([o' count] & -> & Ho).
    apply list_elem_of_In, List.filter_In in Ho as [Ho Hc]. unfold is_reached in Hc. simpl in *.
    apply list_elem_of_In, elem_of_map_to_list in Ho. rewrite Hm in Ho.
    destruct (occ o' (map organization_id tv) =? 0); [done|]. injection Ho as <-.
    unfold validator_count_per_org in Hc. rewrite count_entries_spec in Hc
      by (unfold len in *; rewrite length_map; lia).
    pose proof (occ_nonneg o' (map organization_id tv)).
    pose proof (occ_le o' (map organization_id tv)).
    unfold wrap32 in Hc. rewrite Z.mod_small in Hc by lia.
    destruct (occ o' (map organization_id validators) =? 0); [done|]. lia.
Qed.

(** An envelope that validator [v] signed for [value] in slot [slot]. *)
Definition attested_by (network value : Bytes) (slot : Z) (v : Validator) (e : ScpEnvelope)
  : bool :=
  is_node v e && (slot_index (statement e) =? slot)
  && match verify_signature e (node_id (statement e)) network with Ok b => b | _ => false end
  && match get_externalized_info e with Ok (x, _) => bool_decide (x = value) | _ => false end.

Lemma validate_envelopes_ok envelopes validators network value n_h h slot l :
  validate_envelopes envelopes validators network value n_h h slot = Ok l ->
  forall e v, e ∈ l -> is_node v e = true ->
    e ∈ envelopes /\ attested_by network value slot v e = true /\
    stellar_value_tx_set_hash value = Some h.
Proof.
  revert n_h l. induction envelopes as [|e0 envelopes IH]; intros n_h l H e v He Hn; simpl in H.
  { inv_ok. by apply not_elem_of_nil in He. }
  destruct (is_node_id_exist e0 validators) as [node|] eqn:Hnode.
  - inv_ok.
    unfold is_node_id_exist in Hnode. destruct (List.existsb _ _); [|done]. injection Hnode as <-.
    repeat match goal with
    | H : bool_decide _ = true |- _ => apply bool_decide_eq_true in H; subst
    | H : (_ =? _) = true |- _ => apply Z.eqb_eq in H; subst
    end.
    apply elem_of_cons in He as [->|He].
    + split; [by left|]. split.
      * unfold attested_by. rewrite Hn, Z.eqb_refl.
        repeat match goal with H : _ = Ok _ |- _ => rewrite H end. simpl. by rewrite bool_decide_true.
      * unfold get_tx_set_hash in *. by inv_ok.
    + match goal with H : validate_envelopes _ _ _ _ _ _ _ = Ok _ |- _ =>
        destruct (IH _ _ H e v He Hn) as (? & ? & ?) end.
      split; [by right|done].
  - destruct (IH _ _ H e v He Hn) as (? & ? & ?). split; [by right|done].
Qed.

(** The validator signed, in [envelopes], a statement that slot [slot] has
    [value]. *)
Definition attests (network value : Bytes) (slot : Z) (envelopes : list ScpEnvelope)
    (v : Validator) : bool :=
  List.existsb (attested_by network value slot v) envelopes.

(** [Q] is a quorum: more than two thirds of [orgs], each with more than half
    of its validators satisfying [f]. *)
Definition quorum (orgs : list Organization) (validators : list Validator)
    (f : Validator -> bool) (Q : list Z) : Prop :=
  NoDup Q /\ 2 * len orgs < 3 * len Q /\
  forall o, o ∈ Q ->
    occ o (map organization_id validators) <
    2 * occ o (map organization_id (List.filter f validators)).

Lemma occ_filter_mono o (f g : Validator -> bool) l :
  (forall v, f v = true -> g v = true) ->
  occ o (map organization_id (List.filter f l)) <= occ o (map organization_id (List.filter g l)).
Proof.
  intros Hfg. induction l as [|v l IH]; simpl; [lia|].
  pose proof (Hfg v). destruct (f v) eqn:Ef; [rewrite H by done|destruct (g v)]; simpl;
    unfold occ, len in *; simpl; destruct (o =? organization_id v); simpl; lia.
Qed.

(** The validator sets fit in the 32-bit counters. *)
Definition bounded_sets (s : RelayState) : Prop :=
  len (Validators s) < 2 ^ 30 /\ len (OldValidators s) < 2 ^ 30 /\
  len (Organizations s) < 2 ^ 30 /\ len (OldOrganizations s) < 2 ^ 30.

Lemma validators_and_orgs_bounded n s vs os :
  bounded_sets s -> validators_and_orgs n s = Ok (vs, os) ->
  len vs < 2 ^ 30 /\ len os < 2 ^ 30.
Proof.
  unfold validators_and_orgs, bounded_sets. intros (H1 & H2 & H3 & H4) H.
  destruct (_ <=? n); inv_ok; auto.
Qed.

Lemma validated_ok public n tx envelopes set s u :
  bounded_sets s -> validate_stellar_transaction public n tx envelopes set s = Ok u ->
  exists vs os value slot h Q,
    validators_and_orgs n s = Ok (vs, os) /\
    quorum os vs (attests (network_id public) value slot envelopes) Q /\
    stellar_value_tx_set_hash value = Some h /\ tx_set_hash_of set = Some h /\
    exists tx', tx' ∈ txes set /\ get_hash (network_id public) tx' = get_hash (network_id public) tx.
Proof.
  intros Hb H. unfold validate_stellar_transaction in H. inv_ok.
  match goal with E : validators_and_orgs _ _ = _ |- _ =>
    destruct (validators_and_orgs_bounded _ _ _ _ Hb E) as [Hvs Hos] end.
  match goal with E : List.find _ _ = Some ?e0 |- _ =>
    set (slot := slot_index (statement e0)) in * end.
  apply quorum_check_ok in H as (Q & HQ & Hlen & Hocc);
    [|done|split; [apply len_nonneg|done]].
  match goal with E : validate_envelopes _ ?vs ?net ?value _ ?h _ = Ok ?l |- _ =>
    pose proof (validate_envelopes_ok _ _ _ _ _ _ _ _ E) as Hval;
    exists vs; eexists; exists value, slot, h, Q end.
  assert (Htv : forall v, targeted a5 v = true -> attests (network_id public) l1 slot envelopes v = true).
  { intros v (e & He & Hn)%List.existsb_exists. apply list_elem_of_In in He.
    destruct (Hval e v He Hn) as (? & ? & ?). apply List.existsb_exists. exists e.
    by rewrite <- list_elem_of_In. }
  split_and!; [done | split_and!; [done..|] | | done |].
  - intros o Ho. specialize (Hocc o Ho). pose proof (occ_filter_mono o _ _ l Htv). lia.
  - destruct Q as [|o Q]; [unfold len in Hlen; simpl in Hlen; lia|].
    specialize (Hocc o (list_elem_of_here _ _)).
    destruct (List.filter (targeted a5) l) as [|v tl] eqn:Ef.
    { pose proof (occ_nonneg o (map organization_id l)). simpl in Hocc. unfold occ in Hocc at 2.
      unfold len in Hocc. simpl in Hocc. unfold occ, len in *. lia. }
    assert (Hv : List.In v (List.filter (targeted a5) l)) by (rewrite Ef; by left).
    apply List.filter_In in Hv as [_ (e & He & Hn)%List.existsb_exists].
    apply list_elem_of_In in He. by destruct (Hval e v He Hn) as (_ & _ & ?).
  - apply List.existsb_exists in E0 as (tx' & Htx & Heq). exists tx'.
    by rewrite list_elem_of_In, <- (bool_decide_eq_true (get_hash _ tx' = _)).
Qed.

Lemma occ_both o (f g : Validator -> bool) l :
  occ o (map organization_id (List.filter f l)) + occ o (map organization_id (List.filter g l)) <=
  occ o (map organization_id l) + occ o (map organization_id (List.filter (fun v => f v && g v) l)).
Proof.
  induction l as [|v l IH]; simpl; [done|].
  destruct (f v), (g v); simpl; unfold occ, len in *; simpl in *;
    destruct (o =? organization_id v); simpl; lia.
Qed.

Lemma NoDup_size_len (l : list Z) : NoDup l -> Z.of_nat (size (list_to_set l : gset Z)) = len l.
Proof. intros Hl. unfold len. f_equal. by rewrite size_list_to_set. Qed.

(** Two quorums of the same sets share a validator. *)
Lemma quorum_intersection orgs validators f g Q1 Q2 :
  (forall v, v ∈ validators -> organization_id v ∈ map organization_key orgs) ->
  quorum orgs validators f Q1 -> quorum orgs validators g Q2 ->
  exists v, v ∈ validators /\ f v = true /\ g v = true.
Proof.
  intros Hreg (N1 & L1 & O1) (N2 & L2 & O2).
  assert (Hsub : forall h (Q : list Z), (forall o, o ∈ Q -> occ o (map organization_id validators) <
      2 * occ o (map organization_id (List.filter h validators))) ->
      forall o, o ∈ Q -> o ∈ map organization_key orgs).
  { intros h Q HQ o Ho. specialize (HQ o Ho).
    pose proof (occ_nonneg o (map organization_id validators)).
    pose proof (occ_filter_mono o h (fun _ => true) validators (fun _ _ => eq_refl)) as Hm.
    assert (List.filter (fun _ => true) validators = validators) as Hid.
    { clear. induction validators; simpl; congruence. }
    rewrite Hid in Hm. destruct (decide (o ∈ map organization_id validators)) as [Hin|Hin].
    - apply list_elem_of_fmap in Hin as (v & -> & Hv). auto.
    - apply occ_zero in Hin. lia. }
  destruct (decide (Exists (fun o => o ∈ Q2) Q1)) as [(o & Ho1%list_elem_of_In & Ho2)%Exists_exists|Hno].
  - specialize (O1 o Ho1). specialize (O2 o Ho2).
    pose proof (occ_both o f g validators).
    destruct (List.filter (fun v => f v && g v) validators) as [|v tl] eqn:Ef.
    { unfold occ, len in *. simpl in *. lia. }
    assert (Hv : List.In v (List.filter (fun v => f v && g v) validators)) by (rewrite Ef; by left).
    apply List.filter_In in Hv as [Hv Hfg]. exists v. apply andb_prop in Hfg as [? ?].
    by rewrite list_elem_of_In.
  - exfalso. assert (Hsz : (size (list_to_set Q1 ∪ list_to_set Q2 : gset Z) <= length orgs)%nat).
    { etrans; [apply (subseteq_size _ (list_to_set (map organization_key orgs)))|].
      - intros o [Ho|Ho]%elem_of_union; apply elem_of_list_to_set in Ho;
          apply elem_of_list_to_set; eauto.
      - rewrite <- (length_map organization_key orgs). apply size_list_to_set_le. }
    rewrite size_union in Hsz.
    + pose proof (NoDup_size_len Q1 N1). pose proof (NoDup_size_len Q2 N2).
      unfold len in *. lia.
    + intros o Ho1%elem_of_list_to_set Ho2%elem_of_list_to_set. apply Hno, Exists_exists.
      exists o. by rewrite <- list_elem_of_In.
Qed.

End quorum.

(** ** Replacement of the sets *)

Lemma update_ok vl ol root vs os h s u s' :
  update_tier_1_validator_set vl ol root vs os h s = (Ok u, s') ->
  no_duplicates (map public_key vs) = true /\ no_duplicates (map organization_key os) = true /\
  len vs <= vl /\ len os <= ol /\
  s' = if bool_decide (os = Organizations s) && bool_decide (vs = Validators s)
       then mkRelay (Organizations s) (Validators s) (OldOrganizations s) (OldValidators s) h
       else mkRelay os vs (Organizations s) (Validators s) h.
Proof.
  unfold update_tier_1_validator_set, _update_tier_1_validator_set. intros H. inv_ok.
  split_and!; [done | done | lia | lia |].
  do 2 case_bool_decide; simpl in *; inv_ok; done.
Qed.

Lemma no_duplicates_NoDup {A} `{Countable A} (l : list A) :
  no_duplicates l = true -> NoDup l.
Proof.
  unfold no_duplicates. intros H0%Nat.eqb_eq.
  induction l as [|x l IH]; [constructor|]. simpl in H0.
  pose proof (size_union_alt ({[x]} : gset A) (list_to_set l)) as Hu.
  rewrite size_singleton in Hu. pose proof (size_list_to_set_le l) as Hle.
  assert (Hd : (size ((list_to_set l : gset A) ∖ {[x]}) <= size (list_to_set l : gset A))%nat)
    by (apply subseteq_size; by intros ? [? _]%elem_of_difference).
  constructor; [|apply IH; lia].
  intros Hx. assert (size ((list_to_set l : gset A) ∖ {[x]}) < size (list_to_set l : gset A))%nat;
    [|lia].
  apply subset_size. split; [by intros ? [? _]%elem_of_difference|].
  intros Hs. assert (Hin : x ∈ (list_to_set l : gset A)) by by apply elem_of_list_to_set.
  apply Hs in Hin. apply elem_of_difference in Hin as [_ Hin]. by apply Hin, elem_of_singleton.
Qed.

(** ** An SDK for evaluation: keys, hashes and encodings are the data itself *)

Definition ToySdk : StellarSdk := {|
  TransactionSetType := list TransactionEnvelope * Bytes;
  txes set := set.1;
  tx_set_hash_of set := Some set.2;
  network_id public := if public then [1] else [2];
  get_hash network tx :=
    network ++ match get_text_memo_from_tx_env tx with Some m => m | None => [] end;
  stellar_value_tx_set_hash value := Some value;
  to_encoding pk := match pk with PublicKeyTypeEd25519 k => k end;
  statement_to_xdr st := [slot_index st];
  node_verify_signature pk body sig := bool_decide (take 1 sig = into_binary pk);
  to_base58 b := b;
  base64_decode b := Some b;
  transaction_envelope_from_xdr b :=
    Some (EnvelopeTypeTx (mkTransaction [] (MemoText b) 0 0));
  scp_envelopes_from_xdr b := Some [];
  transaction_set_from_xdr b := Some ([], b);
|}.

Definition toy_tx : TransactionEnvelope := EnvelopeTypeTx (mkTransaction [] (MemoText [7]) 0 0).
Definition toy_envelope : ScpEnvelope :=
  mkEnvelope (mkStatement (PublicKeyTypeEd25519 [5]) 100 (ScpStExternalize [9] 3))
    (5 :: replicate 63 0).
Definition toy_relay : RelayState :=
  mkRelay [mkOrganization 1 []] [mkValidator [] [5] 1] [] [] 10.

(** ** Properties *)

Section properties.
Context `{SDK : StellarSdk}.

(** C4: an accepted proof shows that the transaction was externalized: it is
    in a set whose hash is in a value that, in one slot, more than half of the
    validators of each of more than two thirds of the organizations signed. *)
Theorem validated_transaction_has_quorum public n tx envelopes set s :
  bounded_sets s -> validate_stellar_transaction public n tx envelopes set s = Ok tt ->
  exists vs os value slot h Q,
    validators_and_orgs n s = Ok (vs, os) /\
    quorum os vs (attests (network_id public) value slot envelopes) Q /\
    stellar_value_tx_set_hash value = Some h /\ tx_set_hash_of set = Some h /\
    exists tx', tx' ∈ txes set /\ get_hash (network_id public) tx' = get_hash (network_id public) tx.
Proof. apply validated_ok. Qed.


(** A proof whose externalizing envelope comes from a known validator and
    carries a signature that is not 64 bytes long makes the call panic. *)
Theorem short_signature_panics public n tx e envs set s sets h :
  len (e :: envs) < u32_max -> tx ∈ txes set -> validators_and_orgs n s = Ok sets ->
  tx_set_hash_of set = Some h -> is_externalize e = true ->
  List.existsb (fun v => is_node v e) (fst sets) = true ->
  length (signature e) <> 64%nat ->
  validate_stellar_transaction public n tx (e :: envs) set s = Panic.
Proof.
  intros Hl Htx Hs Hh He Hn Hsig. unfold validate_stellar_transaction.
  assert ((0 <? usize_not (len (e :: envs))) = true) as ->
    by (unfold usize_not, u32_max in *; lia). simpl obind.
  assert (List.existsb (fun tx0 => bool_decide (get_hash (network_id public) tx0 =
    get_hash (network_id public) tx)) (txes set) = true) as ->.
  { apply List.existsb_exists. exists tx. rewrite bool_decide_true by done.
    by rewrite <- list_elem_of_In. }
  rewrite Hs. simpl. destruct sets as [vs os]. simpl in *. rewrite He. simpl.
  unfold is_externalize in He. unfold get_externalized_info.
  destruct (pledges (statement e)); try done. simpl. rewrite Hh. simpl.
  unfold is_node_id_exist. rewrite Hn, Z.eqb_refl. simpl. unfold verify_signature.
  replace (length (signature e) =? 64)%nat with false by (symmetry; by apply Nat.eqb_neq).
  done.
Qed.

(** An empty set of envelopes passes the check that is meant to refuse it;
    it is refused later, as a set without an externalize message. *)
Theorem empty_envelope_set_passes_check public n tx set s sets :
  tx ∈ txes set -> validators_and_orgs n s = Ok sets ->
  validate_stellar_transaction public n tx [] set s =
    Err stellar_relay.MissingExternalizedMessage.
Proof.
  intros Htx Hs. unfold validate_stellar_transaction. simpl obind.
  assert (List.existsb (fun tx0 => bool_decide (get_hash (network_id public) tx0 =
    get_hash (network_id public) tx)) (txes set) = true) as ->.
  { apply List.existsb_exists. exists tx. rewrite bool_decide_true by done.
    by rewrite <- list_elem_of_In. }
  rewrite Hs. simpl. by destruct sets.
Qed.

End properties.

(** A successful replacement stores the new sets without duplicate keys or
    identifiers and within the limits, and moves the sets that were current to
    the old sets exactly when something changed. *)
Theorem update_validator_set_effect vl ol root vs os h s s' :
  update_tier_1_validator_set vl ol root vs os h s = (Ok tt, s') ->
  NoDup (map public_key (Validators s')) /\ NoDup (map organization_key (Organizations s')) /\
  len (Validators s') <= vl /\ len (Organizations s') <= ol /\
  Validators s' = vs /\ Organizations s' = os /\
  NewValidatorsEnactmentBlockHeight s' = h /\
  (os <> Organizations s \/ vs <> Validators s ->
   OldValidators s' = Validators s /\ OldOrganizations s' = Organizations s).
Proof.
  intros (Hv & Ho & Lv & Lo & ->)%update_ok. apply no_duplicates_NoDup in Hv, Ho.
  do 2 case_bool_decide; simpl; subst; split_and!; try done; intros [?|?]; done.
Qed.

(** When the sets are replaced a second time before the first replacement
    is due, the sets of the first replacement are used at once, before the
    block height they were to be enacted at. *)
Theorem pending_sets_enacted_early vl ol root1 root2 vs1 os1 h1 vs2 os2 h2 s s1 s2 n :
  update_tier_1_validator_set vl ol root1 vs1 os1 h1 s = (Ok tt, s1) ->
  update_tier_1_validator_set vl ol root2 vs2 os2 h2 s1 = (Ok tt, s2) ->
  (os2, vs2) <> (os1, vs1) -> vs1 <> [] -> os1 <> [] -> n < h1 -> n < h2 ->
  validators_and_orgs n s2 = Ok (vs1, os1).
Proof.
  intros (_ & _ & _ & _ & E1)%update_ok (_ & _ & _ & _ & E2)%update_ok Hne Hv Ho _ Hn.
  assert (Organizations s1 = os1 /\ Validators s1 = vs1) as [Eo Ev].
  { clear E2. subst s1. do 2 case_bool_decide; subst; done. }
  assert (OldValidators s2 = vs1 /\ OldOrganizations s2 = os1 /\
          NewValidatorsEnactmentBlockHeight s2 = h2) as (E3 & E4 & E5).
  { rewrite E2, Eo, Ev. clear E1 E2. do 2 case_bool_decide; simpl; auto. by subst. }
  unfold validators_and_orgs. rewrite E3, E4, E5.
  replace (h2 <=? n) with false by lia. rewrite !bool_decide_false by done. done.
Qed.

(** ** Witnesses *)

#[local] Existing Instance ToySdk.

Lemma toy_bounded : bounded_sets toy_relay.
Proof. vm_compute. auto. Qed.

Lemma validated_transaction_has_quorum_witness :
  exists vs os value slot h Q,
    validators_and_orgs 10 toy_relay = Ok (vs, os) /\
    quorum os vs (attests (SDK := ToySdk) (network_id true) value slot [toy_envelope]) Q /\
    stellar_value_tx_set_hash value = Some h /\
    tx_set_hash_of (StellarSdk := ToySdk) ([toy_tx], [9]) = Some h /\
    exists tx', tx' ∈ txes (StellarSdk := ToySdk) ([toy_tx], [9]) /\
      get_hash (StellarSdk := ToySdk) (network_id true) tx' = get_hash (network_id true) toy_tx.
Proof.
  apply (validated_transaction_has_quorum (SDK := ToySdk) true 10 toy_tx [toy_envelope]
    ([toy_tx], [9]) toy_relay toy_bounded). vm_compute. reflexivity.
Defined.


Lemma short_signature_panics_witness :
  validate_stellar_transaction (SDK := ToySdk) true 10 toy_tx
    [mkEnvelope (statement toy_envelope) [5]] ([toy_tx], [9]) toy_relay = Panic.
Proof.
  apply (short_signature_panics (SDK := ToySdk) true 10 toy_tx
    (mkEnvelope (statement toy_envelope) [5]) [] ([toy_tx], [9]) toy_relay
    ([mkValidator [] [5] 1], [mkOrganization 1 []]) [9]);
    [reflexivity | apply list_elem_of_here | reflexivity..| discriminate].
Defined.

Lemma empty_envelope_set_passes_check_witness :
  validate_stellar_transaction (SDK := ToySdk) true 10 toy_tx [] ([toy_tx], [9]) toy_relay =
    Err stellar_relay.MissingExternalizedMessage.
Proof.
  apply (empty_envelope_set_passes_check (SDK := ToySdk) true 10 toy_tx ([toy_tx], [9]) toy_relay
    ([mkValidator [] [5] 1], [mkOrganization 1 []])); [apply list_elem_of_here | reflexivity].
Defined.

Definition toy_relay' : RelayState :=
  mkRelay [mkOrganization 2 []] [mkValidator [] [6] 2] [mkOrganization 1 []]
    [mkValidator [] [5] 1] 50.

Lemma update_validator_set_effect_witness :
  NoDup (map public_key (Validators toy_relay')) /\
  NoDup (map organization_key (Organizations toy_relay')) /\
  len (Validators toy_relay') <= 5 /\ len (Organizations toy_relay') <= 5 /\
  Validators toy_relay' = [mkValidator [] [6] 2] /\
  Organizations toy_relay' = [mkOrganization 2 []] /\
  NewValidatorsEnactmentBlockHeight toy_relay' = 50 /\
  ([mkOrganization 2 []] <> Organizations toy_relay \/ [mkValidator [] [6] 2] <> Validators toy_relay ->
   OldValidators toy_relay' = Validators toy_relay /\
   OldOrganizations toy_relay' = Organizations toy_relay).
Proof.
  apply (update_validator_set_effect 5 5 (Ok tt) [mkValidator [] [6] 2] [mkOrganization 2 []] 50
    toy_relay toy_relay'). reflexivity.
Defined.

Lemma pending_sets_enacted_early_witness :
  validators_and_orgs 20 (mkRelay [mkOrganization 3 []] [mkValidator [] [8] 3]
    [mkOrganization 2 []] [mkValidator [] [6] 2] 60)
  = Ok ([mkValidator [] [6] 2], [mkOrganization 2 []]).
Proof.
  apply (pending_sets_enacted_early 5 5 (Ok tt) (Ok tt) [mkValidator [] [6] 2]
    [mkOrganization 2 []] 50 [mkValidator [] [8] 3] [mkOrganization 3 []] 60 toy_relay toy_relay');
    [reflexivity | reflexivity | discriminate | discriminate | discriminate | lia | lia].
Defined.
