(* ===== verification/Chain.v ===== *)
(** * The storage of the chain

    The pallets that move vault tokens and collateral call each other, so they
    share one storage: [Chain] has a field per pallet, and a computation of one
    of the lower pallets runs on its field with [zoom].  The class [Runtime] is
    the configuration the pallets are generic in ([T: Config]): the ledger, the
    arithmetic, the Stellar SDK, constants and pallet accounts.

    Vaults are [Vault] and [SystemVault] of
    [src/pallets/vault-registry/src/types.rs], requests are the structs of
    [src/primitives/src/lib.rs]. *)

From S2P Require Import Prelude FixedPoint Primitives Currency Security Oracle Staking.
From S2P Require Import PooledRewards StellarRelay.

(** ** Configuration *)

Class Runtime := {
  rt_fixed :: FixedPoint;
  rt_currencies :: Currencies;
  rt_stellar :: StellarSdk;
  (** [currency::Config::DecimalsLookup] *)
  currency_decimals : CurrencyId -> Z;
  GetNativeCurrencyId : CurrencyId;
  GetGriefingCollateralCurrencyId : CurrencyId;
  StakingMaxRewardCurrencies : nat;
  RewardsMaxRewardCurrencies : nat;
  (** Accounts derived from pallet identifiers. *)
  liquidation_vault_account_id : AccountId;
  fee_pool_account_id : AccountId;
  treasury_account_id : AccountId;
  MaxExpectedValue : Z;
  DecayInterval : BlockNumber;
  DecayRate : Z;
  IsPublicNetwork : bool;
  ValidatorLimit : Z;
  OrganizationLimit : Z;
  sha256 : Bytes -> H256;
  (** [Perquintill]: fractions in parts of [10 ^ 18]. *)
  perquintill_from_rational : Z -> Z -> Z;
  perquintill_mul_floor : Z -> Z -> Z;
  perquintill_one_minus : Z -> Z;
  (** [T::Balances], the native currency. *)
  native_free_balance : AccountId -> Ledger -> Balance;
  native_deposit_creating : AccountId -> Balance -> Ledger -> Ledger;
}.

(** What the pallets rely on in the configuration. *)
Class RuntimeLaws (RT : Runtime) : Prop := {
  rt_fixed_laws :: FixedPointLaws rt_fixed;
  rt_currencies_laws :: CurrenciesLaws rt_currencies;
  native_deposit_others who x l :
    same_others GetNativeCurrencyId l (native_deposit_creating who x l);
  perquintill_from_rational_spec p q :
    0 <= p <= q -> 0 < q -> perquintill_from_rational p q = p * 10 ^ 18 / q;
  perquintill_mul_floor_spec f x :
    0 <= f <= 10 ^ 18 -> 0 <= x -> perquintill_mul_floor f x = x * f / 10 ^ 18;
}.

(** ** Vaults *)

Inductive VaultStatus := Active (accepts_new_issues : bool) | Liquidated.

#[export] Instance VaultStatus_eq_dec : EqDecision VaultStatus.
Proof. solve_decision. Defined.

Record Vault := mkVault {
  id : VaultId;
  status : VaultStatus;
  banned_until : option BlockNumber;
  secure_collateral_threshold : option Z;
  to_be_issued_tokens : Balance;
  issued_tokens : Balance;
  to_be_redeemed_tokens : Balance;
  to_be_replaced_tokens : Balance;
  replace_collateral : Balance;
  active_replace_collateral : Balance;
  liquidated_collateral : Balance;
}.

Definition set_vault_status (x : VaultStatus) (v : Vault) : Vault :=
  let '(mkVault a b c d e f g h i j k) := v in mkVault a x c d e f g h i j k.
Definition set_banned_until (x : option BlockNumber) (v : Vault) : Vault :=
  let '(mkVault a b c d e f g h i j k) := v in mkVault a b x d e f g h i j k.
Definition set_secure_collateral_threshold (x : option Z) (v : Vault) : Vault :=
  let '(mkVault a b c d e f g h i j k) := v in mkVault a b c x e f g h i j k.
Definition set_to_be_issued_tokens (x : Balance) (v : Vault) : Vault :=
  let '(mkVault a b c d e f g h i j k) := v in mkVault a b c d x f g h i j k.
Definition set_issued_tokens (x : Balance) (v : Vault) : Vault :=
  let '(mkVault a b c d e f g h i j k) := v in mkVault a b c d e x g h i j k.
Definition set_to_be_redeemed_tokens (x : Balance) (v : Vault) : Vault :=
  let '(mkVault a b c d e f g h i j k) := v in mkVault a b c d e f x h i j k.
Definition set_to_be_replaced_tokens (x : Balance) (v : Vault) : Vault :=
  let '(mkVault a b c d e f g h i j k) := v in mkVault a b c d e f g x i j k.
Definition set_replace_collateral (x : Balance) (v : Vault) : Vault :=
  let '(mkVault a b c d e f g h i j k) := v in mkVault a b c d e f g h x j k.
Definition set_active_replace_collateral (x : Balance) (v : Vault) : Vault :=
  let '(mkVault a b c d e f g h i j k) := v in mkVault a b c d e f g h i x k.
Definition set_liquidated_collateral (x : Balance) (v : Vault) : Vault :=
  let '(mkVault a b c d e f g h i j k) := v in mkVault a b c d e f g h i j x.

Record SystemVault := mkSystemVault {
  lv_to_be_issued_tokens : Balance;
  lv_issued_tokens : Balance;
  lv_to_be_redeemed_tokens : Balance;
  lv_collateral : Balance;
  currency_pair : VaultCurrencyPair;
}.

Record VaultRegistryStorage := mkRegistry {
  MinimumCollateralVault : gmap CurrencyId Balance;
  PunishmentDelay : BlockNumber;
  SystemCollateralCeiling : gmap VaultCurrencyPair Balance;
  SecureCollateralThreshold : gmap VaultCurrencyPair Z;
  PremiumRedeemThreshold : gmap VaultCurrencyPair Z;
  LiquidationCollateralThreshold : gmap VaultCurrencyPair Z;
  LiquidationVault : gmap VaultCurrencyPair SystemVault;
  Vaults : gmap VaultId Vault;
  VaultStellarPublicKey : gmap AccountId StellarPublicKeyRaw;
  TotalUserVaultCollateral : gmap VaultCurrencyPair Balance;
}.

(** ** Requests *)

Inductive IssueRequestStatus := IssuePending | IssueCompleted | IssueCancelled.

Record IssueRequest := mkIssueRequest {
  issue_vault : VaultId;
  issue_opentime : BlockNumber;
  issue_request_period : BlockNumber;
  issue_griefing_collateral_ : Balance;
  issue_amount_ : Balance;
  issue_asset : CurrencyId;
  issue_fee_ : Balance;
  issue_requester : AccountId;
  issue_stellar_address : StellarPublicKeyRaw;
  issue_status : IssueRequestStatus;
}.

Inductive RedeemRequestStatus :=
  RedeemPending | RedeemCompleted | Reimbursed (minted : bool) | Retried.

Record RedeemRequest := mkRedeemRequest {
  redeem_vault : VaultId;
  redeem_opentime : BlockNumber;
  redeem_request_period : BlockNumber;
  redeem_fee_ : Balance;
  redeem_transfer_fee_ : Balance;
  redeem_amount_ : Balance;
  redeem_asset : CurrencyId;
  redeem_premium_ : Balance;
  redeem_redeemer : AccountId;
  redeem_stellar_address : StellarPublicKeyRaw;
  redeem_status : RedeemRequestStatus;
}.

Inductive ReplaceRequestStatus := ReplacePending | ReplaceCompleted | ReplaceCancelled.

Record ReplaceRequest := mkReplaceRequest {
  old_vault : VaultId;
  new_vault : VaultId;
  replace_amount_ : Balance;
  replace_asset : CurrencyId;
  replace_griefing_collateral_ : Balance;
  replace_collateral_ : Balance;
  accept_time : BlockNumber;
  replace_request_period : BlockNumber;
  replace_stellar_address : StellarPublicKeyRaw;
  replace_status : ReplaceRequestStatus;
}.

#[export] Instance IssueRequestStatus_eq_dec : EqDecision IssueRequestStatus.
Proof. solve_decision. Defined.
#[export] Instance RedeemRequestStatus_eq_dec : EqDecision RedeemRequestStatus.
Proof. solve_decision. Defined.
#[export] Instance ReplaceRequestStatus_eq_dec : EqDecision ReplaceRequestStatus.
Proof. solve_decision. Defined.

(** The rate limit of issue and of redeem requests. *)
Record VolumeLimit := mkVolumeLimit {
  LimitVolumeAmount : option Balance;
  LimitVolumeCurrencyId : CurrencyId;
  CurrentVolumeAmount : Balance;
  IntervalLength : BlockNumber;
  LastIntervalIndex : BlockNumber;
}.

Record IssueStorage := mkIssueStorage {
  IssueRequests : gmap H256 IssueRequest;
  IssuePeriod : BlockNumber;
  IssueMinimumTransferAmount : Balance;
  issue_volume : VolumeLimit;
}.

Record RedeemStorage := mkRedeemStorage {
  RedeemRequests : gmap H256 RedeemRequest;
  RedeemPeriod : BlockNumber;
  RedeemMinimumTransferAmount : Balance;
  redeem_volume : VolumeLimit;
  CancelledRedeemAmount : gmap H256 (Balance * CurrencyId);
}.

Record ReplaceStorage := mkReplaceStorage {
  ReplaceRequests : gmap H256 ReplaceRequest;
  ReplacePeriod : BlockNumber;
  ReplaceMinimumTransferAmount : Balance;
}.

Record NominationStorage := mkNominationStorage {
  NominationEnabled : bool;
  NominationVaults : gmap VaultId bool;
}.

Record FeeStorage := mkFeeStorage {
  IssueFee : Z;
  IssueGriefingCollateral : Z;
  RedeemFee : Z;
  PremiumRedeemFee : Z;
  PunishmentFee : Z;
  ReplaceGriefingCollateral : Z;
}.

Record RewardDistributionStorage := mkRewardDistribution {
  RewardPerBlock : option Balance;
  RewardsAdaptedAt : option BlockNumber;
  NativeLiability : option Balance;
}.

(** What [frame_system] knows of the block being built. *)
Record SystemState := mkSystem { block_number : BlockNumber; context : SystemContext }.

(** ** The chain *)

Record Chain `{RT : Runtime} := mkChain {
  system : SystemState;
  ledger : Ledger;
  oracle_st : OracleState;      (* with the security pallet *)
  staking_st : StakingState;
  pooled_st : PoolState;
  distribution_st : RewardDistributionStorage;
  fee_st : FeeStorage;
  relay_st : RelayState;
  registry : VaultRegistryStorage;
  issue_st : IssueStorage;
  redeem_st : RedeemStorage;
  replace_st : ReplaceStorage;
  nomination_st : NominationStorage;
}.

Section chain.
Context `{RT : Runtime}.

Definition set_ledger (x : Ledger) (s : Chain) : Chain :=
  mkChain RT (system s) x (oracle_st s) (staking_st s) (pooled_st s) (distribution_st s)
    (fee_st s) (relay_st s) (registry s) (issue_st s) (redeem_st s) (replace_st s) (nomination_st s).
Definition set_oracle (x : OracleState) (s : Chain) : Chain :=
  mkChain RT (system s) (ledger s) x (staking_st s) (pooled_st s) (distribution_st s)
    (fee_st s) (relay_st s) (registry s) (issue_st s) (redeem_st s) (replace_st s) (nomination_st s).
Definition set_staking (x : StakingState) (s : Chain) : Chain :=
  mkChain RT (system s) (ledger s) (oracle_st s) x (pooled_st s) (distribution_st s)
    (fee_st s) (relay_st s) (registry s) (issue_st s) (redeem_st s) (replace_st s) (nomination_st s).
Definition set_pooled (x : PoolState) (s : Chain) : Chain :=
  mkChain RT (system s) (ledger s) (oracle_st s) (staking_st s) x (distribution_st s)
    (fee_st s) (relay_st s) (registry s) (issue_st s) (redeem_st s) (replace_st s) (nomination_st s).
Definition set_distribution (x : RewardDistributionStorage) (s : Chain) : Chain :=
  mkChain RT (system s) (ledger s) (oracle_st s) (staking_st s) (pooled_st s) x
    (fee_st s) (relay_st s) (registry s) (issue_st s) (redeem_st s) (replace_st s) (nomination_st s).
Definition set_fee (x : FeeStorage) (s : Chain) : Chain :=
  mkChain RT (system s) (ledger s) (oracle_st s) (staking_st s) (pooled_st s) (distribution_st s)
    x (relay_st s) (registry s) (issue_st s) (redeem_st s) (replace_st s) (nomination_st s).
Definition set_relay (x : RelayState) (s : Chain) : Chain :=
  mkChain RT (system s) (ledger s) (oracle_st s) (staking_st s) (pooled_st s) (distribution_st s)
    (fee_st s) x (registry s) (issue_st s) (redeem_st s) (replace_st s) (nomination_st s).
Definition set_registry (x : VaultRegistryStorage) (s : Chain) : Chain :=
  mkChain RT (system s) (ledger s) (oracle_st s) (staking_st s) (pooled_st s) (distribution_st s)
    (fee_st s) (relay_st s) x (issue_st s) (redeem_st s) (replace_st s) (nomination_st s).
Definition set_issue (x : IssueStorage) (s : Chain) : Chain :=
  mkChain RT (system s) (ledger s) (oracle_st s) (staking_st s) (pooled_st s) (distribution_st s)
    (fee_st s) (relay_st s) (registry s) x (redeem_st s) (replace_st s) (nomination_st s).
Definition set_redeem (x : RedeemStorage) (s : Chain) : Chain :=
  mkChain RT (system s) (ledger s) (oracle_st s) (staking_st s) (pooled_st s) (distribution_st s)
    (fee_st s) (relay_st s) (registry s) (issue_st s) x (replace_st s) (nomination_st s).
Definition set_replace (x : ReplaceStorage) (s : Chain) : Chain :=
  mkChain RT (system s) (ledger s) (oracle_st s) (staking_st s) (pooled_st s) (distribution_st s)
    (fee_st s) (relay_st s) (registry s) (issue_st s) (redeem_st s) x (nomination_st s).
Definition set_nomination (x : NominationStorage) (s : Chain) : Chain :=
  mkChain RT (system s) (ledger s) (oracle_st s) (staking_st s) (pooled_st s) (distribution_st s)
    (fee_st s) (relay_st s) (registry s) (issue_st s) (redeem_st s) (replace_st s) x.

Definition on_ledger {A} (m : M Ledger A) : M Chain A := zoom ledger set_ledger m.
Definition on_oracle {A} (m : M OracleState A) : M Chain A := zoom oracle_st set_oracle m.
Definition on_staking {A} (m : M StakingState A) : M Chain A := zoom staking_st set_staking m.
Definition on_pooled {A} (m : M PoolState A) : M Chain A := zoom pooled_st set_pooled m.
Definition on_fee {A} (m : M FeeStorage A) : M Chain A := zoom fee_st set_fee m.
Definition on_relay {A} (m : M RelayState A) : M Chain A := zoom relay_st set_relay m.
Definition on_registry {A} (m : M VaultRegistryStorage A) : M Chain A :=
  zoom registry set_registry m.
Definition on_issue {A} (m : M IssueStorage A) : M Chain A := zoom issue_st set_issue m.
Definition on_redeem {A} (m : M RedeemStorage A) : M Chain A := zoom redeem_st set_redeem m.
Definition on_replace {A} (m : M ReplaceStorage A) : M Chain A := zoom replace_st set_replace m.
Definition on_nomination {A} (m : M NominationStorage A) : M Chain A :=
  zoom nomination_st set_nomination m.
Definition on_distribution {A} (m : M RewardDistributionStorage A) : M Chain A :=
  zoom distribution_st set_distribution m.
Definition in_security {A} (m : M SecurityState A) : M Chain A := on_oracle (on_security m).

(** [Amount::convert_to], through the oracle. *)
Definition convert_to (a : Amount) (c : CurrencyId) : M Chain Amount :=
  on_oracle (Oracle.convert currency_decimals a c).

Definition chain_secure_id : M Chain H256 :=
  let* ctx := gets (fun s => context (system s)) in
  in_security (get_secure_id sha256 ctx).

End chain.
