(* ===== verification/RewardDistribution.v ===== *)
(** * The reward-distribution pallet

    [src/pallets/reward-distribution/src/lib.rs]: native rewards per block and
    collected fees are shared among the collateral pools in proportion to
    their stake in USD; a vault's share moves on to the vault's staking pool;
    participants collect from there. *)

From S2P Require Import Prelude FixedPoint Primitives Currency Security Oracle Staking.
From S2P Require Import PooledRewards Chain.

Section reward_distribution.
Context `{RT : Runtime}.

Definition set_RewardPerBlock (x : option Balance) : M Chain unit :=
  on_distribution (modify (fun d => mkRewardDistribution x (RewardsAdaptedAt d) (NativeLiability d))).
Definition set_RewardsAdaptedAt (x : option BlockNumber) : M Chain unit :=
  on_distribution (modify (fun d => mkRewardDistribution (RewardPerBlock d) x (NativeLiability d))).
Definition set_NativeLiability (x : option Balance) : M Chain unit :=
  on_distribution (modify (fun d => mkRewardDistribution (RewardPerBlock d) (RewardsAdaptedAt d) x)).

Definition set_reward_per_block (ensure_root : outcome unit) (new_reward_per_block : Balance)
  : M Chain unit :=
  transactional (
    lift ensure_root ;;;
    set_RewardPerBlock (Some new_reward_per_block) ;;;
    let* active_block := in_security active_block_number in
    set_RewardsAdaptedAt (Some active_block)).

Definition transfer_reward (reward_currency_id : CurrencyId) (reward : Balance)
    (beneficiary : AccountId) : M Chain unit :=
  if bool_decide (reward_currency_id = GetNativeCurrencyId) then
    let* available_native_funds := gets (fun s => native_free_balance fee_pool_account_id (ledger s)) in
    match u128_checked_sub reward available_native_funds with
    | None =>
        on_ledger (Amount.transfer (Amount.new reward reward_currency_id)
                     fee_pool_account_id beneficiary)
    | Some remaining =>
        let* l := gets (fun s => NativeLiability (distribution_st s)) in
        let* liability := lift (ok_or l reward_distribution.NotEnoughRewardsRegistered) in
        if liability <? remaining then throw reward_distribution.NotEnoughRewardsRegistered
        else
          on_ledger (Amount.transfer (Amount.new available_native_funds reward_currency_id)
                       fee_pool_account_id beneficiary) ;;;
          on_ledger (modify (native_deposit_creating beneficiary remaining)) ;;;
          let* rest := lift (ok_or (u128_checked_sub liability remaining)
                               reward_distribution.Underflow) in
          set_NativeLiability (Some rest)
    end
  else
    on_ledger (Amount.transfer (Amount.new reward reward_currency_id)
                 fee_pool_account_id beneficiary).

(** Both the hook of [collect_reward] and [withdraw_all_rewards_from_vault]
    move the vault's share from the pool of its collateral to its own pool. *)
Definition move_reward_to_vault (vault_id : VaultId) (currency_id : CurrencyId) : M Chain unit :=
  let* reward := on_pooled (rewards_withdraw_reward (collateral_currency vault_id) vault_id
                              currency_id) in
  on_staking (staking_distribute_reward vault_id reward currency_id) ;;;
  ret tt.

Definition collect_reward (ensure_signed : outcome AccountId) (vault_id : VaultId)
    (reward_currency_id : CurrencyId) (index : option Z) : M Chain unit :=
  transactional (
    let* caller := lift ensure_signed in
    move_reward_to_vault vault_id reward_currency_id ;;;
    let minimum_transfer_amount := existential_deposit reward_currency_id in
    let* expected_rewards :=
      on_staking (staking_compute_reward vault_id caller reward_currency_id) in
    if expected_rewards =? 0 then throw reward_distribution.NoRewardsForAccount
    else if expected_rewards <? minimum_transfer_amount
    then throw reward_distribution.CollectAmountTooSmall
    else
      let* caller_rewards :=
        on_staking (staking_withdraw_reward vault_id caller index reward_currency_id) in
      if caller_rewards =? 0 then throw reward_distribution.NoRewardsForAccount
      else transfer_reward reward_currency_id caller_rewards caller).

(** The stakes of the pools in USD and their sum; the [unwrap] of the sum
    panics on overflow. *)
Definition stakes_in_usd (total_stakes : list (CurrencyId * Balance))
  : M Chain (list Balance * Balance) :=
  fold_m (fun '(stakes, total_stake_in_usd) '(currency_id, stake) =>
    let* stake_in_usd := on_oracle (currency_to_usd currency_decimals stake currency_id) in
    let* total := lift (match u128_checked_add total_stake_in_usd stake_in_usd with
                        | Some t => Ok t | None => Panic end) in
    ret (stakes ++ [stake_in_usd], total)) total_stakes ([], 0).

Definition pay_pools (reward_amount : Balance) (reward_currency : CurrencyId)
    (total_stake_in_usd : Balance) (pools : list ((CurrencyId * Balance) * Balance))
  : M Chain Balance :=
  fold_m (fun error_reward_accum '((currency_id, _), stake_in_usd) =>
    let percentage := perquintill_from_rational stake_in_usd total_stake_in_usd in
    let reward_for_pool := perquintill_mul_floor percentage reward_amount in
    let* result := attempt (on_pooled (rewards_distribute_reward RewardsMaxRewardCurrencies
                              currency_id reward_currency reward_for_pool)) in
    if negb (is_ok result)
    then lift (ok_or (u128_checked_add error_reward_accum reward_for_pool)
                 reward_distribution.Overflow)
    else ret error_reward_accum) pools 0.

(** [stakes_in_usd_iter] has one entry per pool, so it is zipped with them. *)
Definition distribute_rewards (reward_amount : Balance) (reward_currency : CurrencyId)
  : M Chain Balance :=
  let* total_stakes := on_pooled rewards_get_total_stake_all_pools in
  let* sums := stakes_in_usd total_stakes in
  let '(stakes, total_stake_in_usd) := sums in
  pay_pools reward_amount reward_currency total_stake_in_usd (combine total_stakes stakes).

Definition withdraw_all_rewards_from_vault (vault_id : VaultId) : M Chain unit :=
  let* all_reward_currencies := on_staking (get_all_reward_currencies GetNativeCurrencyId) in
  for_each all_reward_currencies (move_reward_to_vault vault_id).

(** [*current_liability += reward_this_block] is a plain addition. *)
Definition add_liability (reward : Balance) (current : option Balance) : option Balance :=
  match current with
  | Some l => Some (u128_wrapping_add l reward)
  | None => Some reward
  end.

Definition execute_on_init : M Chain unit :=
  let* running := attempt (in_security ensure_parachain_status_running) in
  if negb (is_ok running) then ret tt
  else
    let* d := gets distribution_st in
    match RewardPerBlock d, RewardsAdaptedAt d with
    | Some reward_per_block, Some rewards_adapted_at =>
        let* expired := attempt (in_security (parachain_block_expired rewards_adapted_at
                                                (Z.max 0 (DecayInterval - 1)))) in
        let* reward_this_block :=
          match expired with
          | Ok true =>
              let reward_this_block :=
                perquintill_mul_floor (perquintill_one_minus DecayRate) reward_per_block in
              set_RewardPerBlock (Some reward_this_block) ;;;
              let* active_block := in_security active_block_number in
              set_RewardsAdaptedAt (Some active_block) ;;;
              ret reward_this_block
          | _ => ret reward_per_block
          end in
        let* liability := gets (fun s => NativeLiability (distribution_st s)) in
        set_NativeLiability (add_liability reward_this_block liability) ;;;
        attempt (distribute_rewards reward_this_block GetNativeCurrencyId) ;;;
        ret tt
    | _, _ => ret tt
    end.

End reward_distribution.
