(* ===== verification/Fee.v ===== *)
(** * The fee pallet

    [src/pallets/fee/src/lib.rs]: the rates of issue, redeem, premium,
    punishment and griefing, and the distribution of collected fees. *)

From S2P Require Import Prelude FixedPoint Primitives Currency Chain RewardDistribution.

Section fee.
Context `{RT : Runtime}.

(** ** Rates *)

Definition get_issue_fee (a : Amount) : M Chain Amount :=
  let* rate := gets (fun s => IssueFee (fee_st s)) in lift (Amount.rounded_mul a rate).
Definition get_issue_griefing_collateral (a : Amount) : M Chain Amount :=
  let* rate := gets (fun s => IssueGriefingCollateral (fee_st s)) in
  lift (Amount.rounded_mul a rate).
Definition get_redeem_fee (a : Amount) : M Chain Amount :=
  let* rate := gets (fun s => RedeemFee (fee_st s)) in lift (Amount.rounded_mul a rate).
Definition get_premium_redeem_fee (a : Amount) : M Chain Amount :=
  let* rate := gets (fun s => PremiumRedeemFee (fee_st s)) in lift (Amount.rounded_mul a rate).
Definition get_punishment_fee (a : Amount) : M Chain Amount :=
  let* rate := gets (fun s => PunishmentFee (fee_st s)) in lift (Amount.rounded_mul a rate).
Definition get_replace_griefing_collateral (a : Amount) : M Chain Amount :=
  let* rate := gets (fun s => ReplaceGriefingCollateral (fee_st s)) in
  lift (Amount.rounded_mul a rate).

(** ** Extrinsics *)

Definition get_max_expected_value : Z := MaxExpectedValue.

Definition set_issue_fee (ensure_root : outcome unit) (fee : Z) : M Chain unit :=
  transactional (
    lift ensure_root ;;;
    ensure (fee <=? get_max_expected_value) fee.AboveMaxExpectedValue ;;;
    on_fee (modify (fun f => mkFeeStorage fee (IssueGriefingCollateral f) (RedeemFee f)
      (PremiumRedeemFee f) (PunishmentFee f) (ReplaceGriefingCollateral f)))).
Definition set_issue_griefing_collateral (ensure_root : outcome unit) (griefing_collateral : Z)
  : M Chain unit :=
  transactional (
    lift ensure_root ;;;
    ensure (griefing_collateral <=? get_max_expected_value) fee.AboveMaxExpectedValue ;;;
    on_fee (modify (fun f => mkFeeStorage (IssueFee f) griefing_collateral (RedeemFee f)
      (PremiumRedeemFee f) (PunishmentFee f) (ReplaceGriefingCollateral f)))).
Definition set_redeem_fee (ensure_root : outcome unit) (fee : Z) : M Chain unit :=
  transactional (
    lift ensure_root ;;;
    ensure (fee <=? get_max_expected_value) fee.AboveMaxExpectedValue ;;;
    on_fee (modify (fun f => mkFeeStorage (IssueFee f) (IssueGriefingCollateral f) fee
      (PremiumRedeemFee f) (PunishmentFee f) (ReplaceGriefingCollateral f)))).
Definition set_premium_redeem_fee (ensure_root : outcome unit) (fee : Z) : M Chain unit :=
  transactional (
    lift ensure_root ;;;
    ensure (fee <=? get_max_expected_value) fee.AboveMaxExpectedValue ;;;
    on_fee (modify (fun f => mkFeeStorage (IssueFee f) (IssueGriefingCollateral f) (RedeemFee f)
      fee (PunishmentFee f) (ReplaceGriefingCollateral f)))).
Definition set_punishment_fee (ensure_root : outcome unit) (fee : Z) : M Chain unit :=
  transactional (
    lift ensure_root ;;;
    ensure (fee <=? get_max_expected_value) fee.AboveMaxExpectedValue ;;;
    on_fee (modify (fun f => mkFeeStorage (IssueFee f) (IssueGriefingCollateral f) (RedeemFee f)
      (PremiumRedeemFee f) fee (ReplaceGriefingCollateral f)))).
Definition set_replace_griefing_collateral (ensure_root : outcome unit) (griefing_collateral : Z)
  : M Chain unit :=
  transactional (
    lift ensure_root ;;;
    ensure (griefing_collateral <=? get_max_expected_value) fee.AboveMaxExpectedValue ;;;
    on_fee (modify (fun f => mkFeeStorage (IssueFee f) (IssueGriefingCollateral f) (RedeemFee f)
      (PremiumRedeemFee f) (PunishmentFee f) griefing_collateral))).

(** ** Distribution *)

Definition distribute (reward : Amount) : M Chain Amount :=
  let* undistributed := distribute_rewards (amount reward) (currency_id reward) in
  ret (Amount.new undistributed (currency_id reward)).

(** What no pool takes goes to the treasury. *)
Definition fee_distribute_rewards (a : Amount) : M Chain unit :=
  let* remaining := distribute a in
  if negb (Amount.is_zero remaining)
  then on_ledger (on_sweep treasury_account_id fee_pool_account_id remaining)
  else ret tt.

End fee.
