(* ===== verification/VaultRegistry.v ===== *)
(** * The vault-registry pallet

    [src/pallets/vault-registry/src/lib.rs], [types.rs] and
    [pool_staking_manager.rs]: vaults, the liquidation vaults, the collateral
    that backs issued tokens, and every change of their token counters.

    A [RichVault] is the vault record it holds: a method that takes [&mut self]
    gets the record and returns the new one, so a handle that is used after the
    stored vault changed writes its stale data back, as in the code.  Events
    are not modelled; the values they report are computed where that can fail. *)

From S2P Require Import Prelude FixedPoint Primitives Currency Security Oracle Staking.
From S2P Require Import PooledRewards StellarRelay Chain RewardDistribution.

(** ** Writing the storage *)

Definition put_vault (k : VaultId) (v : Vault) (r : VaultRegistryStorage) : VaultRegistryStorage :=
  let '(mkRegistry a b c d e f g h i j) := r in mkRegistry a b c d e f g (<[k := v]> h) i j.
Definition put_liquidation_vault (k : VaultCurrencyPair) (v : SystemVault)
    (r : VaultRegistryStorage) : VaultRegistryStorage :=
  let '(mkRegistry a b c d e f g h i j) := r in mkRegistry a b c d e f (<[k := v]> g) h i j.
Definition put_total_collateral (k : VaultCurrencyPair) (v : Balance)
    (r : VaultRegistryStorage) : VaultRegistryStorage :=
  let '(mkRegistry a b c d e f g h i j) := r in mkRegistry a b c d e f g h i (<[k := v]> j).

Section registry.
Context `{RT : Runtime}.

(** ** Reading the storage *)

Definition insert_vault (k : VaultId) (v : Vault) : M Chain unit :=
  on_registry (modify (put_vault k v)).

Definition get_vault_from_id (vault_id : VaultId) : M Chain Vault :=
  let* v := gets (fun s => Vaults (registry s) !! vault_id) in
  lift (ok_or v vault_registry.VaultNotFound).

Definition get_rich_vault_from_id (vault_id : VaultId) : M Chain Vault :=
  get_vault_from_id vault_id.

Definition get_active_vault_from_id (vault_id : VaultId) : M Chain Vault :=
  let* vault := get_vault_from_id vault_id in
  match status vault with
  | Active _ => ret vault
  | Liquidated => throw vault_registry.VaultLiquidated
  end.

Definition get_active_rich_vault_from_id (vault_id : VaultId) : M Chain Vault :=
  get_active_vault_from_id vault_id.

Definition vault_exists (vault_id : VaultId) : M Chain bool :=
  gets (fun s => bool_decide (is_Some (Vaults (registry s) !! vault_id))).

Definition get_liquidation_vault (pair : VaultCurrencyPair) : M Chain SystemVault :=
  gets (fun s => default (mkSystemVault 0 0 0 0 pair) (LiquidationVault (registry s) !! pair)).

Definition get_rich_liquidation_vault (pair : VaultCurrencyPair) : M Chain SystemVault :=
  get_liquidation_vault pair.

Definition get_minimum_collateral_vault (currency_id : CurrencyId) : M Chain Amount :=
  let* a := gets (fun s => default 0 (MinimumCollateralVault (registry s) !! currency_id)) in
  ret (Amount.new a currency_id).

Definition get_stellar_public_key (account : AccountId) : M Chain StellarPublicKeyRaw :=
  let* k := gets (fun s => VaultStellarPublicKey (registry s) !! account) in
  lift (ok_or k vault_registry.NoStellarPublicKey).

Definition get_collateral_ceiling (pair : VaultCurrencyPair) : M Chain Amount :=
  let* c := gets (fun s => SystemCollateralCeiling (registry s) !! pair) in
  let* ceiling_amount := lift (ok_or c vault_registry.CeilingNotSet) in
  ret (Amount.new ceiling_amount (collateral pair)).

Definition get_total_user_vault_collateral (pair : VaultCurrencyPair) : M Chain Amount :=
  let* t := gets (fun s => default 0 (TotalUserVaultCollateral (registry s) !! pair)) in
  ret (Amount.new t (collateral pair)).

Definition get_backing_collateral (vault_id : VaultId) : M Chain Amount :=
  let* stake := on_staking (staking_total_stake vault_id) in
  ret (Amount.new stake (collateral (currencies vault_id))).

Definition compute_collateral (vault_id : VaultId) : M Chain Amount :=
  let* a := on_staking (staking_compute_stake vault_id (account_id vault_id)) in
  ret (Amount.new a (collateral (currencies vault_id))).

Definition is_vault_liquidated (vault_id : VaultId) : M Chain bool :=
  let* vault := get_vault_from_id vault_id in
  ret (bool_decide (status vault = Liquidated)).

End registry.

Definition is_liquidated (v : Vault) : bool := bool_decide (status v = Liquidated).
Definition accepts_new_issues (v : Vault) : bool := bool_decide (status v = Active true).

Definition vault_new (vault_id : VaultId) : Vault :=
  mkVault vault_id (Active true) None None 0 0 0 0 0 0 0.

(** ** The liquidation vault *)

Module RichSystemVault.
Section system_vault.
Context `{RT : Runtime}.
Implicit Types self : SystemVault.

Definition wrapped_currency self : CurrencyId := wrapped (currency_pair self).
Definition issued_tokens self : Amount := Amount.new (lv_issued_tokens self) (wrapped_currency self).
Definition to_be_issued_tokens self : Amount :=
  Amount.new (lv_to_be_issued_tokens self) (wrapped_currency self).
Definition to_be_redeemed_tokens self : Amount :=
  Amount.new (lv_to_be_redeemed_tokens self) (wrapped_currency self).
Definition collateral self : Amount :=
  Amount.new (lv_collateral self) (collateral (currency_pair self)).

Definition redeemable_tokens self : outcome Amount :=
  Amount.checked_sub (issued_tokens self) (to_be_redeemed_tokens self).

Definition to_be_backed_tokens self : outcome Amount :=
  let? x := Amount.checked_add (issued_tokens self) (to_be_issued_tokens self) in
  Amount.checked_sub x (to_be_redeemed_tokens self).

Definition update (self' : SystemVault) : M Chain SystemVault :=
  on_registry (modify (put_liquidation_vault (currency_pair self') self')) ;;; ret self'.

Definition increase_collateral self (a : Amount) : M Chain SystemVault :=
  let* new_value := lift (Amount.checked_add (collateral self) a) in
  update (mkSystemVault (lv_to_be_issued_tokens self) (lv_issued_tokens self)
            (lv_to_be_redeemed_tokens self) (amount new_value) (currency_pair self)).

Definition decrease_collateral self (a : Amount) : M Chain SystemVault :=
  let* new_value := lift (Amount.checked_sub (collateral self) a) in
  update (mkSystemVault (lv_to_be_issued_tokens self) (lv_issued_tokens self)
            (lv_to_be_redeemed_tokens self) (amount new_value) (currency_pair self)).

Definition increase_issued self (tokens : Amount) : M Chain SystemVault :=
  let* new_value := lift (Amount.checked_add (issued_tokens self) tokens) in
  update (mkSystemVault (lv_to_be_issued_tokens self) (amount new_value)
            (lv_to_be_redeemed_tokens self) (lv_collateral self) (currency_pair self)).

Definition increase_to_be_issued self (tokens : Amount) : M Chain SystemVault :=
  let* new_value := lift (Amount.checked_add (to_be_issued_tokens self) tokens) in
  update (mkSystemVault (amount new_value) (lv_issued_tokens self)
            (lv_to_be_redeemed_tokens self) (lv_collateral self) (currency_pair self)).

Definition increase_to_be_redeemed self (tokens : Amount) : M Chain SystemVault :=
  let* new_value := lift (Amount.checked_add (to_be_redeemed_tokens self) tokens) in
  update (mkSystemVault (lv_to_be_issued_tokens self) (lv_issued_tokens self)
            (amount new_value) (lv_collateral self) (currency_pair self)).

Definition decrease_issued self (tokens : Amount) : M Chain SystemVault :=
  let* new_value := lift (Amount.checked_sub (issued_tokens self) tokens) in
  update (mkSystemVault (lv_to_be_issued_tokens self) (amount new_value)
            (lv_to_be_redeemed_tokens self) (lv_collateral self) (currency_pair self)).

Definition decrease_to_be_issued self (tokens : Amount) : M Chain SystemVault :=
  let* new_value := lift (Amount.checked_sub (to_be_issued_tokens self) tokens) in
  update (mkSystemVault (amount new_value) (lv_issued_tokens self)
            (lv_to_be_redeemed_tokens self) (lv_collateral self) (currency_pair self)).

Definition decrease_to_be_redeemed self (tokens : Amount) : M Chain SystemVault :=
  let* new_value := lift (Amount.checked_sub (to_be_redeemed_tokens self) tokens) in
  update (mkSystemVault (lv_to_be_issued_tokens self) (lv_issued_tokens self)
            (amount new_value) (lv_collateral self) (currency_pair self)).

Definition burn_issued self (tokens : Amount) : M Chain SystemVault := decrease_issued self tokens.

End system_vault.
End RichSystemVault.

(** ** Vaults *)

Module RichVault.
Section rich_vault.
Context `{RT : Runtime}.
Implicit Types self : Vault.

Definition wrapped_currency self : CurrencyId := wrapped_currency (id self).

Definition issued_tokens self : Amount :=
  Amount.new (issued_tokens self) (wrapped_currency self).
Definition to_be_issued_tokens self : Amount :=
  Amount.new (to_be_issued_tokens self) (wrapped_currency self).
Definition to_be_replaced_tokens self : Amount :=
  Amount.new (to_be_replaced_tokens self) (wrapped_currency self).
Definition to_be_redeemed_tokens self : Amount :=
  Amount.new (to_be_redeemed_tokens self) (wrapped_currency self).
Definition liquidated_collateral self : Amount :=
  Amount.new (liquidated_collateral self) (collateral (currencies (id self))).

Definition freely_redeemable_tokens self : outcome Amount :=
  Amount.checked_sub (issued_tokens self) (to_be_redeemed_tokens self).

Definition backed_tokens self : outcome Amount :=
  let? a := ok_or (u128_checked_add (Chain.issued_tokens self) (Chain.to_be_issued_tokens self))
              Overflow in
  Ok (Amount.new a (wrapped_currency self)).

(** [update]: the closure's result is written under the vault's own id. *)
Definition update (self' : Vault) : M Chain Vault :=
  insert_vault (id self') self' ;;; ret self'.

(** *** [UpdatableVault] *)

Definition increase_issued self (tokens : Amount) : M Chain Vault :=
  if is_liquidated self then
    let* lv := get_rich_liquidation_vault (currencies (id self)) in
    RichSystemVault.increase_issued lv tokens ;;; ret self
  else
    let* new_value := lift (Amount.checked_add (issued_tokens self) tokens) in
    update (set_issued_tokens (amount new_value) self).

Definition increase_to_be_issued self (tokens : Amount) : M Chain Vault :=
  ensure (negb (is_liquidated self)) vault_registry.VaultNotFound ;;;
  let* new_value := lift (Amount.checked_add (to_be_issued_tokens self) tokens) in
  update (set_to_be_issued_tokens (amount new_value) self).

Definition increase_to_be_redeemed self (tokens : Amount) : M Chain Vault :=
  ensure (negb (is_liquidated self)) vault_registry.VaultNotFound ;;;
  let* new_value := lift (Amount.checked_add (to_be_redeemed_tokens self) tokens) in
  update (set_to_be_redeemed_tokens (amount new_value) self).

Definition decrease_issued self (tokens : Amount) : M Chain Vault :=
  if is_liquidated self then
    let* lv := get_rich_liquidation_vault (currencies (id self)) in
    RichSystemVault.decrease_issued lv tokens ;;; ret self
  else
    let* new_value := lift (Amount.checked_sub (issued_tokens self) tokens) in
    update (set_issued_tokens (amount new_value) self).

Definition decrease_to_be_issued self (tokens : Amount) : M Chain Vault :=
  if is_liquidated self then
    let* lv := get_rich_liquidation_vault (currencies (id self)) in
    RichSystemVault.decrease_to_be_issued lv tokens ;;; ret self
  else
    let* new_value := lift (Amount.checked_sub (to_be_issued_tokens self) tokens) in
    update (set_to_be_issued_tokens (amount new_value) self).

Definition decrease_to_be_redeemed self (tokens : Amount) : M Chain Vault :=
  (if is_liquidated self then
     let* lv := get_rich_liquidation_vault (currencies (id self)) in
     RichSystemVault.decrease_to_be_redeemed lv tokens ;;; ret tt
   else ret tt) ;;;
  let* new_value := lift (Amount.checked_sub (to_be_redeemed_tokens self) tokens) in
  update (set_to_be_redeemed_tokens (amount new_value) self).

(** *** Requests *)

Definition request_issue_tokens self (tokens : Amount) : M Chain Vault :=
  increase_to_be_issued self tokens.

Definition cancel_issue_tokens self (tokens : Amount) : M Chain Vault :=
  decrease_to_be_issued self tokens.

Definition execute_issue_tokens self (tokens : Amount) : M Chain Vault :=
  let* self := decrease_to_be_issued self tokens in
  increase_issued self tokens.

Definition request_redeem_tokens self (tokens : Amount) : M Chain Vault :=
  increase_to_be_redeemed self tokens.

Definition cancel_redeem_tokens self (tokens : Amount) : M Chain Vault :=
  decrease_to_be_redeemed self tokens.

Definition execute_redeem_tokens self (tokens : Amount) : M Chain Vault :=
  let* self := decrease_to_be_redeemed self tokens in
  decrease_issued self tokens.

(** *** Other fields *)

Definition set_to_be_replaced_amount self (tokens : Amount) : M Chain Vault :=
  update (set_to_be_replaced_tokens (amount tokens) self).

Definition increase_available_replace_collateral self (a : Amount) : M Chain Vault :=
  let* x := lift (ok_or (u128_checked_add (replace_collateral self) (amount a)) Overflow) in
  update (set_replace_collateral x self).

Definition decrease_available_replace_collateral self (a : Amount) : M Chain Vault :=
  let* x := lift (ok_or (u128_checked_sub (replace_collateral self) (amount a)) Underflow) in
  update (set_replace_collateral x self).

Definition increase_active_replace_collateral self (a : Amount) : M Chain Vault :=
  let* x := lift (ok_or (u128_checked_add (active_replace_collateral self) (amount a)) Overflow) in
  update (set_active_replace_collateral x self).

Definition decrease_active_replace_collateral self (a : Amount) : M Chain Vault :=
  let* x := lift (ok_or (u128_checked_sub (active_replace_collateral self) (amount a)) Underflow) in
  update (set_active_replace_collateral x self).

Definition set_custom_secure_threshold self (threshold : option Z) : M Chain Vault :=
  update (set_secure_collateral_threshold threshold self).

Definition set_accept_new_issues self (accept_new_issues : bool) : M Chain Vault :=
  update (set_vault_status (Active accept_new_issues) self).

Definition increase_liquidated_collateral self (a : Amount) : M Chain Vault :=
  let* x := lift (ok_or (u128_checked_add (Chain.liquidated_collateral self) (amount a)) Overflow) in
  update (set_liquidated_collateral x self).

Definition decrease_liquidated_collateral self (a : Amount) : M Chain Vault :=
  let* x := lift (ok_or (u128_checked_sub (Chain.liquidated_collateral self) (amount a)) Underflow) in
  update (set_liquidated_collateral x self).

(** *** Bans *)

Definition is_banned self : M Chain bool :=
  match banned_until self with
  | None => ret false
  | Some until => let* now := in_security active_block_number in ret (now <=? until)
  end.

Definition ensure_not_banned self : M Chain unit :=
  let* banned := is_banned self in
  if banned then throw vault_registry.VaultBanned else ret tt.

Definition ban_until self (height : BlockNumber) : M Chain Vault :=
  update (set_banned_until (Some height) self).

Definition redeemable_tokens self : M Chain Amount :=
  let* banned := is_banned self in
  if banned then ret (Amount.new 0 (wrapped_currency self))
  else lift (Amount.checked_sub (issued_tokens self) (to_be_redeemed_tokens self)).

(** *** Collateral *)

Definition get_vault_collateral self : M Chain Amount := compute_collateral (id self).
Definition get_total_collateral self : M Chain Amount := get_backing_collateral (id self).

Definition get_secure_threshold self : M Chain Z :=
  let* t := gets (fun s => SecureCollateralThreshold (registry s) !! currencies (id self)) in
  let* global_threshold := lift (ok_or t vault_registry.GlobalThresholdNotSet) in
  ret (Z.max (default 0 (secure_collateral_threshold self)) global_threshold).

Definition get_used_collateral self (threshold : Z) : M Chain Amount :=
  let* issued_tokens := lift (backed_tokens self) in
  let* issued_tokens_in_collateral :=
    convert_to issued_tokens (collateral (currencies (id self))) in
  let* used_collateral :=
    lift (Amount.checked_fixed_point_mul issued_tokens_in_collateral threshold) in
  let* total := get_total_collateral self in
  lift (Amount.min total used_collateral).

Definition get_free_collateral self : M Chain Amount :=
  let* threshold := get_secure_threshold self in
  let* used_collateral := get_used_collateral self threshold in
  let* total := get_total_collateral self in
  lift (Amount.checked_sub total used_collateral).

End rich_vault.
End RichVault.

Section pallet.
Context `{RT : Runtime}.

(** ** Thresholds *)

Definition calculate_max_wrapped_from_collateral_for_threshold (collateral : Amount)
    (wrapped_currency : CurrencyId) (threshold : Z) : M Chain Amount :=
  let* x := convert_to collateral wrapped_currency in
  lift (Amount.checked_div x threshold).

Definition get_required_collateral_for_wrapped_with_threshold (wrapped : Amount) (threshold : Z)
    (currency_id : CurrencyId) : M Chain Amount :=
  let* x := lift (Amount.checked_fixed_point_mul_rounded_up wrapped threshold) in
  convert_to x currency_id.

Definition is_collateral_below_threshold (collateral wrapped_amount : Amount) (threshold : Z)
  : M Chain bool :=
  let* max_tokens := calculate_max_wrapped_from_collateral_for_threshold collateral
                       (currency_id wrapped_amount) threshold in
  lift (Amount.lt max_tokens wrapped_amount).

Definition is_vault_below_threshold (vault_id : VaultId) (threshold : Z) : M Chain bool :=
  let* vault := get_rich_vault_from_id vault_id in
  let* collateral := get_backing_collateral vault_id in
  is_collateral_below_threshold collateral (RichVault.issued_tokens vault) threshold.

Definition is_collateral_below_vault_secure_threshold (collateral wrapped_amount : Amount)
    (vault : Vault) : M Chain bool :=
  let* threshold := RichVault.get_secure_threshold vault in
  is_collateral_below_threshold collateral wrapped_amount threshold.

Definition is_vault_below_secure_threshold (vault_id : VaultId) : M Chain bool :=
  let* vault := get_rich_vault_from_id vault_id in
  let* threshold := RichVault.get_secure_threshold vault in
  is_vault_below_threshold vault_id threshold.

Definition is_vault_below_premium_threshold (vault_id : VaultId) : M Chain bool :=
  let* t := gets (fun s => PremiumRedeemThreshold (registry s) !! currencies vault_id) in
  let* threshold := lift (ok_or t vault_registry.PremiumRedeemThresholdNotSet) in
  is_vault_below_threshold vault_id threshold.

Definition is_vault_below_liquidation_threshold (vault : Vault) (liquidation_threshold : Z)
  : M Chain bool :=
  let* collateral := get_backing_collateral (id vault) in
  is_collateral_below_threshold collateral
    (Amount.new (issued_tokens vault) (wrapped_currency (id vault))) liquidation_threshold.

Definition get_vault_secure_threshold (vault_id : VaultId) : M Chain Z :=
  let* vault := get_rich_vault_from_id vault_id in
  RichVault.get_secure_threshold vault.

(** [(collateral * numerator) / denominator] on [U256]. *)
Definition calculate_collateral (collateral numerator denominator : Amount) : outcome Amount :=
  if Amount.is_zero numerator && Amount.is_zero denominator then Ok collateral
  else
    let? product := ok_or (fits 0 u256_max (amount collateral * amount numerator)) Overflow in
    let? quotient := ok_or (if amount denominator =? 0 then None
                            else Some (product / amount denominator)) Underflow in
    let? a := ok_or (fits 0 u128_max quotient) vault_registry.TryIntoIntError in
    Ok (Amount.new a (currency_id collateral)).

Definition issuable_tokens (self : Vault) : M Chain Amount :=
  let* banned := RichVault.is_banned self in
  if banned then ret (Amount.new 0 (RichVault.wrapped_currency self))
  else
    let* free_collateral := RichVault.get_free_collateral self in
    let* secure_threshold := RichVault.get_secure_threshold self in
    calculate_max_wrapped_from_collateral_for_threshold free_collateral
      (RichVault.wrapped_currency self) secure_threshold.

(** ** The pools *)

Definition pool_update_reward_stake (vault_id : VaultId) : M Chain unit :=
  let* vault := get_vault_from_id vault_id in
  let* new_reward_stake :=
    if negb (accepts_new_issues vault) then ret (Amount.zero (collateral_currency vault_id))
    else
      let* total_stake := on_staking (staking_total_stake vault_id) in
      ret (Amount.new total_stake (collateral_currency vault_id)) in
  on_pooled (rewards_set_stake (collateral_currency vault_id) vault_id (amount new_reward_stake)).

Definition pool_deposit_collateral (vault_id : VaultId) (nominator_id : AccountId) (a : Amount)
  : M Chain unit :=
  withdraw_all_rewards_from_vault vault_id ;;;
  on_staking (staking_deposit_stake GetNativeCurrencyId vault_id nominator_id (amount a)) ;;;
  pool_update_reward_stake vault_id.

Definition pool_withdraw_collateral (vault_id : VaultId) (nominator_id : AccountId) (a : Amount)
    (nonce : option Z) : M Chain unit :=
  withdraw_all_rewards_from_vault vault_id ;;;
  on_staking (staking_withdraw_stake GetNativeCurrencyId vault_id nominator_id (amount a) nonce) ;;;
  pool_update_reward_stake vault_id.

Definition pool_slash_collateral (vault_id : VaultId) (a : Amount) : M Chain unit :=
  withdraw_all_rewards_from_vault vault_id ;;;
  on_staking (staking_slash_stake GetNativeCurrencyId vault_id (amount a)) ;;;
  pool_update_reward_stake vault_id.

Definition pool_kick_nominators (vault_id : VaultId) : M Chain Balance :=
  withdraw_all_rewards_from_vault vault_id ;;;
  let* ret_ := on_staking (staking_force_refund GetNativeCurrencyId vault_id) in
  pool_update_reward_stake vault_id ;;;
  ret ret_.

Definition pool_on_vault_settings_change (vault_id : VaultId) : M Chain unit :=
  withdraw_all_rewards_from_vault vault_id ;;;
  pool_update_reward_stake vault_id.

End pallet.

(** ** Moving collateral *)

Inductive CurrencySource :=
| Collateral (vault_id : VaultId)
| AvailableReplaceCollateral (vault_id : VaultId)
| ActiveReplaceCollateral (vault_id : VaultId)
| UserGriefing (account : AccountId)
| FreeBalance (account : AccountId)
| LiquidatedCollateral (vault_id : VaultId)
| FromLiquidationVault (cp : VaultCurrencyPair).

Section funds.
Context `{RT : Runtime}.

Definition source_account_id (self : CurrencySource) : AccountId :=
  match self with
  | Collateral v | AvailableReplaceCollateral v | ActiveReplaceCollateral v
  | LiquidatedCollateral v => account_id v
  | UserGriefing x | FreeBalance x => x
  | FromLiquidationVault _ => liquidation_vault_account_id
  end.

Definition current_balance (self : CurrencySource) (c : CurrencyId) : M Chain Amount :=
  match self with
  | Collateral vault_id => get_backing_collateral vault_id
  | AvailableReplaceCollateral vault_id =>
      let* vault := get_vault_from_id vault_id in
      ret (Amount.new (replace_collateral vault) GetGriefingCollateralCurrencyId)
  | ActiveReplaceCollateral vault_id =>
      let* vault := get_vault_from_id vault_id in
      ret (Amount.new (active_replace_collateral vault) GetGriefingCollateralCurrencyId)
  | UserGriefing x => gets (fun s => get_reserved_balance c x (ledger s))
  | FreeBalance x => gets (fun s => get_free_balance c x (ledger s))
  | LiquidatedCollateral vault_id =>
      let* vault := get_vault_from_id vault_id in
      ret (Amount.new (liquidated_collateral vault) (collateral_currency vault_id))
  | FromLiquidationVault cp =>
      let* liquidation_vault := get_liquidation_vault cp in
      ret (Amount.new (lv_collateral liquidation_vault) (collateral cp))
  end.

Definition try_increase_total_backing_collateral (cp : VaultCurrencyPair) (a : Amount)
  : M Chain unit :=
  let* total := get_total_user_vault_collateral cp in
  let* new := lift (Amount.checked_add total a) in
  let* limit := get_collateral_ceiling cp in
  let* below := lift (Amount.le new limit) in
  ensure below vault_registry.CurrencyCeilingExceeded ;;;
  on_registry (modify (put_total_collateral cp (amount new))).

Definition decrease_total_backing_collateral (cp : VaultCurrencyPair) (a : Amount)
  : M Chain unit :=
  let* total := get_total_user_vault_collateral cp in
  let* new := lift (Amount.checked_sub total a) in
  on_registry (modify (put_total_collateral cp (amount new))).

Definition try_deposit_collateral (vault_id : VaultId) (a : Amount) : M Chain unit :=
  get_active_rich_vault_from_id vault_id ;;;
  try_increase_total_backing_collateral (currencies vault_id) a ;;;
  on_ledger (Amount.lock_on a (account_id vault_id)) ;;;
  pool_deposit_collateral vault_id (account_id vault_id) a.

Definition force_withdraw_collateral (vault_id : VaultId) (a : Amount) : M Chain unit :=
  on_ledger (Amount.unlock_on a (account_id vault_id)) ;;;
  decrease_total_backing_collateral (currencies vault_id) a ;;;
  pool_withdraw_collateral vault_id (account_id vault_id) a None.

Definition slash_backing_collateral (vault_id : VaultId) (a : Amount) : M Chain unit :=
  on_ledger (Amount.unlock_on a (account_id vault_id)) ;;;
  decrease_total_backing_collateral (currencies vault_id) a ;;;
  pool_slash_collateral vault_id a.

(** The sender's side: to the sender's free balance. *)
Definition take_from (from : CurrencySource) (a : Amount) : M Chain unit :=
  match from with
  | Collateral vault_id =>
      ensure (bool_decide (collateral (currencies vault_id) = currency_id a))
        vault_registry.InvalidCurrency ;;;
      slash_backing_collateral vault_id a
  | AvailableReplaceCollateral vault_id =>
      let* vault := get_active_rich_vault_from_id vault_id in
      RichVault.decrease_available_replace_collateral vault a ;;;
      on_ledger (Amount.unlock_on a (source_account_id from))
  | ActiveReplaceCollateral vault_id =>
      let* vault := get_rich_vault_from_id vault_id in
      RichVault.decrease_active_replace_collateral vault a ;;;
      on_ledger (Amount.unlock_on a (source_account_id from))
  | UserGriefing _ => on_ledger (Amount.unlock_on a (source_account_id from))
  | LiquidatedCollateral vault_id =>
      decrease_total_backing_collateral (currencies vault_id) a ;;;
      on_ledger (Amount.unlock_on a (source_account_id from))
  | FromLiquidationVault cp =>
      let* liquidation_vault := get_rich_liquidation_vault cp in
      RichSystemVault.decrease_collateral liquidation_vault a ;;;
      decrease_total_backing_collateral cp a ;;;
      on_ledger (Amount.unlock_on a (source_account_id from))
  | FreeBalance _ => ret tt
  end.

(** The receiver's side: from the receiver's free balance. *)
Definition give_to (to : CurrencySource) (a : Amount) : M Chain unit :=
  match to with
  | Collateral vault_id =>
      ensure (bool_decide (collateral (currencies vault_id) = currency_id a))
        vault_registry.InvalidCurrency ;;;
      try_deposit_collateral vault_id a
  | AvailableReplaceCollateral vault_id =>
      let* vault := get_active_rich_vault_from_id vault_id in
      RichVault.increase_available_replace_collateral vault a ;;;
      on_ledger (Amount.lock_on a (source_account_id to))
  | ActiveReplaceCollateral vault_id =>
      let* vault := get_rich_vault_from_id vault_id in
      RichVault.increase_active_replace_collateral vault a ;;;
      on_ledger (Amount.lock_on a (source_account_id to))
  | UserGriefing _ => on_ledger (Amount.lock_on a (source_account_id to))
  | LiquidatedCollateral vault_id =>
      try_increase_total_backing_collateral (currencies vault_id) a ;;;
      on_ledger (Amount.lock_on a (source_account_id to))
  | FromLiquidationVault cp =>
      try_increase_total_backing_collateral cp a ;;;
      let* liquidation_vault := get_rich_liquidation_vault cp in
      RichSystemVault.increase_collateral liquidation_vault a ;;;
      on_ledger (Amount.lock_on a (source_account_id to))
  | FreeBalance _ => ret tt
  end.

Definition transfer_funds (from to : CurrencySource) (a : Amount) : M Chain unit :=
  take_from from a ;;;
  on_ledger (Amount.transfer a (source_account_id from) (source_account_id to)) ;;;
  give_to to a.

Definition transfer_funds_saturated (from to : CurrencySource) (a : Amount) : M Chain Amount :=
  let* available_amount := current_balance from (currency_id a) in
  let* less := lift (Amount.lt available_amount a) in
  let a := if less then available_amount else a in
  transfer_funds from to a ;;;
  ret a.

(** ** Nomination limits *)

Definition get_max_nomination_ratio (cp : VaultCurrencyPair) : M Chain Z :=
  let* t := gets (fun s => SecureCollateralThreshold (registry s) !! cp) in
  let* secure := lift (ok_or t vault_registry.SecureCollateralThresholdNotSet) in
  let* p := gets (fun s => PremiumRedeemThreshold (registry s) !! cp) in
  let* premium := lift (ok_or p vault_registry.PremiumRedeemThresholdNotSet) in
  let* q := lift (ok_or (fu_checked_div secure premium) Underflow) in
  lift (ok_or (u128_checked_sub q fu_one) Underflow).

Definition get_max_nominatable_collateral (vault_collateral : Amount) (cp : VaultCurrencyPair)
  : M Chain Amount :=
  let* ratio := get_max_nomination_ratio cp in
  lift (Amount.rounded_mul vault_collateral ratio).

Definition is_max_nomination_ratio_preserved (vault_id : VaultId) (a : Amount) : M Chain bool :=
  let* vault_collateral := compute_collateral vault_id in
  let* backing_collateral := get_backing_collateral vault_id in
  let* current_nomination := lift (Amount.checked_sub backing_collateral vault_collateral) in
  let* new_vault_collateral := lift (Amount.checked_sub vault_collateral a) in
  let* max_nomination_after_withdrawal :=
    get_max_nominatable_collateral new_vault_collateral (currencies vault_id) in
  lift (Amount.le current_nomination max_nomination_after_withdrawal).

Definition is_allowed_to_withdraw_collateral (vault_id : VaultId) (a : Amount) : M Chain bool :=
  let* vault := get_rich_vault_from_id vault_id in
  let* backing := get_backing_collateral vault_id in
  match Amount.checked_sub backing a with
  | Ok new_collateral =>
      let* backed := lift (RichVault.backed_tokens vault) in
      let* is_below_threshold :=
        is_collateral_below_vault_secure_threshold new_collateral backed vault in
      ret (negb is_below_threshold)
  | Err (Arithmetic Underflow) => ret false
  | Err e => throw e
  | Panic => lift Panic
  end.

Definition try_withdraw_collateral (vault_id : VaultId) (a : Amount) : M Chain unit :=
  let* allowed := is_allowed_to_withdraw_collateral vault_id a in
  ensure allowed vault_registry.InsufficientCollateral ;;;
  let* preserved := is_max_nomination_ratio_preserved vault_id a in
  ensure preserved vault_registry.MaxNominationRatioViolation ;;;
  force_withdraw_collateral vault_id a.

(** ** Token counters *)

Definition try_increase_to_be_issued_tokens (vault_id : VaultId) (tokens : Amount)
  : M Chain unit :=
  let* vault := get_active_rich_vault_from_id vault_id in
  let* issuable := issuable_tokens vault in
  let* enough := lift (Amount.ge issuable tokens) in
  ensure enough vault_registry.ExceedingVaultLimit ;;;
  RichVault.request_issue_tokens vault tokens ;;;
  ret tt.

Definition requestable_to_be_replaced_tokens (vault_id : VaultId) : M Chain Amount :=
  let* vault := get_active_rich_vault_from_id vault_id in
  let* x := lift (Amount.checked_sub (RichVault.issued_tokens vault)
                    (RichVault.to_be_replaced_tokens vault)) in
  lift (Amount.checked_sub x (RichVault.to_be_redeemed_tokens vault)).

Definition try_increase_to_be_replaced_tokens (vault_id : VaultId) (tokens : Amount)
  : M Chain Amount :=
  let* vault := get_active_rich_vault_from_id vault_id in
  let* new_to_be_replaced :=
    lift (Amount.checked_add (RichVault.to_be_replaced_tokens vault) tokens) in
  let* total_decreasing_tokens :=
    lift (Amount.checked_add new_to_be_replaced (RichVault.to_be_redeemed_tokens vault)) in
  let* enough := lift (Amount.le total_decreasing_tokens (RichVault.issued_tokens vault)) in
  ensure enough vault_registry.InsufficientTokensCommitted ;;;
  RichVault.set_to_be_replaced_amount vault new_to_be_replaced ;;;
  ret new_to_be_replaced.

Definition decrease_to_be_replaced_tokens (vault_id : VaultId) (tokens : Amount)
  : M Chain (Amount * Amount) :=
  let* vault := get_rich_vault_from_id vault_id in
  let initial_to_be_replaced :=
    Amount.new (to_be_replaced_tokens vault) (wrapped_currency vault_id) in
  let initial_griefing_collateral :=
    Amount.new (replace_collateral vault) GetGriefingCollateralCurrencyId in
  let* used_tokens := lift (Amount.min tokens initial_to_be_replaced) in
  let* used_collateral := lift (calculate_collateral initial_griefing_collateral used_tokens
                                  initial_to_be_replaced) in
  let* used_collateral := lift (Amount.min used_collateral initial_griefing_collateral) in
  let* new_to_be_replaced := lift (Amount.checked_sub initial_to_be_replaced used_tokens) in
  RichVault.set_to_be_replaced_amount vault new_to_be_replaced ;;;
  ret (used_tokens, used_collateral).

Definition decrease_to_be_issued_tokens (vault_id : VaultId) (tokens : Amount) : M Chain unit :=
  let* vault := get_rich_vault_from_id vault_id in
  RichVault.cancel_issue_tokens vault tokens ;;;
  ret tt.

Definition issue_tokens (vault_id : VaultId) (tokens : Amount) : M Chain unit :=
  let* vault := get_rich_vault_from_id vault_id in
  RichVault.execute_issue_tokens vault tokens ;;;
  ret tt.

Definition try_increase_to_be_redeemed_tokens (vault_id : VaultId) (tokens : Amount)
  : M Chain unit :=
  let* vault := get_active_rich_vault_from_id vault_id in
  let* redeemable := lift (Amount.checked_sub (RichVault.issued_tokens vault)
                             (RichVault.to_be_redeemed_tokens vault)) in
  let* enough := lift (Amount.ge redeemable tokens) in
  ensure enough vault_registry.InsufficientTokensCommitted ;;;
  RichVault.request_redeem_tokens vault tokens ;;;
  ret tt.

Definition decrease_to_be_redeemed_tokens (vault_id : VaultId) (tokens : Amount) : M Chain unit :=
  let* vault := get_rich_vault_from_id vault_id in
  RichVault.cancel_redeem_tokens vault tokens ;;;
  ret tt.

Definition decrease_tokens (vault_id : VaultId) (user_id : AccountId) (tokens : Amount)
  : M Chain unit :=
  let* vault := get_rich_vault_from_id vault_id in
  RichVault.execute_redeem_tokens vault tokens ;;;
  ret tt.

Definition decrease_liquidated_collateral (vault_id : VaultId) (a : Amount) : M Chain unit :=
  let* vault := get_rich_vault_from_id vault_id in
  RichVault.decrease_liquidated_collateral vault a ;;;
  ret tt.

Definition get_liquidated_collateral (vault_id : VaultId) : M Chain Amount :=
  let* vault := get_vault_from_id vault_id in
  ret (Amount.new (liquidated_collateral vault) (collateral (currencies vault_id))).

Definition get_free_redeemable_tokens (vault_id : VaultId) : M Chain Amount :=
  let* vault := get_rich_vault_from_id vault_id in
  lift (RichVault.freely_redeemable_tokens vault).

Definition redeem_tokens (vault_id : VaultId) (tokens premium : Amount) (redeemer_id : AccountId)
  : M Chain unit :=
  let* vault := get_rich_vault_from_id vault_id in
  let to_be_redeemed_tokens := RichVault.to_be_redeemed_tokens vault in
  let* vault := RichVault.execute_redeem_tokens vault tokens in
  if negb (is_liquidated vault) then
    if Amount.is_zero premium then ret tt
    else transfer_funds (Collateral vault_id) (FreeBalance redeemer_id) premium
  else
    let* to_be_released := lift (calculate_collateral (RichVault.liquidated_collateral vault)
                                   tokens to_be_redeemed_tokens) in
    decrease_total_backing_collateral (currencies vault_id) to_be_released ;;;
    RichVault.decrease_liquidated_collateral vault to_be_released ;;;
    on_ledger (Amount.unlock_on to_be_released (account_id vault_id)).

Definition redeem_tokens_liquidation (c : CurrencyId) (redeemer_id : AccountId)
    (amount_wrapped : Amount) : M Chain unit :=
  let cp := mkPair c (currency_id amount_wrapped) in
  let* liquidation_vault := get_rich_liquidation_vault cp in
  let* redeemable := lift (RichSystemVault.redeemable_tokens liquidation_vault) in
  let* enough := lift (Amount.ge redeemable amount_wrapped) in
  ensure enough vault_registry.InsufficientTokensCommitted ;;;
  let source_liquidation_vault := FromLiquidationVault cp in
  let* available := current_balance source_liquidation_vault c in
  let* backed := lift (RichSystemVault.to_be_backed_tokens liquidation_vault) in
  let* to_transfer := lift (calculate_collateral available amount_wrapped backed) in
  transfer_funds source_liquidation_vault (FreeBalance redeemer_id) to_transfer ;;;
  let* liquidation_vault := get_rich_liquidation_vault cp in
  RichSystemVault.burn_issued liquidation_vault amount_wrapped ;;;
  ret tt.

Definition replace_tokens (old_vault_id new_vault_id : VaultId) (tokens collateral : Amount)
  : M Chain unit :=
  let* old_vault := get_rich_vault_from_id old_vault_id in
  let* new_vault := get_rich_vault_from_id new_vault_id in
  let* old_vault :=
    if is_liquidated old_vault then
      let* to_be_released :=
        lift (calculate_collateral (RichVault.liquidated_collateral old_vault) tokens
                (RichVault.to_be_redeemed_tokens old_vault)) in
      let* old_vault := RichVault.decrease_liquidated_collateral old_vault to_be_released in
      pool_deposit_collateral old_vault_id (account_id old_vault_id) to_be_released ;;;
      ret old_vault
    else ret old_vault in
  RichVault.execute_redeem_tokens old_vault tokens ;;;
  RichVault.execute_issue_tokens new_vault tokens ;;;
  ret tt.

Definition cancel_replace_tokens (old_vault_id new_vault_id : VaultId) (tokens : Amount)
  : M Chain unit :=
  let* old_vault := get_rich_vault_from_id old_vault_id in
  let* new_vault := get_rich_vault_from_id new_vault_id in
  let* old_vault :=
    if is_liquidated old_vault then
      let* to_be_transferred :=
        lift (calculate_collateral (RichVault.liquidated_collateral old_vault) tokens
                (RichVault.to_be_redeemed_tokens old_vault)) in
      let* old_vault := RichVault.decrease_liquidated_collateral old_vault to_be_transferred in
      transfer_funds (LiquidatedCollateral old_vault_id)
        (FromLiquidationVault (currencies old_vault_id)) to_be_transferred ;;;
      ret old_vault
    else ret old_vault in
  RichVault.cancel_redeem_tokens old_vault tokens ;;;
  RichVault.cancel_issue_tokens new_vault tokens ;;;
  ret tt.

Definition withdraw_replace_request (vault_id : VaultId) (a : Amount) : M Chain (Amount * Amount) :=
  let* withdrawn := decrease_to_be_replaced_tokens vault_id a in
  let '(withdrawn_tokens, to_withdraw_collateral) := withdrawn in
  transfer_funds (AvailableReplaceCollateral vault_id) (FreeBalance (account_id vault_id))
    to_withdraw_collateral ;;;
  ret (withdrawn_tokens, to_withdraw_collateral).

(** ** Liquidation *)

Definition slash_for_to_be_redeemed (self : Vault) (a : Amount) : M Chain Vault :=
  let vault_id := id self in
  let* own := RichVault.get_vault_collateral self in
  let* collateral := lift (Amount.min own a) in
  pool_withdraw_collateral vault_id (account_id vault_id) collateral None ;;;
  RichVault.increase_liquidated_collateral self collateral.

Definition slash_to_liquidation_vault (self : Vault) (a : Amount) : M Chain unit :=
  let vault_id := id self in
  let* collateral := RichVault.get_vault_collateral self in
  let '(to_withdraw, to_slash) :=
    match Amount.checked_sub a collateral with
    | Ok leftover => (collateral, Some leftover)
    | _ => (a, None)
    end in
  pool_withdraw_collateral vault_id (account_id vault_id) to_withdraw None ;;;
  (match to_slash with
   | Some to_slash =>
       on_staking (staking_slash_stake GetNativeCurrencyId vault_id (amount to_slash))
   | None => ret tt
   end) ;;;
  transfer_funds (LiquidatedCollateral vault_id) (FromLiquidationVault (currencies vault_id)) a.

Definition liquidate (self : Vault) : M Chain (Amount * Vault) :=
  let vault_id := id self in
  let* t := gets (fun s => LiquidationCollateralThreshold (registry s) !! currencies (id self)) in
  let* threshold := lift (ok_or t vault_registry.LiquidationCollateralThresholdNotSet) in
  let* liquidated_collateral := RichVault.get_used_collateral self threshold in
  withdraw_replace_request (id self) (RichVault.to_be_replaced_tokens self) ;;;
  let* self := get_rich_vault_from_id vault_id in
  let* collateral_tokens := lift (RichVault.backed_tokens self) in
  let* excluding := lift (Amount.checked_sub collateral_tokens (RichVault.to_be_redeemed_tokens self)) in
  let* liquidated_collateral_excluding_to_be_redeemed :=
    lift (calculate_collateral liquidated_collateral excluding collateral_tokens) in
  let* collateral_for_to_be_redeemed :=
    lift (Amount.saturating_sub liquidated_collateral
            liquidated_collateral_excluding_to_be_redeemed) in
  let* self := slash_for_to_be_redeemed self collateral_for_to_be_redeemed in
  slash_to_liquidation_vault self liquidated_collateral_excluding_to_be_redeemed ;;;
  let* liquidation_vault := get_rich_liquidation_vault (currencies (id self)) in
  let* liquidation_vault :=
    RichSystemVault.increase_issued liquidation_vault (RichVault.issued_tokens self) in
  let* liquidation_vault :=
    RichSystemVault.increase_to_be_issued liquidation_vault (RichVault.to_be_issued_tokens self) in
  let* liquidation_vault :=
    RichSystemVault.increase_to_be_redeemed liquidation_vault
      (RichVault.to_be_redeemed_tokens self) in
  let* self := RichVault.update (set_to_be_issued_tokens 0 (set_issued_tokens 0
                 (set_vault_status Liquidated self))) in
  ret (liquidated_collateral_excluding_to_be_redeemed, self).

Definition liquidate_vault (vault_id : VaultId) : M Chain Amount :=
  let* vault := get_active_rich_vault_from_id vault_id in
  let* backing_collateral := RichVault.get_total_collateral vault in
  let* result := liquidate vault in
  ret (fst result).

(** ** Bans *)

(** [height + punishment_delay] is a plain [u32] addition. *)
Definition ban_vault (vault_id : VaultId) : M Chain unit :=
  let* height := in_security active_block_number in
  let* vault := get_active_rich_vault_from_id vault_id in
  let* delay := gets (fun s => PunishmentDelay (registry s)) in
  let banned_until := u32_wrapping_add height delay in
  RichVault.ban_until vault banned_until ;;;
  ret tt.

Definition _ensure_not_banned (vault_id : VaultId) : M Chain unit :=
  let* vault := get_active_rich_vault_from_id vault_id in
  RichVault.ensure_not_banned vault.

(** ** Registration *)

Definition contains_key {K V} `{Countable K} (m : VaultRegistryStorage -> gmap K V) (k : K)
  : M Chain bool := gets (fun s => bool_decide (is_Some (m (registry s) !! k))).

Definition _register_vault (vault_id : VaultId) (collateral : Balance) : M Chain unit :=
  let* c := contains_key SecureCollateralThreshold (currencies vault_id) in
  ensure c vault_registry.SecureCollateralThresholdNotSet ;;;
  let* c := contains_key PremiumRedeemThreshold (currencies vault_id) in
  ensure c vault_registry.PremiumRedeemThresholdNotSet ;;;
  let* c := contains_key LiquidationCollateralThreshold (currencies vault_id) in
  ensure c vault_registry.LiquidationCollateralThresholdNotSet ;;;
  let* c := contains_key MinimumCollateralVault (collateral_currency vault_id) in
  ensure c vault_registry.MinimumCollateralNotSet ;;;
  let* c := contains_key SystemCollateralCeiling (currencies vault_id) in
  ensure c vault_registry.CeilingNotSet ;;;
  get_stellar_public_key (account_id vault_id) ;;;
  let collateral_currency := collateral_currency vault_id in
  let a := Amount.new collateral collateral_currency in
  let* minimum := get_minimum_collateral_vault collateral_currency in
  let* enough := lift (Amount.ge a minimum) in
  ensure enough vault_registry.InsufficientVaultCollateralAmount ;;;
  let* exists_ := vault_exists vault_id in
  ensure (negb exists_) vault_registry.VaultAlreadyRegistered ;;;
  insert_vault vault_id (vault_new vault_id) ;;;
  try_deposit_collateral vault_id a.

Definition try_set_vault_custom_secure_threshold (vault_id : VaultId) (new_threshold : option Z)
  : M Chain unit :=
  (match new_threshold with
   | Some some_new_threshold =>
       let* t := gets (fun s => SecureCollateralThreshold (registry s) !! currencies vault_id) in
       let* global_threshold := lift (ok_or t vault_registry.GlobalThresholdNotSet) in
       ensure (global_threshold <? some_new_threshold)
         vault_registry.ThresholdNotAboveGlobalThreshold
   | None => ret tt
   end) ;;;
  let* vault := get_rich_vault_from_id vault_id in
  RichVault.set_custom_secure_threshold vault new_threshold ;;;
  ret tt.

(** ** Queries *)

Definition get_issuable_tokens_from_vault (vault_id : VaultId) : M Chain Amount :=
  let* vault := get_active_rich_vault_from_id vault_id in
  if negb (accepts_new_issues vault)
  then ret (Amount.new 0 (collateral (currencies vault_id)))
  else issuable_tokens vault.

Definition ensure_accepting_new_issues (vault_id : VaultId) : M Chain unit :=
  let* vault := get_active_rich_vault_from_id vault_id in
  ensure (accepts_new_issues vault) vault_registry.VaultNotAcceptingIssueRequests.

Definition get_to_be_issued_tokens_from_vault (vault_id : VaultId) : M Chain Amount :=
  let* vault := get_active_rich_vault_from_id vault_id in
  ret (RichVault.to_be_issued_tokens vault).

Definition get_collateralization_from_vault_and_collateral (vault_id : VaultId)
    (collateral : Amount) (only_issued : bool) : M Chain Z :=
  let* vault := get_active_rich_vault_from_id vault_id in
  let* issued_tokens := if only_issued then ret (RichVault.issued_tokens vault)
                        else lift (RichVault.backed_tokens vault) in
  ensure (negb (Amount.is_zero issued_tokens)) vault_registry.NoTokensIssued ;;;
  let* collateral_in_wrapped := convert_to collateral (wrapped_currency vault_id) in
  lift (Amount.ratio collateral_in_wrapped issued_tokens).

Definition get_collateralization_from_vault (vault_id : VaultId) (only_issued : bool) : M Chain Z :=
  let* vault := get_active_rich_vault_from_id vault_id in
  let* collateral := RichVault.get_total_collateral vault in
  get_collateralization_from_vault_and_collateral vault_id collateral only_issued.

Definition get_required_collateral_for_wrapped (amount_wrapped : Amount) (c : CurrencyId)
  : M Chain Amount :=
  let cp := mkPair c (currency_id amount_wrapped) in
  let* t := gets (fun s => SecureCollateralThreshold (registry s) !! cp) in
  let* threshold := lift (ok_or t vault_registry.SecureCollateralThresholdNotSet) in
  get_required_collateral_for_wrapped_with_threshold amount_wrapped threshold c.

Definition get_required_collateral_for_vault (vault_id : VaultId) : M Chain Amount :=
  let* vault := get_active_rich_vault_from_id vault_id in
  let* issued_tokens := lift (RichVault.backed_tokens vault) in
  let* threshold := RichVault.get_secure_threshold vault in
  get_required_collateral_for_wrapped_with_threshold issued_tokens threshold
    (collateral (currencies vault_id)).

(** The storage iterator's order is unspecified; here it is the order of the
    map's entries. *)
Definition undercollateralized_vaults : M Chain (list VaultId) :=
  let* entries := gets (fun s => map_to_list (Vaults (registry s))) in
  fold_m (fun acc '(vault_id, vault) =>
    let* t := gets (fun s => LiquidationCollateralThreshold (registry s) !! currencies (id vault)) in
    match t with
    | Some liquidation_threshold =>
        let* below := attempt (is_vault_below_liquidation_threshold vault liquidation_threshold) in
        ret (match below with Ok true => acc ++ [vault_id] | _ => acc end)
    | None => ret acc
    end) entries [].

Definition get_vaults_by_account_id (account : AccountId) : M Chain (list VaultId) :=
  let* entries := gets (fun s => map_to_list (Vaults (registry s))) in
  ret (map fst (List.filter (fun '(vault_id, _) => bool_decide (account_id vault_id = account)) entries)).

(** ** Extrinsics *)

Definition register_vault (ensure_signed : outcome AccountId) (cp : VaultCurrencyPair)
    (collateral_ : Balance) : M Chain unit :=
  transactional (
    let* account_id := lift ensure_signed in
    _register_vault (new_vault_id account_id (collateral cp) (wrapped cp)) collateral_).

Definition deposit_collateral (ensure_signed : outcome AccountId) (cp : VaultCurrencyPair)
    (a : Balance) : M Chain unit :=
  transactional (
    let* account_id := lift ensure_signed in
    let vault_id := new_vault_id account_id (collateral cp) (wrapped cp) in
    let* vault := get_active_rich_vault_from_id vault_id in
    try_deposit_collateral vault_id (Amount.new a (collateral cp)) ;;;
    RichVault.get_total_collateral vault ;;;
    RichVault.get_free_collateral vault ;;;
    ret tt).

Definition withdraw_collateral (ensure_signed : outcome AccountId) (cp : VaultCurrencyPair)
    (a : Balance) : M Chain unit :=
  transactional (
    let* account_id := lift ensure_signed in
    let vault_id := new_vault_id account_id (collateral cp) (wrapped cp) in
    let* vault := get_rich_vault_from_id vault_id in
    try_withdraw_collateral vault_id (Amount.new a (collateral cp)) ;;;
    RichVault.get_total_collateral vault ;;;
    ret tt).

Definition put_public_key (k : AccountId) (x : StellarPublicKeyRaw) (r : VaultRegistryStorage)
  : VaultRegistryStorage :=
  let '(mkRegistry a b c d e f g h i j) := r in mkRegistry a b c d e f g h (<[k := x]> i) j.

Definition register_public_key (ensure_signed : outcome AccountId) (key : StellarPublicKeyRaw)
  : M Chain unit :=
  transactional (
    let* account_id := lift ensure_signed in
    let* k := gets (fun s => VaultStellarPublicKey (registry s) !! account_id) in
    ensure (negb (bool_decide (is_Some k))) vault_registry.PublicKeyAlreadyRegistered ;;;
    on_registry (modify (put_public_key account_id key))).

Definition accept_new_issues (ensure_signed : outcome AccountId) (cp : VaultCurrencyPair)
    (accept : bool) : M Chain unit :=
  transactional (
    let* account_id := lift ensure_signed in
    let vault_id := new_vault_id account_id (collateral cp) (wrapped cp) in
    let* vault := get_active_rich_vault_from_id vault_id in
    RichVault.set_accept_new_issues vault accept ;;;
    pool_on_vault_settings_change vault_id).

Definition set_custom_secure_threshold (ensure_signed : outcome AccountId)
    (cp : VaultCurrencyPair) (custom_threshold : option Z) : M Chain unit :=
  transactional (
    let* account_id := lift ensure_signed in
    try_set_vault_custom_secure_threshold (new_vault_id account_id (collateral cp) (wrapped cp))
      custom_threshold).

Definition report_undercollateralized_vault (vault_id : VaultId) : M Chain unit :=
  transactional (
    let* vault := get_vault_from_id vault_id in
    let* t := gets (fun s => LiquidationCollateralThreshold (registry s) !! currencies vault_id) in
    let* liquidation_threshold :=
      lift (ok_or t vault_registry.LiquidationCollateralThresholdNotSet) in
    let* below := is_vault_below_liquidation_threshold vault liquidation_threshold in
    if below then liquidate_vault vault_id ;;; ret tt
    else throw vault_registry.VaultNotBelowLiquidationThreshold).

Definition set_minimum_collateral (ensure_root : outcome unit) (c : CurrencyId) (minimum : Balance)
  : M Chain unit :=
  transactional (
    lift ensure_root ;;;
    on_registry (modify (fun '(mkRegistry a b c' d e f g h i j) =>
      mkRegistry (<[c := minimum]> a) b c' d e f g h i j))).

Definition set_system_collateral_ceiling (ensure_root : outcome unit) (cp : VaultCurrencyPair)
    (ceiling : Balance) : M Chain unit :=
  transactional (
    lift ensure_root ;;;
    on_registry (modify (fun '(mkRegistry a b c d e f g h i j) =>
      mkRegistry a b (<[cp := ceiling]> c) d e f g h i j))).

Definition set_secure_collateral_threshold_ (ensure_root : outcome unit) (cp : VaultCurrencyPair)
    (threshold : Z) : M Chain unit :=
  transactional (
    lift ensure_root ;;;
    on_registry (modify (fun '(mkRegistry a b c d e f g h i j) =>
      mkRegistry a b c (<[cp := threshold]> d) e f g h i j)) ;;;
    on_staking (add_reward_currency StakingMaxRewardCurrencies (wrapped cp))).

Definition set_premium_redeem_threshold (ensure_root : outcome unit) (cp : VaultCurrencyPair)
    (threshold : Z) : M Chain unit :=
  transactional (
    lift ensure_root ;;;
    on_registry (modify (fun '(mkRegistry a b c d e f g h i j) =>
      mkRegistry a b c d (<[cp := threshold]> e) f g h i j))).

Definition set_liquidation_collateral_threshold (ensure_root : outcome unit)
    (cp : VaultCurrencyPair) (threshold : Z) : M Chain unit :=
  transactional (
    lift ensure_root ;;;
    on_registry (modify (fun '(mkRegistry a b c d e f g h i j) =>
      mkRegistry a b c d e (<[cp := threshold]> f) g h i j))).

Definition recover_vault_id (ensure_signed : outcome AccountId) (cp : VaultCurrencyPair)
  : M Chain unit :=
  transactional (
    let* account_id := lift ensure_signed in
    let vault_id := new_vault_id account_id (collateral cp) (wrapped cp) in
    let* liquidated := is_vault_liquidated vault_id in
    ensure liquidated vault_registry.VaultNotRecoverable ;;;
    let* vault := get_rich_vault_from_id vault_id in
    ensure (Amount.is_zero (RichVault.to_be_redeemed_tokens vault))
      vault_registry.VaultNotRecoverable ;;;
    RichVault.set_accept_new_issues vault true ;;;
    ret tt).

Definition set_punishment_delay (ensure_root : outcome unit) (punishment_delay : BlockNumber)
  : M Chain unit :=
  transactional (
    lift ensure_root ;;;
    on_registry (modify (fun '(mkRegistry a b c d e f g h i j) =>
      mkRegistry a punishment_delay c d e f g h i j))).

End funds.
