(* ===== verification/VaultFrames.v ===== *)
(** * What the vault registry does not touch

    The functions of the vault-registry, reward-distribution and fee pallets
    write the ledger, the registry and the pools only, and read the oracle's and
    security's items.  [OuterFrame f] says that the observation [f] does not
    depend on the former; every such function then preserves [f], whether it
    succeeds or not.  The request pallets' storages are such observations, and
    so is the nonce of the security pallet.  [OracleFrame f] is for functions
    that write the oracle's or security's items too. *)

From S2P Require Import Prelude FixedPoint Primitives Currency Security Oracle Staking.
From S2P Require Import PooledRewards StellarRelay Chain RewardDistribution Fee VaultRegistry.

Class OuterFrame `{RT : Runtime} {B} (f : Chain -> B) : Prop := {
  of_ledger x s : f (set_ledger x s) = f s;
  of_registry x s : f (set_registry x s) = f s;
  of_staking x s : f (set_staking x s) = f s;
  of_pooled x s : f (set_pooled x s) = f s;
  of_distribution x s : f (set_distribution x s) = f s;
}.

Class OracleFrame `{RT : Runtime} {B} (f : Chain -> B) : Prop := {
  of_oracle x s : f (set_oracle x s) = f s;
}.

Create HintDb outer.

Ltac outer_step :=
  match goal with
  | |- forall _, _ => intro
  | |- preserves _ (match ?x with _ => _ end) => destruct x
  | |- preserves _ ((match ?x with _ => _ end) _) => destruct x
  | |- preserves _ _ => solve [eauto 2 with outer]
  | |- preserves _ (bind _ _) => apply preserves_bind
  | |- preserves _ (attempt _) => apply preserves_attempt
  | |- preserves _ (map_err _ _) => apply preserves_map_err
  | |- preserves _ (transactional _) => apply preserves_transactional
  | |- preserves _ (for_each _ _) => apply preserves_for_each
  | |- preserves _ (fold_m _ _ _) => apply preserves_fold_m
  end.
Ltac outer := repeat outer_step.

#[export] Hint Resolve preserves_ret preserves_throw preserves_lift preserves_gets
  preserves_ensure : outer.

Section frames.
Context `{RT : Runtime} {B : Type} (f : Chain -> B) {F : OuterFrame f}.

Lemma outer_on_ledger {A} (m : M Ledger A) : preserves f (on_ledger m).
Proof. apply preserves_zoom, F. Qed.
Lemma outer_on_registry {A} (m : M VaultRegistryStorage A) : preserves f (on_registry m).
Proof. apply preserves_zoom, F. Qed.
Lemma outer_on_staking {A} (m : M StakingState A) : preserves f (on_staking m).
Proof. apply preserves_zoom, F. Qed.
Lemma outer_on_pooled {A} (m : M PoolState A) : preserves f (on_pooled m).
Proof. apply preserves_zoom, F. Qed.
Lemma outer_reads {A} (m : M OracleState A) :
  preserves (fun s => s) m -> preserves f (on_oracle m).
Proof.
  intros Hm s. unfold on_oracle, zoom. specialize (Hm (oracle_st s)).
  destruct (m (oracle_st s)) as [o x]. simpl in *. subst x. by destruct s.
Qed.
Lemma outer_on_distribution {A} (m : M RewardDistributionStorage A) :
  preserves f (on_distribution m).
Proof. apply preserves_zoom, F. Qed.
Lemma reads_security {A} (m : M SecurityState A) :
  preserves (fun s => s) m -> preserves (fun s => s) (on_security m).
Proof.
  intros Hm s. unfold on_security, zoom. specialize (Hm (sec s)).
  destruct (m (sec s)) as [o x]. simpl in *. subst x. by destruct s.
Qed.
Lemma reads_price k : preserves (fun s => s) (get_price k).
Proof.
  unfold get_price. apply preserves_bind; [apply reads_security|intros ?; solve_frame].
  unfold ensure_parachain_status_running. solve_frame.
Qed.
Lemma outer_in_security :
  (preserves f (in_security active_block_number)) /\
  (preserves f (in_security ensure_parachain_status_running)) /\
  (forall x y, preserves f (in_security (parachain_block_expired x y))).
Proof.
  unfold in_security. split_and!; intros; apply outer_reads, reads_security;
    unfold active_block_number, ensure_parachain_status_running, parachain_block_expired,
    active_block_number; solve_frame.
Qed.
Lemma outer_convert_to a c : preserves f (convert_to a c).
Proof. pose proof reads_price. apply outer_reads. unfold Oracle.convert. solve_frame. Qed.
Lemma outer_to_usd a c : preserves f (on_oracle (currency_to_usd currency_decimals a c)).
Proof. pose proof reads_price. apply outer_reads. unfold currency_to_usd. solve_frame. Qed.
#[local] Hint Resolve outer_on_ledger outer_on_registry outer_on_staking outer_on_pooled
  outer_on_distribution outer_convert_to outer_to_usd : outer.
#[local] Hint Extern 1 (preserves _ (in_security _)) => apply outer_in_security : outer.

Lemma outer_get_vault_from_id k : preserves f (get_vault_from_id k).
Proof. unfold get_vault_from_id. outer. Qed.
#[local] Hint Resolve outer_get_vault_from_id : outer.
Lemma outer_get_rich_vault_from_id k : preserves f (get_rich_vault_from_id k).
Proof. unfold get_rich_vault_from_id, get_rich_vault_from_id. outer. Qed.
#[local] Hint Resolve outer_get_rich_vault_from_id : outer.
Lemma outer_get_active_vault_from_id k : preserves f (get_active_vault_from_id k).
Proof. unfold get_active_vault_from_id. outer. Qed.
#[local] Hint Resolve outer_get_active_vault_from_id : outer.
Lemma outer_get_active_rich_vault_from_id k : preserves f (get_active_rich_vault_from_id k).
Proof. unfold get_active_rich_vault_from_id. outer. Qed.
#[local] Hint Resolve outer_get_active_rich_vault_from_id : outer.
Lemma outer_vault_exists k : preserves f (vault_exists k).
Proof. unfold vault_exists. outer. Qed.
#[local] Hint Resolve outer_vault_exists : outer.
Lemma outer_get_liquidation_vault p : preserves f (get_liquidation_vault p).
Proof. unfold get_liquidation_vault. outer. Qed.
#[local] Hint Resolve outer_get_liquidation_vault : outer.
Lemma outer_get_rich_liquidation_vault p : preserves f (get_rich_liquidation_vault p).
Proof. unfold get_rich_liquidation_vault. outer. Qed.
#[local] Hint Resolve outer_get_rich_liquidation_vault : outer.
Lemma outer_get_backing_collateral k : preserves f (get_backing_collateral k).
Proof. unfold get_backing_collateral. outer. Qed.
#[local] Hint Resolve outer_get_backing_collateral : outer.
Lemma outer_compute_collateral k : preserves f (compute_collateral k).
Proof. unfold compute_collateral. outer. Qed.
#[local] Hint Resolve outer_compute_collateral : outer.
Lemma outer_is_vault_liquidated k : preserves f (is_vault_liquidated k).
Proof. unfold is_vault_liquidated. outer. Qed.
#[local] Hint Resolve outer_is_vault_liquidated : outer.
Lemma outer_get_stellar_public_key a : preserves f (get_stellar_public_key a).
Proof. unfold get_stellar_public_key. outer. Qed.
#[local] Hint Resolve outer_get_stellar_public_key : outer.
Lemma outer_system_update v : preserves f (RichSystemVault.update v).
Proof. unfold RichSystemVault.update. outer. Qed.
#[local] Hint Resolve outer_system_update : outer.
Lemma outer_vault_update v : preserves f (RichVault.update v).
Proof. unfold RichVault.update, insert_vault. outer. Qed.
#[local] Hint Resolve outer_vault_update : outer.
Lemma outer_vault_increase_issued v t : preserves f (RichVault.increase_issued v t).
Proof. unfold RichVault.increase_issued, RichSystemVault.increase_issued. outer. Qed.
#[local] Hint Resolve outer_vault_increase_issued : outer.
Lemma outer_vault_increase_to_be_issued v t : preserves f (RichVault.increase_to_be_issued v t).
Proof. unfold RichVault.increase_to_be_issued. outer. Qed.
#[local] Hint Resolve outer_vault_increase_to_be_issued : outer.
Lemma outer_vault_increase_to_be_redeemed v t : preserves f (RichVault.increase_to_be_redeemed v t).
Proof. unfold RichVault.increase_to_be_redeemed. outer. Qed.
#[local] Hint Resolve outer_vault_increase_to_be_redeemed : outer.
Lemma outer_vault_decrease_issued v t : preserves f (RichVault.decrease_issued v t).
Proof. unfold RichVault.decrease_issued, RichSystemVault.decrease_issued. outer. Qed.
#[local] Hint Resolve outer_vault_decrease_issued : outer.
Lemma outer_vault_decrease_to_be_issued v t : preserves f (RichVault.decrease_to_be_issued v t).
Proof. unfold RichVault.decrease_to_be_issued, RichSystemVault.decrease_to_be_issued. outer. Qed.
#[local] Hint Resolve outer_vault_decrease_to_be_issued : outer.
Lemma outer_vault_decrease_to_be_redeemed v t : preserves f (RichVault.decrease_to_be_redeemed v t).
Proof. unfold RichVault.decrease_to_be_redeemed, RichSystemVault.decrease_to_be_redeemed. outer. Qed.
#[local] Hint Resolve outer_vault_decrease_to_be_redeemed : outer.
Lemma outer_vault_decrease_liquidated_collateral v t : preserves f (RichVault.decrease_liquidated_collateral v t).
Proof. unfold RichVault.decrease_liquidated_collateral. outer. Qed.
#[local] Hint Resolve outer_vault_decrease_liquidated_collateral : outer.
Lemma outer_vault_increase_liquidated_collateral v t : preserves f (RichVault.increase_liquidated_collateral v t).
Proof. unfold RichVault.increase_liquidated_collateral. outer. Qed.
#[local] Hint Resolve outer_vault_increase_liquidated_collateral : outer.
Lemma outer_vault_is_banned v : preserves f (RichVault.is_banned v).
Proof. unfold RichVault.is_banned. outer. Qed.
#[local] Hint Resolve outer_vault_is_banned : outer.
Lemma outer_vault_get_secure_threshold v : preserves f (RichVault.get_secure_threshold v).
Proof. unfold RichVault.get_secure_threshold. outer. Qed.
#[local] Hint Resolve outer_vault_get_secure_threshold : outer.
Lemma outer_vault_get_used_collateral v t : preserves f (RichVault.get_used_collateral v t).
Proof. unfold RichVault.get_used_collateral, RichVault.get_total_collateral. outer. Qed.
#[local] Hint Resolve outer_vault_get_used_collateral : outer.
Lemma outer_vault_get_free_collateral v : preserves f (RichVault.get_free_collateral v).
Proof. unfold RichVault.get_free_collateral, RichVault.get_total_collateral. outer. Qed.
#[local] Hint Resolve outer_vault_get_free_collateral : outer.
Lemma outer_calculate_max_wrapped_from_collateral_for_threshold x c t : preserves f (calculate_max_wrapped_from_collateral_for_threshold x c t).
Proof. unfold calculate_max_wrapped_from_collateral_for_threshold. outer. Qed.
#[local] Hint Resolve outer_calculate_max_wrapped_from_collateral_for_threshold : outer.
Lemma outer_is_collateral_below_threshold x y t : preserves f (is_collateral_below_threshold x y t).
Proof. unfold is_collateral_below_threshold. outer. Qed.
#[local] Hint Resolve outer_is_collateral_below_threshold : outer.
Lemma outer_is_vault_below_threshold k t : preserves f (is_vault_below_threshold k t).
Proof. unfold is_vault_below_threshold. outer. Qed.
#[local] Hint Resolve outer_is_vault_below_threshold : outer.
Lemma outer_is_vault_below_secure_threshold k : preserves f (is_vault_below_secure_threshold k).
Proof. unfold is_vault_below_secure_threshold. outer. Qed.
#[local] Hint Resolve outer_is_vault_below_secure_threshold : outer.
Lemma outer_is_vault_below_premium_threshold k : preserves f (is_vault_below_premium_threshold k).
Proof. unfold is_vault_below_premium_threshold. outer. Qed.
#[local] Hint Resolve outer_is_vault_below_premium_threshold : outer.
Lemma outer_is_vault_below_liquidation_threshold v t : preserves f (is_vault_below_liquidation_threshold v t).
Proof. unfold is_vault_below_liquidation_threshold. outer. Qed.
#[local] Hint Resolve outer_is_vault_below_liquidation_threshold : outer.
Lemma outer_issuable_tokens v : preserves f (issuable_tokens v).
Proof. unfold issuable_tokens. outer. Qed.
#[local] Hint Resolve outer_issuable_tokens : outer.
Lemma outer_withdraw_all_rewards_from_vault k : preserves f (withdraw_all_rewards_from_vault k).
Proof. unfold withdraw_all_rewards_from_vault, move_reward_to_vault. outer. Qed.
#[local] Hint Resolve outer_withdraw_all_rewards_from_vault : outer.
Lemma outer_pool_update_reward_stake k : preserves f (pool_update_reward_stake k).
Proof. unfold pool_update_reward_stake. outer. Qed.
#[local] Hint Resolve outer_pool_update_reward_stake : outer.
Lemma outer_pool_deposit_collateral k a x : preserves f (pool_deposit_collateral k a x).
Proof. unfold pool_deposit_collateral. outer. Qed.
#[local] Hint Resolve outer_pool_deposit_collateral : outer.
Lemma outer_pool_withdraw_collateral k a x o : preserves f (pool_withdraw_collateral k a x o).
Proof. unfold pool_withdraw_collateral. outer. Qed.
#[local] Hint Resolve outer_pool_withdraw_collateral : outer.
Lemma outer_pool_slash_collateral k x : preserves f (pool_slash_collateral k x).
Proof. unfold pool_slash_collateral. outer. Qed.
#[local] Hint Resolve outer_pool_slash_collateral : outer.
Lemma outer_pool_kick_nominators k : preserves f (pool_kick_nominators k).
Proof. unfold pool_kick_nominators. outer. Qed.
#[local] Hint Resolve outer_pool_kick_nominators : outer.
Lemma outer_pool_on_vault_settings_change k : preserves f (pool_on_vault_settings_change k).
Proof. unfold pool_on_vault_settings_change. outer. Qed.
#[local] Hint Resolve outer_pool_on_vault_settings_change : outer.
Lemma outer_current_balance y c : preserves f (current_balance y c).
Proof. unfold current_balance. outer. Qed.
#[local] Hint Resolve outer_current_balance : outer.
Lemma outer_try_increase_total_backing_collateral p x : preserves f (try_increase_total_backing_collateral p x).
Proof. unfold try_increase_total_backing_collateral, get_total_user_vault_collateral, get_collateral_ceiling. outer. Qed.
#[local] Hint Resolve outer_try_increase_total_backing_collateral : outer.
Lemma outer_decrease_total_backing_collateral p x : preserves f (decrease_total_backing_collateral p x).
Proof. unfold decrease_total_backing_collateral, get_total_user_vault_collateral. outer. Qed.
#[local] Hint Resolve outer_decrease_total_backing_collateral : outer.
Lemma outer_try_deposit_collateral k x : preserves f (try_deposit_collateral k x).
Proof. unfold try_deposit_collateral. outer. Qed.
#[local] Hint Resolve outer_try_deposit_collateral : outer.
Lemma outer_force_withdraw_collateral k x : preserves f (force_withdraw_collateral k x).
Proof. unfold force_withdraw_collateral. outer. Qed.
#[local] Hint Resolve outer_force_withdraw_collateral : outer.
Lemma outer_slash_backing_collateral k x : preserves f (slash_backing_collateral k x).
Proof. unfold slash_backing_collateral. outer. Qed.
#[local] Hint Resolve outer_slash_backing_collateral : outer.
Lemma outer_take_from y x : preserves f (take_from y x).
Proof. unfold take_from, RichVault.decrease_available_replace_collateral, RichVault.decrease_active_replace_collateral, RichSystemVault.decrease_collateral. outer. Qed.
#[local] Hint Resolve outer_take_from : outer.
Lemma outer_give_to y x : preserves f (give_to y x).
Proof. unfold give_to, RichVault.increase_available_replace_collateral, RichVault.increase_active_replace_collateral, RichSystemVault.increase_collateral. outer. Qed.
#[local] Hint Resolve outer_give_to : outer.
Lemma outer_transfer_funds y z x : preserves f (transfer_funds y z x).
Proof. unfold transfer_funds. outer. Qed.
#[local] Hint Resolve outer_transfer_funds : outer.
Lemma outer_transfer_funds_saturated y z x : preserves f (transfer_funds_saturated y z x).
Proof. unfold transfer_funds_saturated. outer. Qed.
#[local] Hint Resolve outer_transfer_funds_saturated : outer.
Lemma outer_get_max_nominatable_collateral x p : preserves f (get_max_nominatable_collateral x p).
Proof. unfold get_max_nominatable_collateral, get_max_nomination_ratio. outer. Qed.
#[local] Hint Resolve outer_get_max_nominatable_collateral : outer.
Lemma outer_is_max_nomination_ratio_preserved k x : preserves f (is_max_nomination_ratio_preserved k x).
Proof. unfold is_max_nomination_ratio_preserved. outer. Qed.
#[local] Hint Resolve outer_is_max_nomination_ratio_preserved : outer.
Lemma outer_is_allowed_to_withdraw_collateral k x : preserves f (is_allowed_to_withdraw_collateral k x).
Proof. unfold is_allowed_to_withdraw_collateral, is_collateral_below_vault_secure_threshold. outer. Qed.
#[local] Hint Resolve outer_is_allowed_to_withdraw_collateral : outer.
Lemma outer_try_withdraw_collateral k x : preserves f (try_withdraw_collateral k x).
Proof. unfold try_withdraw_collateral. outer. Qed.
#[local] Hint Resolve outer_try_withdraw_collateral : outer.
Lemma outer_try_increase_to_be_issued_tokens k x : preserves f (try_increase_to_be_issued_tokens k x).
Proof. unfold try_increase_to_be_issued_tokens, RichVault.request_issue_tokens. outer. Qed.
#[local] Hint Resolve outer_try_increase_to_be_issued_tokens : outer.
Lemma outer_requestable_to_be_replaced_tokens k : preserves f (requestable_to_be_replaced_tokens k).
Proof. unfold requestable_to_be_replaced_tokens. outer. Qed.
#[local] Hint Resolve outer_requestable_to_be_replaced_tokens : outer.
Lemma outer_try_increase_to_be_replaced_tokens k x : preserves f (try_increase_to_be_replaced_tokens k x).
Proof. unfold try_increase_to_be_replaced_tokens, RichVault.set_to_be_replaced_amount. outer. Qed.
#[local] Hint Resolve outer_try_increase_to_be_replaced_tokens : outer.
Lemma outer_decrease_to_be_replaced_tokens k x : preserves f (decrease_to_be_replaced_tokens k x).
Proof. unfold decrease_to_be_replaced_tokens, RichVault.set_to_be_replaced_amount. outer. Qed.
#[local] Hint Resolve outer_decrease_to_be_replaced_tokens : outer.
Lemma outer_decrease_to_be_issued_tokens k x : preserves f (decrease_to_be_issued_tokens k x).
Proof. unfold decrease_to_be_issued_tokens, RichVault.cancel_issue_tokens. outer. Qed.
#[local] Hint Resolve outer_decrease_to_be_issued_tokens : outer.
Lemma outer_issue_tokens k x : preserves f (issue_tokens k x).
Proof. unfold issue_tokens, RichVault.execute_issue_tokens. outer. Qed.
#[local] Hint Resolve outer_issue_tokens : outer.
Lemma outer_try_increase_to_be_redeemed_tokens k x : preserves f (try_increase_to_be_redeemed_tokens k x).
Proof. unfold try_increase_to_be_redeemed_tokens, RichVault.request_redeem_tokens. outer. Qed.
#[local] Hint Resolve outer_try_increase_to_be_redeemed_tokens : outer.
Lemma outer_decrease_to_be_redeemed_tokens k x : preserves f (decrease_to_be_redeemed_tokens k x).
Proof. unfold decrease_to_be_redeemed_tokens, RichVault.cancel_redeem_tokens. outer. Qed.
#[local] Hint Resolve outer_decrease_to_be_redeemed_tokens : outer.
Lemma outer_decrease_tokens k a x : preserves f (decrease_tokens k a x).
Proof. unfold decrease_tokens, RichVault.execute_redeem_tokens. outer. Qed.
#[local] Hint Resolve outer_decrease_tokens : outer.
Lemma outer_decrease_liquidated_collateral k x : preserves f (decrease_liquidated_collateral k x).
Proof. unfold decrease_liquidated_collateral. outer. Qed.
#[local] Hint Resolve outer_decrease_liquidated_collateral : outer.
Lemma outer_get_liquidated_collateral k : preserves f (get_liquidated_collateral k).
Proof. unfold get_liquidated_collateral. outer. Qed.
#[local] Hint Resolve outer_get_liquidated_collateral : outer.
Lemma outer_get_free_redeemable_tokens k : preserves f (get_free_redeemable_tokens k).
Proof. unfold get_free_redeemable_tokens. outer. Qed.
#[local] Hint Resolve outer_get_free_redeemable_tokens : outer.
Lemma outer_redeem_tokens k x x' a : preserves f (redeem_tokens k x x' a).
Proof. unfold redeem_tokens, RichVault.execute_redeem_tokens. outer. Qed.
#[local] Hint Resolve outer_redeem_tokens : outer.
Lemma outer_redeem_tokens_liquidation c a x : preserves f (redeem_tokens_liquidation c a x).
Proof. unfold redeem_tokens_liquidation, RichSystemVault.burn_issued, RichSystemVault.decrease_issued. outer. Qed.
#[local] Hint Resolve outer_redeem_tokens_liquidation : outer.
Lemma outer_replace_tokens k k' x x' : preserves f (replace_tokens k k' x x').
Proof. unfold replace_tokens, RichVault.execute_redeem_tokens, RichVault.execute_issue_tokens. outer. Qed.
#[local] Hint Resolve outer_replace_tokens : outer.
Lemma outer_cancel_replace_tokens k k' x : preserves f (cancel_replace_tokens k k' x).
Proof. unfold cancel_replace_tokens, RichVault.cancel_redeem_tokens, RichVault.cancel_issue_tokens. outer. Qed.
#[local] Hint Resolve outer_cancel_replace_tokens : outer.
Lemma outer_withdraw_replace_request k x : preserves f (withdraw_replace_request k x).
Proof. unfold withdraw_replace_request. outer. Qed.
#[local] Hint Resolve outer_withdraw_replace_request : outer.
Lemma outer_slash_for_to_be_redeemed v x : preserves f (slash_for_to_be_redeemed v x).
Proof. unfold slash_for_to_be_redeemed, RichVault.get_vault_collateral. outer. Qed.
#[local] Hint Resolve outer_slash_for_to_be_redeemed : outer.
Lemma outer_slash_to_liquidation_vault v x : preserves f (slash_to_liquidation_vault v x).
Proof. unfold slash_to_liquidation_vault, RichVault.get_vault_collateral. outer. Qed.
#[local] Hint Resolve outer_slash_to_liquidation_vault : outer.
Lemma outer_liquidate v : preserves f (liquidate v).
Proof. unfold liquidate, RichSystemVault.increase_issued, RichSystemVault.increase_to_be_issued, RichSystemVault.increase_to_be_redeemed. outer. Qed.
#[local] Hint Resolve outer_liquidate : outer.
Lemma outer_liquidate_vault k : preserves f (liquidate_vault k).
Proof. unfold liquidate_vault, RichVault.get_total_collateral. outer. Qed.
#[local] Hint Resolve outer_liquidate_vault : outer.
Lemma outer_ban_vault k : preserves f (ban_vault k).
Proof. unfold ban_vault, RichVault.ban_until. outer. Qed.
#[local] Hint Resolve outer_ban_vault : outer.
Lemma outer_do_ensure_not_banned k : preserves f (_ensure_not_banned k).
Proof. unfold _ensure_not_banned, RichVault.ensure_not_banned. outer. Qed.
#[local] Hint Resolve outer_do_ensure_not_banned : outer.
Lemma outer_do_register_vault k x'' : preserves f (_register_vault k x'').
Proof. unfold _register_vault, contains_key, insert_vault, get_minimum_collateral_vault. outer. Qed.
#[local] Hint Resolve outer_do_register_vault : outer.
Lemma outer_get_issuable_tokens_from_vault k : preserves f (get_issuable_tokens_from_vault k).
Proof. unfold get_issuable_tokens_from_vault. outer. Qed.
#[local] Hint Resolve outer_get_issuable_tokens_from_vault : outer.
Lemma outer_ensure_accepting_new_issues k : preserves f (ensure_accepting_new_issues k).
Proof. unfold ensure_accepting_new_issues. outer. Qed.
#[local] Hint Resolve outer_ensure_accepting_new_issues : outer.
Lemma outer_register_vault o p x'' : preserves f (register_vault o p x'').
Proof. unfold register_vault. outer. Qed.
#[local] Hint Resolve outer_register_vault : outer.
Lemma outer_deposit_collateral o p x'' : preserves f (deposit_collateral o p x'').
Proof. unfold deposit_collateral, RichVault.get_total_collateral. outer. Qed.
#[local] Hint Resolve outer_deposit_collateral : outer.
Lemma outer_withdraw_collateral o p x'' : preserves f (withdraw_collateral o p x'').
Proof. unfold withdraw_collateral, RichVault.get_total_collateral. outer. Qed.
#[local] Hint Resolve outer_withdraw_collateral : outer.
Lemma outer_register_public_key o key : preserves f (register_public_key o key).
Proof. unfold register_public_key. outer. Qed.
#[local] Hint Resolve outer_register_public_key : outer.
Lemma outer_accept_new_issues o p b : preserves f (accept_new_issues o p b).
Proof. unfold accept_new_issues, RichVault.set_accept_new_issues. outer. Qed.
#[local] Hint Resolve outer_accept_new_issues : outer.
Lemma outer_set_custom_secure_threshold o p th : preserves f (set_custom_secure_threshold o p th).
Proof. unfold set_custom_secure_threshold, try_set_vault_custom_secure_threshold, RichVault.set_custom_secure_threshold. outer. Qed.
#[local] Hint Resolve outer_set_custom_secure_threshold : outer.
Lemma outer_report_undercollateralized_vault k : preserves f (report_undercollateralized_vault k).
Proof. unfold report_undercollateralized_vault. outer. Qed.
#[local] Hint Resolve outer_report_undercollateralized_vault : outer.
Lemma outer_set_minimum_collateral o' c x'' : preserves f (set_minimum_collateral o' c x'').
Proof. unfold set_minimum_collateral. outer. Qed.
#[local] Hint Resolve outer_set_minimum_collateral : outer.
Lemma outer_set_system_collateral_ceiling o' p x'' : preserves f (set_system_collateral_ceiling o' p x'').
Proof. unfold set_system_collateral_ceiling. outer. Qed.
#[local] Hint Resolve outer_set_system_collateral_ceiling : outer.
Lemma outer_set_secure_collateral_threshold o' p x'' : preserves f (set_secure_collateral_threshold_ o' p x'').
Proof. unfold set_secure_collateral_threshold_. outer. Qed.
#[local] Hint Resolve outer_set_secure_collateral_threshold : outer.
Lemma outer_set_premium_redeem_threshold o' p x'' : preserves f (set_premium_redeem_threshold o' p x'').
Proof. unfold set_premium_redeem_threshold. outer. Qed.
#[local] Hint Resolve outer_set_premium_redeem_threshold : outer.
Lemma outer_set_liquidation_collateral_threshold o' p x'' : preserves f (set_liquidation_collateral_threshold o' p x'').
Proof. unfold set_liquidation_collateral_threshold. outer. Qed.
#[local] Hint Resolve outer_set_liquidation_collateral_threshold : outer.
Lemma outer_recover_vault_id o p : preserves f (recover_vault_id o p).
Proof. unfold recover_vault_id, RichVault.set_accept_new_issues. outer. Qed.
#[local] Hint Resolve outer_recover_vault_id : outer.
Lemma outer_set_punishment_delay o' x'' : preserves f (set_punishment_delay o' x'').
Proof. unfold set_punishment_delay. outer. Qed.
#[local] Hint Resolve outer_set_punishment_delay : outer.
Lemma outer_on_oracle {OF : OracleFrame f} {A} (m : M OracleState A) : preserves f (on_oracle m).
Proof. apply preserves_zoom, OF. Qed.
Lemma outer_on_security {OF : OracleFrame f} {A} (m : M SecurityState A) :
  preserves f (in_security m).
Proof. apply outer_on_oracle. Qed.
Lemma outer_chain_secure_id {OF : OracleFrame f} : preserves f chain_secure_id.
Proof. pose proof (fun A => outer_on_security (A := A)). unfold chain_secure_id. outer. Qed.
#[local] Hint Resolve outer_chain_secure_id : outer.
Lemma outer_distribute_rewards x'' c : preserves f (distribute_rewards x'' c).
Proof. unfold distribute_rewards, stakes_in_usd, pay_pools. outer. Qed.
#[local] Hint Resolve outer_distribute_rewards : outer.
Lemma outer_fee_distribute_rewards x : preserves f (fee_distribute_rewards x).
Proof. unfold fee_distribute_rewards, distribute. outer. Qed.
#[local] Hint Resolve outer_fee_distribute_rewards : outer.
Lemma outer_collect_reward o k c on : preserves f (collect_reward o k c on).
Proof. unfold collect_reward, move_reward_to_vault, transfer_reward, set_NativeLiability. outer. Qed.
#[local] Hint Resolve outer_collect_reward : outer.
Lemma outer_execute_on_init : preserves f execute_on_init.
Proof. unfold execute_on_init, set_RewardPerBlock, set_RewardsAdaptedAt, set_NativeLiability. outer. Qed.
#[local] Hint Resolve outer_execute_on_init : outer.
Lemma outer_set_reward_per_block o' x'' : preserves f (set_reward_per_block o' x'').
Proof. unfold set_reward_per_block, set_RewardPerBlock, set_RewardsAdaptedAt. outer. Qed.
#[local] Hint Resolve outer_set_reward_per_block : outer.
Lemma outer_get_issue_fee x : preserves f (get_issue_fee x).
Proof. unfold get_issue_fee. outer. Qed.
#[local] Hint Resolve outer_get_issue_fee : outer.
Lemma outer_get_issue_griefing_collateral x : preserves f (get_issue_griefing_collateral x).
Proof. unfold get_issue_griefing_collateral. outer. Qed.
#[local] Hint Resolve outer_get_issue_griefing_collateral : outer.
Lemma outer_get_redeem_fee x : preserves f (get_redeem_fee x).
Proof. unfold get_redeem_fee. outer. Qed.
#[local] Hint Resolve outer_get_redeem_fee : outer.
Lemma outer_get_premium_redeem_fee x : preserves f (get_premium_redeem_fee x).
Proof. unfold get_premium_redeem_fee. outer. Qed.
#[local] Hint Resolve outer_get_premium_redeem_fee : outer.
Lemma outer_get_punishment_fee x : preserves f (get_punishment_fee x).
Proof. unfold get_punishment_fee. outer. Qed.
#[local] Hint Resolve outer_get_punishment_fee : outer.
Lemma outer_get_replace_griefing_collateral x : preserves f (get_replace_griefing_collateral x).
Proof. unfold get_replace_griefing_collateral. outer. Qed.
#[local] Hint Resolve outer_get_replace_griefing_collateral : outer.

End frames.

#[export] Hint Resolve outer_on_ledger outer_on_registry outer_on_staking outer_on_pooled
  outer_on_distribution outer_convert_to outer_to_usd outer_on_oracle outer_on_security : outer.
#[export] Hint Extern 1 (preserves _ (in_security _)) => apply outer_in_security : outer.
#[export] Hint Resolve
  outer_get_vault_from_id outer_get_rich_vault_from_id outer_get_active_vault_from_id
  outer_get_active_rich_vault_from_id outer_vault_exists outer_get_liquidation_vault
  outer_get_rich_liquidation_vault outer_get_backing_collateral outer_compute_collateral
  outer_is_vault_liquidated outer_get_stellar_public_key outer_system_update
  outer_vault_update outer_vault_increase_issued outer_vault_increase_to_be_issued
  outer_vault_increase_to_be_redeemed outer_vault_decrease_issued
  outer_vault_decrease_to_be_issued outer_vault_decrease_to_be_redeemed
  outer_vault_decrease_liquidated_collateral outer_vault_increase_liquidated_collateral
  outer_vault_is_banned outer_vault_get_secure_threshold outer_vault_get_used_collateral
  outer_vault_get_free_collateral outer_calculate_max_wrapped_from_collateral_for_threshold
  outer_is_collateral_below_threshold outer_is_vault_below_threshold
  outer_is_vault_below_secure_threshold outer_is_vault_below_premium_threshold
  outer_is_vault_below_liquidation_threshold outer_issuable_tokens
  outer_withdraw_all_rewards_from_vault outer_pool_update_reward_stake
  outer_pool_deposit_collateral outer_pool_withdraw_collateral outer_pool_slash_collateral
  outer_pool_kick_nominators outer_pool_on_vault_settings_change outer_current_balance
  outer_try_increase_total_backing_collateral outer_decrease_total_backing_collateral
  outer_try_deposit_collateral outer_force_withdraw_collateral
  outer_slash_backing_collateral outer_take_from outer_give_to outer_transfer_funds
  outer_transfer_funds_saturated outer_get_max_nominatable_collateral
  outer_is_max_nomination_ratio_preserved outer_is_allowed_to_withdraw_collateral
  outer_try_withdraw_collateral outer_try_increase_to_be_issued_tokens
  outer_requestable_to_be_replaced_tokens outer_try_increase_to_be_replaced_tokens
  outer_decrease_to_be_replaced_tokens outer_decrease_to_be_issued_tokens outer_issue_tokens
  outer_try_increase_to_be_redeemed_tokens outer_decrease_to_be_redeemed_tokens
  outer_decrease_tokens outer_decrease_liquidated_collateral outer_get_liquidated_collateral
  outer_get_free_redeemable_tokens outer_redeem_tokens outer_redeem_tokens_liquidation
  outer_replace_tokens outer_cancel_replace_tokens outer_withdraw_replace_request
  outer_slash_for_to_be_redeemed outer_slash_to_liquidation_vault outer_liquidate
  outer_liquidate_vault outer_ban_vault outer_do_ensure_not_banned outer_do_register_vault
  outer_get_issuable_tokens_from_vault outer_ensure_accepting_new_issues
  outer_register_vault outer_deposit_collateral outer_withdraw_collateral
  outer_register_public_key outer_accept_new_issues outer_set_custom_secure_threshold
  outer_report_undercollateralized_vault outer_set_minimum_collateral
  outer_set_system_collateral_ceiling outer_set_secure_collateral_threshold
  outer_set_premium_redeem_threshold outer_set_liquidation_collateral_threshold
  outer_recover_vault_id outer_set_punishment_delay outer_chain_secure_id
  outer_distribute_rewards outer_fee_distribute_rewards outer_collect_reward
  outer_execute_on_init outer_set_reward_per_block outer_get_issue_fee
  outer_get_issue_griefing_collateral outer_get_redeem_fee outer_get_premium_redeem_fee
  outer_get_punishment_fee outer_get_replace_griefing_collateral
  : outer.
