(* ===== verification/VaultBooks.v ===== *)
(** * The books of the vault registry

    The invariant of the token counters of vaults and liquidation vaults, and
    what each operation of the vault-registry pallet does to the total of
    issued tokens.  [Books c n g] is the state of the books of currency [c]:
    the invariant, [n] issued tokens over all vaults, [g] tokens in
    circulation. *)

From S2P Require Import Prelude FixedPoint Primitives Currency Security Oracle Staking.
From S2P Require Import PooledRewards StellarRelay Chain RewardDistribution Fee VaultRegistry.

(** ** The invariant *)

(** The to-be-redeemed tokens of a liquidated vault, which the liquidation
    vault has too. *)
Definition owed_by_liquidation (v : Vault) : Z :=
  if is_liquidated v then to_be_redeemed_tokens v else 0.

Definition vault_ok (v : Vault) : Prop :=
  0 <= to_be_replaced_tokens v /\
  if is_liquidated v then issued_tokens v = 0 /\ to_be_issued_tokens v = 0
  else to_be_redeemed_tokens v <= issued_tokens v.

Definition liquidation_vault_of (p : VaultCurrencyPair) (r : VaultRegistryStorage) : SystemVault :=
  default (mkSystemVault 0 0 0 0 p) (LiquidationVault r !! p).

Definition owed_in (p : VaultCurrencyPair) (k : VaultId) (v : Vault) : Z :=
  if decide (currencies k = p) then owed_by_liquidation v else 0.

Record RegistryInv (r : VaultRegistryStorage) : Prop := {
  inv_id k v : Vaults r !! k = Some v -> id v = k;
  inv_pair p lv : LiquidationVault r !! p = Some lv -> currency_pair lv = p;
  inv_vault k v : Vaults r !! k = Some v -> vault_ok v;
  (** The liquidation vault owes what the liquidated vaults owe, and has
      enough issued tokens for it. *)
  inv_owed p : lv_to_be_redeemed_tokens (liquidation_vault_of p r) =
               map_sum (owed_in p) (Vaults r);
  inv_liquidation p : lv_to_be_redeemed_tokens (liquidation_vault_of p r) <=
                      lv_issued_tokens (liquidation_vault_of p r);
}.

(** ** Issued tokens *)

Definition issued_in (c : CurrencyId) (k : VaultId) (v : Vault) : Z :=
  if decide (wrapped (currencies k) = c) then issued_tokens v else 0.
Definition lv_issued_in (c : CurrencyId) (p : VaultCurrencyPair) (lv : SystemVault) : Z :=
  if decide (wrapped p = c) then lv_issued_tokens lv else 0.

(** All issued tokens of a currency: of the vaults and of the liquidation vaults. *)
Definition issued_total (c : CurrencyId) (r : VaultRegistryStorage) : Z :=
  map_sum (issued_in c) (Vaults r) + map_sum (lv_issued_in c) (LiquidationVault r).

(** An amount, as a change of the books of [c]. *)
Definition amount_in (c : CurrencyId) (a : Amount) : Z :=
  if decide (currency_id a = c) then amount a else 0.

Lemma issued_put_vault c k v v' r :
  Vaults r !! k = Some v ->
  issued_total c (put_vault k v' r) =
  issued_total c r +
    (if decide (wrapped (currencies k) = c) then issued_tokens v' - issued_tokens v else 0).
Proof.
  intros Hk. destruct r. unfold issued_total. simpl in *. rewrite map_sum_insert.
  unfold entry, issued_in. rewrite Hk. case_decide; lia.
Qed.

Lemma issued_put_new_vault c k v' r :
  Vaults r !! k = None -> issued_tokens v' = 0 ->
  issued_total c (put_vault k v' r) = issued_total c r.
Proof.
  intros Hk Hv. destruct r. unfold issued_total. simpl in *. rewrite map_sum_insert.
  unfold entry, issued_in. rewrite Hk. case_decide; lia.
Qed.

Lemma issued_put_liquidation_vault c p lv' r :
  issued_total c (put_liquidation_vault p lv' r) =
  issued_total c r +
    (if decide (wrapped p = c)
     then lv_issued_tokens lv' - lv_issued_tokens (liquidation_vault_of p r) else 0).
Proof.
  destruct r. unfold issued_total, liquidation_vault_of. simpl. rewrite map_sum_insert.
  unfold entry, lv_issued_in. destruct (_ !! p); simpl; case_decide; lia.
Qed.

(** ** Writes that keep the invariant *)

Ltac insert_cases k k' :=
  destruct (decide (k = k')) as [<-|];
  [rewrite lookup_insert_eq | rewrite lookup_insert_ne by done].

Lemma inv_put_vault r v v' :
  RegistryInv r -> Vaults r !! id v = Some v -> id v' = id v -> vault_ok v' ->
  owed_by_liquidation v' = owed_by_liquidation v ->
  RegistryInv (put_vault (id v') v' r).
Proof.
  intros [I1 I2 I3 I4 I5] Hv Hid Hok Howed. destruct r. simpl in *. rewrite Hid.
  unfold liquidation_vault_of in *. split; simpl in *; unfold liquidation_vault_of; simpl; auto.
  - intros k w. insert_cases (id v) k; [intros [= <-]|]; eauto.
  - intros k w. insert_cases (id v) k; [intros [= <-]|]; eauto.
  - intros p. rewrite I4, map_sum_insert. unfold entry, owed_in. rewrite Hv. case_decide; lia.
Qed.

Lemma inv_put_new_vault r k v :
  RegistryInv r -> Vaults r !! k = None -> id v = k -> vault_ok v ->
  owed_by_liquidation v = 0 -> RegistryInv (put_vault k v r).
Proof.
  intros [I1 I2 I3 I4 I5] Hv Hid Hok Howed. destruct r. simpl in *.
  unfold liquidation_vault_of in *. split; simpl in *; unfold liquidation_vault_of; simpl; auto.
  - intros k' w. insert_cases k k'; [intros [= <-]|]; eauto.
  - intros k' w. insert_cases k k'; [intros [= <-]|]; eauto.
  - intros p. rewrite I4, map_sum_insert. unfold entry, owed_in. rewrite Hv. case_decide; lia.
Qed.

Lemma inv_put_liquidation_vault r lv' :
  RegistryInv r ->
  lv_to_be_redeemed_tokens lv' =
    lv_to_be_redeemed_tokens (liquidation_vault_of (currency_pair lv') r) ->
  lv_to_be_redeemed_tokens lv' <= lv_issued_tokens lv' ->
  RegistryInv (put_liquidation_vault (currency_pair lv') lv' r).
Proof.
  intros [I1 I2 I3 I4 I5] Hsame Hle. destruct r. simpl in *.
  unfold liquidation_vault_of in *. split; simpl in *; unfold liquidation_vault_of; simpl; auto.
  - intros p lv. insert_cases (currency_pair lv') p; [intros [= <-]|]; eauto.
  - intros p. rewrite <- I4. by insert_cases (currency_pair lv') p.
  - intros p. by insert_cases (currency_pair lv') p.
Qed.

(** A vault and the liquidation vault of its currencies change together. *)
Lemma inv_put_both r v v' lv' :
  RegistryInv r -> Vaults r !! id v = Some v -> id v' = id v -> vault_ok v' ->
  currency_pair lv' = currencies (id v) ->
  lv_to_be_redeemed_tokens lv' =
    lv_to_be_redeemed_tokens (liquidation_vault_of (currencies (id v)) r)
    + owed_by_liquidation v' - owed_by_liquidation v ->
  lv_to_be_redeemed_tokens lv' <= lv_issued_tokens lv' ->
  RegistryInv (put_vault (id v') v' (put_liquidation_vault (currency_pair lv') lv' r)).
Proof.
  intros [I1 I2 I3 I4 I5] Hv Hid Hok Hp Howed Hle. destruct r. simpl in *. rewrite Hid, Hp in *.
  unfold liquidation_vault_of in *. split; simpl in *; unfold liquidation_vault_of; simpl; auto.
  - intros k w. insert_cases (id v) k; [intros [= <-]|]; eauto.
  - intros p lv. insert_cases (currencies (id v)) p; [intros [= <-]|]; eauto.
  - intros k w. insert_cases (id v) k; [intros [= <-]|]; eauto.
  - intros p. rewrite map_sum_insert, <- I4. unfold entry, owed_in. rewrite Hv.
    insert_cases (currencies (id v)) p; simpl; lia.
  - intros p. by insert_cases (currencies (id v)) p.
Qed.

Lemma put_liquidation_vault_twice p lv1 lv2 k v r :
  put_liquidation_vault p lv2 (put_vault k v (put_liquidation_vault p lv1 r)) =
  put_vault k v (put_liquidation_vault p lv2 r).
Proof. destruct r. simpl. by rewrite insert_insert_eq. Qed.

Lemma liquidation_vault_of_put p lv r : liquidation_vault_of p (put_liquidation_vault p lv r) = lv.
Proof. destruct r. unfold liquidation_vault_of. simpl. by rewrite lookup_insert_eq. Qed.

Lemma liquidation_vault_of_put_vault p k v r :
  liquidation_vault_of p (put_vault k v r) = liquidation_vault_of p r.
Proof. by destruct r. Qed.

Lemma Vaults_put_vault k v r : Vaults (put_vault k v r) !! k = Some v.
Proof. destruct r. simpl. by rewrite lookup_insert_eq. Qed.

Lemma Vaults_put_vault_ne k k' v r :
  k <> k' -> Vaults (put_vault k v r) !! k' = Vaults r !! k'.
Proof. intros. destruct r. simpl. by rewrite lookup_insert_ne. Qed.

Lemma Vaults_put_liquidation_vault p lv r : Vaults (put_liquidation_vault p lv r) = Vaults r.
Proof. by destruct r. Qed.

Lemma currency_pair_of p r : RegistryInv r -> currency_pair (liquidation_vault_of p r) = p.
Proof.
  intros I. unfold liquidation_vault_of. destruct (LiquidationVault r !! p) eqn:E; [|done].
  simpl. by apply (inv_pair _ I).
Qed.

(** Case analysis on amount operations that succeeded. *)
Ltac inv_amount := repeat match goal with
  | H : Amount.checked_add _ _ = Ok _ |- _ =>
      apply checked_add_ok in H; destruct H as (? & ? & ? & ?)
  | H : Amount.checked_sub _ _ = Ok _ |- _ =>
      apply checked_sub_ok in H; destruct H as (? & ? & ? & ?)
  | H : Amount.min _ _ = Ok _ |- _ => apply min_ok in H; destruct H as (? & ? & ?)
  | H : Amount.le _ _ = Ok _ |- _ => apply le_ok in H; destruct H as (? & ?)
  | H : Amount.lt _ _ = Ok _ |- _ => apply lt_ok in H; destruct H as (? & ?)
  | H : Amount.ge _ _ = Ok _ |- _ => apply ge_ok in H; destruct H as (? & ?)
  | H : Amount.gt _ _ = Ok _ |- _ => apply gt_ok in H; destruct H as (? & ?)
  | H : Amount.eq _ _ = Ok _ |- _ => apply eq_ok in H; destruct H as (? & ?)
  end.

(** Splits on a decision of the goal only. *)
Ltac goal_decide := match goal with |- context [decide ?P] => destruct (decide P) end.

(** Books that agree up to arithmetic. *)
Ltac eqn_books H :=
  match type of H with ?B ?c ?n ?g ?s => match goal with |- B c ?n' ?g' s =>
    replace n' with n by lia; replace g' with g by lia; exact H end end.

(** ** The books of a currency *)

Section books.
Context `{RT : Runtime}.
Implicit Types (s : Chain) (v : Vault) (lv : SystemVault).

(** [n] tokens of [c] are issued over all vaults and [g] are in circulation. *)
Definition Books (c : CurrencyId) (n g : Z) s : Prop :=
  RegistryInv (registry s) /\ issued_total c (registry s) = n /\ total_issuance c (ledger s) = g.

(** A handle with the data of the stored vault. *)
Definition handle v s : Prop := Vaults (registry s) !! id v = Some v.

(** [m], run with the fresh handle [v], issues [d] tokens of [c] and returns a
    fresh handle of the same vault. *)
Definition updates (c : CurrencyId) (v : Vault) (d : Z) (m : M Chain Vault) : Prop :=
  forall n g s v' s', Books c n g s -> handle v s -> m s = (Ok v', s') ->
    Books c (n + d) g s' /\ handle v' s' /\ id v' = id v.

Lemma get_vault_ok k s v s' :
  get_vault_from_id k s = (Ok v, s') -> s' = s /\ Vaults (registry s) !! k = Some v.
Proof. unfold get_vault_from_id. intros. by inv_ok. Qed.

Lemma get_vault_handle k s v s' :
  RegistryInv (registry s) -> get_vault_from_id k s = (Ok v, s') ->
  s' = s /\ handle v s /\ id v = k.
Proof. intros I [-> H]%get_vault_ok. pose proof (inv_id _ I _ _ H) as <-. auto. Qed.

Lemma get_active_handle k s v s' :
  RegistryInv (registry s) -> get_active_vault_from_id k s = (Ok v, s') ->
  s' = s /\ handle v s /\ id v = k /\ is_liquidated v = false.
Proof.
  intros I. unfold get_active_vault_from_id. intros (w & s1 & E & H)%bind_ok.
  apply get_vault_handle in E as (-> & ? & ?); [|done].
  destruct (status w) eqn:Hs; inv_ok. split_and!; auto. unfold is_liquidated.
  apply bool_decide_false. congruence.
Qed.

Lemma get_liquidation_ok p s lv s' :
  get_liquidation_vault p s = (Ok lv, s') -> s' = s /\ lv = liquidation_vault_of p (registry s).
Proof. unfold get_liquidation_vault. intros. by inv_ok. Qed.

Lemma update_vault_ok v s w s' :
  RichVault.update v s = (Ok w, s') ->
  w = v /\ s' = set_registry (put_vault (id v) v (registry s)) s.
Proof. unfold RichVault.update, insert_vault, on_registry. intros. by inv_ok. Qed.

Lemma update_system_ok lv s w s' :
  RichSystemVault.update lv s = (Ok w, s') ->
  w = lv /\ s' = set_registry (put_liquidation_vault (currency_pair lv) lv (registry s)) s.
Proof. unfold RichSystemVault.update, on_registry. intros. by inv_ok. Qed.

(** A write of the stored vault that keeps its counters valid. *)
Lemma updates_update c v v' d :
  id v' = id v -> (vault_ok v -> vault_ok v') ->
  owed_by_liquidation v' = owed_by_liquidation v ->
  d = (if decide (wrapped_currency (id v) = c) then issued_tokens v' - issued_tokens v else 0) ->
  updates c v d (RichVault.update v').
Proof.
  intros Hid Hok Howed -> n g s w s' (I & <- & <-) Hh [-> ->]%update_vault_ok.
  split_and!; [|apply Vaults_put_vault|done]. pose proof (inv_vault _ I _ _ Hh) as Hv.
  split_and!; cbn [registry set_registry ledger]; [by eapply inv_put_vault; eauto | | done].
  rewrite Hid, (issued_put_vault c _ v) by done. done.
Qed.

(** A write of the liquidation vault. *)
Lemma books_update_system c n g p lv' s w s' :
  Books c n g s -> RichSystemVault.update lv' s = (Ok w, s') -> currency_pair lv' = p ->
  let lv := liquidation_vault_of p (registry s) in
  lv_to_be_redeemed_tokens lv' = lv_to_be_redeemed_tokens lv ->
  lv_to_be_redeemed_tokens lv' <= lv_issued_tokens lv' ->
  Books c (n + if decide (wrapped p = c) then lv_issued_tokens lv' - lv_issued_tokens lv else 0) g s'
  /\ Vaults (registry s') = Vaults (registry s) /\ liquidation_vault_of p (registry s') = lv'.
Proof.
  intros (I & <- & <-) [-> ->]%update_system_ok <- lv Htbr Hle. unfold Books.
  split_and!; cbn [registry set_registry ledger].
  - by apply inv_put_liquidation_vault.
  - by rewrite issued_put_liquidation_vault.
  - done.
  - apply Vaults_put_liquidation_vault.
  - apply liquidation_vault_of_put.
Qed.

(** *** The methods of [RichVault] *)

Lemma updates_lift {A} c v d (o : outcome A) k :
  (forall x, o = Ok x -> updates c v d (k x)) -> updates c v d (let* x := lift o in k x).
Proof. intros Hk n g s v' s' HB Hh H. inv_ok. by eapply Hk. Qed.

Lemma updates_ensure c v d b e m :
  (b = true -> updates c v d m) -> updates c v d (ensure b e ;;; m).
Proof. intros Hk n g s v' s' HB Hh H. inv_ok. by eapply Hk. Qed.

(** Writes of fields that no counter is in. *)
Ltac updates_field :=
  lazymatch goal with |- updates _ ?v _ _ =>
    apply updates_update; destruct v; cbn; unfold vault_ok, owed_by_liquidation, is_liquidated;
    cbn; auto; goal_decide; lia end.

Lemma updates_set_to_be_replaced c v t :
  0 <= amount t -> updates c v 0 (RichVault.set_to_be_replaced_amount v t).
Proof.
  intros Ht. apply updates_update; destruct v; cbn; unfold vault_ok, owed_by_liquidation,
    is_liquidated; cbn; try tauto; try lia. goal_decide; lia.
Qed.
Lemma updates_increase_available c v t :
  updates c v 0 (RichVault.increase_available_replace_collateral v t).
Proof. apply updates_lift. intros. updates_field. Qed.
Lemma updates_decrease_available c v t :
  updates c v 0 (RichVault.decrease_available_replace_collateral v t).
Proof. apply updates_lift. intros. updates_field. Qed.
Lemma updates_increase_active c v t :
  updates c v 0 (RichVault.increase_active_replace_collateral v t).
Proof. apply updates_lift. intros. updates_field. Qed.
Lemma updates_decrease_active c v t :
  updates c v 0 (RichVault.decrease_active_replace_collateral v t).
Proof. apply updates_lift. intros. updates_field. Qed.
Lemma updates_increase_liquidated c v t :
  updates c v 0 (RichVault.increase_liquidated_collateral v t).
Proof. apply updates_lift. intros. updates_field. Qed.
Lemma updates_decrease_liquidated c v t :
  updates c v 0 (RichVault.decrease_liquidated_collateral v t).
Proof. apply updates_lift. intros. updates_field. Qed.
Lemma updates_custom_threshold c v t :
  updates c v 0 (RichVault.set_custom_secure_threshold v t).
Proof. updates_field. Qed.
Lemma updates_ban c v h : updates c v 0 (RichVault.ban_until v h).
Proof. updates_field. Qed.

(** Only a vault that owes nothing may leave the liquidated state. *)
Lemma updates_accept_new_issues c v b :
  is_liquidated v = false \/ to_be_redeemed_tokens v = 0 ->
  updates c v 0 (RichVault.set_accept_new_issues v b).
Proof.
  intros Hv. apply updates_update; destruct v as [i st ? ? ? iss tbr]; cbn in *; auto;
    unfold vault_ok, owed_by_liquidation, is_liquidated in *; cbn in *;
    rewrite ?(bool_decide_false (Active b = Liquidated)) by done;
    destruct (bool_decide (st = Liquidated)); destruct Hv; try done; intros;
    try (goal_decide; lia); lia.
Qed.

Lemma updates_increase_to_be_issued c v t :
  updates c v 0 (RichVault.increase_to_be_issued v t).
Proof.
  apply updates_ensure. intros Hl%negb_true_iff. apply updates_lift. intros x _.
  apply updates_update; destruct v; cbn in *; auto; unfold vault_ok, owed_by_liquidation in *;
    unfold is_liquidated in *; cbn in *; rewrite ?Hl; auto.
  goal_decide; lia.
Qed.

(** The caller has checked that the issued tokens suffice. *)
Lemma updates_increase_to_be_redeemed c v t :
  to_be_redeemed_tokens v + amount t <= issued_tokens v ->
  updates c v 0 (RichVault.increase_to_be_redeemed v t).
Proof.
  intros Hle. apply updates_ensure. intros Hl%negb_true_iff. apply updates_lift. intros x Hx.
  inv_amount. apply updates_update; destruct v; cbn in *; auto;
    unfold vault_ok, owed_by_liquidation, is_liquidated in *; cbn in *; rewrite ?Hl; auto; try lia.
  goal_decide; lia.
Qed.

(** A change of the liquidation vault through the handle of a liquidated vault. *)
Lemma updates_system c v d (f : SystemVault -> M Chain SystemVault) :
  (forall n g s lv w s', Books c n g s -> lv = liquidation_vault_of (currencies (id v)) (registry s) ->
     f lv s = (Ok w, s') ->
     Books c (n + d) g s' /\ Vaults (registry s') = Vaults (registry s)) ->
  updates c v d (let* lv := get_rich_liquidation_vault (currencies (id v)) in f lv ;;; ret v).
Proof.
  intros Hf n g s v' s' HB Hh H. inv_ok. apply get_liquidation_ok in E as [-> ->].
  destruct (Hf n g s _ _ _ HB eq_refl E0) as [? E]. split_and!; auto. unfold handle. by rewrite E.
Qed.

Lemma inv_lv_le r p : RegistryInv r ->
  lv_to_be_redeemed_tokens (liquidation_vault_of p r) <= lv_issued_tokens (liquidation_vault_of p r).
Proof. intros I. apply I. Qed.

Lemma updates_increase_issued c v t :
  0 <= amount t -> updates c v (amount_in c t) (RichVault.increase_issued v t).
Proof.
  intros Ht. unfold RichVault.increase_issued. destruct (is_liquidated v) eqn:Hl.
  - apply updates_system. intros n g s lv w s' HB -> H.
    unfold RichSystemVault.increase_issued in H. inv_ok. inv_amount.
    pose proof (inv_lv_le _ (currencies (id v)) (proj1 HB)) as Hle.
    pose proof (currency_pair_of (currencies (id v)) _ (proj1 HB)) as Hp. cbn in *.
    unfold RichSystemVault.wrapped_currency in *. rewrite Hp in *.
    eapply books_update_system in H as (HB' & HV & _); eauto; cbn; [|lia].
    split; [|done]. cbn in HB'. unfold amount_in.
    replace (currency_id t) with (wrapped (currencies (id v))) by congruence.
    destruct (decide _); eqn_books HB'.
  - apply updates_lift. intros x Hx. inv_amount. apply updates_update; destruct v; cbn in *; auto;
      unfold vault_ok, owed_by_liquidation, is_liquidated in *; cbn in *; rewrite ?Hl; auto; try lia.
    unfold amount_in, RichVault.wrapped_currency in *. cbn in *.
    replace (currency_id t) with (wrapped_currency id) by congruence.
    goal_decide; lia.
Qed.

Lemma updates_decrease_to_be_issued c v t : updates c v 0 (RichVault.decrease_to_be_issued v t).
Proof.
  unfold RichVault.decrease_to_be_issued. destruct (is_liquidated v) eqn:Hl.
  - apply updates_system. intros n g s lv w s' HB -> H.
    unfold RichSystemVault.decrease_to_be_issued in H. inv_ok.
    pose proof (inv_lv_le _ (currencies (id v)) (proj1 HB)) as Hle.
    pose proof (currency_pair_of (currencies (id v)) _ (proj1 HB)) as Hp. cbn in *.
    eapply (books_update_system c n g (currencies (id v))) in H as (HB' & HV & _); eauto.
    split; [|done]. cbn in HB'. destruct (decide _); eqn_books HB'.
  - apply updates_lift. intros x Hx. inv_amount. apply updates_update; destruct v; cbn in *; auto;
      unfold vault_ok, owed_by_liquidation, is_liquidated in *; cbn in *; rewrite ?Hl; auto; try lia.
    goal_decide; lia.
Qed.

End books.

(** Takes apart the reads and writes of stored vaults. *)
Ltac inv_registry := repeat match goal with
  | H : get_rich_liquidation_vault _ _ = (Ok _, _) |- _ =>
      apply get_liquidation_ok in H; destruct H; subst
  | H : RichSystemVault.update _ _ = (Ok _, _) |- _ =>
      apply update_system_ok in H; destruct H; subst
  | H : RichVault.update _ _ = (Ok _, _) |- _ => apply update_vault_ok in H; destruct H; subst
  end.

(** Side conditions of writes: the counters of a concrete record. *)
Ltac counters v Hl :=
  destruct v; unfold vault_ok, owed_by_liquidation, is_liquidated in *; cbn in *;
  unfold RichVault.wrapped_currency, RichSystemVault.wrapped_currency in *; cbn in *; rewrite ?Hl in *; auto; try lia;
  try (goal_decide; lia).

Section books_2.
Context `{RT : Runtime}.
Implicit Types (s : Chain) (v : Vault) (lv : SystemVault).

(** A vault and its liquidation vault are written together. *)
Lemma books_put_both c n g d v v' lv' s s' :
  let lv := liquidation_vault_of (currencies (id v)) (registry s) in
  registry s' = put_vault (id v') v' (put_liquidation_vault (currency_pair lv') lv' (registry s)) ->
  ledger s' = ledger s -> Books c n g s -> handle v s -> id v' = id v -> vault_ok v' ->
  currency_pair lv' = currencies (id v) ->
  lv_to_be_redeemed_tokens lv' =
    lv_to_be_redeemed_tokens lv + owed_by_liquidation v' - owed_by_liquidation v ->
  lv_to_be_redeemed_tokens lv' <= lv_issued_tokens lv' ->
  d = (if decide (wrapped_currency (id v) = c)
       then issued_tokens v' - issued_tokens v + (lv_issued_tokens lv' - lv_issued_tokens lv)
       else 0) ->
  Books c (n + d) g s' /\ handle v' s' /\ id v' = id v.
Proof.
  intros lv Hr Hs (I & <- & <-) Hh Hid Hok Hp Howed Hle ->. unfold Books, handle. rewrite Hr, Hs.
  split_and!; [by eapply inv_put_both | | done | apply Vaults_put_vault | done].
  rewrite Hid, (issued_put_vault c _ v), issued_put_liquidation_vault, Hp
    by (by rewrite Vaults_put_liquidation_vault).
  fold lv. unfold wrapped_currency. goal_decide; lia.
Qed.

Lemma updates_decrease_to_be_redeemed c v t :
  0 <= amount t -> updates c v 0 (RichVault.decrease_to_be_redeemed v t).
Proof.
  intros Ht n g s v' s' HB Hh H. unfold RichVault.decrease_to_be_redeemed in H.
  pose proof (inv_vault _ (proj1 HB) _ _ Hh) as Hok. destruct (is_liquidated v) eqn:Hl.
  - unfold RichSystemVault.decrease_to_be_redeemed in H. inv_ok. inv_registry. inv_amount.
    pose proof (inv_lv_le _ (currencies (id v)) (proj1 HB)) as Hle.
    pose proof (currency_pair_of (currencies (id v)) _ (proj1 HB)) as Hp.
    eapply (books_put_both c n g 0 v); [reflexivity | reflexivity | exact HB | exact Hh | ..];
      counters v Hl.
  - inv_ok. inv_amount. revert HB Hh H. apply updates_update; counters v Hl.
Qed.

(** Issued tokens the vault, or its liquidation vault, does not owe. *)
Definition room v (x : Z) s : Prop :=
  if is_liquidated v then
    let lv := liquidation_vault_of (currencies (id v)) (registry s) in
    lv_to_be_redeemed_tokens lv + x <= lv_issued_tokens lv
  else to_be_redeemed_tokens v + x <= issued_tokens v.

Lemma decrease_to_be_redeemed_room v t s v' s' :
  RegistryInv (registry s) -> handle v s -> RichVault.decrease_to_be_redeemed v t s = (Ok v', s') ->
  room v' (amount t) s'.
Proof.
  intros I Hh H. unfold RichVault.decrease_to_be_redeemed in H.
  pose proof (inv_vault _ I _ _ Hh) as Hok. destruct (is_liquidated v) eqn:Hl.
  - unfold RichSystemVault.decrease_to_be_redeemed in H. inv_ok. inv_registry. inv_amount.
    pose proof (inv_lv_le _ (currencies (id v)) I) as Hle.
    pose proof (currency_pair_of (currencies (id v)) _ I) as Hp.
    unfold room. cbn [registry set_registry currency_pair] in *. cbv zeta.
    rewrite liquidation_vault_of_put_vault, Hp. counters v Hl.
    rewrite liquidation_vault_of_put. cbn. lia.
  - inv_ok. inv_registry. inv_amount. unfold room. counters v Hl.
Qed.

Lemma books_decrease_issued c n g v t s v' s' :
  Books c n g s -> handle v s -> room v (amount t) s ->
  RichVault.decrease_issued v t s = (Ok v', s') ->
  Books c (n - amount_in c t) g s' /\ handle v' s' /\ id v' = id v.
Proof.
  intros HB Hh Hroom H. unfold RichVault.decrease_issued, room, amount_in in *.
  pose proof (inv_vault _ (proj1 HB) _ _ Hh) as Hok. destruct (is_liquidated v) eqn:Hl.
  - unfold RichSystemVault.decrease_issued in H. inv_ok.
    match goal with H : get_rich_liquidation_vault _ _ = _ |- _ =>
      apply get_liquidation_ok in H; destruct H; subst end. inv_amount.
    pose proof (currency_pair_of (currencies (id v)) _ (proj1 HB)) as Hp. cbn in *.
    unfold RichSystemVault.wrapped_currency in *. rewrite Hp in *.
    eapply books_update_system in E0 as (HB' & HV & _); eauto; cbn; [|lia].
    split_and!; [|unfold handle; by rewrite HV|done]. cbn in HB'.
    replace (currency_id t) with (wrapped (currencies (id v))) by congruence.
    destruct (decide _); eqn_books HB'.
  - inv_ok. inv_amount. rewrite <- Z.add_opp_r. revert HB Hh H. apply updates_update;
      counters v Hl. replace (currency_id t) with (wrapped_currency id) by congruence.
    goal_decide; lia.
Qed.

Lemma updates_execute_redeem c v t :
  0 <= amount t -> updates c v (- amount_in c t) (RichVault.execute_redeem_tokens v t).
Proof.
  intros Ht n g s v' s' HB Hh H. unfold RichVault.execute_redeem_tokens in H. inv_ok.
  pose proof (decrease_to_be_redeemed_room v t s _ _ (proj1 HB) Hh E) as Hroom.
  apply (updates_decrease_to_be_redeemed c v t Ht n g) in E as (HB1 & Hh1 & <-); auto.
  rewrite Z.add_0_r in HB1. rewrite Z.add_opp_r. by eapply books_decrease_issued.
Qed.

Lemma updates_execute_issue c v t :
  0 <= amount t -> updates c v (amount_in c t) (RichVault.execute_issue_tokens v t).
Proof.
  intros Ht n g s v' s' HB Hh H. unfold RichVault.execute_issue_tokens in H. inv_ok.
  apply (updates_decrease_to_be_issued c v t n g) in E as (HB1 & Hh1 & <-); auto.
  rewrite Z.add_0_r in HB1. by eapply updates_increase_issued.
Qed.

End books_2.

(** ** Quiet operations
    
    Operations that leave the books of [c] alone.  Some do not touch them at
    all ([preserves books_of]); the others move tokens of the ledger or write
    fields of vaults that are not in the books. *)

Section quiet.
Context `{RT : Runtime}.
Implicit Types s : Chain.

Definition books_of s := (Vaults (registry s), LiquidationVault (registry s), ledger s).

Lemma inv_ext r r' : Vaults r' = Vaults r -> LiquidationVault r' = LiquidationVault r ->
  RegistryInv r -> RegistryInv r'.
Proof.
  intros H1 H2 [I1 I2 I3 I4 I5].
  split; unfold liquidation_vault_of in *; rewrite ?H1, ?H2; auto.
Qed.

Lemma books_ext c n g s s' : books_of s' = books_of s -> Books c n g s -> Books c n g s'.
Proof.
  intros [= H1 H2 H3] (I & <- & <-). unfold Books, issued_total. rewrite H1, H2, H3.
  split_and!; [by eapply inv_ext | done..].
Qed.

Lemma maintains_books c n g {A} (m : M Chain A) :
  preserves books_of m -> maintains (Books c n g) m.
Proof. intros Hm s a s' HB E. eapply books_ext; [|done]. by eapply preserves_ok in E. Qed.

Lemma handle_ext v s s' : books_of s' = books_of s -> handle v s -> handle v s'.
Proof. intros [= H1 H2 H3]. unfold handle. by rewrite H1. Qed.

Lemma preserves_on_staking {A} (m : M StakingState A) : preserves books_of (on_staking m).
Proof. by apply preserves_zoom. Qed.
Lemma preserves_on_pooled {A} (m : M PoolState A) : preserves books_of (on_pooled m).
Proof. by apply preserves_zoom. Qed.
Lemma preserves_on_oracle {A} (m : M OracleState A) : preserves books_of (on_oracle m).
Proof. by apply preserves_zoom. Qed.
Lemma preserves_on_distribution {A} (m : M RewardDistributionStorage A) :
  preserves books_of (on_distribution m).
Proof. by apply preserves_zoom. Qed.
Lemma preserves_on_fee {A} (m : M FeeStorage A) : preserves books_of (on_fee m).
Proof. by apply preserves_zoom. Qed.
Lemma preserves_on_relay {A} (m : M RelayState A) : preserves books_of (on_relay m).
Proof. by apply preserves_zoom. Qed.
Lemma preserves_on_issue {A} (m : M IssueStorage A) : preserves books_of (on_issue m).
Proof. by apply preserves_zoom. Qed.
Lemma preserves_on_redeem {A} (m : M RedeemStorage A) : preserves books_of (on_redeem m).
Proof. by apply preserves_zoom. Qed.
Lemma preserves_on_replace {A} (m : M ReplaceStorage A) : preserves books_of (on_replace m).
Proof. by apply preserves_zoom. Qed.
Lemma preserves_on_nomination {A} (m : M NominationStorage A) : preserves books_of (on_nomination m).
Proof. by apply preserves_zoom. Qed.
Lemma preserves_in_security {A} (m : M SecurityState A) : preserves books_of (in_security m).
Proof. apply preserves_on_oracle. Qed.
Lemma preserves_convert_to a c : preserves books_of (convert_to a c).
Proof. apply preserves_on_oracle. Qed.

End quiet.

#[export] Hint Resolve preserves_on_staking preserves_on_pooled preserves_on_oracle
  preserves_on_distribution preserves_on_fee preserves_on_relay preserves_on_issue
  preserves_on_redeem preserves_on_replace preserves_on_nomination preserves_in_security
  preserves_convert_to : frame.

Section frames_of_books.
Context `{RT : Runtime}.

Lemma preserves_get_vault k : preserves books_of (get_vault_from_id k).
Proof. unfold get_vault_from_id. solve_frame. Qed.
Lemma preserves_get_active k : preserves books_of (get_active_vault_from_id k).
Proof. pose proof preserves_get_vault. unfold get_active_vault_from_id. solve_frame. Qed.
Lemma preserves_get_liquidation p : preserves books_of (get_liquidation_vault p).
Proof. unfold get_liquidation_vault. solve_frame. Qed.
Lemma preserves_withdraw_all k : preserves books_of (withdraw_all_rewards_from_vault k).
Proof. unfold withdraw_all_rewards_from_vault, move_reward_to_vault. solve_frame. Qed.
Lemma preserves_update_reward_stake k : preserves books_of (pool_update_reward_stake k).
Proof. pose proof preserves_get_vault. unfold pool_update_reward_stake. solve_frame. Qed.

End frames_of_books.

#[export] Hint Resolve preserves_get_vault preserves_get_active preserves_get_liquidation
  preserves_withdraw_all preserves_update_reward_stake : frame.

Section frames_of_books_2.
Context `{RT : Runtime}.

Lemma preserves_pool_deposit k x a : preserves books_of (pool_deposit_collateral k x a).
Proof. unfold pool_deposit_collateral. solve_frame. Qed.
Lemma preserves_pool_withdraw k x a o : preserves books_of (pool_withdraw_collateral k x a o).
Proof. unfold pool_withdraw_collateral. solve_frame. Qed.
Lemma preserves_pool_slash k a : preserves books_of (pool_slash_collateral k a).
Proof. unfold pool_slash_collateral. solve_frame. Qed.
Lemma preserves_pool_kick k : preserves books_of (pool_kick_nominators k).
Proof. unfold pool_kick_nominators. solve_frame. Qed.
Lemma preserves_pool_settings k : preserves books_of (pool_on_vault_settings_change k).
Proof. unfold pool_on_vault_settings_change. solve_frame. Qed.

Lemma preserves_on_registry {A} (m : M VaultRegistryStorage A) :
  (forall r, Vaults (snd (m r)) = Vaults r /\ LiquidationVault (snd (m r)) = LiquidationVault r) ->
  preserves books_of (on_registry m).
Proof.
  intros Hm s. unfold on_registry, zoom. specialize (Hm (registry s)).
  destruct (m (registry s)) as [o r]. unfold books_of. cbn in *. by destruct Hm as [-> ->].
Qed.

Lemma preserves_try_increase_total p a : preserves books_of (try_increase_total_backing_collateral p a).
Proof.
  unfold try_increase_total_backing_collateral, get_total_user_vault_collateral,
    get_collateral_ceiling. solve_frame. apply preserves_on_registry. intros r. by destruct r.
Qed.
Lemma preserves_decrease_total p a : preserves books_of (decrease_total_backing_collateral p a).
Proof.
  unfold decrease_total_backing_collateral, get_total_user_vault_collateral.
  solve_frame. apply preserves_on_registry. intros r. by destruct r.
Qed.

Lemma preserves_backing k : preserves books_of (get_backing_collateral k).
Proof. unfold get_backing_collateral. solve_frame. Qed.
Lemma preserves_compute_collateral k : preserves books_of (compute_collateral k).
Proof. unfold compute_collateral. solve_frame. Qed.
Lemma preserves_secure_threshold v : preserves books_of (RichVault.get_secure_threshold v).
Proof. unfold RichVault.get_secure_threshold. solve_frame. Qed.
Lemma preserves_is_banned v : preserves books_of (RichVault.is_banned v).
Proof. unfold RichVault.is_banned. solve_frame. Qed.
Lemma preserves_used_collateral v t : preserves books_of (RichVault.get_used_collateral v t).
Proof.
  pose proof preserves_backing. unfold RichVault.get_used_collateral, RichVault.get_total_collateral.
  solve_frame.
Qed.
Lemma preserves_free_collateral v : preserves books_of (RichVault.get_free_collateral v).
Proof.
  pose proof preserves_backing. pose proof preserves_secure_threshold.
  pose proof preserves_used_collateral.
  unfold RichVault.get_free_collateral, RichVault.get_total_collateral. solve_frame.
Qed.
Lemma preserves_max_wrapped x c t :
  preserves books_of (calculate_max_wrapped_from_collateral_for_threshold x c t).
Proof. unfold calculate_max_wrapped_from_collateral_for_threshold. solve_frame. Qed.
Lemma preserves_required x t c :
  preserves books_of (get_required_collateral_for_wrapped_with_threshold x t c).
Proof. unfold get_required_collateral_for_wrapped_with_threshold. solve_frame. Qed.
Lemma preserves_below x w t : preserves books_of (is_collateral_below_threshold x w t).
Proof. pose proof preserves_max_wrapped. unfold is_collateral_below_threshold. solve_frame. Qed.

End frames_of_books_2.

#[export] Hint Resolve preserves_pool_deposit preserves_pool_withdraw preserves_pool_slash
  preserves_pool_kick preserves_pool_settings preserves_try_increase_total
  preserves_decrease_total preserves_backing preserves_compute_collateral
  preserves_secure_threshold preserves_is_banned preserves_used_collateral
  preserves_free_collateral preserves_max_wrapped preserves_required preserves_below : frame.

Section frames_of_books_3.
Context `{RT : Runtime}.

Lemma preserves_issuable v : preserves books_of (issuable_tokens v).
Proof. unfold issuable_tokens. solve_frame. Qed.
Lemma preserves_vault_below k t : preserves books_of (is_vault_below_threshold k t).
Proof. unfold is_vault_below_threshold, get_rich_vault_from_id. solve_frame. Qed.
Lemma preserves_below_secure k : preserves books_of (is_vault_below_secure_threshold k).
Proof.
  pose proof preserves_vault_below.
  unfold is_vault_below_secure_threshold, get_rich_vault_from_id. solve_frame.
Qed.
Lemma preserves_below_premium k : preserves books_of (is_vault_below_premium_threshold k).
Proof. pose proof preserves_vault_below. unfold is_vault_below_premium_threshold. solve_frame. Qed.
Lemma preserves_below_liquidation v t :
  preserves books_of (is_vault_below_liquidation_threshold v t).
Proof. unfold is_vault_below_liquidation_threshold. solve_frame. Qed.
Lemma preserves_max_nominatable x p : preserves books_of (get_max_nominatable_collateral x p).
Proof. unfold get_max_nominatable_collateral, get_max_nomination_ratio. solve_frame. Qed.
Lemma preserves_ratio_preserved k a : preserves books_of (is_max_nomination_ratio_preserved k a).
Proof. pose proof preserves_max_nominatable. unfold is_max_nomination_ratio_preserved. solve_frame. Qed.
Lemma preserves_allowed_withdraw k a : preserves books_of (is_allowed_to_withdraw_collateral k a).
Proof.
  unfold is_allowed_to_withdraw_collateral, get_rich_vault_from_id,
    is_collateral_below_vault_secure_threshold. solve_frame.
Qed.
Lemma preserves_current_balance x c : preserves books_of (current_balance x c).
Proof. unfold current_balance. solve_frame. Qed.
Lemma preserves_ensure_not_banned k : preserves books_of (_ensure_not_banned k).
Proof. unfold _ensure_not_banned, RichVault.ensure_not_banned. solve_frame. Qed.
Lemma preserves_issuable_from_vault k : preserves books_of (get_issuable_tokens_from_vault k).
Proof.
  pose proof preserves_issuable.
  unfold get_issuable_tokens_from_vault, get_active_rich_vault_from_id. solve_frame.
Qed.
Lemma preserves_accepting k : preserves books_of (ensure_accepting_new_issues k).
Proof. unfold ensure_accepting_new_issues, get_active_rich_vault_from_id. solve_frame. Qed.
Lemma preserves_liquidated_collateral k : preserves books_of (get_liquidated_collateral k).
Proof. unfold get_liquidated_collateral. solve_frame. Qed.
Lemma preserves_free_redeemable k : preserves books_of (get_free_redeemable_tokens k).
Proof. unfold get_free_redeemable_tokens, get_rich_vault_from_id. solve_frame. Qed.
Lemma preserves_is_vault_liquidated k : preserves books_of (is_vault_liquidated k).
Proof. unfold is_vault_liquidated. solve_frame. Qed.
Lemma preserves_stellar_key k : preserves books_of (get_stellar_public_key k).
Proof. unfold get_stellar_public_key. solve_frame. Qed.
Lemma preserves_requestable k : preserves books_of (requestable_to_be_replaced_tokens k).
Proof. unfold requestable_to_be_replaced_tokens, get_active_rich_vault_from_id. solve_frame. Qed.

End frames_of_books_3.

#[export] Hint Resolve preserves_issuable preserves_vault_below preserves_below_secure
  preserves_below_premium preserves_below_liquidation preserves_max_nominatable
  preserves_ratio_preserved preserves_allowed_withdraw preserves_current_balance
  preserves_ensure_not_banned preserves_issuable_from_vault preserves_accepting
  preserves_liquidated_collateral preserves_free_redeemable preserves_is_vault_liquidated
  preserves_stellar_key preserves_requestable : frame.

(** *** Tokens that move *)

Section moves.
Context `{RT : Runtime} {L : RuntimeLaws RT} (c : CurrencyId) (Hed : existential_deposit c = 0).
Context (n g : Z).
Implicit Types s : Chain.

Lemma maintains_on_ledger {A} (m : M Ledger A) :
  (forall l a l', m l = (Ok a, l') -> total_issuance c l' = total_issuance c l) ->
  maintains (Books c n g) (on_ledger m).
Proof.
  intros Hm s a s' (I & <- & <-) H. unfold on_ledger in H. inv_ok. apply Hm in E.
  unfold Books. cbn. by rewrite E.
Qed.

Lemma maintains_transfer a x y : maintains (Books c n g) (on_ledger (Amount.transfer a x y)).
Proof. apply maintains_on_ledger. intros. by eapply transfer_issuance. Qed.
Lemma maintains_lock a x : maintains (Books c n g) (on_ledger (Amount.lock_on a x)).
Proof. apply maintains_on_ledger. intros. by eapply lock_on_issuance. Qed.
Lemma maintains_unlock a x : maintains (Books c n g) (on_ledger (Amount.unlock_on a x)).
Proof. apply maintains_on_ledger. intros. by eapply unlock_on_issuance. Qed.

(** A computation on the vault that was just read. *)
Lemma maintains_vault {B} k (f : Vault -> M Chain B) :
  (forall v s b s', Books c n g s -> handle v s -> id v = k -> f v s = (Ok b, s') ->
     Books c n g s') ->
  maintains (Books c n g) (bind (get_rich_vault_from_id k) f).
Proof.
  intros Hf s b s' HB H. inv_ok. apply get_vault_handle in E as (-> & Hh & Hid); [|apply HB].
  by eapply Hf.
Qed.
Lemma maintains_active_vault {B} k (f : Vault -> M Chain B) :
  (forall v s b s', Books c n g s -> handle v s -> id v = k -> is_liquidated v = false ->
     f v s = (Ok b, s') -> Books c n g s') ->
  maintains (Books c n g) (bind (get_active_rich_vault_from_id k) f).
Proof.
  intros Hf s b s' HB H. inv_ok. apply get_active_handle in E as (-> & Hh & Hid & Hl); [|apply HB].
  by eapply Hf.
Qed.

(** The first thing a method does with its handle, when it is quiet. *)
Lemma after_update {B} v (m : M Chain Vault) (f : Vault -> M Chain B) s b s' :
  updates c v 0 m -> Books c n g s -> handle v s -> bind m f s = (Ok b, s') ->
  (forall w, maintains (Books c n g) (f w)) -> Books c n g s'.
Proof.
  intros Hm HB Hh H Hf. inv_ok. eapply Hm in E as (HB' & _); eauto.
  rewrite Z.add_0_r in HB'. by eapply Hf.
Qed.

(** Writes of the liquidation vault's collateral. *)
Lemma books_system_collateral lv x s w s' p :
  Books c n g s -> lv = liquidation_vault_of p (registry s) ->
  RichSystemVault.update (mkSystemVault (lv_to_be_issued_tokens lv) (lv_issued_tokens lv)
    (lv_to_be_redeemed_tokens lv) x (currency_pair lv)) s = (Ok w, s') ->
  Books c n g s'.
Proof.
  intros HB -> H. pose proof (inv_lv_le _ p (proj1 HB)).
  pose proof (currency_pair_of p _ (proj1 HB)) as Hp.
  eapply (books_update_system c n g p) in H as (HB' & _); eauto. cbn in HB'.
  destruct (decide _); eqn_books HB'.
Qed.

Lemma maintains_system {B} p (f : SystemVault -> M Chain SystemVault) (k : M Chain B) :
  (forall s lv w s', Books c n g s -> lv = liquidation_vault_of p (registry s) ->
     f lv s = (Ok w, s') -> Books c n g s') ->
  maintains (Books c n g) k ->
  maintains (Books c n g) (let* lv := get_rich_liquidation_vault p in f lv ;;; k).
Proof.
  intros Hf Hk s b s' HB H. inv_ok. apply get_liquidation_ok in E as [-> ->].
  eapply Hk, H. by eapply Hf.
Qed.

End moves.

#[export] Hint Resolve maintains_transfer maintains_lock maintains_unlock : maintains.
#[export] Hint Extern 2 (maintains (Books _ _ _) _) =>
  apply maintains_books; solve [eauto 2 with frame] : maintains.

(** Closes a goal by the last write through a fresh handle. *)
Ltac by_update lem :=
  match goal with HB : Books ?c ?n ?g ?s, Hh : handle ?v ?s, H : _ ?s = (Ok _, _) |- _ =>
    let HB' := fresh in
    destruct (lem c v _ n g s _ _ HB Hh H) as [HB' _]; by rewrite Z.add_0_r in HB' end.

(** A quiet method that starts by reading its vault. *)
Ltac quiet_method :=
  first [apply maintains_vault; intros ? ? ? ? ? ? ? | apply maintains_active_vault; intros ? ? ? ? ? ? ? ?];
  let H := fresh in intros H; eapply after_update in H;
  [exact H | eauto using updates_increase_available,
     updates_decrease_available, updates_increase_active, updates_decrease_active,
     updates_decrease_liquidated, updates_custom_threshold, updates_ban,
     updates_decrease_to_be_issued
   | eassumption | eassumption | solve_maintains].

Section funds.
Context `{RT : Runtime} {L : RuntimeLaws RT} (c : CurrencyId) (Hed : existential_deposit c = 0).
Context (n g : Z).

Lemma maintains_take_from from a : maintains (Books c n g) (take_from from a).
Proof.
  destruct from; cbn [take_from]; unfold slash_backing_collateral.
  - solve_maintains.
  - quiet_method.
  - quiet_method.
  - solve_maintains.
  - solve_maintains.
  - solve_maintains.
  - apply maintains_system; [|solve_maintains]. intros s lv w s' HB Hlv H.
    unfold RichSystemVault.decrease_collateral in H. inv_ok. by eapply books_system_collateral.
Qed.


Lemma maintains_try_deposit k a : maintains (Books c n g) (try_deposit_collateral k a).
Proof. unfold try_deposit_collateral. solve_maintains. Qed.

Lemma maintains_give_to to a : maintains (Books c n g) (give_to to a).
Proof.
  pose proof maintains_try_deposit as Hdep. destruct to; cbn [give_to].
  - solve_maintains.
  - quiet_method.
  - quiet_method.
  - solve_maintains.
  - solve_maintains.
  - solve_maintains.
  - apply maintains_bind; [solve_maintains|]. intros _.
    apply maintains_system; [|solve_maintains]. intros s lv w s' HB Hlv H.
    unfold RichSystemVault.increase_collateral in H. inv_ok. by eapply books_system_collateral.
Qed.

Lemma maintains_transfer_funds x y a : maintains (Books c n g) (transfer_funds x y a).
Proof.
  pose proof maintains_take_from. pose proof maintains_give_to. unfold transfer_funds.
  solve_maintains.
Qed.

Lemma maintains_transfer_funds_saturated x y a :
  maintains (Books c n g) (transfer_funds_saturated x y a).
Proof.
  pose proof maintains_transfer_funds. unfold transfer_funds_saturated. solve_maintains.
Qed.

Lemma maintains_force_withdraw k a : maintains (Books c n g) (force_withdraw_collateral k a).
Proof. unfold force_withdraw_collateral. solve_maintains. Qed.

Lemma maintains_slash_backing k a : maintains (Books c n g) (slash_backing_collateral k a).
Proof. unfold slash_backing_collateral. solve_maintains. Qed.

Lemma maintains_try_withdraw k a : maintains (Books c n g) (try_withdraw_collateral k a).
Proof. pose proof maintains_force_withdraw. unfold try_withdraw_collateral. solve_maintains. Qed.

Lemma maintains_try_increase_to_be_issued k t :
  maintains (Books c n g) (try_increase_to_be_issued_tokens k t).
Proof.
  unfold try_increase_to_be_issued_tokens. apply maintains_active_vault. intros v s b s' HB Hh Hid Hl H.
  inv_ok. eapply books_ext in HB; [|eapply preserves_ok; [apply preserves_issuable|exact E]].
  eapply handle_ext in Hh; [|eapply preserves_ok; [apply preserves_issuable|exact E]].
  by_update updates_increase_to_be_issued.
Qed.

Lemma maintains_try_increase_to_be_replaced k t :
  maintains (Books c n g) (try_increase_to_be_replaced_tokens k t).
Proof.
  unfold try_increase_to_be_replaced_tokens. apply maintains_active_vault.
  intros v s b s' HB Hh Hid Hl H. inv_ok.
  match goal with H : RichVault.set_to_be_replaced_amount ?v ?t ?s = _ |- _ =>
    assert (Ht : 0 <= amount t) by (inv_amount; lia);
    destruct (updates_set_to_be_replaced c v t Ht n g s _ _ HB Hh H) as [HB' _] end.
  by rewrite Z.add_0_r in HB'.
Qed.

Lemma maintains_decrease_to_be_replaced k t :
  maintains (Books c n g) (decrease_to_be_replaced_tokens k t).
Proof.
  unfold decrease_to_be_replaced_tokens. apply maintains_vault.
  intros v s b s' HB Hh Hid H. inv_ok.
  match goal with H : RichVault.set_to_be_replaced_amount ?v ?t ?s = _ |- _ =>
    assert (Ht : 0 <= amount t) by (inv_amount; lia);
    destruct (updates_set_to_be_replaced c v t Ht n g s _ _ HB Hh H) as [HB' _] end.
  by rewrite Z.add_0_r in HB'.
Qed.

Lemma maintains_decrease_to_be_issued k t :
  maintains (Books c n g) (decrease_to_be_issued_tokens k t).
Proof. unfold decrease_to_be_issued_tokens, RichVault.cancel_issue_tokens. quiet_method. Qed.

Lemma maintains_try_increase_to_be_redeemed k t :
  maintains (Books c n g) (try_increase_to_be_redeemed_tokens k t).
Proof.
  unfold try_increase_to_be_redeemed_tokens. apply maintains_active_vault.
  intros v s b s' HB Hh Hid Hl H. inv_ok. inv_amount. subst. cbn in *.
  match goal with H : RichVault.request_redeem_tokens _ _ _ = _ |- _ =>
    eapply (updates_increase_to_be_redeemed c) in H as (HB' & _); eauto end.
  - by rewrite Z.add_0_r in HB'.
  - lia.
Qed.

Lemma maintains_decrease_to_be_redeemed k t :
  0 <= amount t -> maintains (Books c n g) (decrease_to_be_redeemed_tokens k t).
Proof.
  intros Ht. unfold decrease_to_be_redeemed_tokens, RichVault.cancel_redeem_tokens.
  pose proof (fun c v => updates_decrease_to_be_redeemed c v t Ht). quiet_method.
Qed.

Lemma maintains_decrease_liquidated_collateral k t :
  maintains (Books c n g) (decrease_liquidated_collateral k t).
Proof. unfold decrease_liquidated_collateral. quiet_method. Qed.

Lemma maintains_withdraw_replace_request k t :
  maintains (Books c n g) (withdraw_replace_request k t).
Proof.
  pose proof maintains_decrease_to_be_replaced. pose proof maintains_transfer_funds.
  unfold withdraw_replace_request. solve_maintains.
Qed.

Lemma maintains_ban k : maintains (Books c n g) (ban_vault k).
Proof.
  unfold ban_vault. apply maintains_bind; [solve_maintains|]. intros h.
  apply maintains_active_vault. intros v s b s' HB Hh Hid Hl H. inv_ok.
  by_update updates_ban.
Qed.

End funds.

#[export] Hint Resolve maintains_take_from maintains_give_to maintains_try_deposit
  maintains_transfer_funds maintains_transfer_funds_saturated maintains_force_withdraw
  maintains_slash_backing maintains_try_withdraw maintains_try_increase_to_be_issued
  maintains_try_increase_to_be_replaced maintains_decrease_to_be_replaced
  maintains_decrease_to_be_issued maintains_try_increase_to_be_redeemed
  maintains_decrease_to_be_redeemed maintains_decrease_liquidated_collateral
  maintains_withdraw_replace_request maintains_ban : maintains.

(** ** Operations that issue or redeem tokens *)

Section shifts.
Context `{RT : Runtime}.
Implicit Types s : Chain.

(** [m] issues [d] tokens of [c] and puts [e] into circulation. *)
Definition shifts (c : CurrencyId) (d e : Z) {A} (m : M Chain A) : Prop :=
  forall n g s a s', Books c n g s -> m s = (Ok a, s') -> Books c (n + d) (g + e) s'.

Lemma shifts_quiet c {A} (m : M Chain A) :
  (forall n g, maintains (Books c n g) m) <-> shifts c 0 0 m.
Proof.
  split; intros Hm n g s a s' HB H.
  - rewrite !Z.add_0_r. by eapply Hm.
  - specialize (Hm n g s a s' HB H). by rewrite !Z.add_0_r in Hm.
Qed.

Lemma shifts_bind c d1 e1 d2 e2 {A B} (m : M Chain A) (k : A -> M Chain B) :
  shifts c d1 e1 m -> (forall a, shifts c d2 e2 (k a)) -> shifts c (d1 + d2) (e1 + e2) (bind m k).
Proof.
  intros Hm Hk n g s b s' HB H. inv_ok. rewrite !Z.add_assoc. eapply Hk, H. by eapply Hm.
Qed.

Lemma shifts_seq c d1 e1 d2 e2 d e {A B} (m : M Chain A) (k : A -> M Chain B) :
  shifts c d1 e1 m -> (forall a, shifts c d2 e2 (k a)) -> d1 + d2 = d -> e1 + e2 = e ->
  shifts c d e (bind m k).
Proof. intros Hm Hk <- <-. by apply shifts_bind. Qed.

(** A quiet step before, or after. *)
Lemma shifts_before c d e {A B} (m : M Chain A) (k : A -> M Chain B) :
  (forall n g, maintains (Books c n g) m) -> (forall a, shifts c d e (k a)) ->
  shifts c d e (bind m k).
Proof. intros Hm Hk. apply (shifts_bind c 0 0 d e); [by apply shifts_quiet | done]. Qed.

Lemma shifts_after c d e {A B} (m : M Chain A) (k : A -> M Chain B) :
  shifts c d e m -> (forall a n g, maintains (Books c n g) (k a)) -> shifts c d e (bind m k).
Proof.
  intros Hm Hk n g s b s' HB H. inv_ok. eapply Hk, H. by eapply Hm.
Qed.

Lemma shifts_lift c d e {A B} (o : outcome A) (k : A -> M Chain B) :
  (forall a, o = Ok a -> shifts c d e (k a)) -> shifts c d e (bind (lift o) k).
Proof. intros Hk n g s b s' HB H. inv_ok. by eapply Hk. Qed.

Lemma shifts_ensure c d e {B} x err (k : unit -> M Chain B) :
  (x = true -> shifts c d e (k tt)) -> shifts c d e (bind (ensure x err) k).
Proof. intros Hk n g s b s' HB H. inv_ok. by eapply Hk. Qed.

Lemma shifts_vault c d e {B} k (f : Vault -> M Chain B) :
  (forall n g v s b s', Books c n g s -> handle v s -> id v = k -> f v s = (Ok b, s') ->
     Books c (n + d) (g + e) s') ->
  shifts c d e (bind (get_rich_vault_from_id k) f).
Proof.
  intros Hf n g s b s' HB H. inv_ok. apply get_vault_handle in E as (-> & Hh & Hid); [|apply HB].
  by eapply Hf.
Qed.

Lemma shifts_transactional c d e {A} (m : M Chain A) :
  shifts c d e m -> shifts c d e (transactional m).
Proof. intros Hm n g s a s' HB H. inv_ok. by eapply Hm. Qed.

Lemma shifts_issue_tokens c k t :
  0 <= amount t -> shifts c (amount_in c t) 0 (issue_tokens k t).
Proof.
  intros Ht. apply shifts_vault. intros n g v s b s' HB Hh Hid H. inv_ok.
  destruct (updates_execute_issue c v t Ht n g s _ _ HB Hh E) as [HB' _]. by rewrite Z.add_0_r.
Qed.

Lemma shifts_decrease_tokens c k u t :
  0 <= amount t -> shifts c (- amount_in c t) 0 (decrease_tokens k u t).
Proof.
  intros Ht. apply shifts_vault. intros n g v s b s' HB Hh Hid H. inv_ok.
  destruct (updates_execute_redeem c v t Ht n g s _ _ HB Hh E) as [HB' _]. by rewrite Z.add_0_r.
Qed.

Context {L : RuntimeLaws RT}.

Lemma shifts_redeem_tokens c k t x u :
  existential_deposit c = 0 -> 0 <= amount t ->
  shifts c (- amount_in c t) 0 (redeem_tokens k t x u).
Proof.
  intros Hed Ht. apply shifts_vault. intros n g v s b s' HB Hh Hid H. cbv zeta in H. inv_ok.
  destruct (updates_execute_redeem c v t Ht n g s _ _ HB Hh E) as (HB' & Hh' & _).
  rewrite Z.add_0_r. destruct (negb (is_liquidated a)).
  - revert HB' H. apply (fun m => (m : maintains _ _) s0 tt s').
    destruct (Amount.is_zero x); solve_maintains.
  - inv_ok. pose proof (preserves_ok _ _ _ _ _ (preserves_decrease_total _ _) E1) as F.
    eapply (books_ext _ _ _ _ _ F) in HB'. eapply (handle_ext _ _ _ F) in Hh'.
    destruct (updates_decrease_liquidated c a _ _ _ _ _ _ HB' Hh' E2) as (HB2 & _).
    rewrite Z.add_0_r in HB2. by eapply (maintains_unlock c Hed).
Qed.

Lemma preserves_registry_ledger {A} (m : M Ledger A) : preserves registry (on_ledger m).
Proof. by apply preserves_zoom. Qed.

Lemma liquidation_vault_ext p s s' :
  books_of s' = books_of s ->
  liquidation_vault_of p (registry s') = liquidation_vault_of p (registry s).
Proof. intros [= H1 H2 H3]. unfold liquidation_vault_of. by rewrite H2. Qed.

(** Paying out of the liquidation vault leaves its tokens alone. *)
Lemma from_liquidation_tokens cp u a s x s' :
  RegistryInv (registry s) ->
  transfer_funds (FromLiquidationVault cp) (FreeBalance u) a s = (Ok x, s') ->
  let lv := liquidation_vault_of cp (registry s) in
  let lv' := liquidation_vault_of cp (registry s') in
  lv_issued_tokens lv' = lv_issued_tokens lv /\
  lv_to_be_redeemed_tokens lv' = lv_to_be_redeemed_tokens lv.
Proof.
  intros I H. unfold transfer_funds in H. cbn [take_from give_to] in H.
  unfold RichSystemVault.decrease_collateral in H. inv_ok. inv_registry.
  repeat match goal with
  | E : on_ledger _ _ = _ |- _ => apply (preserves_ok registry) in E; [|apply preserves_registry_ledger]
  | E : decrease_total_backing_collateral _ _ _ = _ |- _ =>
      apply (preserves_ok books_of) in E; [|apply preserves_decrease_total];
      apply (liquidation_vault_ext cp) in E
  end.
  repeat match goal with E : registry _ = registry _ |- _ => rewrite E in *; clear E end.
  match goal with E : liquidation_vault_of _ _ = _ |- _ => rewrite E end.
  cbn [registry set_registry currency_pair]. rewrite currency_pair_of by done.
  by rewrite liquidation_vault_of_put.
Qed.

Lemma shifts_redeem_liquidation c cc u t :
  existential_deposit c = 0 ->
  shifts c (- amount_in c t) 0 (redeem_tokens_liquidation cc u t).
Proof.
  intros Hed n g s b s' HB H. unfold redeem_tokens_liquidation in H. cbv zeta in H. inv_ok.
  apply get_liquidation_ok in E as [-> ->].
  pose proof (preserves_ok _ _ _ _ _ (preserves_current_balance _ _) E3) as F.
  pose proof (liquidation_vault_ext (mkPair cc (currency_id t)) _ _ F) as Flv.
  eapply (books_ext _ _ _ _ _ F) in HB.
  apply get_liquidation_ok in E7 as [-> ->].
  pose proof (from_liquidation_tokens _ _ _ _ _ _ (proj1 HB) E6) as [Hi Hr].
  eapply (maintains_transfer_funds c Hed) in E6 as HB1; [|exact HB].
  unfold RichSystemVault.burn_issued, RichSystemVault.decrease_issued in E8. inv_ok.
  unfold RichSystemVault.redeemable_tokens in *. inv_amount. cbn in *. subst.
  set (p := mkPair cc (currency_id t)) in *.
  pose proof (currency_pair_of p _ (proj1 HB1)) as Hp.
  eapply (books_update_system c n g p) in E8 as (HB' & _); eauto; cbn; [|rewrite Flv in *; lia].
  cbn in HB'. unfold amount_in.
  destruct (decide _); eqn_books HB'.
Qed.

(** Methods of one vault leave the others alone. *)
Definition vault_at (k : VaultId) s : option Vault := Vaults (registry s) !! k.

Lemma vault_at_update k w : id w <> k -> preserves (vault_at k) (RichVault.update w).
Proof.
  intros Hk s. unfold vault_at, RichVault.update, insert_vault, on_registry, bind, zoom, modify, ret.
  cbn. by rewrite Vaults_put_vault_ne.
Qed.

Lemma vault_at_system k w : preserves (vault_at k) (RichSystemVault.update w).
Proof.
  intros s. unfold vault_at, RichSystemVault.update, on_registry, bind, zoom, modify, ret.
  cbn. by rewrite Vaults_put_liquidation_vault.
Qed.

Lemma vault_at_decrease_liquidated k v t :
  id v <> k -> preserves (vault_at k) (RichVault.decrease_liquidated_collateral v t).
Proof.
  intros Hk. unfold RichVault.decrease_liquidated_collateral. solve_frame.
  apply vault_at_update. by destruct v.
Qed.

Lemma vault_at_cancel_redeem k v t :
  id v <> k -> preserves (vault_at k) (RichVault.decrease_to_be_redeemed v t).
Proof.
  intros Hk. pose proof (vault_at_system k). unfold RichVault.decrease_to_be_redeemed,
    RichSystemVault.decrease_to_be_redeemed, get_rich_liquidation_vault, get_liquidation_vault.
  solve_frame. apply vault_at_update. by destruct v.
Qed.

Lemma vault_at_decrease_issued k v t :
  id v <> k -> preserves (vault_at k) (RichVault.decrease_issued v t).
Proof.
  intros Hk. pose proof (vault_at_system k). unfold RichVault.decrease_issued,
    RichSystemVault.decrease_issued, get_rich_liquidation_vault, get_liquidation_vault.
  solve_frame. apply vault_at_update. by destruct v.
Qed.

Lemma vault_at_execute_redeem k v t :
  id v <> k -> preserves (vault_at k) (RichVault.execute_redeem_tokens v t).
Proof.
  intros Hk s. unfold RichVault.execute_redeem_tokens, bind.
  pose proof (vault_at_cancel_redeem k v t Hk s) as H1.
  destruct (RichVault.decrease_to_be_redeemed v t s) as [[v'|e|] s1] eqn:E; try done. cbn in H1.
  assert (id v' = id v) as Hid.
  { unfold RichVault.decrease_to_be_redeemed in E. inv_ok. inv_registry. by destruct v. }
  rewrite <- H1. apply vault_at_decrease_issued. congruence.
Qed.

Lemma handle_vault_at w s s' :
  vault_at (id w) s' = vault_at (id w) s -> handle w s -> handle w s'.
Proof. unfold handle, vault_at. by intros ->. Qed.

(** The part of [replace_tokens] and [cancel_replace_tokens] that releases the
    collateral of a liquidated old vault. *)
Lemma release_liquidated c n g v w a {B} (m : M Chain B) s v' s' :
  Books c n g s -> handle v s -> handle w s -> id v <> id w ->
  (forall n g, maintains (Books c n g) m) -> preserves (fun s => Vaults (registry s)) m ->
  (let* v' := RichVault.decrease_liquidated_collateral v a in m ;;; ret v') s = (Ok v', s') ->
  Books c n g s' /\ handle v' s' /\ handle w s' /\ id v' = id v.
Proof.
  intros HB Hv Hw Hne Hm Hf H. inv_ok.
  match goal with E : RichVault.decrease_liquidated_collateral _ _ _ = _, E' : m _ = _ |- _ =>
    destruct (updates_decrease_liquidated c v a n g s _ _ HB Hv E) as (HB1 & Hv1 & Hid);
    apply (preserves_ok (vault_at (id w))) in E; [|by apply vault_at_decrease_liquidated];
    pose proof (preserves_ok _ _ _ _ _ Hf E') as F; eapply Hm in E'; [|exact HB1];
    apply (handle_vault_at w) in E; [|done] end.
  rewrite Z.add_0_r in *. unfold handle in *. cbn in F. rewrite F. auto.
Qed.

Lemma preserves_vaults {A} (m : M Chain A) :
  preserves books_of m -> preserves (fun s => Vaults (registry s)) m.
Proof. intros Hm s. by specialize (Hm s) as [=]. Qed.

Lemma vaults_to_liquidation k p a :
  preserves (fun s => Vaults (registry s))
    (transfer_funds (LiquidatedCollateral k) (FromLiquidationVault p) a).
Proof.
  assert (HL : forall A (m : M Ledger A), preserves (fun s => Vaults (registry s)) (on_ledger m)).
  { intros A m s. by rewrite (preserves_registry_ledger m s). }
  assert (HS : forall w, preserves (fun s => Vaults (registry s)) (RichSystemVault.update w)).
  { intros w s. unfold RichSystemVault.update, on_registry, bind, zoom, modify, ret. cbn.
    apply Vaults_put_liquidation_vault. }
  unfold transfer_funds. cbn [take_from give_to]. unfold RichSystemVault.increase_collateral.
  pose proof (fun p a => preserves_vaults _ (preserves_decrease_total p a)).
  pose proof (fun p a => preserves_vaults _ (preserves_try_increase_total p a)).
  pose proof (fun p => preserves_vaults _ (preserves_get_liquidation p)). solve_frame.
Qed.

(** The old and the new vault of a replacement are different: the request
    checks it. *)
Lemma shifts_replace_tokens c k1 k2 t x :
  existential_deposit c = 0 -> 0 <= amount t -> k1 <> k2 ->
  shifts c 0 0 (replace_tokens k1 k2 t x).
Proof.
  intros Hed Ht Hk n g s b s' HB H. unfold replace_tokens in H.
  apply bind_ok in H as (v & s1 & E & H). apply get_vault_handle in E as (-> & Hv & <-); [|apply HB].
  apply bind_ok in H as (w & s1 & E & H). apply get_vault_handle in E as (-> & Hw & <-); [|apply HB].
  apply bind_ok in H as (v1 & s1 & E & H).
  assert (Books c n g s1 /\ handle v1 s1 /\ handle w s1 /\ id v1 = id v) as (HB1 & Hv1 & Hw1 & Hid).
  { destruct (is_liquidated v); [|by inv_ok].
    apply bind_ok in E as (r & s2 & [_ ->]%lift_ok & E).
    eapply (release_liquidated c n g v w _ (pool_deposit_collateral _ _ _)); eauto.
    - intros. apply maintains_books. eauto with frame.
    - apply preserves_vaults. eauto with frame. }
  apply bind_ok in H as (v2 & s2 & E2 & H). apply bind_ok in H as (w2 & s3 & E3 & H). inv_ok.
  destruct (updates_execute_redeem c v1 t Ht n g _ _ _ HB1 Hv1 E2) as (HB2 & Hv2 & _).
  apply (preserves_ok (vault_at (id w))) in E2; [|apply vault_at_execute_redeem; congruence].
  eapply handle_vault_at in Hw1; [|exact E2].
  destruct (updates_execute_issue c w t Ht _ _ _ _ _ HB2 Hw1 E3) as (HB3 & _). eqn_books HB3.
Qed.

Lemma maintains_cancel_replace c n g k1 k2 t :
  existential_deposit c = 0 -> 0 <= amount t -> k1 <> k2 ->
  maintains (Books c n g) (cancel_replace_tokens k1 k2 t).
Proof.
  intros Hed Ht Hk s b s' HB H. unfold cancel_replace_tokens in H.
  apply bind_ok in H as (v & s1 & E & H). apply get_vault_handle in E as (-> & Hv & <-); [|apply HB].
  apply bind_ok in H as (w & s1 & E & H). apply get_vault_handle in E as (-> & Hw & <-); [|apply HB].
  apply bind_ok in H as (v1 & s1 & E & H).
  assert (Books c n g s1 /\ handle v1 s1 /\ handle w s1 /\ id v1 = id v) as (HB1 & Hv1 & Hw1 & Hid).
  { destruct (is_liquidated v); [|by inv_ok].
    apply bind_ok in E as (r & s2 & [_ ->]%lift_ok & E).
    eapply (release_liquidated c n g v w _ (transfer_funds _ _ _)); eauto.
    - eauto with maintains.
    - apply vaults_to_liquidation. }
  apply bind_ok in H as (v2 & s2 & E2 & H). apply bind_ok in H as (w2 & s3 & E3 & H). inv_ok.
  destruct (updates_decrease_to_be_redeemed c v1 t Ht n g _ _ _ HB1 Hv1 E2) as (HB2 & _).
  apply (preserves_ok (vault_at (id w))) in E2; [|apply vault_at_cancel_redeem; congruence].
  eapply handle_vault_at in Hw1; [|exact E2].
  destruct (updates_decrease_to_be_issued c w t _ _ _ _ _ HB2 Hw1 E3) as (HB3 & _). eqn_books HB3.
Qed.

End shifts.

#[export] Hint Resolve maintains_cancel_replace : maintains.

(** ** Liquidation *)

Section liquidation.
Context `{RT : Runtime} {L : RuntimeLaws RT} (c : CurrencyId) (Hed : existential_deposit c = 0).
Context (n g : Z).
Implicit Types (s : Chain) (v : Vault).

Lemma put_liquidation_vault_again p lv1 lv2 r :
  put_liquidation_vault p lv2 (put_liquidation_vault p lv1 r) = put_liquidation_vault p lv2 r.
Proof. destruct r. simpl. by rewrite insert_insert_eq. Qed.

(** What [liquidate] does at the end: all tokens move to the liquidation vault. *)
Definition hand_over v : M Chain Vault :=
  let* liquidation_vault := get_rich_liquidation_vault (currencies (id v)) in
  let* liquidation_vault :=
    RichSystemVault.increase_issued liquidation_vault (RichVault.issued_tokens v) in
  let* liquidation_vault :=
    RichSystemVault.increase_to_be_issued liquidation_vault (RichVault.to_be_issued_tokens v) in
  let* liquidation_vault :=
    RichSystemVault.increase_to_be_redeemed liquidation_vault (RichVault.to_be_redeemed_tokens v) in
  RichVault.update (set_to_be_issued_tokens 0 (set_issued_tokens 0 (set_vault_status Liquidated v))).

Lemma updates_hand_over v : is_liquidated v = false -> updates c v 0 (hand_over v).
Proof.
  intros Hl n' g' s v' s' HB Hh H. pose proof (inv_vault _ (proj1 HB) _ _ Hh) as Hok.
  unfold hand_over, RichSystemVault.increase_issued, RichSystemVault.increase_to_be_issued,
    RichSystemVault.increase_to_be_redeemed in H. inv_ok. inv_registry.
  cbn [registry set_registry currency_pair] in *. inv_amount.
  pose proof (inv_lv_le _ (currencies (id v)) (proj1 HB)) as Hle.
  pose proof (currency_pair_of (currencies (id v)) _ (proj1 HB)) as Hp.
  eapply (books_put_both c n' g' 0 v _ _ s); [|reflexivity|exact HB|exact Hh|..].
  { cbn [registry set_registry]. rewrite !put_liquidation_vault_again.
    match goal with |- put_vault _ _ (put_liquidation_vault _ ?w _) =
      put_vault _ _ (put_liquidation_vault _ ?e _) => unify e w end. reflexivity. }
  all: counters v Hl; rewrite bool_decide_true by done; auto; lia.
Qed.

(** The vault was active when its replace collateral was released. *)
Lemma withdraw_replace_request_active k t s x s' v :
  RegistryInv (registry s) -> withdraw_replace_request k t s = (Ok x, s') ->
  vault_at k s' = Some v -> is_liquidated v = false.
Proof.
  intros I H Hv. unfold withdraw_replace_request in H.
  apply bind_ok in H as ([u r] & s1 & E1 & H).
  assert (RegistryInv (registry s1)) as I1.
  { refine (proj1 (maintains_decrease_to_be_replaced c _ _ k t s _ s1 _ E1)). by split_and!. }
  apply bind_ok in H as (? & s2 & E2 & H). unfold transfer_funds in E2. cbn [take_from give_to] in E2.
  apply bind_ok in E2 as (? & s3 & E3 & E2).
  apply bind_ok in E3 as (w & s4 & E4 & E3).
  apply get_active_handle in E4 as (-> & Hh & <- & Hl); [|done].
  unfold RichVault.decrease_available_replace_collateral in E3. inv_ok. inv_registry.
  repeat match goal with
  | E : on_ledger _ _ = _ |- _ => apply (preserves_ok registry) in E; [|apply preserves_registry_ledger]
  end.
  unfold vault_at in Hv. rewrite E4, E3 in Hv. cbn [registry set_registry] in Hv.
  destruct w. cbn in Hv. rewrite Vaults_put_vault in Hv. injection Hv as <-. exact Hl.
Qed.

Lemma updates_slash_for_to_be_redeemed v a : updates c v 0 (slash_for_to_be_redeemed v a).
Proof.
  intros n' g' s v' s' HB Hh H. unfold slash_for_to_be_redeemed, RichVault.get_vault_collateral in H.
  inv_ok. 
  repeat match goal with
  | E : _ _ = (Ok _, _), HB : Books _ _ _ _ |- _ =>
      apply (preserves_ok books_of) in E; [|solve [eauto with frame]];
      apply (books_ext _ _ _ _ _ E) in HB; apply (handle_ext _ _ _ E) in Hh; clear E
  end.
  by eapply (updates_increase_liquidated c v).
Qed.

Lemma slash_for_to_be_redeemed_status v a s v' s' :
  slash_for_to_be_redeemed v a s = (Ok v', s') -> is_liquidated v' = is_liquidated v.
Proof.
  unfold slash_for_to_be_redeemed, RichVault.increase_liquidated_collateral.
  intros H. inv_ok. inv_registry. by destruct v.
Qed.

(** [slash_to_liquidation_vault] keeps the books and every stored vault. *)
Lemma slash_to_liquidation_quiet v a s x s' :
  Books c n g s -> slash_to_liquidation_vault v a s = (Ok x, s') ->
  Books c n g s' /\ Vaults (registry s') = Vaults (registry s).
Proof.
  intros HB H. split.
  - revert HB H. apply (fun m => (m : maintains _ _) s x s').
    unfold slash_to_liquidation_vault, RichVault.get_vault_collateral.
    apply maintains_bind; [solve_maintains|]. intros r. destruct (match Amount.checked_sub a r with
      Ok _ => _ | _ => _ end). solve_maintains.
  - apply (preserves_ok (fun s => Vaults (registry s))) in H; [done|].
    unfold slash_to_liquidation_vault, RichVault.get_vault_collateral.
    pose proof (fun k => preserves_vaults _ (preserves_compute_collateral k)).
    pose proof (fun k x a o => preserves_vaults _ (preserves_pool_withdraw k x a o)).
    pose proof (fun A (m : M StakingState A) => preserves_vaults _ (preserves_on_staking m)).
    pose proof vaults_to_liquidation. apply preserves_bind; [done|]. intros r.
    destruct (match Amount.checked_sub a r with Ok _ => _ | _ => _ end). solve_frame.
Qed.

(** Liquidating a vault moves its tokens to the liquidation vault and keeps
    their number. *)
Lemma maintains_liquidate v : maintains (Books c n g) (liquidate v).
Proof.
  intros s x s' HB H. unfold liquidate in H. cbv zeta in H.
  apply bind_ok in H as (t & s1 & [-> ->]%gets_ok & H).
  apply bind_ok in H as (threshold & s1 & [_ ->]%lift_ok & H).
  apply bind_ok in H as (used & s1 & E & H).
  apply (preserves_ok books_of) in E; [|eauto with frame]. apply (books_ext _ _ _ _ _ E) in HB.
  apply bind_ok in H as (w & s2 & E2 & H).
  pose proof (fun v => withdraw_replace_request_active _ _ _ _ _ v (proj1 HB) E2) as Hact.
  eapply (maintains_withdraw_replace_request c Hed) in E2; [|exact HB].
  apply bind_ok in H as (v1 & s3 & Ev & H). apply get_vault_handle in Ev as (-> & Hv1 & Hid); [|apply E2].
  rewrite <- Hid in Hact. specialize (Hact v1 Hv1).
  do 3 apply bind_ok in H as (? & ? & [_ ->]%lift_ok & H).
  apply bind_ok in H as (? & ? & [_ ->]%lift_ok & H).
  apply bind_ok in H as (v2 & s4 & E4 & H).
  pose proof (slash_for_to_be_redeemed_status _ _ _ _ _ E4) as Hl2. rewrite Hact in Hl2.
  destruct (updates_slash_for_to_be_redeemed v1 _ n g _ _ _ E2 Hv1 E4) as (HB4 & Hv2 & Hid2).
  apply bind_ok in H as (? & s5 & E5 & H).
  rewrite Z.add_0_r in HB4. apply slash_to_liquidation_quiet in E5 as [HB5 F]; [|done].
  assert (handle v2 s5) as Hv5 by (unfold handle; by rewrite F).
  assert (exists v3, hand_over v2 s5 = (Ok v3, s')) as [v3 E6].
  { unfold hand_over. repeat (apply bind_ok in H as (? & ? & ?E & H); erewrite bind_run by eassumption).
    inv_ok. eauto. }
  destruct (updates_hand_over v2 Hl2 n g _ _ _ HB5 Hv5 E6) as (HB6 & _). eqn_books HB6.
Qed.

End liquidation.

#[export] Hint Resolve maintains_liquidate : maintains.

(** ** The extrinsics *)

Section extrinsics.
Context `{RT : Runtime} {L : RuntimeLaws RT} (c : CurrencyId) (Hed : existential_deposit c = 0).
Context (n g : Z).
Implicit Types (s : Chain) (v : Vault).

Lemma maintains_liquidate_vault k : maintains (Books c n g) (liquidate_vault k).
Proof. unfold liquidate_vault, RichVault.get_total_collateral. solve_maintains. Qed.

Lemma maintains_report k : maintains (Books c n g) (report_undercollateralized_vault k).
Proof.
  pose proof maintains_liquidate_vault. unfold report_undercollateralized_vault. solve_maintains.
Qed.

Lemma maintains_registry_settings (f : VaultRegistryStorage -> VaultRegistryStorage) :
  (forall r, Vaults (f r) = Vaults r /\ LiquidationVault (f r) = LiquidationVault r) ->
  maintains (Books c n g) (on_registry (modify f)).
Proof. intros Hf. apply maintains_books, preserves_on_registry, Hf. Qed.

Lemma books_new_vault k s :
  Books c n g s -> Vaults (registry s) !! k = None ->
  Books c n g (set_registry (put_vault k (vault_new k) (registry s)) s).
Proof.
  intros (I & <- & <-) Hk. unfold Books. cbn [registry set_registry ledger].
  split_and!; [|by rewrite issued_put_new_vault|done]. by apply inv_put_new_vault.
Qed.

Lemma maintains_register k x : maintains (Books c n g) (_register_vault k x).
Proof.
  unfold _register_vault, contains_key, get_minimum_collateral_vault.
  do 11 (apply maintains_bind; [solve_maintains|]; intros ?). cbv zeta.
  do 3 (apply maintains_bind; [solve_maintains|]; intros ?).
  intros s b s' HB H. unfold vault_exists, insert_vault, on_registry in H.
  apply bind_ok in H as (e & s1 & [-> ->]%gets_ok & H).
  apply bind_ok in H as (? & s1 & [He ->]%ensure_ok & H).
  apply negb_true_iff, bool_decide_eq_false, eq_None_not_Some in He.
  apply bind_ok in H as (? & s1 & E & H). inv_ok. eapply maintains_try_deposit, H; [done|].
  by apply books_new_vault.
Qed.

Lemma maintains_register_vault o p x : maintains (Books c n g) (register_vault o p x).
Proof. pose proof maintains_register. unfold register_vault. solve_maintains. Qed.

Lemma maintains_deposit_collateral o p x : maintains (Books c n g) (deposit_collateral o p x).
Proof. unfold deposit_collateral, RichVault.get_total_collateral. solve_maintains. Qed.

Lemma maintains_withdraw_collateral o p x : maintains (Books c n g) (withdraw_collateral o p x).
Proof. unfold withdraw_collateral, RichVault.get_total_collateral. solve_maintains. Qed.

Lemma maintains_register_public_key o k : maintains (Books c n g) (register_public_key o k).
Proof.
  unfold register_public_key. solve_maintains. apply maintains_registry_settings. by intros [].
Qed.

Lemma maintains_accept_new_issues o p b : maintains (Books c n g) (accept_new_issues o p b).
Proof.
  unfold accept_new_issues. apply maintains_transactional, maintains_bind; [solve_maintains|].
  intros a. apply maintains_active_vault. intros v s u s' HB Hh Hid Hl H.
  eapply (after_update c n g v); [by apply updates_accept_new_issues; left | done | done | exact H |].
  solve_maintains.
Qed.

Lemma maintains_custom_threshold o p t :
  maintains (Books c n g) (set_custom_secure_threshold o p t).
Proof.
  unfold set_custom_secure_threshold, try_set_vault_custom_secure_threshold.
  apply maintains_transactional, maintains_bind; [solve_maintains|]. intros a.
  apply maintains_bind; [solve_maintains|]. intros []. quiet_method.
Qed.

Lemma maintains_recover o p : maintains (Books c n g) (recover_vault_id o p).
Proof.
  unfold recover_vault_id. apply maintains_transactional.
  do 3 (apply maintains_bind; [solve_maintains|]; intros ?).
  apply maintains_vault. intros v s u s' HB Hh Hid H.
  apply bind_ok in H as (? & s1 & [Hz ->]%ensure_ok & H). apply Z.eqb_eq in Hz.
  eapply (after_update c n g v); [by apply updates_accept_new_issues; right | done | done | exact H |].
  solve_maintains.
Qed.

Lemma maintains_registry_setters :
  (forall o k x, maintains (Books c n g) (set_minimum_collateral o k x)) /\
  (forall o p x, maintains (Books c n g) (set_system_collateral_ceiling o p x)) /\
  (forall o p x, maintains (Books c n g) (set_secure_collateral_threshold_ o p x)) /\
  (forall o p x, maintains (Books c n g) (set_premium_redeem_threshold o p x)) /\
  (forall o p x, maintains (Books c n g) (set_liquidation_collateral_threshold o p x)) /\
  (forall o x, maintains (Books c n g) (set_punishment_delay o x)).
Proof.
  unfold set_minimum_collateral, set_system_collateral_ceiling, set_secure_collateral_threshold_,
    set_premium_redeem_threshold, set_liquidation_collateral_threshold, set_punishment_delay.
  split_and!; intros; solve_maintains; apply maintains_registry_settings; by intros [].
Qed.

End extrinsics.
