(* ===== verification/RateLimit.v ===== *)
(** * The rate limit of issue and redeem requests

    [src/pallets/issue/src/lib.rs] and [src/pallets/redeem/src/lib.rs] have the
    same four functions on storage items of their own: at most
    [LimitVolumeAmount] may be requested per interval of [IntervalLength]
    blocks.  They are written once, for the items at [get] and [put]. *)

From S2P Require Import Prelude FixedPoint Primitives Currency Oracle Chain.

Section rate_limit.
Context `{RT : Runtime} (get : Chain -> VolumeLimit) (put : VolumeLimit -> Chain -> Chain).
(** [ExceedLimitVolumeForIssueRequest], or its redeem counterpart. *)
Context (exceeded : DispatchError).

Definition set_limits (amount_ : option Balance) (currency_id_ : CurrencyId)
    (interval_length : BlockNumber) : M Chain unit :=
  modify (fun s =>
    let v := get s in
    put (mkVolumeLimit amount_ currency_id_ (CurrentVolumeAmount v) interval_length
           (LastIntervalIndex v)) s).

Definition set_current_volume (x : Balance) : M Chain unit :=
  modify (fun s =>
    let v := get s in
    put (mkVolumeLimit (LimitVolumeAmount v) (LimitVolumeCurrencyId v) x (IntervalLength v)
           (LastIntervalIndex v)) s).

Definition set_last_interval (x : BlockNumber) : M Chain unit :=
  modify (fun s =>
    let v := get s in
    put (mkVolumeLimit (LimitVolumeAmount v) (LimitVolumeCurrencyId v) (CurrentVolumeAmount v)
           (IntervalLength v) x) s).

Definition convert_into_limit_currency_id_amount (a : Amount) : M Chain Amount :=
  let* c := gets (fun s => LimitVolumeCurrencyId (get s)) in
  map_err (convert_to a c) (Other "Missing Exchange Rate").

Definition increase_interval_volume (a : Amount) : M Chain unit :=
  let* limit := gets (fun s => LimitVolumeAmount (get s)) in
  match limit with
  | Some _ =>
      let* volume := convert_into_limit_currency_id_amount a in
      let* current_volume := gets (fun s => CurrentVolumeAmount (get s)) in
      set_current_volume (u128_saturating_add current_volume (amount volume))
  | None => ret tt
  end.

(** [u32::checked_div]: none for an interval of zero blocks. *)
Definition interval_index (block interval_length : BlockNumber) : option BlockNumber :=
  if interval_length =? 0 then None else Some (block / interval_length).

Definition check_volume (amount_requested : Amount) : M Chain unit :=
  let* limit := gets (fun s => LimitVolumeAmount (get s)) in
  match limit with
  | Some limit_volume =>
      let* current_block := gets (fun s => block_number (system s)) in
      let* interval_length := gets (fun s => IntervalLength (get s)) in
      let current_index := interval_index current_block interval_length in
      let* last := gets (fun s => LastIntervalIndex (get s)) in
      let* current_volume :=
        if negb (bool_decide (current_index = Some last)) then
          set_last_interval (default 0 current_index) ;;;
          set_current_volume 0 ;;;
          ret 0
        else gets (fun s => CurrentVolumeAmount (get s)) in
      let* new_amount := convert_into_limit_currency_id_amount amount_requested in
      ensure (u128_saturating_add (amount new_amount) current_volume <=? limit_volume) exceeded
  | None => ret tt
  end.

End rate_limit.
