(* ===== verification/Issue.v ===== *)
(** * The issue pallet

    [src/pallets/issue/src/lib.rs]: a user asks a vault for wrapped tokens,
    pays the vault on Stellar, and the payment proof mints the tokens.  A
    request is pending until it is completed or cancelled; a cancelled request
    can still be completed while the vault accepts it.

    [issue: &mut IssueRequest] is the request passed in and the one returned. *)

From S2P Require Import Prelude FixedPoint Primitives Currency Security Oracle StellarRelay Chain.
From S2P Require Import Fee VaultRegistry RateLimit.

(** ** Requests *)

Definition set_issue_amounts (amount_ fee_ : Balance) (r : IssueRequest) : IssueRequest :=
  mkIssueRequest (issue_vault r) (issue_opentime r) (issue_request_period r)
    (issue_griefing_collateral_ r) amount_ (issue_asset r) fee_ (issue_requester r)
    (issue_stellar_address r) (issue_status r).

Definition with_issue_status (status : IssueRequestStatus) (r : IssueRequest) : IssueRequest :=
  mkIssueRequest (issue_vault r) (issue_opentime r) (issue_request_period r)
    (issue_griefing_collateral_ r) (issue_amount_ r) (issue_asset r) (issue_fee_ r)
    (issue_requester r) (issue_stellar_address r) status.

Section issue.
Context `{RT : Runtime}.

(** [IssueRequestExt] *)
Definition issue_amount (r : IssueRequest) : Amount := Amount.new (issue_amount_ r) (issue_asset r).
Definition issue_fee (r : IssueRequest) : Amount := Amount.new (issue_fee_ r) (issue_asset r).
Definition issue_griefing_collateral (r : IssueRequest) : Amount :=
  Amount.new (issue_griefing_collateral_ r) GetGriefingCollateralCurrencyId.

(** ** Storage *)

Definition put_issue_request (k : H256) (f : option IssueRequest -> option IssueRequest)
  : M Chain unit :=
  on_issue (modify (fun st =>
    mkIssueStorage (partial_alter f k (IssueRequests st)) (IssuePeriod st)
      (IssueMinimumTransferAmount st) (issue_volume st))).

Definition insert_issue_request (key : H256) (value : IssueRequest) : M Chain unit :=
  put_issue_request key (fun _ => Some value).

Definition set_issue_status (id : H256) (status : IssueRequestStatus) : M Chain unit :=
  put_issue_request id (option_map (with_issue_status status)).

Definition issue_period : M Chain BlockNumber := gets (fun s => IssuePeriod (issue_st s)).

Definition issue_minimum_transfer_amount (c : CurrencyId) : M Chain Amount :=
  let* a := gets (fun s => IssueMinimumTransferAmount (issue_st s)) in ret (Amount.new a c).

Definition get_issue_request (issue_id : H256) : M Chain IssueRequest :=
  let* r := gets (fun s => IssueRequests (issue_st s) !! issue_id) in
  lift (ok_or r issue.IssueIdNotFound).

Definition get_executable_issue_request_from_id (issue_id : H256) : M Chain IssueRequest :=
  let* request := get_issue_request issue_id in
  match issue_status request with
  | IssueCompleted => throw issue.IssueCompleted
  | IssueCancelled =>
      ensure_accepting_new_issues (issue_vault request) ;;;
      ret request
  | IssuePending => ret request
  end.

Definition get_pending_issue (issue_id : H256) : M Chain IssueRequest :=
  let* request := get_issue_request issue_id in
  match issue_status request with
  | IssueCompleted => throw issue.IssueCompleted
  | IssueCancelled => throw issue.IssueCancelled
  | IssuePending => ret request
  end.

Definition get_issue_requests_for_account (account_id : AccountId) : M Chain (list H256) :=
  let* entries := gets (fun s => map_to_list (IssueRequests (issue_st s))) in
  ret (map fst (List.filter (fun '(_, r) => bool_decide (issue_requester r = account_id)) entries)).

Definition get_issue_requests_for_vault (vault_id : AccountId) : M Chain (list H256) :=
  let* entries := gets (fun s => map_to_list (IssueRequests (issue_st s))) in
  ret (map fst
    (List.filter (fun '(_, r) => bool_decide (account_id (issue_vault r) = vault_id)) entries)).

(** ** The rate limit *)

Definition put_issue_volume (v : VolumeLimit) (s : Chain) : Chain :=
  set_issue (mkIssueStorage (IssueRequests (issue_st s)) (IssuePeriod (issue_st s))
    (IssueMinimumTransferAmount (issue_st s)) v) s.

Definition check_volume (a : Amount) : M Chain unit :=
  RateLimit.check_volume (fun s => issue_volume (issue_st s)) put_issue_volume
    issue.ExceedLimitVolumeForIssueRequest a.
Definition increase_interval_volume (a : Amount) : M Chain unit :=
  RateLimit.increase_interval_volume (fun s => issue_volume (issue_st s)) put_issue_volume a.
Definition _rate_limit_update (a : option Balance) (c : CurrencyId) (interval_length : BlockNumber)
  : M Chain unit :=
  set_limits (fun s => issue_volume (issue_st s)) put_issue_volume a c interval_length.

(** ** Requesting *)

Definition _request_issue (requester : AccountId) (amount_requested : Balance) (vault_id : VaultId)
  : M Chain H256 :=
  let amount_requested := Amount.new amount_requested (wrapped_currency vault_id) in
  lift (Amount.ensure_is_compatible_with_target_chain amount_requested) ;;;
  check_volume amount_requested ;;;
  let* vault := get_active_vault_from_id vault_id in
  ensure (bool_decide (status vault = Active true)) issue.VaultNotAcceptingNewIssues ;;;
  _ensure_not_banned vault_id ;;;
  let* amount_collateral := convert_to amount_requested GetGriefingCollateralCurrencyId in
  let* griefing := get_issue_griefing_collateral amount_collateral in
  let griefing_collateral := Amount.new (amount griefing) GetGriefingCollateralCurrencyId in
  on_ledger (Amount.lock_on griefing_collateral requester) ;;;
  let* minimum := issue_minimum_transfer_amount (wrapped_currency vault_id) in
  let* enough := lift (Amount.ge amount_requested minimum) in
  ensure enough issue.AmountBelowMinimumTransferAmount ;;;
  try_increase_to_be_issued_tokens vault_id amount_requested ;;;
  let* fee := get_issue_fee amount_requested in
  let* fee := lift (Amount.round_to_target_chain fee) in
  let* amount_user := lift (Amount.checked_sub amount_requested fee) in
  let* issue_id := chain_secure_id in
  let* stellar_public_key := get_stellar_public_key (account_id vault_id) in
  let* opentime := in_security active_block_number in
  let* period := issue_period in
  let request := mkIssueRequest vault_id opentime period (amount griefing_collateral)
    (amount amount_user) (currency_id amount_user) (amount fee) requester stellar_public_key
    IssuePending in
  insert_issue_request issue_id request ;;;
  ret issue_id.

(** ** Executing *)

(** The request in memory gets the new amount and fee, the stored one only the
    amount. *)
Definition set_issue_amount (issue_id : H256) (issue : IssueRequest)
    (transferred_amount confiscated_griefing_collateral : Amount) : M Chain IssueRequest :=
  let* fee := get_issue_fee transferred_amount in
  let* amount_ := lift (Amount.checked_sub transferred_amount
                          (Amount.new (amount fee) (issue_asset issue))) in
  put_issue_request issue_id
    (option_map (fun r => set_issue_amounts (amount amount_) (issue_fee_ r) r)) ;;;
  ret (set_issue_amounts (amount amount_) (amount fee) issue).

Definition decrease_issue_amount (issue_id : H256) (issue : IssueRequest)
    (amount_transferred expected_total_amount : Amount) : M Chain (IssueRequest * Amount) :=
  let* deficit := lift (Amount.checked_sub expected_total_amount amount_transferred) in
  decrease_to_be_issued_tokens (issue_vault issue) deficit ;;;
  let* to_release_collateral :=
    lift (calculate_collateral (issue_griefing_collateral issue) amount_transferred
            expected_total_amount) in
  let* slashed_collateral :=
    lift (Amount.checked_sub (issue_griefing_collateral issue) to_release_collateral) in
  transfer_funds (UserGriefing (issue_requester issue))
    (FreeBalance (account_id (issue_vault issue))) slashed_collateral ;;;
  let* issue := set_issue_amount issue_id issue amount_transferred slashed_collateral in
  ret (issue, to_release_collateral).

Definition try_increase_issue_amount (issue_id : H256) (issue : IssueRequest)
    (amount_transferred expected_total_amount : Amount) : M Chain IssueRequest :=
  let* surplus_amount := lift (Amount.checked_sub amount_transferred expected_total_amount) in
  let* max_allowed := get_issuable_tokens_from_vault (issue_vault issue) in
  let* issue_amount := lift (Amount.min surplus_amount max_allowed) in
  let* result := attempt (try_increase_to_be_issued_tokens (issue_vault issue) issue_amount) in
  if is_ok result then
    let* total := lift (Amount.checked_add expected_total_amount issue_amount) in
    set_issue_amount issue_id issue total (Amount.zero GetGriefingCollateralCurrencyId)
  else ret issue.

Definition _handle_issue_requests (executor : AccountId) (issue_id : H256) (issue : IssueRequest)
    (amount_transferred : Amount) : M Chain IssueRequest :=
  let requester := issue_requester issue in
  let* expected_total_amount := lift (Amount.checked_add (issue_amount issue) (issue_fee issue)) in
  match issue_status issue with
  | IssueCompleted => throw issue.IssueCompleted
  | IssueCancelled =>
      try_increase_to_be_issued_tokens (issue_vault issue) amount_transferred ;;;
      let* less := lift (Amount.lt amount_transferred expected_total_amount) in
      (if less then ensure (bool_decide (requester = executor)) issue.InvalidExecutor
       else ret tt) ;;;
      let* differs := lift (Amount.ne amount_transferred expected_total_amount) in
      if differs then
        set_issue_amount issue_id issue amount_transferred
          (Amount.zero GetGriefingCollateralCurrencyId)
      else ret issue
  | IssuePending =>
      let* less := lift (Amount.lt amount_transferred expected_total_amount) in
      let* result :=
        if less then
          ensure (bool_decide (requester = executor)) issue.InvalidExecutor ;;;
          decrease_issue_amount issue_id issue amount_transferred expected_total_amount
        else
          let* more := lift (Amount.gt amount_transferred expected_total_amount) in
          let* liquidated := if more then is_vault_liquidated (issue_vault issue) else ret true in
          let* issue :=
            if more && negb liquidated
            then try_increase_issue_amount issue_id issue amount_transferred expected_total_amount
            else ret issue in
          ret (issue, issue_griefing_collateral issue) in
      let '(issue, to_release_griefing_collateral) := result in
      on_ledger (Amount.unlock_on to_release_griefing_collateral requester) ;;;
      ret issue
  end.

Definition relay_validate (env : TransactionEnvelope) (envelopes : list ScpEnvelope)
    (transaction_set : TransactionSetType) : M Chain unit :=
  let* n := gets (fun s => block_number (system s)) in
  let* st := gets relay_st in
  lift (StellarRelay.validate_stellar_transaction IsPublicNetwork n env envelopes
          transaction_set st).

Definition validate_stellar_transaction (issue_id : H256)
    (transaction_envelope_xdr_encoded externalized_envelopes_encoded transaction_set_encoded : Bytes)
  : M Chain TransactionEnvelope :=
  let* transaction_envelope := lift (construct_from_raw_encoded_xdr transaction_envelope_from_xdr
                                       transaction_envelope_xdr_encoded) in
  let* envelopes := lift (construct_from_raw_encoded_xdr scp_envelopes_from_xdr
                            externalized_envelopes_encoded) in
  let* transaction_set := lift (construct_from_raw_encoded_xdr transaction_set_from_xdr
                                  transaction_set_encoded) in
  let* shortened_request_id := lift (derive_shortened_request_id to_base58 issue_id) in
  lift (ensure_transaction_memo_matches transaction_envelope shortened_request_id) ;;;
  relay_validate transaction_envelope envelopes transaction_set ;;;
  ret transaction_envelope.

Definition _execute_issue (executor : AccountId) (issue_id : H256)
    (transaction_envelope_xdr_encoded externalized_envelopes_encoded transaction_set_encoded : Bytes)
  : M Chain unit :=
  let* issue := get_executable_issue_request_from_id issue_id in
  let requester := issue_requester issue in
  let* transaction_envelope :=
    validate_stellar_transaction issue_id transaction_envelope_xdr_encoded
      externalized_envelopes_encoded transaction_set_encoded in
  let* amount_transferred :=
    lift (get_amount_from_transaction_envelope transaction_envelope (issue_stellar_address issue)
            (issue_asset issue)) in
  let* issue := _handle_issue_requests executor issue_id issue amount_transferred in
  let issue_amount := issue_amount issue in
  let issue_fee := issue_fee issue in
  let* total := lift (Amount.checked_add issue_amount issue_fee) in
  issue_tokens (issue_vault issue) total ;;;
  on_ledger (Amount.mint_to issue_amount requester) ;;;
  increase_interval_volume issue_amount ;;;
  on_ledger (Amount.mint_to issue_fee fee_pool_account_id) ;;;
  fee_distribute_rewards issue_fee ;;;
  set_issue_status issue_id IssueCompleted.

(** ** Cancelling *)

(** [T::BlockNumberToBalance::convert] widens the block number. *)
Definition _cancel_issue (requester : AccountId) (issue_id : H256) : M Chain unit :=
  let* issue := get_pending_issue issue_id in
  let* period := issue_period in
  let issue_period := Z.max period (issue_request_period issue) in
  let* expired := in_security (parachain_block_expired (issue_opentime issue) issue_period) in
  let* to_be_slashed_collateral :=
    if expired then ret (issue_griefing_collateral issue)
    else if bool_decide (issue_requester issue = requester) then
      let* now := in_security active_block_number in
      let blocks_elapsed := Z.max 0 (now - issue_opentime issue) in
      let griefing_collateral := issue_griefing_collateral issue in
      let* slashed_collateral :=
        lift (calculate_collateral griefing_collateral
                (Amount.new blocks_elapsed (currency_id griefing_collateral))
                (Amount.new issue_period (currency_id griefing_collateral))) in
      let* slashed_collateral := lift (Amount.min slashed_collateral griefing_collateral) in
      let* released_collateral :=
        lift (Amount.saturating_sub griefing_collateral slashed_collateral) in
      on_ledger (Amount.unlock_on released_collateral requester) ;;;
      ret slashed_collateral
    else throw issue.TimeNotExpired in
  let* liquidated := is_vault_liquidated (issue_vault issue) in
  (if liquidated then
     on_ledger (Amount.unlock_on to_be_slashed_collateral (issue_requester issue))
   else
     transfer_funds (UserGriefing (issue_requester issue))
       (FreeBalance (account_id (issue_vault issue))) to_be_slashed_collateral) ;;;
  let* full_amount := lift (Amount.checked_add (issue_amount issue) (issue_fee issue)) in
  decrease_to_be_issued_tokens (issue_vault issue) full_amount ;;;
  set_issue_status issue_id IssueCancelled.

(** ** Extrinsics *)

Definition request_issue (ensure_signed : outcome AccountId) (a : Balance) (vault_id : VaultId)
  : M Chain H256 :=
  transactional (
    let* requester := lift ensure_signed in
    _request_issue requester a vault_id).

Definition execute_issue (ensure_signed : outcome AccountId) (issue_id : H256)
    (transaction_envelope_xdr_encoded externalized_envelopes_encoded transaction_set_encoded : Bytes)
  : M Chain unit :=
  transactional (
    let* executor := lift ensure_signed in
    _execute_issue executor issue_id transaction_envelope_xdr_encoded
      externalized_envelopes_encoded transaction_set_encoded).

Definition cancel_issue (ensure_signed : outcome AccountId) (issue_id : H256) : M Chain unit :=
  transactional (
    let* requester := lift ensure_signed in
    _cancel_issue requester issue_id).

Definition set_issue_period (ensure_root : outcome unit) (period : BlockNumber) : M Chain unit :=
  transactional (
    lift ensure_root ;;;
    on_issue (modify (fun st => mkIssueStorage (IssueRequests st) period
      (IssueMinimumTransferAmount st) (issue_volume st)))).

Definition rate_limit_update (ensure_root : outcome unit) (a : option Balance) (c : CurrencyId)
    (interval_length : BlockNumber) : M Chain unit :=
  transactional (
    lift ensure_root ;;;
    _rate_limit_update a c interval_length).

Definition minimum_transfer_amount_update (ensure_root : outcome unit) (new_minimum_amount : Balance)
  : M Chain unit :=
  transactional (
    lift ensure_root ;;;
    on_issue (modify (fun st => mkIssueStorage (IssueRequests st) (IssuePeriod st)
      new_minimum_amount (issue_volume st)))).

End issue.
