(* ===== verification/Redeem.v ===== *)
(** * The redeem pallet

    [src/pallets/redeem/src/lib.rs]: a user locks wrapped tokens, the vault
    pays on Stellar, and the payment proof burns the tokens.  An expired
    request can be cancelled: the user is reimbursed in collateral or gets the
    tokens back.  Also [self_redeem] for vaults and [liquidation_redeem]
    against the liquidation vault. *)

From S2P Require Import Prelude FixedPoint Primitives Currency Security Oracle StellarRelay Chain.
From S2P Require Import Fee VaultRegistry RateLimit Issue.

(** ** Requests *)

Definition with_redeem_status (status : RedeemRequestStatus) (r : RedeemRequest) : RedeemRequest :=
  mkRedeemRequest (redeem_vault r) (redeem_opentime r) (redeem_request_period r) (redeem_fee_ r)
    (redeem_transfer_fee_ r) (redeem_amount_ r) (redeem_asset r) (redeem_premium_ r)
    (redeem_redeemer r) (redeem_stellar_address r) status.

(** [RedeemRequestExt] *)
Definition redeem_amount (r : RedeemRequest) : Amount :=
  Amount.new (redeem_amount_ r) (redeem_asset r).
Definition redeem_fee (r : RedeemRequest) : Amount := Amount.new (redeem_fee_ r) (redeem_asset r).
Definition redeem_premium (r : RedeemRequest) : Amount :=
  Amount.new (redeem_premium_ r) (collateral_currency (redeem_vault r)).
Definition redeem_transfer_fee (r : RedeemRequest) : Amount :=
  Amount.new (redeem_transfer_fee_ r) (redeem_asset r).

Section redeem.
Context `{RT : Runtime}.

(** ** Storage *)

Definition put_redeem_request (k : H256) (f : option RedeemRequest -> option RedeemRequest)
  : M Chain unit :=
  on_redeem (modify (fun st =>
    mkRedeemStorage (partial_alter f k (RedeemRequests st)) (RedeemPeriod st)
      (RedeemMinimumTransferAmount st) (redeem_volume st) (CancelledRedeemAmount st))).

Definition insert_redeem_request (key : H256) (value : RedeemRequest) : M Chain unit :=
  put_redeem_request key (fun _ => Some value).

Definition set_redeem_status (id : H256) (status : RedeemRequestStatus)
  : M Chain RedeemRequestStatus :=
  put_redeem_request id (option_map (with_redeem_status status)) ;;;
  ret status.

Definition put_cancelled_amount (k : H256) (x : option (Balance * CurrencyId)) : M Chain unit :=
  on_redeem (modify (fun st =>
    mkRedeemStorage (RedeemRequests st) (RedeemPeriod st) (RedeemMinimumTransferAmount st)
      (redeem_volume st) (partial_alter (fun _ => x) k (CancelledRedeemAmount st)))).

Definition redeem_period : M Chain BlockNumber := gets (fun s => RedeemPeriod (redeem_st s)).

Definition get_current_inclusion_fee (wrapped_currency : CurrencyId) : outcome Amount :=
  Ok (Amount.new 0 wrapped_currency).

Definition get_minimum_transfer_amount (c : CurrencyId) : M Chain Amount :=
  let* a := gets (fun s => RedeemMinimumTransferAmount (redeem_st s)) in ret (Amount.new a c).

Definition get_redeem_request (redeem_id : H256) : M Chain RedeemRequest :=
  let* r := gets (fun s => RedeemRequests (redeem_st s) !! redeem_id) in
  lift (ok_or r redeem.RedeemIdNotFound).

Definition get_open_redeem_request_from_id (redeem_id : H256) : M Chain RedeemRequest :=
  let* request := get_redeem_request redeem_id in
  match redeem_status request with
  | RedeemPending => ret request
  | RedeemCompleted => throw redeem.RedeemCompleted
  | Reimbursed _ | Retried => throw redeem.RedeemCancelled
  end.

Definition get_open_or_completed_redeem_request_from_id (redeem_id : H256)
  : M Chain RedeemRequest :=
  let* request := get_redeem_request redeem_id in
  match redeem_status request with
  | RedeemPending | RedeemCompleted => ret request
  | _ => throw redeem.RedeemCancelled
  end.

Definition get_redeem_requests_for_account (account_id : AccountId) : M Chain (list H256) :=
  let* entries := gets (fun s => map_to_list (RedeemRequests (redeem_st s))) in
  ret (map fst (List.filter (fun '(_, r) => bool_decide (redeem_redeemer r = account_id)) entries)).

Definition get_redeem_requests_for_vault (vault_id : AccountId) : M Chain (list H256) :=
  let* entries := gets (fun s => map_to_list (RedeemRequests (redeem_st s))) in
  ret (map fst
    (List.filter (fun '(_, r) => bool_decide (account_id (redeem_vault r) = vault_id)) entries)).

(** ** The rate limit *)

Definition put_redeem_volume (v : VolumeLimit) (s : Chain) : Chain :=
  set_redeem (mkRedeemStorage (RedeemRequests (redeem_st s)) (RedeemPeriod (redeem_st s))
    (RedeemMinimumTransferAmount (redeem_st s)) v (CancelledRedeemAmount (redeem_st s))) s.

Definition check_volume (a : Amount) : M Chain unit :=
  RateLimit.check_volume (fun s => redeem_volume (redeem_st s)) put_redeem_volume
    redeem.ExceedLimitVolumeForRedeemRequest a.
Definition increase_interval_volume (a : Amount) : M Chain unit :=
  RateLimit.increase_interval_volume (fun s => redeem_volume (redeem_st s)) put_redeem_volume a.
Definition _rate_limit_update (a : option Balance) (c : CurrencyId) (interval_length : BlockNumber)
  : M Chain unit :=
  set_limits (fun s => redeem_volume (redeem_st s)) put_redeem_volume a c interval_length.

(** ** Requesting *)

(** [ext::treasury::get_balance]: the free balance. *)
Definition get_balance (who : AccountId) (c : CurrencyId) : M Chain Amount :=
  gets (fun s => get_free_balance c who (ledger s)).

Definition release_replace_collateral (vault_id : VaultId) (burned_tokens : Amount)
  : M Chain unit :=
  let* released := decrease_to_be_replaced_tokens vault_id burned_tokens in
  let '(_, griefing_collateral) := released in
  if negb (Amount.is_zero griefing_collateral) then
    transfer_funds (AvailableReplaceCollateral vault_id) (FreeBalance (account_id vault_id))
      griefing_collateral
  else ret tt.

Definition _request_redeem (redeemer : AccountId) (amount_wrapped : Balance)
    (stellar_address : StellarPublicKeyRaw) (vault_id : VaultId) : M Chain H256 :=
  let amount_wrapped := Amount.new amount_wrapped (wrapped_currency vault_id) in
  lift (Amount.ensure_is_compatible_with_target_chain amount_wrapped) ;;;
  check_volume amount_wrapped ;;;
  in_security ensure_parachain_status_running ;;;
  let* redeemer_balance := get_balance redeemer (wrapped_currency vault_id) in
  let* enough := lift (Amount.le amount_wrapped redeemer_balance) in
  ensure enough redeem.AmountExceedsUserBalance ;;;
  let* fee_wrapped :=
    if bool_decide (redeemer = account_id vault_id)
    then ret (Amount.zero (wrapped_currency vault_id))
    else get_redeem_fee amount_wrapped in
  let* inclusion_fee := lift (get_current_inclusion_fee (wrapped_currency vault_id)) in
  let* fee_wrapped := lift (Amount.round_to_target_chain fee_wrapped) in
  let* vault_to_be_burned_tokens := lift (Amount.checked_sub amount_wrapped fee_wrapped) in
  let* user_to_be_received_stellar_asset :=
    map_err (lift (Amount.checked_sub vault_to_be_burned_tokens inclusion_fee))
      redeem.AmountBelowMinimumTransferAmount in
  _ensure_not_banned vault_id ;;;
  let* minimum := get_minimum_transfer_amount (wrapped_currency vault_id) in
  let* enough := lift (Amount.ge user_to_be_received_stellar_asset minimum) in
  ensure enough redeem.AmountBelowMinimumTransferAmount ;;;
  try_increase_to_be_redeemed_tokens vault_id vault_to_be_burned_tokens ;;;
  on_ledger (Amount.lock_on amount_wrapped redeemer) ;;;
  let* redeem_id := chain_secure_id in
  let* below_premium_redeem := is_vault_below_premium_threshold vault_id in
  let currency_id_ := collateral_currency vault_id in
  let* premium_collateral :=
    if below_premium_redeem then
      let* redeem_amount_wrapped_in_collateral :=
        convert_to user_to_be_received_stellar_asset currency_id_ in
      get_premium_redeem_fee redeem_amount_wrapped_in_collateral
    else ret (Amount.zero currency_id_) in
  release_replace_collateral vault_id vault_to_be_burned_tokens ;;;
  let* opentime := in_security active_block_number in
  let* period := redeem_period in
  insert_redeem_request redeem_id
    (mkRedeemRequest vault_id opentime period (amount fee_wrapped) (amount inclusion_fee)
       (amount user_to_be_received_stellar_asset) (currency_id user_to_be_received_stellar_asset)
       (amount premium_collateral) redeemer stellar_address RedeemPending) ;;;
  ret redeem_id.

(** ** Redeeming against the liquidation vault *)

Definition _liquidation_redeem (redeemer : AccountId) (cp : VaultCurrencyPair)
    (amount_wrapped : Balance) : M Chain unit :=
  let amount_wrapped := Amount.new amount_wrapped (wrapped cp) in
  let* redeemer_balance := get_balance redeemer (wrapped cp) in
  let* enough := lift (Amount.le amount_wrapped redeemer_balance) in
  ensure enough redeem.AmountExceedsUserBalance ;;;
  on_ledger (Amount.lock_on amount_wrapped redeemer) ;;;
  on_ledger (Amount.burn_from amount_wrapped redeemer) ;;;
  redeem_tokens_liquidation (collateral cp) redeemer amount_wrapped.

(** ** Executing *)

(** The fee leaves the redeemer's locked tokens for the pool. *)
Definition collect_redeem_fee (redeem : RedeemRequest) : M Chain unit :=
  let fee := redeem_fee redeem in
  on_ledger (Amount.unlock_on fee (redeem_redeemer redeem)) ;;;
  on_ledger (Amount.transfer fee (redeem_redeemer redeem) fee_pool_account_id) ;;;
  fee_distribute_rewards fee.

Definition _execute_redeem (redeem_id : H256)
    (transaction_envelope_xdr_encoded externalized_envelopes_encoded transaction_set_encoded : Bytes)
  : M Chain unit :=
  let* redeem := get_open_redeem_request_from_id redeem_id in
  let* transaction_envelope := lift (construct_from_raw_encoded_xdr transaction_envelope_from_xdr
                                       transaction_envelope_xdr_encoded) in
  let* envelopes := lift (construct_from_raw_encoded_xdr scp_envelopes_from_xdr
                            externalized_envelopes_encoded) in
  let* transaction_set := lift (construct_from_raw_encoded_xdr transaction_set_from_xdr
                                  transaction_set_encoded) in
  lift (ensure_transaction_memo_matches_hash transaction_envelope redeem_id) ;;;
  relay_validate transaction_envelope envelopes transaction_set ;;;
  let* paid_amount :=
    lift (get_amount_from_transaction_envelope transaction_envelope (redeem_stellar_address redeem)
            (redeem_asset redeem)) in
  let* enough := lift (Amount.ge paid_amount (redeem_amount redeem)) in
  ensure enough redeem.InvalidPaymentAmount ;;;
  let* burn_amount := lift (Amount.checked_add (redeem_amount redeem) (redeem_transfer_fee redeem)) in
  on_ledger (Amount.burn_from burn_amount (redeem_redeemer redeem)) ;;;
  increase_interval_volume burn_amount ;;;
  collect_redeem_fee redeem ;;;
  redeem_tokens (redeem_vault redeem) burn_amount (redeem_premium redeem) (redeem_redeemer redeem) ;;;
  set_redeem_status redeem_id RedeemCompleted ;;;
  ret tt.

(** ** Cancelling *)

(** The collateral side of a cancellation. *)
Definition cancel_liquidated (redeem : RedeemRequest) (redeemer : AccountId) (reimburse : bool)
    (vault_to_be_burned_tokens vault_to_be_redeemed_tokens : Amount) : M Chain Amount :=
  let vault_id := redeem_vault redeem in
  let* liquidated := get_liquidated_collateral vault_id in
  let* confiscated_collateral :=
    lift (calculate_collateral liquidated vault_to_be_burned_tokens vault_to_be_redeemed_tokens) in
  let slashing_destination :=
    if reimburse then FreeBalance redeemer else FromLiquidationVault (currencies vault_id) in
  decrease_liquidated_collateral vault_id confiscated_collateral ;;;
  transfer_funds (LiquidatedCollateral vault_id) slashing_destination confiscated_collateral ;;;
  ret confiscated_collateral.

Definition cancel_active (redeem_id : H256) (redeem : RedeemRequest) (redeemer : AccountId)
    (reimburse : bool) (amount_wrapped_in_collateral : Amount) : M Chain Amount :=
  let vault_id := redeem_vault redeem in
  let* punishment_fee_in_collateral := get_punishment_fee amount_wrapped_in_collateral in
  let* amount_to_slash :=
    if reimburse
    then lift (Amount.checked_add amount_wrapped_in_collateral punishment_fee_in_collateral)
    else ret punishment_fee_in_collateral in
  let* transferred_amount :=
    transfer_funds_saturated (Collateral vault_id) (FreeBalance redeemer) amount_to_slash in
  let* retrievable_amount_in_collateral :=
    lift (Amount.saturating_sub transferred_amount punishment_fee_in_collateral) in
  let* retrievable_amount_in_wrapped :=
    convert_to retrievable_amount_in_collateral (wrapped_currency vault_id) in
  put_cancelled_amount redeem_id
    (Some (amount retrievable_amount_in_wrapped, currency_id retrievable_amount_in_wrapped)) ;;;
  attempt (ban_vault vault_id) ;;;
  ret amount_to_slash.

(** The token side of a cancellation. *)
Definition cancel_tokens (redeem_id : H256) (redeem : RedeemRequest) (redeemer : AccountId)
    (reimburse : bool) (vault_to_be_burned_tokens : Amount) : M Chain RedeemRequestStatus :=
  if reimburse then
    collect_redeem_fee redeem ;;;
    let* below := is_vault_below_secure_threshold (redeem_vault redeem) in
    if below then
      on_ledger (Amount.burn_from vault_to_be_burned_tokens redeemer) ;;;
      decrease_tokens (redeem_vault redeem) (redeem_redeemer redeem) vault_to_be_burned_tokens ;;;
      set_redeem_status redeem_id (Reimbursed false)
    else
      on_ledger (Amount.unlock_on vault_to_be_burned_tokens (redeem_redeemer redeem)) ;;;
      on_ledger (Amount.transfer vault_to_be_burned_tokens (redeem_redeemer redeem)
                   (account_id (redeem_vault redeem))) ;;;
      decrease_to_be_redeemed_tokens (redeem_vault redeem) vault_to_be_burned_tokens ;;;
      set_redeem_status redeem_id (Reimbursed true)
  else
    let* x := lift (Amount.checked_add (redeem_amount redeem) (redeem_fee redeem)) in
    let* total_wrapped := lift (Amount.checked_add x (redeem_transfer_fee redeem)) in
    on_ledger (Amount.unlock_on total_wrapped redeemer) ;;;
    decrease_to_be_redeemed_tokens (redeem_vault redeem) vault_to_be_burned_tokens ;;;
    set_redeem_status redeem_id Retried.

Definition _cancel_redeem (redeemer : AccountId) (redeem_id : H256) (reimburse : bool)
  : M Chain unit :=
  in_security ensure_parachain_status_running ;;;
  let* redeem := get_open_redeem_request_from_id redeem_id in
  ensure (bool_decide (redeemer = redeem_redeemer redeem)) redeem.UnauthorizedRedeemer ;;;
  let* period := redeem_period in
  let* expired := in_security (parachain_block_expired (redeem_opentime redeem)
                                 (Z.max period (redeem_request_period redeem))) in
  ensure expired redeem.TimeNotExpired ;;;
  let* vault := get_vault_from_id (redeem_vault redeem) in
  let vault_to_be_redeemed_tokens :=
    Amount.new (to_be_redeemed_tokens vault) (wrapped_currency (redeem_vault redeem)) in
  let vault_id := redeem_vault redeem in
  let* vault_to_be_burned_tokens :=
    lift (Amount.checked_add (redeem_amount redeem) (redeem_transfer_fee redeem)) in
  let* amount_wrapped_in_collateral :=
    convert_to vault_to_be_burned_tokens (collateral_currency vault_id) in
  let* slashed_amount :=
    if is_liquidated vault
    then cancel_liquidated redeem redeemer reimburse vault_to_be_burned_tokens
           vault_to_be_redeemed_tokens
    else cancel_active redeem_id redeem redeemer reimburse amount_wrapped_in_collateral in
  let* new_status := cancel_tokens redeem_id redeem redeemer reimburse vault_to_be_burned_tokens in
  ret tt.

(** ** Minting for a reimbursed redeem *)

(** [unwrap_or] evaluates its argument first. *)
Definition _mint_tokens_for_reimbursed_redeem (vault_id : VaultId) (redeem_id : H256)
  : M Chain unit :=
  in_security ensure_parachain_status_running ;;;
  let* redeem := get_redeem_request redeem_id in
  ensure (bool_decide (redeem_status redeem = Reimbursed false)) redeem.RedeemCancelled ;;;
  ensure (bool_decide (redeem_vault redeem = vault_id)) redeem.UnauthorizedVault ;;;
  let* taken := gets (fun s => CancelledRedeemAmount (redeem_st s) !! redeem_id) in
  put_cancelled_amount redeem_id None ;;;
  let* whole := lift (Amount.checked_add (redeem_amount redeem) (redeem_transfer_fee redeem)) in
  let reimbursed_amount :=
    match taken with Some (a, c) => Amount.new a c | None => whole end in
  try_increase_to_be_issued_tokens vault_id reimbursed_amount ;;;
  issue_tokens vault_id reimbursed_amount ;;;
  on_ledger (Amount.mint_to reimbursed_amount (account_id vault_id)) ;;;
  set_redeem_status redeem_id (Reimbursed true) ;;;
  ret tt.

(** ** Self redeem *)

Definition calculate_token_amounts (vault_id : VaultId) (requested_redeem_amount : Amount)
  : M Chain (Amount * Amount) :=
  let* redeemable_tokens := get_free_redeemable_tokens vault_id in
  let* all := lift (Amount.eq redeemable_tokens requested_redeem_amount) in
  let* fees := if all then ret (Amount.zero (wrapped_currency vault_id))
               else get_redeem_fee requested_redeem_amount in
  let* consumed_issued_tokens := lift (Amount.checked_sub requested_redeem_amount fees) in
  ret (fees, consumed_issued_tokens).

Definition take_user_tokens (account_id : AccountId) (consumed_issued_tokens fees : Amount)
  : M Chain unit :=
  map_err (on_ledger (Amount.lock_on consumed_issued_tokens account_id))
    redeem.AmountExceedsUserBalance ;;;
  on_ledger (Amount.burn_from consumed_issued_tokens account_id) ;;;
  map_err (on_ledger (Amount.transfer fees account_id fee_pool_account_id))
    redeem.AmountExceedsUserBalance ;;;
  fee_distribute_rewards fees.

Definition update_vault_tokens (vault_id : VaultId) (consumed_issued_tokens : Amount)
  : M Chain unit :=
  try_increase_to_be_redeemed_tokens vault_id consumed_issued_tokens ;;;
  redeem_tokens vault_id consumed_issued_tokens (Amount.zero (collateral_currency vault_id))
    (account_id vault_id) ;;;
  release_replace_collateral vault_id consumed_issued_tokens.

Definition self_redeem_execute (vault_id : VaultId) (amount_wrapped : Amount) : M Chain unit :=
  _ensure_not_banned vault_id ;;;
  ensure (negb (Amount.is_zero amount_wrapped)) redeem.AmountBelowMinimumTransferAmount ;;;
  let* amounts := calculate_token_amounts vault_id amount_wrapped in
  let '(fees, consumed_issued_tokens) := amounts in
  take_user_tokens (account_id vault_id) consumed_issued_tokens fees ;;;
  update_vault_tokens vault_id consumed_issued_tokens.

(** ** Extrinsics *)

Definition request_redeem (ensure_signed : outcome AccountId) (amount_wrapped : Balance)
    (stellar_address : StellarPublicKeyRaw) (vault_id : VaultId) : M Chain H256 :=
  transactional (
    let* redeemer := lift ensure_signed in
    _request_redeem redeemer amount_wrapped stellar_address vault_id).

Definition liquidation_redeem (ensure_signed : outcome AccountId) (cp : VaultCurrencyPair)
    (amount_wrapped : Balance) : M Chain unit :=
  transactional (
    let* redeemer := lift ensure_signed in
    _liquidation_redeem redeemer cp amount_wrapped).

Definition execute_redeem (ensure_signed : outcome AccountId) (redeem_id : H256)
    (transaction_envelope_xdr_encoded externalized_envelopes_encoded transaction_set_encoded : Bytes)
  : M Chain unit :=
  transactional (
    lift ensure_signed ;;;
    _execute_redeem redeem_id transaction_envelope_xdr_encoded externalized_envelopes_encoded
      transaction_set_encoded).

Definition cancel_redeem (ensure_signed : outcome AccountId) (redeem_id : H256) (reimburse : bool)
  : M Chain unit :=
  transactional (
    let* redeemer := lift ensure_signed in
    _cancel_redeem redeemer redeem_id reimburse).

Definition mint_tokens_for_reimbursed_redeem (ensure_signed : outcome AccountId)
    (cp : VaultCurrencyPair) (redeem_id : H256) : M Chain unit :=
  transactional (
    let* who := lift ensure_signed in
    _mint_tokens_for_reimbursed_redeem (new_vault_id who (collateral cp) (wrapped cp)) redeem_id).

Definition self_redeem (ensure_signed : outcome AccountId) (cp : VaultCurrencyPair)
    (amount_wrapped : Balance) : M Chain unit :=
  transactional (
    let* account_id := lift ensure_signed in
    let vault_id := new_vault_id account_id (collateral cp) (wrapped cp) in
    self_redeem_execute vault_id (Amount.new amount_wrapped (wrapped_currency vault_id))).

Definition set_redeem_period (ensure_root : outcome unit) (period : BlockNumber) : M Chain unit :=
  transactional (
    lift ensure_root ;;;
    on_redeem (modify (fun st => mkRedeemStorage (RedeemRequests st) period
      (RedeemMinimumTransferAmount st) (redeem_volume st) (CancelledRedeemAmount st)))).

Definition rate_limit_update (ensure_root : outcome unit) (a : option Balance) (c : CurrencyId)
    (interval_length : BlockNumber) : M Chain unit :=
  transactional (
    lift ensure_root ;;;
    _rate_limit_update a c interval_length).

Definition minimum_transfer_amount_update (ensure_root : outcome unit) (new_minimum_amount : Balance)
  : M Chain unit :=
  transactional (
    lift ensure_root ;;;
    on_redeem (modify (fun st => mkRedeemStorage (RedeemRequests st) (RedeemPeriod st)
      new_minimum_amount (redeem_volume st) (CancelledRedeemAmount st)))).

End redeem.
