(* ===== verification/Nomination.v ===== *)
(** * The nomination pallet

    [src/pallets/nomination/src/lib.rs]: accounts other than the operator add
    collateral to a vault that opted in, up to a ratio of its collateral. *)

From S2P Require Import Prelude FixedPoint Primitives Currency Security Oracle Staking Chain.
From S2P Require Import VaultRegistry.

Section nomination.
Context `{RT : Runtime}.

Definition is_nomination_enabled : M Chain bool :=
  gets (fun s => NominationEnabled (nomination_st s)).

Definition is_opted_in (vault_id : VaultId) : M Chain bool :=
  gets (fun s => bool_decide (is_Some (NominationVaults (nomination_st s) !! vault_id))).

Definition get_total_nominated_collateral (vault_id : VaultId) : M Chain Amount :=
  let* vault_backing_collateral := get_backing_collateral vault_id in
  let* vault_actual_collateral := compute_collateral vault_id in
  lift (Amount.checked_sub vault_backing_collateral vault_actual_collateral).

Definition get_nominator_collateral (vault_id : VaultId) (nominator_id : AccountId)
  : M Chain Amount :=
  let* a := on_staking (staking_compute_stake vault_id nominator_id) in
  ret (Amount.new a (collateral_currency vault_id)).

Definition _withdraw_collateral (vault_id : VaultId) (nominator_id : AccountId) (a : Balance)
    (index : Z) : M Chain unit :=
  let* nonce := on_staking (staking_nonce vault_id) in
  let index := Z.min index nonce in
  let a := Amount.new a (collateral_currency vault_id) in
  (if index =? nonce then
     let* allowed := is_allowed_to_withdraw_collateral vault_id a in
     ensure allowed nomination.CannotWithdrawCollateral ;;;
     let* enabled := is_nomination_enabled in
     ensure enabled nomination.VaultNominationDisabled ;;;
     let* opted_in := is_opted_in vault_id in
     ensure opted_in nomination.VaultNotOptedInToNomination ;;;
     decrease_total_backing_collateral (currencies vault_id) a
   else ret tt) ;;;
  pool_withdraw_collateral vault_id nominator_id a (Some index) ;;;
  on_ledger (Amount.unlock_on a (account_id vault_id)) ;;;
  on_ledger (Amount.transfer a (account_id vault_id) nominator_id).

Definition _deposit_collateral (vault_id : VaultId) (nominator_id : AccountId) (a : Balance)
  : M Chain unit :=
  let* enabled := is_nomination_enabled in
  ensure enabled nomination.VaultNominationDisabled ;;;
  let* opted_in := is_opted_in vault_id in
  ensure opted_in nomination.VaultNotOptedInToNomination ;;;
  let a := Amount.new a (collateral_currency vault_id) in
  let* vault_backing_collateral := get_backing_collateral vault_id in
  let* total_nominated_collateral := get_total_nominated_collateral vault_id in
  let* new_nominated_collateral := lift (Amount.checked_add total_nominated_collateral a) in
  let* max_nominatable_collateral :=
    get_max_nominatable_collateral vault_backing_collateral (currencies vault_id) in
  let* below := lift (Amount.le new_nominated_collateral max_nominatable_collateral) in
  ensure below nomination.DepositViolatesMaxNominationRatio ;;;
  pool_deposit_collateral vault_id nominator_id a ;;;
  on_ledger (Amount.transfer a nominator_id (account_id vault_id)) ;;;
  on_ledger (Amount.lock_on a (account_id vault_id)) ;;;
  try_increase_total_backing_collateral (currencies vault_id) a.

Definition put_nomination_vault (vault_id : VaultId) (x : option bool) : M Chain unit :=
  on_nomination (modify (fun st =>
    mkNominationStorage (NominationEnabled st)
      (partial_alter (fun _ => x) vault_id (NominationVaults st)))).

Definition _opt_in_to_nomination (vault_id : VaultId) : M Chain unit :=
  let* enabled := is_nomination_enabled in
  ensure enabled nomination.VaultNominationDisabled ;;;
  let* exists_ := vault_exists vault_id in
  ensure exists_ nomination.VaultNotFound ;;;
  let* opted_in := is_opted_in vault_id in
  ensure (negb opted_in) nomination.VaultAlreadyOptedInToNomination ;;;
  put_nomination_vault vault_id (Some true).

Definition _opt_out_of_nomination (vault_id : VaultId) : M Chain unit :=
  let* opted_in := is_opted_in vault_id in
  ensure opted_in nomination.VaultNotOptedInToNomination ;;;
  let* total_nominated_collateral := get_total_nominated_collateral vault_id in
  let* allowed := is_allowed_to_withdraw_collateral vault_id total_nominated_collateral in
  ensure allowed nomination.CollateralizationTooLow ;;;
  let* refunded_collateral := pool_kick_nominators vault_id in
  let refunded_collateral := Amount.new refunded_collateral (collateral_currency vault_id) in
  decrease_total_backing_collateral (currencies vault_id) refunded_collateral ;;;
  put_nomination_vault vault_id None.

(** ** Extrinsics *)

Definition set_nomination_enabled (ensure_root : outcome unit) (enabled : bool) : M Chain unit :=
  transactional (
    lift ensure_root ;;;
    on_nomination (modify (fun st => mkNominationStorage enabled (NominationVaults st)))).

Definition opt_in_to_nomination (ensure_signed : outcome AccountId) (cp : VaultCurrencyPair)
  : M Chain unit :=
  transactional (
    let* account_id := lift ensure_signed in
    in_security ensure_parachain_status_running ;;;
    _opt_in_to_nomination (new_vault_id account_id (collateral cp) (wrapped cp))).

Definition opt_out_of_nomination (ensure_signed : outcome AccountId) (cp : VaultCurrencyPair)
  : M Chain unit :=
  transactional (
    let* account_id := lift ensure_signed in
    in_security ensure_parachain_status_running ;;;
    _opt_out_of_nomination (new_vault_id account_id (collateral cp) (wrapped cp))).

Definition deposit_collateral (ensure_signed : outcome AccountId) (vault_id : VaultId) (a : Balance)
  : M Chain unit :=
  transactional (
    let* nominator_id := lift ensure_signed in
    in_security ensure_parachain_status_running ;;;
    _deposit_collateral vault_id nominator_id a).

(** [index.unwrap_or_default()]: without an index, the pool with nonce 0. *)
Definition withdraw_collateral (ensure_signed : outcome AccountId) (vault_id : VaultId)
    (a : Balance) (index : option Z) : M Chain unit :=
  transactional (
    let* nominator_id := lift ensure_signed in
    in_security ensure_parachain_status_running ;;;
    _withdraw_collateral vault_id nominator_id a (default 0 index)).

End nomination.
