(* ===== verification/Replace.v ===== *)
(** * The replace pallet

    [src/pallets/replace/src/lib.rs]: a vault hands its issued tokens over to
    another vault.  The old vault requests, the new vault accepts and locks
    collateral, the old vault pays the new one on Stellar and the payment
    proof moves the tokens.  A cancelled request can still be executed. *)

From S2P Require Import Prelude FixedPoint Primitives Currency Security Oracle StellarRelay Chain.
From S2P Require Import Fee VaultRegistry RateLimit Issue Nomination.

(** ** Requests *)

Definition with_replace_status (status : ReplaceRequestStatus) (r : ReplaceRequest)
  : ReplaceRequest :=
  mkReplaceRequest (old_vault r) (new_vault r) (replace_amount_ r) (replace_asset r)
    (replace_griefing_collateral_ r) (replace_collateral_ r) (accept_time r)
    (replace_request_period r) (replace_stellar_address r) status.

Section replace.
Context `{RT : Runtime}.

(** [ReplaceRequestExt] *)
Definition replace_amount (r : ReplaceRequest) : Amount :=
  Amount.new (replace_amount_ r) (wrapped_currency (old_vault r)).
Definition replace_griefing_collateral (r : ReplaceRequest) : Amount :=
  Amount.new (replace_griefing_collateral_ r) GetGriefingCollateralCurrencyId.
Definition replace_collateral (r : ReplaceRequest) : Amount :=
  Amount.new (replace_collateral_ r) (collateral_currency (new_vault r)).

(** ** Storage *)

Definition put_replace_request (k : H256) (f : option ReplaceRequest -> option ReplaceRequest)
  : M Chain unit :=
  on_replace (modify (fun st =>
    mkReplaceStorage (partial_alter f k (ReplaceRequests st)) (ReplacePeriod st)
      (ReplaceMinimumTransferAmount st))).

Definition insert_replace_request (key : H256) (value : ReplaceRequest) : M Chain unit :=
  put_replace_request key (fun _ => Some value).

Definition set_replace_status (key : H256) (status : ReplaceRequestStatus) : M Chain unit :=
  put_replace_request key (option_map (with_replace_status status)).

Definition replace_period : M Chain BlockNumber := gets (fun s => ReplacePeriod (replace_st s)).

Definition minimum_transfer_amount (c : CurrencyId) : M Chain Amount :=
  let* a := gets (fun s => ReplaceMinimumTransferAmount (replace_st s)) in ret (Amount.new a c).

Definition get_replace_request (replace_id : H256) : M Chain ReplaceRequest :=
  let* r := gets (fun s => ReplaceRequests (replace_st s) !! replace_id) in
  lift (ok_or r replace.ReplaceIdNotFound).

Definition get_open_replace_request (replace_id : H256) : M Chain ReplaceRequest :=
  let* request := get_replace_request replace_id in
  match replace_status request with
  | ReplacePending => ret request
  | ReplaceCompleted => throw replace.ReplaceCompleted
  | ReplaceCancelled => throw replace.ReplaceCancelled
  end.

Definition get_open_or_completed_replace_request (id : H256) : M Chain ReplaceRequest :=
  let* request := get_replace_request id in
  match replace_status request with
  | ReplacePending | ReplaceCompleted => ret request
  | ReplaceCancelled => throw replace.ReplaceCancelled
  end.

Definition get_open_or_cancelled_replace_request (id : H256) : M Chain ReplaceRequest :=
  let* request := get_replace_request id in
  match replace_status request with
  | ReplacePending | ReplaceCancelled => ret request
  | ReplaceCompleted => throw replace.ReplaceCompleted
  end.

Definition get_replace_requests_for_old_vault (vault_id : AccountId) : M Chain (list H256) :=
  let* entries := gets (fun s => map_to_list (ReplaceRequests (replace_st s))) in
  ret (map fst
    (List.filter (fun '(_, r) => bool_decide (account_id (old_vault r) = vault_id)) entries)).

Definition get_replace_requests_for_new_vault (vault_id : AccountId) : M Chain (list H256) :=
  let* entries := gets (fun s => map_to_list (ReplaceRequests (replace_st s))) in
  ret (map fst
    (List.filter (fun '(_, r) => bool_decide (account_id (new_vault r) = vault_id)) entries)).

(** ** Requesting *)

Definition _request_replace (vault_id : VaultId) (a : Balance) : M Chain unit :=
  _ensure_not_banned vault_id ;;;
  let amount_to_replace := Amount.new a (wrapped_currency vault_id) in
  lift (Amount.ensure_is_compatible_with_target_chain amount_to_replace) ;;;
  let* nominatable := is_opted_in vault_id in
  ensure (negb nominatable) replace.VaultHasEnabledNomination ;;;
  let* requestable_tokens := requestable_to_be_replaced_tokens vault_id in
  let* to_be_replaced_increase := lift (Amount.min amount_to_replace requestable_tokens) in
  ensure (negb (Amount.is_zero to_be_replaced_increase)) replace.ReplaceAmountZero ;;;
  let* total_to_be_replaced :=
    try_increase_to_be_replaced_tokens vault_id to_be_replaced_increase in
  let* minimum := minimum_transfer_amount (wrapped_currency vault_id) in
  let* enough := lift (Amount.ge total_to_be_replaced minimum) in
  ensure enough replace.AmountBelowDustAmount ;;;
  let* converted := convert_to to_be_replaced_increase GetGriefingCollateralCurrencyId in
  let* griefing_collateral := get_replace_griefing_collateral converted in
  transfer_funds (FreeBalance (account_id vault_id)) (AvailableReplaceCollateral vault_id)
    griefing_collateral.

Definition _withdraw_replace_request (vault_id : VaultId) (a : Balance) : M Chain unit :=
  let a := Amount.new a (wrapped_currency vault_id) in
  let* withdrawn := withdraw_replace_request vault_id a in
  let '(withdrawn_tokens, to_withdraw_collateral) := withdrawn in
  if Amount.is_zero withdrawn_tokens then throw replace.NoPendingRequest else ret tt.

(** ** Accepting *)

Definition accept_replace_tokens (old_vault_id new_vault_id : VaultId) (redeemable_tokens : Amount)
  : M Chain unit :=
  try_increase_to_be_redeemed_tokens old_vault_id redeemable_tokens ;;;
  try_increase_to_be_issued_tokens new_vault_id redeemable_tokens.

Definition _accept_replace (old_vault_id new_vault_id : VaultId) (a collateral_ : Balance)
    (stellar_address : StellarPublicKeyRaw) : M Chain unit :=
  let new_vault_currency_id := collateral_currency new_vault_id in
  let replace_amount := Amount.new a (wrapped_currency old_vault_id) in
  let collateral_ := Amount.new collateral_ new_vault_currency_id in
  ensure (negb (bool_decide (old_vault_id = new_vault_id))) replace.ReplaceSelfNotAllowed ;;;
  ensure (bool_decide (wrapped_currency old_vault_id = wrapped_currency new_vault_id))
    replace.InvalidWrappedCurrency ;;;
  _ensure_not_banned new_vault_id ;;;
  let* decreased := decrease_to_be_replaced_tokens old_vault_id replace_amount in
  let '(redeemable_tokens, griefing_collateral) := decreased in
  let* minimum := minimum_transfer_amount (wrapped_currency old_vault_id) in
  let* enough := lift (Amount.ge redeemable_tokens minimum) in
  ensure enough replace.AmountBelowDustAmount ;;;
  let* actual_new_vault_collateral :=
    lift (calculate_collateral collateral_ redeemable_tokens replace_amount) in
  try_deposit_collateral new_vault_id actual_new_vault_collateral ;;;
  accept_replace_tokens old_vault_id new_vault_id redeemable_tokens ;;;
  transfer_funds (AvailableReplaceCollateral old_vault_id) (ActiveReplaceCollateral old_vault_id)
    griefing_collateral ;;;
  let* replace_id := chain_secure_id in
  let* now := in_security active_block_number in
  let* period := replace_period in
  insert_replace_request replace_id
    (mkReplaceRequest old_vault_id new_vault_id (amount redeemable_tokens)
       (currency_id redeemable_tokens) (amount griefing_collateral)
       (amount actual_new_vault_collateral) now period stellar_address ReplacePending).

(** ** Executing *)

Definition _execute_replace (replace_id : H256)
    (transaction_envelope_xdr_encoded externalized_envelopes_xdr_encoded
     transaction_set_xdr_encoded : Bytes) : M Chain unit :=
  let* replace := get_open_or_cancelled_replace_request replace_id in
  let griefing_collateral := replace_griefing_collateral replace in
  let a := replace_amount replace in
  let collateral_ := replace_collateral replace in
  let new_vault_id := new_vault replace in
  let old_vault_id := old_vault replace in
  let* transaction_envelope := lift (construct_from_raw_encoded_xdr transaction_envelope_from_xdr
                                       transaction_envelope_xdr_encoded) in
  let* envelopes := lift (construct_from_raw_encoded_xdr scp_envelopes_from_xdr
                            externalized_envelopes_xdr_encoded) in
  let* transaction_set := lift (construct_from_raw_encoded_xdr transaction_set_from_xdr
                                  transaction_set_xdr_encoded) in
  lift (ensure_transaction_memo_matches_hash transaction_envelope replace_id) ;;;
  relay_validate transaction_envelope envelopes transaction_set ;;;
  let* paid_amount :=
    lift (get_amount_from_transaction_envelope transaction_envelope
            (replace_stellar_address replace) (replace_asset replace)) in
  let* enough := lift (Amount.ge paid_amount a) in
  ensure enough replace.InvalidPaymentAmount ;;;
  let* collateral_ :=
    match replace_status replace with
    | ReplacePending =>
        transfer_funds (ActiveReplaceCollateral old_vault_id)
          (FreeBalance (account_id old_vault_id)) griefing_collateral ;;;
        ret collateral_
    | ReplaceCancelled =>
        accept_replace_tokens old_vault_id new_vault_id a ;;;
        ret (Amount.zero (currency_id collateral_))
    | ReplaceCompleted => throw replace.ReplaceCompleted
    end in
  replace_tokens old_vault_id new_vault_id a collateral_ ;;;
  set_replace_status replace_id ReplaceCompleted.

(** ** Cancelling *)

Definition _cancel_replace (replace_id : H256) : M Chain unit :=
  let* replace := get_open_replace_request replace_id in
  let griefing_collateral := replace_griefing_collateral replace in
  let a := replace_amount replace in
  let collateral_ := replace_collateral replace in
  let* period := replace_period in
  let* expired := in_security (parachain_block_expired (accept_time replace)
                                 (Z.max period (replace_request_period replace))) in
  ensure expired replace.ReplacePeriodNotExpired ;;;
  let new_vault_id := new_vault replace in
  cancel_replace_tokens (old_vault replace) new_vault_id a ;;;
  transfer_funds (ActiveReplaceCollateral (old_vault replace))
    (FreeBalance (account_id new_vault_id)) griefing_collateral ;;;
  let* liquidated := is_vault_liquidated new_vault_id in
  let* allowed := if liquidated then ret false
                  else is_allowed_to_withdraw_collateral new_vault_id collateral_ in
  (if allowed then force_withdraw_collateral new_vault_id collateral_ else ret tt) ;;;
  set_replace_status replace_id ReplaceCancelled.

(** ** Extrinsics *)

Definition request_replace (ensure_signed : outcome AccountId) (cp : VaultCurrencyPair)
    (a : Balance) : M Chain unit :=
  transactional (
    let* who := lift ensure_signed in
    _request_replace (new_vault_id who (collateral cp) (wrapped cp)) a).

Definition withdraw_replace (ensure_signed : outcome AccountId) (cp : VaultCurrencyPair)
    (a : Balance) : M Chain unit :=
  transactional (
    let* who := lift ensure_signed in
    _withdraw_replace_request (new_vault_id who (collateral cp) (wrapped cp)) a).

Definition accept_replace (ensure_signed : outcome AccountId) (cp : VaultCurrencyPair)
    (old_vault : VaultId) (a collateral_ : Balance) (stellar_address : StellarPublicKeyRaw)
  : M Chain unit :=
  transactional (
    let* who := lift ensure_signed in
    _accept_replace old_vault (new_vault_id who (collateral cp) (wrapped cp)) a collateral_
      stellar_address).

Definition execute_replace (ensure_signed : outcome AccountId) (replace_id : H256)
    (transaction_envelope_xdr_encoded externalized_envelopes_xdr_encoded
     transaction_set_xdr_encoded : Bytes) : M Chain unit :=
  transactional (
    lift ensure_signed ;;;
    _execute_replace replace_id transaction_envelope_xdr_encoded
      externalized_envelopes_xdr_encoded transaction_set_xdr_encoded).

Definition cancel_replace (ensure_signed : outcome AccountId) (replace_id : H256) : M Chain unit :=
  transactional (
    lift ensure_signed ;;;
    _cancel_replace replace_id).

Definition set_replace_period (ensure_root : outcome unit) (period : BlockNumber) : M Chain unit :=
  transactional (
    lift ensure_root ;;;
    on_replace (modify (fun st => mkReplaceStorage (ReplaceRequests st) period
      (ReplaceMinimumTransferAmount st)))).

Definition minimum_transfer_amount_update (ensure_root : outcome unit) (new_minimum_amount : Balance)
  : M Chain unit :=
  transactional (
    lift ensure_root ;;;
    on_replace (modify (fun st => mkReplaceStorage (ReplaceRequests st) (ReplacePeriod st)
      new_minimum_amount))).

End replace.
