(* ===== verification/ClientsInfo.v ===== *)
(** * The clients-info pallet

    [src/pallets/clients-info/src/lib.rs]: the releases of the off-chain
    clients, and the accounts that may change them besides root. *)

From S2P Require Import Prelude.

Record ClientRelease := mkRelease { uri : Bytes; checksum : H256 }.

Record ClientsState := mkClients {
  CurrentClientReleases : gmap Bytes ClientRelease;
  PendingClientReleases : gmap Bytes ClientRelease;
  AuthorizedAccounts : gset AccountId;
}.

(** The origin of a call: what [ensure_root] and [ensure_signed] say of it. *)
Inductive Origin := Root | Signed (who : AccountId) | NoOrigin.

Definition ensure_root (origin : Origin) : outcome unit :=
  match origin with Root => Ok tt | _ => Err BadOrigin end.
Definition ensure_signed (origin : Origin) : outcome AccountId :=
  match origin with Signed who => Ok who | _ => Err BadOrigin end.

Definition check_non_root_rights (origin : Origin) : M ClientsState AccountId :=
  let* origin_account_id := lift (ensure_signed origin) in
  let* accounts := gets AuthorizedAccounts in
  ensure (bool_decide (origin_account_id ∈ accounts)) clients_info.ThisAccountIdIsNotAuthorized ;;;
  ret origin_account_id.

Definition check_origin_rights (origin : Origin) : M ClientsState unit :=
  if is_ok (ensure_root origin) then ret tt
  else check_non_root_rights origin ;;; ret tt.

Definition set_current_client_release (origin : Origin) (client_name : Bytes)
    (release : ClientRelease) : M ClientsState unit :=
  transactional (
    check_origin_rights origin ;;;
    modify (fun s => mkClients (<[client_name := release]> (CurrentClientReleases s))
      (PendingClientReleases s) (AuthorizedAccounts s))).

Definition set_pending_client_release (origin : Origin) (client_name : Bytes)
    (release : ClientRelease) : M ClientsState unit :=
  transactional (
    check_origin_rights origin ;;;
    modify (fun s => mkClients (CurrentClientReleases s)
      (<[client_name := release]> (PendingClientReleases s)) (AuthorizedAccounts s))).

Definition authorize_account (origin : Origin) (account_id : AccountId) : M ClientsState unit :=
  transactional (
    check_origin_rights origin ;;;
    let* accounts := gets AuthorizedAccounts in
    if negb (bool_decide (account_id ∈ accounts)) then
      modify (fun s => mkClients (CurrentClientReleases s) (PendingClientReleases s)
        ({[account_id]} ∪ AuthorizedAccounts s))
    else ret tt).

Definition deauthorize_account (origin : Origin) (account_id : AccountId) : M ClientsState unit :=
  transactional (
    (if is_ok (ensure_root origin) then ret tt
     else
       let* origin_account_id := check_non_root_rights origin in
       ensure (negb (bool_decide (account_id = origin_account_id)))
         clients_info.UserUnableToDeauthorizeThemself) ;;;
    let* accounts := gets AuthorizedAccounts in
    if bool_decide (account_id ∈ accounts) then
      modify (fun s => mkClients (CurrentClientReleases s) (PendingClientReleases s)
        (AuthorizedAccounts s ∖ {[account_id]}))
    else ret tt).

(** [PendingClientReleases::drain], each entry inserted as the current release. *)
Definition try_upgrade_current_client_releases : M ClientsState unit :=
  let* pending := gets (fun s => map_to_list (PendingClientReleases s)) in
  modify (fun s => mkClients (CurrentClientReleases s) ∅ (AuthorizedAccounts s)) ;;;
  for_each pending (fun '(key, release) =>
    modify (fun s => mkClients (<[key := release]> (CurrentClientReleases s))
      (PendingClientReleases s) (AuthorizedAccounts s))).

(** ** Runs *)

Inductive ClientsCall :=
| SetCurrent (origin : Origin) (client_name : Bytes) (release : ClientRelease)
| SetPending (origin : Origin) (client_name : Bytes) (release : ClientRelease)
| Authorize (origin : Origin) (account_id : AccountId)
| Deauthorize (origin : Origin) (account_id : AccountId)
| Upgrade.

Definition exec_clients (c : ClientsCall) : M ClientsState unit :=
  match c with
  | SetCurrent o n r => set_current_client_release o n r
  | SetPending o n r => set_pending_client_release o n r
  | Authorize o a => authorize_account o a
  | Deauthorize o a => deauthorize_account o a
  | Upgrade => try_upgrade_current_client_releases
  end.

Definition origin_of (c : ClientsCall) : option Origin :=
  match c with
  | SetCurrent o _ _ | SetPending o _ _ | Authorize o _ | Deauthorize o _ => Some o
  | Upgrade => None
  end.

(** A block of calls; failed ones change nothing. *)
Definition run_clients (l : list ClientsCall) (s : ClientsState) : ClientsState :=
  fold_left (fun s c => snd (exec_clients c s)) l s.

Lemma upgrade_accounts s :
  AuthorizedAccounts (snd (try_upgrade_current_client_releases s)) = AuthorizedAccounts s.
Proof.
  apply (preserves_ok AuthorizedAccounts try_upgrade_current_client_releases
    (fst (try_upgrade_current_client_releases s))); [|by destruct (try_upgrade_current_client_releases s)].
  unfold try_upgrade_current_client_releases. solve_frame; by destruct _.
Qed.

Lemma check_non_root_ok o s w s' :
  check_non_root_rights o s = (Ok w, s') -> s' = s /\ o = Signed w /\ w ∈ AuthorizedAccounts s.
Proof.
  unfold check_non_root_rights. destruct o; cbn [ensure_signed]; intros H; inv_ok; try done.
  match goal with E : bool_decide _ = true |- _ => by apply bool_decide_eq_true in E end.
Qed.

Lemma check_origin_ok o s u s' :
  o <> Root -> check_origin_rights o s = (Ok u, s') ->
  s' = s /\ exists w, o = Signed w /\ w ∈ AuthorizedAccounts s.
Proof.
  unfold check_origin_rights. destruct o as [|w|]; [done| |]; intros _ H; cbn in H; inv_ok;
    apply check_non_root_ok in E as (-> & ? & ?); eauto.
Qed.

(** A successful call that is not from root leaves the accounts as they are, or
    its caller among them. *)
Lemma non_root_call c s s' u :
  origin_of c <> Some Root -> exec_clients c s = (Ok u, s') ->
  AuthorizedAccounts s' = AuthorizedAccounts s \/
  exists who, who ∈ AuthorizedAccounts s /\ who ∈ AuthorizedAccounts s'.
Proof.
  intros Hc H. destruct c as [o n r|o n r|o a|o a|]; simpl in H.
  1-3: apply transactional_ok, bind_ok in H as (x & s1 & E & H);
    apply check_origin_ok in E as (-> & w & -> & Hw); [|by intros ->].
  - inv_ok. by left.
  - inv_ok. by left.
  - inv_ok. right. exists w. split; [done|]. destruct (negb _); inv_ok; [|done].
    cbn. apply elem_of_union. by right.
  - apply transactional_ok, bind_ok in H as (x & s1 & E & H). right.
    destruct o as [|who|]; [done| |]; cbn in E; inv_ok;
      match goal with E : check_non_root_rights _ _ = _ |- _ =>
        apply check_non_root_ok in E as (-> & [= ->] & Hw) end.
    eexists; split; [exact Hw|].
    match goal with E : negb _ = true |- _ => apply negb_true_iff, bool_decide_eq_false in E end.
    destruct (bool_decide _); inv_ok; [|done]. cbn. apply elem_of_difference. split; [done|].
    rewrite elem_of_singleton. congruence.
  - left. rewrite <- (upgrade_accounts s), H. done.
Qed.

Lemma exec_clients_err c s : is_ok (fst (exec_clients c s)) = false -> snd (exec_clients c s) = s.
Proof.
  destruct c; simpl; intros H;
    try (eapply transactional_err; [by rewrite <- surjective_pairing | done]).
  exfalso. revert H. unfold try_upgrade_current_client_releases, bind, gets, modify. simpl.
  generalize (mkClients (CurrentClientReleases s) ∅ (AuthorizedAccounts s)).
  induction (map_to_list (PendingClientReleases s)) as [|[k r] l IH]; intros t; [done|].
  simpl. unfold bind at 1. simpl. apply IH.
Qed.

(** ** Properties *)

(** Calls of authorized accounts, in any number and order, can neither
    remove every authorized account nor, where there is none, add one: only
    root opens or closes the list. *)
Theorem only_root_opens_or_closes l s :
  (forall c, c ∈ l -> origin_of c <> Some Root) ->
  AuthorizedAccounts (run_clients l s) = ∅ <-> AuthorizedAccounts s = ∅.
Proof.
  revert s. induction l as [|c l IH]; intros s Hl; [done|].
  change (run_clients (c :: l) s) with (run_clients l (snd (exec_clients c s))).
  rewrite IH by (intros; apply Hl; by right). clear IH.
  assert (Hc : origin_of c <> Some Root) by (apply Hl; apply list_elem_of_here).
  destruct (exec_clients c s) as [o s'] eqn:E. simpl. destruct (is_ok o) eqn:Ho.
  - destruct o as [u| |]; [|done..].
    destruct (non_root_call c s s' u Hc E) as [->|(w & Hw & Hw')]; [done|].
    split; intros H0; rewrite H0 in *; by apply not_elem_of_empty in Hw || apply not_elem_of_empty in Hw'.
  - pose proof (exec_clients_err c s) as He. rewrite E in He. simpl in He. by rewrite He.
Qed.

Definition w_clients : ClientsState := mkClients ∅ ∅ {[1%N; 2%N]}.

Lemma only_root_opens_or_closes_witness :
  AuthorizedAccounts (run_clients [Deauthorize (Signed 1) 2; Deauthorize (Signed 1) 1; Upgrade]
    w_clients) = ∅ <-> AuthorizedAccounts w_clients = ∅.
Proof.
  apply only_root_opens_or_closes. intros c Hc.
  repeat (apply elem_of_cons in Hc as [->|Hc]; [done|]). by apply not_elem_of_nil in Hc.
Defined.

(** A runtime upgrade makes every pending release current, keeps the
    current release of clients without a pending one, and leaves no pending
    release. *)
Theorem upgrade_applies_pending s :
  exists s', try_upgrade_current_client_releases s = (Ok tt, s') /\
    CurrentClientReleases s' = PendingClientReleases s ∪ CurrentClientReleases s /\
    PendingClientReleases s' = ∅ /\ AuthorizedAccounts s' = AuthorizedAccounts s.
Proof.
  destruct s as [cur pend acc]. unfold try_upgrade_current_client_releases. rewrite gets_run.
  cbn [PendingClientReleases]. unfold bind at 1, modify at 1. cbn.
  enough (H : forall l cur, NoDup l.*1 ->
    for_each l (fun '(key, release) =>
      modify (fun s => mkClients (<[key := release]> (CurrentClientReleases s))
        (PendingClientReleases s) (AuthorizedAccounts s))) (mkClients cur ∅ acc) =
    (Ok tt, mkClients (list_to_map l ∪ cur) ∅ acc)).
  { rewrite H by apply NoDup_fst_map_to_list. eexists. split; [done|]. cbn.
    by rewrite list_to_map_to_list. }
  clear. induction l as [|[k r] l IH]; intros cur Hl; cbn [for_each].
  { cbn. by rewrite (left_id_L ∅ (∪)). }
  inversion_clear Hl. unfold bind, modify at 1. cbn. rewrite IH by done. cbn.
  f_equal. f_equal. rewrite <- insert_union_r, insert_union_l; [done|]. by apply not_elem_of_list_to_map.
Qed.
