(* ===== verification/Peg.v ===== *)
(** * The peg

    The invariant that ties the wrapped tokens in circulation to the tokens the
    vaults have issued, and what each extrinsic and hook does to it. *)

From S2P Require Import Prelude FixedPoint Primitives Currency Security Oracle Staking.
From S2P Require Import PooledRewards StellarRelay Chain RewardDistribution Fee VaultRegistry.
From S2P Require Import VaultFrames VaultBooks RateLimit Issue Redeem Nomination Replace.

(** ** The invariant *)

Section invariant.
Context `{RT : Runtime}.
Implicit Types s : Chain.

(** Tokens of [c] in circulation that no vault accounts for. *)
Definition unbacked (c : CurrencyId) s : Z :=
  total_issuance c (ledger s) - issued_total c (registry s).

(** The difference is [p], and the issued tokens satisfy [P]. *)
Definition Peg (c : CurrencyId) (p : Z) (P : Z -> Prop) s : Prop :=
  RegistryInv (registry s) /\ unbacked c s = p /\ P (issued_total c (registry s)).

(** [P] still holds when tokens are issued, or are taken back. *)
Definition mint_closed (P : Z -> Prop) : Prop := forall n d, 0 <= d -> P n -> P (n + d).
Definition burn_closed (P : Z -> Prop) : Prop := forall n d, 0 <= d -> P n -> P (n - d).

(** What the request pallets keep about their stored requests. *)
Definition requests_of s := (ReplaceRequests (replace_st s), CancelledRedeemAmount (redeem_st s)).

Definition replace_request_ok (r : ReplaceRequest) : Prop :=
  old_vault r <> new_vault r /\ 0 <= replace_amount_ r.

Definition requests_ok s : Prop :=
  (forall k r, ReplaceRequests (replace_st s) !! k = Some r -> replace_request_ok r) /\
  (forall k a c, CancelledRedeemAmount (redeem_st s) !! k = Some (a, c) -> 0 <= a).

Definition ChainInv (c : CurrencyId) (p : Z) (P : Z -> Prop) s : Prop :=
  Peg c p P s /\ requests_ok s.

#[export] Instance requests_of_frame : OuterFrame requests_of.
Proof. by split. Qed.
#[export] Instance requests_of_oracle : OracleFrame requests_of.
Proof. by split. Qed.

Lemma requests_issue {A} (m : M IssueStorage A) : preserves requests_of (on_issue m).
Proof. by apply preserves_zoom. Qed.
Lemma requests_fee {A} (m : M FeeStorage A) : preserves requests_of (on_fee m).
Proof. by apply preserves_zoom. Qed.
Lemma requests_relay {A} (m : M RelayState A) : preserves requests_of (on_relay m).
Proof. by apply preserves_zoom. Qed.
Lemma requests_nomination {A} (m : M NominationStorage A) : preserves requests_of (on_nomination m).
Proof. by apply preserves_zoom. Qed.

Lemma peg_books c p P s : Peg c p P s <-> exists n g, Books c n g s /\ g - n = p /\ P n.
Proof.
  unfold Peg, unbacked, Books. split.
  - intros (I & <- & HP). eauto 10.
  - intros (n & g & (I & <- & <-) & <- & HP). auto.
Qed.

Lemma peg_shifts c p P d {A} (m : M Chain A) :
  (forall n, P n -> P (n + d)) -> shifts c d d m -> maintains (Peg c p P) m.
Proof.
  intros HP Hm s a s' (n & g & HB & <- & Hn)%peg_books H. apply peg_books.
  exists (n + d), (g + d). split_and!; [by eapply Hm | lia | by apply HP].
Qed.

Lemma peg_mints c p P d {A} (m : M Chain A) :
  mint_closed P -> 0 <= d -> shifts c d d m -> maintains (Peg c p P) m.
Proof. intros HP Hd. apply peg_shifts. auto. Qed.

Lemma peg_burns c p P d {A} (m : M Chain A) :
  burn_closed P -> 0 <= d -> shifts c (- d) (- d) m -> maintains (Peg c p P) m.
Proof. intros HP Hd. apply peg_shifts. intros n. rewrite Z.add_opp_r. auto. Qed.

Lemma peg_same c p P {A} (m : M Chain A) : shifts c 0 0 m -> maintains (Peg c p P) m.
Proof. apply peg_shifts. intros n. by rewrite Z.add_0_r. Qed.

Lemma peg_quiet c p P {A} (m : M Chain A) :
  (forall n g, maintains (Books c n g) m) -> maintains (Peg c p P) m.
Proof. intros Hm. apply peg_same, shifts_quiet, Hm. Qed.

Lemma amount_in_nonneg c a : 0 <= amount a -> 0 <= amount_in c a.
Proof. unfold amount_in. case_decide; lia. Qed.

Lemma inv_quiet c p P {A} (m : M Chain A) :
  maintains (Peg c p P) m -> preserves requests_of m -> maintains (ChainInv c p P) m.
Proof.
  intros Hm Hr s a s' [HP HR] H. split; [by eapply Hm|].
  apply (preserves_ok _ _ _ _ _ Hr) in H. injection H as H1 H2. unfold requests_ok.
  by rewrite H1, H2.
Qed.

End invariant.

#[export] Hint Resolve requests_issue requests_fee requests_relay requests_nomination : outer.

(** The stored requests are out of reach of the registry. *)
Ltac frame_requests :=
  let F := fresh in let G := fresh in
  pose proof requests_of_frame as F; pose proof requests_of_oracle as G; outer.

(** ** Frames of the request pallets *)

Section request_frames.
Context `{RT : Runtime}.

Lemma preserves_fees a :
  preserves books_of (get_issue_fee a) /\ preserves books_of (get_issue_griefing_collateral a) /\
  preserves books_of (get_redeem_fee a) /\ preserves books_of (get_premium_redeem_fee a) /\
  preserves books_of (get_punishment_fee a) /\ preserves books_of (get_replace_griefing_collateral a).
Proof.
  unfold get_issue_fee, get_issue_griefing_collateral, get_redeem_fee, get_premium_redeem_fee,
    get_punishment_fee, get_replace_griefing_collateral. split_and!; solve_frame.
Qed.

Lemma preserves_secure_id : preserves books_of chain_secure_id.
Proof. unfold chain_secure_id. solve_frame. Qed.

(** The rate limits are in the storage of the request pallets. *)
Lemma preserves_rate_limit get put e a :
  (forall x s, books_of (put x s) = books_of s) ->
  preserves books_of (RateLimit.check_volume get put e a) /\
  preserves books_of (RateLimit.increase_interval_volume get put a).
Proof.
  intros Hput. unfold RateLimit.check_volume, RateLimit.increase_interval_volume,
    convert_into_limit_currency_id_amount, set_current_volume, set_last_interval.
  split; solve_frame; apply Hput.
Qed.

Lemma preserves_issue_volume a :
  preserves books_of (Issue.check_volume a) /\ preserves books_of (Issue.increase_interval_volume a).
Proof. by apply preserves_rate_limit. Qed.
Lemma preserves_redeem_volume a :
  preserves books_of (Redeem.check_volume a) /\ preserves books_of (Redeem.increase_interval_volume a).
Proof. by apply preserves_rate_limit. Qed.

Lemma preserves_distribute_rewards x c : preserves books_of (distribute_rewards x c).
Proof.
  unfold distribute_rewards, stakes_in_usd, pay_pools. solve_frame;
    repeat match goal with |- preserves _ ((match ?x with _ => _ end) _) => destruct x end;
    solve_frame.
Qed.

Lemma preserves_relay_validate x y z : preserves books_of (relay_validate x y z).
Proof. unfold relay_validate. solve_frame. Qed.

End request_frames.

#[export] Hint Resolve preserves_secure_id preserves_distribute_rewards preserves_relay_validate
  : frame.
#[export] Hint Extern 1 (preserves books_of _) => first [apply preserves_fees
  | apply preserves_issue_volume | apply preserves_redeem_volume] : frame.

(** [peg_quiet] on the functions the [maintains] database knows. *)
#[export] Hint Extern 3 (maintains (Peg _ _ _) _) =>
  apply peg_quiet; intros; solve [eauto 2 with maintains] : maintains.

(** ** Failures that are caught

    A failed [try_increase_to_be_issued_tokens] or [ban_vault], whose result
    the callers discard, has not written the books. *)

Section caught.
Context `{RT : Runtime}.

Definition fails_quietly {A} (m : M Chain A) : Prop :=
  forall s, is_ok (fst (m s)) = false -> books_of (snd (m s)) = books_of s.

Lemma fails_preserves {A} (m : M Chain A) : preserves books_of m -> fails_quietly m.
Proof. intros Hm s _. apply Hm. Qed.

Lemma fails_bind {A B} (m : M Chain A) (k : A -> M Chain B) :
  preserves books_of m -> (forall a, fails_quietly (k a)) -> fails_quietly (bind m k).
Proof.
  intros Hm Hk s. unfold bind. specialize (Hm s). destruct (m s) as [[a|e|] s1]; simpl in *; auto.
  intros H. rewrite <- Hm. by apply Hk.
Qed.

Lemma fails_update {B} v (k : Vault -> B) : fails_quietly (bind (RichVault.update v) (fun w => ret (k w))).
Proof. intros s H. discriminate H. Qed.

Lemma fails_try_increase_to_be_issued k t : fails_quietly (try_increase_to_be_issued_tokens k t).
Proof.
  unfold try_increase_to_be_issued_tokens.
  repeat (apply fails_bind; [solve [solve_frame]|]; intros ?).
  intros s. unfold RichVault.request_issue_tokens, RichVault.increase_to_be_issued.
  rewrite !bind_assoc. revert s. apply fails_bind; [solve [solve_frame]|]. intros ? s. rewrite bind_assoc.
  revert s. apply fails_bind; [solve [solve_frame]|]. intros ?. apply (fails_update _ (fun _ => tt)).
Qed.

Lemma fails_ban k : fails_quietly (ban_vault k).
Proof.
  unfold ban_vault. repeat (apply fails_bind; [solve [solve_frame]|]; intros ?).
  apply (fails_update _ (fun _ => tt)).
Qed.

Lemma maintains_caught c n g {A} (m : M Chain A) :
  maintains (Books c n g) m -> fails_quietly m -> maintains (Books c n g) (attempt m).
Proof.
  intros Hm Hf. apply maintains_attempt. intros s HB. specialize (Hf s).
  destruct (m s) as [[a|e|] s1] eqn:E; simpl in *; [by eapply Hm| |];
    (eapply books_ext; [by apply Hf | done]).
Qed.

Lemma maintains_attempt_issue c n g k t :
  maintains (Books c n g) (attempt (try_increase_to_be_issued_tokens k t)).
Proof. apply maintains_caught; [eauto with maintains | apply fails_try_increase_to_be_issued]. Qed.

Lemma maintains_attempt_ban c n g k : maintains (Books c n g) (attempt (ban_vault k)).
Proof. apply maintains_caught; [eauto with maintains | apply fails_ban]. Qed.

End caught.

#[export] Hint Resolve maintains_attempt_issue maintains_attempt_ban : maintains.

(** ** Minting and burning *)

Section minting.
Context `{RT : Runtime} {L : RuntimeLaws RT} (c : CurrencyId) (Hed : existential_deposit c = 0).

Lemma shifts_mint a x : shifts c 0 (amount_in c a) (on_ledger (Amount.mint_to a x)).
Proof.
  intros n g s u s' (I & <- & <-) H. unfold on_ledger in H. inv_ok.
  eapply (mint_to_issuance a x c) in E; [|done]. unfold Books, amount_in. cbn. rewrite E.
  split_and!; [done | lia |]. destruct (decide (c = currency_id a)) as [->|];
    [by rewrite decide_True | rewrite decide_False by congruence; lia].
Qed.

Lemma shifts_burn a x : shifts c 0 (- amount_in c a) (on_ledger (Amount.burn_from a x)).
Proof.
  intros n g s u s' (I & <- & <-) H. unfold on_ledger in H. inv_ok.
  eapply (burn_from_issuance a x c) in E; [|done]. unfold Books, amount_in. cbn. rewrite E.
  split_and!; [done | lia |]. destruct (decide (c = currency_id a)) as [->|];
    [rewrite decide_True by done; lia | rewrite decide_False by congruence; lia].
Qed.

Lemma maintains_fee_distribute n g a : maintains (Books c n g) (fee_distribute_rewards a).
Proof. unfold fee_distribute_rewards, distribute, on_sweep. solve_maintains. Qed.

Lemma amount_in_add a b t :
  Amount.checked_add a b = Ok t -> amount_in c t = amount_in c a + amount_in c b.
Proof.
  intros (Hc & Ht & Hs & _)%checked_add_ok. unfold amount_in. rewrite Ht, Hc, Hs.
  case_decide; lia.
Qed.

End minting.

#[export] Hint Resolve maintains_fee_distribute : maintains.

(** ** The issue pallet *)

Section issue_peg.
Context `{RT : Runtime} {L : RuntimeLaws RT} (c : CurrencyId) (Hed : existential_deposit c = 0).
Context (p : Z) (P : Z -> Prop).

Lemma peg_request_issue r x k : maintains (Peg c p P) (_request_issue r x k).
Proof.
  unfold _request_issue, issue_minimum_transfer_amount, issue_period, insert_issue_request,
    put_issue_request. solve_maintains.
Qed.

Lemma maintains_set_issue_amount n g i r x y :
  maintains (Books c n g) (set_issue_amount i r x y).
Proof. unfold set_issue_amount, put_issue_request. solve_maintains. Qed.

Lemma maintains_handle_issue n g e i r x :
  maintains (Books c n g) (_handle_issue_requests e i r x).
Proof.
  pose proof maintains_set_issue_amount.
  unfold _handle_issue_requests, decrease_issue_amount, try_increase_issue_amount. solve_maintains.
Qed.

Lemma maintains_get_executable n g i :
  maintains (Books c n g) (get_executable_issue_request_from_id i).
Proof. unfold get_executable_issue_request_from_id, get_issue_request. solve_maintains. Qed.

(** The tokens minted for the requester and for the fee pool are the tokens
    the vault issues. *)
Lemma shifts_issue_block i r q t :
  Amount.checked_add (issue_amount r) (issue_fee r) = Ok t ->
  shifts c (amount_in c t) (amount_in c t) (
    issue_tokens (issue_vault r) t ;;;
    on_ledger (Amount.mint_to (issue_amount r) q) ;;;
    Issue.increase_interval_volume (issue_amount r) ;;;
    on_ledger (Amount.mint_to (issue_fee r) fee_pool_account_id) ;;;
    fee_distribute_rewards (issue_fee r) ;;;
    set_issue_status i IssueCompleted).
Proof.
  intros Ht. assert (0 <= amount t) by (apply checked_add_ok in Ht; lia).
  pose proof (amount_in_add c _ _ _ Ht).
  eapply shifts_seq; [by apply shifts_issue_tokens | intros _ | by rewrite Z.add_0_r | ].
  - eapply (shifts_seq c 0 _ 0); [by apply shifts_mint | intros _ | done | reflexivity].
    apply shifts_before; [solve_maintains|]. intros _.
    apply shifts_after; [by apply shifts_mint|]. intros _ n g.
    unfold set_issue_status, put_issue_request. solve_maintains.
  - lia.
Qed.

Lemma peg_execute_issue e i x y z : mint_closed P -> maintains (Peg c p P) (_execute_issue e i x y z).
Proof.
  intros Hup. pose proof maintains_get_executable as Hget. pose proof maintains_handle_issue as Hh.
  unfold _execute_issue, Issue.validate_stellar_transaction.
  do 4 (apply maintains_bind; [solve_maintains|]; intros ?).
  intros s u s' HP H. apply bind_ok in H as (t & s1 & [Ht ->]%lift_ok & H).
  eapply (peg_mints c p P (amount_in c t)) in H; [exact H|done| |by apply shifts_issue_block|exact HP].
  apply amount_in_nonneg. apply checked_add_ok in Ht. lia.
Qed.

Lemma peg_cancel_issue r i : maintains (Peg c p P) (_cancel_issue r i).
Proof.
  unfold _cancel_issue, get_pending_issue, get_issue_request, issue_period, set_issue_status,
    put_issue_request. solve_maintains.
Qed.

End issue_peg.

(** ** The redeem pallet *)

Section redeem_peg.
Context `{RT : Runtime} {L : RuntimeLaws RT} (c : CurrencyId) (Hed : existential_deposit c = 0).

Lemma maintains_release_replace n g k t : maintains (Books c n g) (release_replace_collateral k t).
Proof. unfold release_replace_collateral. solve_maintains. Qed.
Hint Resolve maintains_release_replace : maintains.

Lemma peg_request_redeem p P r x a k : maintains (Peg c p P) (_request_redeem r x a k).
Proof.
  unfold _request_redeem, get_balance, get_minimum_transfer_amount, redeem_period,
    insert_redeem_request, put_redeem_request. solve_maintains.
Qed.

Lemma maintains_collect_redeem_fee n g r : maintains (Books c n g) (collect_redeem_fee r).
Proof. unfold collect_redeem_fee. solve_maintains. Qed.
Hint Resolve maintains_collect_redeem_fee : maintains.

Lemma maintains_set_redeem_status n g i st : maintains (Books c n g) (set_redeem_status i st).
Proof. unfold set_redeem_status, put_redeem_request. solve_maintains. Qed.
Hint Resolve maintains_set_redeem_status : maintains.

Lemma maintains_get_open_redeem n g i :
  maintains (Books c n g) (get_open_redeem_request_from_id i).
Proof. unfold get_open_redeem_request_from_id, get_redeem_request. solve_maintains. Qed.
Hint Resolve maintains_get_open_redeem : maintains.

Lemma peg_liquidation_redeem p P r cp x :
  burn_closed P -> 0 <= x -> maintains (Peg c p P) (_liquidation_redeem r cp x).
Proof.
  intros Hdown Hx.
  unfold _liquidation_redeem, get_balance.
  do 4 (apply maintains_bind; [solve_maintains|]; intros ?).
  apply (peg_burns c p P (amount_in c (Amount.new x (wrapped cp)))); [done|by apply amount_in_nonneg|].
  eapply (shifts_seq c 0 _ _ 0); [by apply shifts_burn | intros _ | done | lia].
  by apply shifts_redeem_liquidation.
Qed.

(** What is burned from the redeemer's tokens is what the vault no longer has
    issued. *)
Lemma shifts_redeem_block i r t :
  Amount.checked_add (redeem_amount r) (redeem_transfer_fee r) = Ok t ->
  shifts c (- amount_in c t) (- amount_in c t) (
    on_ledger (Amount.burn_from t (redeem_redeemer r)) ;;;
    Redeem.increase_interval_volume t ;;;
    collect_redeem_fee r ;;;
    redeem_tokens (redeem_vault r) t (redeem_premium r) (redeem_redeemer r) ;;;
    set_redeem_status i RedeemCompleted ;;;
    ret tt).
Proof.
  intros Ht. assert (0 <= amount t) by (apply checked_add_ok in Ht; lia).
  eapply (shifts_seq c 0 _ _ 0); [by apply shifts_burn | intros _ | done | lia].
  do 2 (apply shifts_before; [solve_maintains|]; intros _).
  apply shifts_after; [by apply shifts_redeem_tokens|]. intros. solve_maintains.
Qed.

Lemma peg_execute_redeem p P i x y z :
  burn_closed P -> maintains (Peg c p P) (_execute_redeem i x y z).
Proof.
  intros Hdown. unfold _execute_redeem.
  do 8 (apply maintains_bind; [solve_maintains|]; intros ?).
  apply maintains_bind; [solve_maintains|]. intros _.
  intros s u s' HP H. apply bind_ok in H as (t & s1 & [Ht ->]%lift_ok & H).
  assert (0 <= amount t) by (apply checked_add_ok in Ht; lia).
  eapply (peg_burns c p P (amount_in c t)) in H;
    [exact H|done|by apply amount_in_nonneg|by apply shifts_redeem_block|exact HP].
Qed.

Lemma maintains_cancel_liquidated n g r q b x y :
  maintains (Books c n g) (cancel_liquidated r q b x y).
Proof. unfold cancel_liquidated. solve_maintains. Qed.

Lemma maintains_cancel_active n g i r q b x :
  maintains (Books c n g) (cancel_active i r q b x).
Proof. unfold cancel_active, put_cancelled_amount. solve_maintains. Qed.

Lemma peg_cancel_tokens p P i r q b t :
  burn_closed P -> 0 <= amount t -> maintains (Peg c p P) (cancel_tokens i r q b t).
Proof.
  intros Hdown Ht. unfold cancel_tokens. destruct b; [|solve_maintains].
  do 2 (apply maintains_bind; [solve_maintains|]; intros ?). destruct a0; [|solve_maintains].
  apply (peg_burns c p P (amount_in c t)); [done|by apply amount_in_nonneg|].
  eapply (shifts_seq c 0 _ _ 0); [by apply shifts_burn | intros _ | done | lia].
  apply shifts_after; [by apply shifts_decrease_tokens|]. intros. solve_maintains.
Qed.

Lemma peg_cancel_redeem p P r i b :
  burn_closed P -> maintains (Peg c p P) (_cancel_redeem r i b).
Proof.
  intros Hdown.
  pose proof maintains_cancel_liquidated as Hl. pose proof maintains_cancel_active as Ha.
  unfold _cancel_redeem, redeem_period. cbv zeta.
  do 7 (apply maintains_bind; [solve_maintains|]; intros ?).
  intros s u s' HP H. apply bind_ok in H as (t & s1 & [Ht ->]%lift_ok & H).
  assert (0 <= amount t) by (apply checked_add_ok in Ht; lia). revert s u s' HP H.
  do 2 (apply maintains_bind; [solve_maintains|]; intros ?).
  apply maintains_bind; [by apply peg_cancel_tokens|]. intros. solve_maintains.
Qed.

Lemma maintains_put_cancelled n g i x : maintains (Books c n g) (put_cancelled_amount i x).
Proof. unfold put_cancelled_amount. solve_maintains. Qed.
Hint Resolve maintains_put_cancelled : maintains.

(** The amount that may be minted again is a balance. *)
Lemma peg_mint p P k i s u s' :
  mint_closed P -> ChainInv c p P s -> _mint_tokens_for_reimbursed_redeem k i s = (Ok u, s') -> Peg c p P s'.
Proof.
  intros Hup [HP [_ HC]] H. unfold _mint_tokens_for_reimbursed_redeem, get_redeem_request in H.
  apply bind_ok in H as (? & s1 & E1 & H).
  assert (CancelledRedeemAmount (redeem_st s1) = CancelledRedeemAmount (redeem_st s)) as Hs.
  { apply (preserves_ok requests_of) in E1; [by injection E1|]. frame_requests. }
  rewrite <- Hs in HC. clear Hs. eapply (peg_quiet c p P) in E1; [|intros; solve_maintains|exact HP].
  clear HP. apply bind_ok in H as (r & s2 & E & H).
  apply bind_ok in E as (o & s3 & [-> ->]%gets_ok & E). apply lift_ok in E as [_ ->].
  do 2 apply bind_ok in H as (? & s2 & [_ ->]%ensure_ok & H).
  apply bind_ok in H as (taken & s2 & [Htaken ->]%gets_ok & H).
  apply bind_ok in H as (? & s2 & E2 & H).
  eapply (peg_quiet c p P) in E2; [|intros; solve_maintains|exact E1].
  apply bind_ok in H as (whole & s3 & [Hw ->]%lift_ok & H). cbv zeta in H.
  set (t := match taken with Some (a, c) => Amount.new a c | None => whole end) in H.
  assert (0 <= amount t).
  { subst t taken. destruct (_ !! i) as [[a c']|] eqn:Ei; [by eapply HC|].
    apply checked_add_ok in Hw. lia. }
  eapply (peg_mints c p P (amount_in c t)) in H; [exact H|done|by apply amount_in_nonneg| |exact E2].
  apply shifts_before; [solve_maintains|]. intros _.
  eapply shifts_seq; [by apply shifts_issue_tokens | intros _ | by rewrite Z.add_0_r | done].
  apply shifts_after; [by apply shifts_mint|]. intros. solve_maintains.
Qed.

(** What the vault takes from its own tokens is what it no longer has issued. *)
Lemma shifts_update_vault_tokens k t :
  0 <= amount t -> shifts c (- amount_in c t) 0 (update_vault_tokens k t).
Proof.
  intros Ht. unfold update_vault_tokens. apply shifts_before; [solve_maintains|]. intros _.
  apply shifts_after; [by apply shifts_redeem_tokens|]. intros. solve_maintains.
Qed.

Lemma shifts_take_user_tokens who t f : shifts c 0 (- amount_in c t) (take_user_tokens who t f).
Proof.
  unfold take_user_tokens. apply shifts_before; [solve_maintains|]. intros _.
  apply shifts_after; [by apply shifts_burn|]. intros. solve_maintains.
Qed.

Lemma peg_self_redeem p P k a :
  burn_closed P -> maintains (Peg c p P) (self_redeem_execute k a).
Proof.
  intros Hdown.
  unfold self_redeem_execute, calculate_token_amounts.
  do 2 (apply maintains_bind; [solve_maintains|]; intros ?).
  intros s u s' HP H. apply bind_ok in H as ([f t] & s1 & E & H).
  assert (HP1 : Peg c p P s1) by (eapply peg_quiet; [|exact HP|exact E]; intros; solve_maintains).
  assert (Ht : 0 <= amount t) by (inv_ok; simplify_eq; inv_amount; lia).
  eapply (peg_burns c p P (amount_in c t)) in H; [exact H|done|by apply amount_in_nonneg| |exact HP1].
  eapply (shifts_seq c 0 _ _ 0); [apply shifts_take_user_tokens | intros _ | done | lia].
  by apply shifts_update_vault_tokens.
Qed.

End redeem_peg.

(** ** The replace pallet *)

Section replace_peg.
Context `{RT : Runtime} {L : RuntimeLaws RT} (c : CurrencyId) (Hed : existential_deposit c = 0).

Lemma preserves_opted_in k : preserves books_of (is_opted_in k).
Proof. unfold is_opted_in. solve_frame. Qed.
Hint Resolve preserves_opted_in : frame.

Lemma maintains_put_replace n g i f : maintains (Books c n g) (put_replace_request i f).
Proof. unfold put_replace_request. solve_maintains. Qed.
Hint Resolve maintains_put_replace : maintains.

Lemma peg_request_replace p P k x : maintains (Peg c p P) (_request_replace k x).
Proof. unfold _request_replace, minimum_transfer_amount. solve_maintains. Qed.

Lemma peg_withdraw_replace p P k x : maintains (Peg c p P) (_withdraw_replace_request k x).
Proof. unfold _withdraw_replace_request. solve_maintains. Qed.

Lemma maintains_accept_tokens n g k k' t : maintains (Books c n g) (accept_replace_tokens k k' t).
Proof. unfold accept_replace_tokens. solve_maintains. Qed.
Hint Resolve maintains_accept_tokens : maintains.

Lemma peg_accept_replace p P k k' x y a : maintains (Peg c p P) (_accept_replace k k' x y a).
Proof.
  unfold _accept_replace, minimum_transfer_amount, replace_period, insert_replace_request.
  solve_maintains.
Qed.

(** The stored requests are read as they are. *)
Lemma get_replace_ok i s r s' :
  get_open_replace_request i s = (Ok r, s') \/ get_open_or_cancelled_replace_request i s = (Ok r, s') ->
  s' = s /\ ReplaceRequests (replace_st s) !! i = Some r.
Proof.
  unfold get_open_replace_request, get_open_or_cancelled_replace_request, get_replace_request.
  intros [H|H]; inv_ok; destruct (replace_status _); inv_ok; auto.
Qed.

Lemma peg_execute_replace p P i x y z s u s' :
  ChainInv c p P s -> _execute_replace i x y z s = (Ok u, s') -> Peg c p P s'.
Proof.
  intros [HP [HR _]] H. unfold _execute_replace in H.
  apply bind_ok in H as (r & s1 & E & H). apply (fun E => get_replace_ok i s r s1 (or_intror E)) in E as [-> Hr].
  destruct (HR _ _ Hr) as [Hne Ha]. revert HP H. apply (fun m => (m : maintains _ _) s u s').
  clear s u s' Hr HR. cbv zeta.
  do 8 (apply maintains_bind; [solve_maintains|]; intros ?).
  apply maintains_bind.
  - solve_maintains.
  - intros ?. apply maintains_bind; [|intros; unfold set_replace_status; solve_maintains].
    apply peg_same. by apply shifts_replace_tokens.
Qed.

Lemma peg_cancel_replace p P i s u s' :
  ChainInv c p P s -> _cancel_replace i s = (Ok u, s') -> Peg c p P s'.
Proof.
  intros [HP [HR _]] H. unfold _cancel_replace in H.
  apply bind_ok in H as (r & s1 & E & H). apply (fun E => get_replace_ok i s r s1 (or_introl E)) in E as [-> Hr].
  destruct (HR _ _ Hr) as [Hne Ha]. revert HP H. apply (fun m => (m : maintains _ _) s u s').
  clear s u s' Hr HR. cbv zeta. unfold replace_period, set_replace_status.
  do 3 (apply maintains_bind; [solve_maintains|]; intros ?).
  apply maintains_bind; [apply peg_quiet; intros; by apply maintains_cancel_replace|]. intros ?.
  solve_maintains.
Qed.

End replace_peg.

(** ** Nomination, rewards and fees *)

Section other_peg.
Context `{RT : Runtime} {L : RuntimeLaws RT} (c : CurrencyId) (Hed : existential_deposit c = 0).
Context (Hnat : c <> GetNativeCurrencyId) (p : Z) (P : Z -> Prop).

Lemma preserves_total_nominated k : preserves books_of (get_total_nominated_collateral k).
Proof. unfold get_total_nominated_collateral. solve_frame. Qed.
Hint Resolve preserves_total_nominated : frame.

Lemma peg_nomination :
  (forall r b, maintains (Peg c p P) (set_nomination_enabled r b)) /\
  (forall o cp, maintains (Peg c p P) (opt_in_to_nomination o cp)) /\
  (forall o cp, maintains (Peg c p P) (opt_out_of_nomination o cp)) /\
  (forall o k x, maintains (Peg c p P) (Nomination.deposit_collateral o k x)) /\
  (forall o k x j, maintains (Peg c p P) (Nomination.withdraw_collateral o k x j)).
Proof.
  unfold set_nomination_enabled, opt_in_to_nomination, _opt_in_to_nomination,
    opt_out_of_nomination, _opt_out_of_nomination, Nomination.deposit_collateral,
    _deposit_collateral, Nomination.withdraw_collateral, _withdraw_collateral,
    is_nomination_enabled, is_opted_in, put_nomination_vault, vault_exists.
  split_and!; solve_maintains.
Qed.

Lemma maintains_native_deposit n g who x :
  maintains (Books c n g) (on_ledger (modify (native_deposit_creating who x))).
Proof.
  apply maintains_on_ledger. intros l u l' H. inv_ok.
  by destruct (native_deposit_others who x l c Hnat).
Qed.

Lemma peg_collect_reward o k x j : maintains (Peg c p P) (collect_reward o k x j).
Proof.
  pose proof maintains_native_deposit.
  unfold collect_reward, move_reward_to_vault, transfer_reward, set_NativeLiability.
  solve_maintains.
Qed.

Lemma peg_on_init : maintains (Peg c p P) execute_on_init.
Proof.
  apply peg_quiet. intros. apply maintains_books.
  unfold execute_on_init, set_RewardPerBlock, set_RewardsAdaptedAt, set_NativeLiability. solve_frame.
Qed.

End other_peg.

(** ** The stored requests *)

Section requests.
Context `{RT : Runtime} {L : RuntimeLaws RT}.

Lemma requests_frame {A} (m : M Chain A) : preserves requests_of m -> maintains requests_ok m.
Proof.
  intros Hm s a s' HR H. apply (preserves_ok _ _ _ _ _ Hm) in H. injection H as H1 H2.
  unfold requests_ok. by rewrite H1, H2.
Qed.

Lemma saturating_sub_nonneg x y z : Amount.saturating_sub x y = Ok z -> 0 <= amount z.
Proof.
  unfold Amount.saturating_sub. intros H. inv_ok.
  destruct (Amount.checked_sub x y) eqn:E1; inv_ok; [|done..]. apply checked_sub_ok in E1. lia.
Qed.

Lemma convert_nonneg a k s b s' :
  0 <= amount a -> convert_to a k s = (Ok b, s') -> 0 <= amount b.
Proof.
  intros Ha H. unfold convert_to, on_oracle, convert in H. inv_ok.
  destruct (bool_decide _); inv_ok; [done|]. cbn.
  match goal with H : convert_amount _ _ _ _ _ = Ok _ |- _ => unfold convert_amount in H end.
  repeat case_match; inv_ok; simplify_eq; try done;
    match goal with H : fu_checked_div _ _ = Some ?x |- 0 <= ?x =>
      apply fu_div_range in H; by destruct H end.
Qed.

Lemma requests_put_cancelled i x :
  (forall a k, x = Some (a, k) -> 0 <= a) -> maintains requests_ok (put_cancelled_amount i x).
Proof.
  intros Hx s u s' [HR HC] H. unfold put_cancelled_amount, on_redeem in H. inv_ok.
  split; cbn; [exact HR|]. intros k a c. destruct (decide (k = i)) as [->|].
  - rewrite lookup_partial_alter_eq. apply Hx.
  - rewrite lookup_partial_alter_ne by done. apply HC.
Qed.

Lemma requests_put_replace i f :
  (forall r, (forall r', r = Some r' -> replace_request_ok r') ->
     forall r', f r = Some r' -> replace_request_ok r') ->
  maintains requests_ok (put_replace_request i f).
Proof.
  intros Hf s u s' [HR HC] H. unfold put_replace_request, on_replace in H. inv_ok.
  split; cbn; [|exact HC]. intros k r. destruct (decide (k = i)) as [->|].
  - rewrite lookup_partial_alter_eq. apply Hf. intros r'. apply HR.
  - rewrite lookup_partial_alter_ne by done. apply HR.
Qed.

Lemma requests_set_replace_status i st : maintains requests_ok (set_replace_status i st).
Proof.
  apply requests_put_replace. intros [r|] Hr r'; [|done]. intros [= <-].
  by destruct (Hr r eq_refl).
Qed.

Lemma requests_put_redeem i f : preserves requests_of (put_redeem_request i f).
Proof. by intros s. Qed.

End requests.
