(* ===== verification/Runtime.v ===== *)
(** * The runtime

    Every extrinsic and hook of the modelled pallets as a call of the chain, and
    the theorems about all of them: the registry's books stay balanced and the
    tokens in circulation follow the issued ones, whatever the users, vaults
    and validators do. *)

From S2P Require Import Prelude FixedPoint Primitives Currency Security Oracle Staking.
From S2P Require Import PooledRewards StellarRelay Chain RewardDistribution Fee VaultRegistry.
From S2P Require Import VaultFrames VaultBooks RateLimit Issue Redeem Nomination Replace Peg.

(** ** Requests kept by each call *)

Section requests.
Context `{RT : Runtime} {L : RuntimeLaws RT}.

Lemma requests_issue_volume a :
  preserves requests_of (Issue.check_volume a) /\
  preserves requests_of (Issue.increase_interval_volume a).
Proof.
  unfold Issue.check_volume, Issue.increase_interval_volume, RateLimit.check_volume,
    RateLimit.increase_interval_volume, convert_into_limit_currency_id_amount,
    set_current_volume, set_last_interval. split; frame_requests; by apply preserves_modify.
Qed.

Lemma requests_redeem_volume a :
  preserves requests_of (Redeem.check_volume a) /\
  preserves requests_of (Redeem.increase_interval_volume a).
Proof.
  unfold Redeem.check_volume, Redeem.increase_interval_volume, RateLimit.check_volume,
    RateLimit.increase_interval_volume, convert_into_limit_currency_id_amount,
    set_current_volume, set_last_interval. split; frame_requests; by apply preserves_modify.
Qed.

Lemma requests_request_issue r x k : preserves requests_of (_request_issue r x k).
Proof.
  pose proof (fun a => proj1 (requests_issue_volume a)).
  unfold _request_issue, issue_minimum_transfer_amount, issue_period, insert_issue_request,
    put_issue_request. frame_requests.
Qed.

Lemma requests_execute_issue e i x y z : preserves requests_of (_execute_issue e i x y z).
Proof.
  pose proof (fun a => proj2 (requests_issue_volume a)).
  unfold _execute_issue, get_executable_issue_request_from_id, get_issue_request,
    Issue.validate_stellar_transaction, relay_validate, _handle_issue_requests,
    decrease_issue_amount, try_increase_issue_amount, set_issue_amount, set_issue_status,
    put_issue_request. frame_requests.
Qed.

Lemma requests_cancel_issue r i : preserves requests_of (_cancel_issue r i).
Proof.
  unfold _cancel_issue, get_pending_issue, get_issue_request, issue_period, set_issue_status,
    put_issue_request. frame_requests.
Qed.

Lemma requests_request_redeem r x a k : preserves requests_of (_request_redeem r x a k).
Proof.
  pose proof (fun a => proj1 (requests_redeem_volume a)). pose proof requests_put_redeem.
  unfold _request_redeem, get_balance, get_minimum_transfer_amount, redeem_period,
    release_replace_collateral, insert_redeem_request. frame_requests.
Qed.

Lemma requests_execute_redeem i x y z : preserves requests_of (_execute_redeem i x y z).
Proof.
  pose proof (fun a => proj2 (requests_redeem_volume a)). pose proof requests_put_redeem.
  unfold _execute_redeem, get_open_redeem_request_from_id, get_redeem_request, relay_validate,
    collect_redeem_fee, set_redeem_status. frame_requests.
Qed.

Lemma requests_liquidation_redeem r cp x : preserves requests_of (_liquidation_redeem r cp x).
Proof. unfold _liquidation_redeem, get_balance. frame_requests. Qed.

Lemma requests_self_redeem k a : preserves requests_of (self_redeem_execute k a).
Proof.
  unfold self_redeem_execute, calculate_token_amounts, take_user_tokens, update_vault_tokens,
    release_replace_collateral. frame_requests.
Qed.

Lemma requests_cancel_tokens i r q b t : preserves requests_of (cancel_tokens i r q b t).
Proof.
  pose proof requests_put_redeem. unfold cancel_tokens, collect_redeem_fee, set_redeem_status.
  frame_requests.
Qed.

Lemma requests_cancel_active i r q b x : maintains requests_ok (cancel_active i r q b x).
Proof.
  unfold cancel_active.
  do 3 (apply maintains_bind; [apply requests_frame; frame_requests|]; intros ?).
  intros s u s' HR H. apply bind_ok in H as (y & s1 & [Hy ->]%lift_ok & H).
  apply bind_ok in H as (z & s2 & Ez & H). pose proof Ez as Hz.
  apply convert_nonneg in Hz; [|by eapply saturating_sub_nonneg].
  eapply requests_frame in Ez; [|frame_requests|exact HR]. revert Ez H.
  apply (fun m => (m : maintains _ _) s2 u s').
  apply maintains_bind; [apply requests_put_cancelled; congruence|]. intros ?.
  apply requests_frame. frame_requests.
Qed.

Lemma requests_cancel_redeem r i b : maintains requests_ok (_cancel_redeem r i b).
Proof.
  unfold _cancel_redeem, redeem_period, get_open_redeem_request_from_id, get_redeem_request.
  cbv zeta. do 9 (apply maintains_bind; [apply requests_frame; frame_requests|]; intros ?).
  apply maintains_bind; [destruct (is_liquidated _)|].
  - apply requests_frame. unfold cancel_liquidated. frame_requests.
  - apply requests_cancel_active.
  - intros ?. apply requests_frame. pose proof requests_cancel_tokens. frame_requests.
Qed.

Lemma requests_mint k i : maintains requests_ok (_mint_tokens_for_reimbursed_redeem k i).
Proof.
  pose proof requests_put_redeem. unfold _mint_tokens_for_reimbursed_redeem, get_redeem_request,
    set_redeem_status.
  do 5 (apply maintains_bind; [apply requests_frame; frame_requests|]; intros ?).
  apply maintains_bind; [by apply requests_put_cancelled|]. intros ?.
  apply requests_frame. frame_requests.
Qed.

Lemma requests_request_replace k x : preserves requests_of (_request_replace k x).
Proof. unfold _request_replace, is_opted_in, minimum_transfer_amount. frame_requests. Qed.

Lemma requests_withdraw_replace k x : preserves requests_of (_withdraw_replace_request k x).
Proof. unfold _withdraw_replace_request. frame_requests. Qed.

Lemma requests_execute_replace i x y z : maintains requests_ok (_execute_replace i x y z).
Proof.
  unfold _execute_replace, get_open_or_cancelled_replace_request, get_replace_request, relay_validate,
    accept_replace_tokens. cbv zeta.
  do 11 (apply maintains_bind; [apply requests_frame; frame_requests|]; intros ?).
  apply requests_set_replace_status.
Qed.

Lemma requests_cancel_replace i : maintains requests_ok (_cancel_replace i).
Proof.
  unfold _cancel_replace, get_open_replace_request, get_replace_request, replace_period. cbv zeta.
  do 9 (apply maintains_bind; [apply requests_frame; frame_requests|]; intros ?).
  apply requests_set_replace_status.
Qed.

(** The tokens a new vault takes over are a balance. *)
Lemma decrease_to_be_replaced_nonneg k t s a b s' :
  RegistryInv (registry s) -> 0 <= amount t ->
  decrease_to_be_replaced_tokens k t s = (Ok (a, b), s') -> 0 <= amount a.
Proof.
  intros I Ht H. unfold decrease_to_be_replaced_tokens in H.
  apply bind_ok in H as (v & s1 & E & H). apply get_vault_ok in E as [-> Hv].
  destruct (inv_vault _ I _ _ Hv) as [Hr _]. cbv zeta in H. inv_ok. simplify_eq. inv_amount.
  cbn in *. lia.
Qed.

Lemma requests_accept_replace c p P k k' x y a s u s' :
  0 <= x -> ChainInv c p P s -> _accept_replace k k' x y a s = (Ok u, s') -> requests_ok s'.
Proof.
  intros Hx [(I & _) HR] H. unfold _accept_replace in H. cbv zeta in H.
  apply bind_ok in H as (? & s1 & [Hne ->]%ensure_ok & H).
  apply negb_true_iff, bool_decide_eq_false in Hne.
  apply bind_ok in H as (? & s1 & [_ ->]%ensure_ok & H).
  apply bind_ok in H as (? & s1 & E & H).
  assert (RegistryInv (registry s1) /\ requests_ok s1) as [I1 HR1].
  { split; [|by eapply requests_frame in E; [|frame_requests|]].
    apply (preserves_ok books_of) in E; [|eauto with frame]. injection E as E1 E2 _.
    by eapply inv_ext. }
  apply bind_ok in H as ([t gr] & s2 & Et & H). pose proof Et as Ht.
  apply decrease_to_be_replaced_nonneg in Ht; [|done..].
  eapply requests_frame in Et; [|frame_requests|exact HR1]. revert Et H.
  apply (fun m => (m : maintains _ _) s2 u s'). unfold minimum_transfer_amount, replace_period,
    accept_replace_tokens.
  do 10 (apply maintains_bind; [apply requests_frame; frame_requests|]; intros ?).
  apply requests_put_replace. intros _ _ r [= <-]. by split.
Qed.

End requests.

(** ** Calls *)

(** Every extrinsic of the pallets with its arguments, the hooks, a token
    transfer between accounts, the start of a block, and the external inputs of
    the oracle: prices and the time. *)
Inductive RuntimeCall :=
| NewBlock (sys : SystemState)
| PriceFeed (prices : gmap OracleKey TimestampedValue) (time : Z)
| SecurityOnInitialize
| OracleBeginBlock
| RewardOnInitialize
| TokenTransfer (a : Amount) (src dst : AccountId)
| SetParachainStatus (root : outcome unit) (st : StatusCode)
| InsertParachainError (root : outcome unit) (e : ErrorCode)
| RemoveParachainError (root : outcome unit) (e : ErrorCode)
| UpdateOracleKeys (root : outcome unit) (l : list OracleKey)
| SetMaxDelay (root : outcome unit) (x : Z)
| UpdateTier1ValidatorSet (root : outcome unit) (vs : list Validator) (os : list Organization)
    (height : BlockNumber)
| SetRewardPerBlock (root : outcome unit) (x : Balance)
| CollectReward (signed : outcome AccountId) (k : VaultId) (c : CurrencyId) (index : option Z)
| SetIssueFee (root : outcome unit) (x : Z)
| SetIssueGriefingCollateral (root : outcome unit) (x : Z)
| SetRedeemFee (root : outcome unit) (x : Z)
| SetPremiumRedeemFee (root : outcome unit) (x : Z)
| SetPunishmentFee (root : outcome unit) (x : Z)
| SetReplaceGriefingCollateral (root : outcome unit) (x : Z)
| RegisterVault (signed : outcome AccountId) (cp : VaultCurrencyPair) (x : Balance)
| DepositCollateral (signed : outcome AccountId) (cp : VaultCurrencyPair) (x : Balance)
| WithdrawCollateral (signed : outcome AccountId) (cp : VaultCurrencyPair) (x : Balance)
| RegisterPublicKey (signed : outcome AccountId) (key : StellarPublicKeyRaw)
| AcceptNewIssues (signed : outcome AccountId) (cp : VaultCurrencyPair) (b : bool)
| SetCustomSecureThreshold (signed : outcome AccountId) (cp : VaultCurrencyPair) (t : option Z)
| ReportUndercollateralizedVault (k : VaultId)
| SetMinimumCollateral (root : outcome unit) (c : CurrencyId) (x : Balance)
| SetSystemCollateralCeiling (root : outcome unit) (cp : VaultCurrencyPair) (x : Balance)
| SetSecureCollateralThreshold (root : outcome unit) (cp : VaultCurrencyPair) (x : Z)
| SetPremiumRedeemThreshold (root : outcome unit) (cp : VaultCurrencyPair) (x : Z)
| SetLiquidationCollateralThreshold (root : outcome unit) (cp : VaultCurrencyPair) (x : Z)
| RecoverVaultId (signed : outcome AccountId) (cp : VaultCurrencyPair)
| SetPunishmentDelay (root : outcome unit) (x : BlockNumber)
| RequestIssue (signed : outcome AccountId) (x : Balance) (k : VaultId)
| ExecuteIssue (signed : outcome AccountId) (i : H256) (env envs set : Bytes)
| CancelIssue (signed : outcome AccountId) (i : H256)
| SetIssuePeriod (root : outcome unit) (x : BlockNumber)
| IssueRateLimit (root : outcome unit) (a : option Balance) (c : CurrencyId) (n : BlockNumber)
| IssueMinimum (root : outcome unit) (x : Balance)
| RequestRedeem (signed : outcome AccountId) (x : Balance) (a : StellarPublicKeyRaw) (k : VaultId)
| LiquidationRedeem (signed : outcome AccountId) (cp : VaultCurrencyPair) (x : Balance)
| ExecuteRedeem (signed : outcome AccountId) (i : H256) (env envs set : Bytes)
| CancelRedeem (signed : outcome AccountId) (i : H256) (reimburse : bool)
| SetRedeemPeriod (root : outcome unit) (x : BlockNumber)
| MintTokensForReimbursedRedeem (signed : outcome AccountId) (cp : VaultCurrencyPair) (i : H256)
| SelfRedeem (signed : outcome AccountId) (cp : VaultCurrencyPair) (x : Balance)
| RedeemRateLimit (root : outcome unit) (a : option Balance) (c : CurrencyId) (n : BlockNumber)
| RedeemMinimum (root : outcome unit) (x : Balance)
| RequestReplace (signed : outcome AccountId) (cp : VaultCurrencyPair) (x : Balance)
| WithdrawReplace (signed : outcome AccountId) (cp : VaultCurrencyPair) (x : Balance)
| AcceptReplace (signed : outcome AccountId) (cp : VaultCurrencyPair) (old : VaultId)
    (x y : Balance) (a : StellarPublicKeyRaw)
| ExecuteReplace (signed : outcome AccountId) (i : H256) (env envs set : Bytes)
| CancelReplace (signed : outcome AccountId) (i : H256)
| SetReplacePeriod (root : outcome unit) (x : BlockNumber)
| ReplaceMinimum (root : outcome unit) (x : Balance)
| SetNominationEnabled (root : outcome unit) (b : bool)
| OptInToNomination (signed : outcome AccountId) (cp : VaultCurrencyPair)
| OptOutOfNomination (signed : outcome AccountId) (cp : VaultCurrencyPair)
| NominationDeposit (signed : outcome AccountId) (k : VaultId) (x : Balance)
| NominationWithdraw (signed : outcome AccountId) (k : VaultId) (x : Balance) (index : option Z).

Section dispatch.
Context `{RT : Runtime}.

Definition set_system (x : SystemState) (s : Chain) : Chain :=
  mkChain RT x (ledger s) (oracle_st s) (staking_st s) (pooled_st s) (distribution_st s)
    (fee_st s) (relay_st s) (registry s) (issue_st s) (redeem_st s) (replace_st s) (nomination_st s).

Definition dispatch (call : RuntimeCall) : M Chain unit :=
  match call with
  | NewBlock sys => modify (set_system sys)
  | PriceFeed prices time => on_oracle (modify (fun s =>
      set_orc (mkOracle (MaxDelay (orc s)) (OracleKeys (orc s)) prices time) s))
  | SecurityOnInitialize => in_security on_initialize
  | OracleBeginBlock => on_oracle begin_block
  | RewardOnInitialize => execute_on_init
  | TokenTransfer a src dst => transactional (on_ledger (Amount.transfer a src dst))
  | SetParachainStatus root st => in_security (set_parachain_status root st)
  | InsertParachainError root e => in_security (insert_parachain_error root e)
  | RemoveParachainError root e => in_security (remove_parachain_error root e)
  | UpdateOracleKeys root l => on_oracle (update_oracle_keys root l)
  | SetMaxDelay root x => on_oracle (set_max_delay root x)
  | UpdateTier1ValidatorSet root vs os height =>
      on_relay (update_tier_1_validator_set ValidatorLimit OrganizationLimit root vs os height)
  | SetRewardPerBlock root x => set_reward_per_block root x
  | CollectReward signed k c index => collect_reward signed k c index
  | SetIssueFee root x => set_issue_fee root x
  | SetIssueGriefingCollateral root x => set_issue_griefing_collateral root x
  | SetRedeemFee root x => set_redeem_fee root x
  | SetPremiumRedeemFee root x => set_premium_redeem_fee root x
  | SetPunishmentFee root x => set_punishment_fee root x
  | SetReplaceGriefingCollateral root x => set_replace_griefing_collateral root x
  | RegisterVault signed cp x => register_vault signed cp x
  | DepositCollateral signed cp x => VaultRegistry.deposit_collateral signed cp x
  | WithdrawCollateral signed cp x => VaultRegistry.withdraw_collateral signed cp x
  | RegisterPublicKey signed key => register_public_key signed key
  | AcceptNewIssues signed cp b => accept_new_issues signed cp b
  | SetCustomSecureThreshold signed cp t => set_custom_secure_threshold signed cp t
  | ReportUndercollateralizedVault k => report_undercollateralized_vault k
  | SetMinimumCollateral root c x => set_minimum_collateral root c x
  | SetSystemCollateralCeiling root cp x => set_system_collateral_ceiling root cp x
  | SetSecureCollateralThreshold root cp x => set_secure_collateral_threshold_ root cp x
  | SetPremiumRedeemThreshold root cp x => set_premium_redeem_threshold root cp x
  | SetLiquidationCollateralThreshold root cp x => set_liquidation_collateral_threshold root cp x
  | RecoverVaultId signed cp => recover_vault_id signed cp
  | SetPunishmentDelay root x => set_punishment_delay root x
  | RequestIssue signed x k => request_issue signed x k ;;; ret tt
  | ExecuteIssue signed i env envs set => execute_issue signed i env envs set
  | CancelIssue signed i => cancel_issue signed i
  | SetIssuePeriod root x => set_issue_period root x
  | IssueRateLimit root a c n => Issue.rate_limit_update root a c n
  | IssueMinimum root x => Issue.minimum_transfer_amount_update root x
  | RequestRedeem signed x a k => request_redeem signed x a k ;;; ret tt
  | LiquidationRedeem signed cp x => liquidation_redeem signed cp x
  | ExecuteRedeem signed i env envs set => execute_redeem signed i env envs set
  | CancelRedeem signed i reimburse => cancel_redeem signed i reimburse
  | SetRedeemPeriod root x => set_redeem_period root x
  | MintTokensForReimbursedRedeem signed cp i => mint_tokens_for_reimbursed_redeem signed cp i
  | SelfRedeem signed cp x => self_redeem signed cp x
  | RedeemRateLimit root a c n => Redeem.rate_limit_update root a c n
  | RedeemMinimum root x => Redeem.minimum_transfer_amount_update root x
  | RequestReplace signed cp x => request_replace signed cp x
  | WithdrawReplace signed cp x => withdraw_replace signed cp x
  | AcceptReplace signed cp old x y a => accept_replace signed cp old x y a
  | ExecuteReplace signed i env envs set => execute_replace signed i env envs set
  | CancelReplace signed i => cancel_replace signed i
  | SetReplacePeriod root x => set_replace_period root x
  | ReplaceMinimum root x => Replace.minimum_transfer_amount_update root x
  | SetNominationEnabled root b => set_nomination_enabled root b
  | OptInToNomination signed cp => opt_in_to_nomination signed cp
  | OptOutOfNomination signed cp => opt_out_of_nomination signed cp
  | NominationDeposit signed k x => Nomination.deposit_collateral signed k x
  | NominationWithdraw signed k x index => Nomination.withdraw_collateral signed k x index
  end.

(** Balances are unsigned. *)
Definition well_typed (call : RuntimeCall) : Prop :=
  match call with
  | TokenTransfer a _ _ => 0 <= amount a
  | SetRewardPerBlock _ x | RegisterVault _ _ x | DepositCollateral _ _ x
  | WithdrawCollateral _ _ x | SetMinimumCollateral _ _ x | SetSystemCollateralCeiling _ _ x
  | RequestIssue _ x _ | IssueMinimum _ x | RequestRedeem _ x _ _ | LiquidationRedeem _ _ x
  | SelfRedeem _ _ x | RedeemMinimum _ x | RequestReplace _ _ x | WithdrawReplace _ _ x
  | ReplaceMinimum _ x | NominationDeposit _ _ x | NominationWithdraw _ _ x _ => 0 <= x
  | AcceptReplace _ _ _ x y _ => 0 <= x /\ 0 <= y
  | IssueRateLimit _ (Some x) _ _ | RedeemRateLimit _ (Some x) _ _ => 0 <= x
  | _ => True
  end.

(** What a call may do to the tokens in circulation. *)
Inductive SupplyEffect := Mints | Burns | Keeps.

Definition supply_effect (call : RuntimeCall) : SupplyEffect :=
  match call with
  | ExecuteIssue _ _ _ _ _ | MintTokensForReimbursedRedeem _ _ _ => Mints
  | LiquidationRedeem _ _ _ | ExecuteRedeem _ _ _ _ _ | CancelRedeem _ _ _
  | SelfRedeem _ _ _ => Burns
  | _ => Keeps
  end.

Definition closed_under (e : SupplyEffect) (P : Z -> Prop) : Prop :=
  match e with Mints => mint_closed P | Burns => burn_closed P | Keeps => True end.

End dispatch.

(** ** Every call keeps the invariant *)

Section calls.
Context `{RT : Runtime} {L : RuntimeLaws RT} (c : CurrencyId) (Hed : existential_deposit c = 0).
Context (Hnat : c <> GetNativeCurrencyId) (p : Z) (P : Z -> Prop).

#[local] Abbreviation keeps m := (maintains (ChainInv c p P) m).

(** Calls of the first kind do not touch the stored requests. *)
Lemma inv_registry_calls :
  (forall o cp x, keeps (register_vault o cp x)) /\
  (forall o cp x, keeps (VaultRegistry.deposit_collateral o cp x)) /\
  (forall o cp x, keeps (VaultRegistry.withdraw_collateral o cp x)) /\
  (forall o key, keeps (register_public_key o key)) /\
  (forall o cp b, keeps (accept_new_issues o cp b)) /\
  (forall o cp t, keeps (set_custom_secure_threshold o cp t)) /\
  (forall k, keeps (report_undercollateralized_vault k)) /\
  (forall o cp, keeps (recover_vault_id o cp)) /\
  (forall o' x k', keeps (set_minimum_collateral o' k' x)) /\
  (forall o' cp x, keeps (set_system_collateral_ceiling o' cp x)) /\
  (forall o' cp x, keeps (set_secure_collateral_threshold_ o' cp x)) /\
  (forall o' cp x, keeps (set_premium_redeem_threshold o' cp x)) /\
  (forall o' cp x, keeps (set_liquidation_collateral_threshold o' cp x)) /\
  (forall o' x, keeps (set_punishment_delay o' x)).
Proof.
  split_and!; intros; (apply inv_quiet; [apply peg_quiet; intros n g | frame_requests]).
  all: try (by apply maintains_registry_setters).
  all: eauto using maintains_register_vault, maintains_deposit_collateral,
    maintains_withdraw_collateral, maintains_register_public_key, maintains_accept_new_issues,
    maintains_custom_threshold, maintains_report, maintains_recover.
Qed.

Lemma inv_nomination_calls :
  (forall r b, keeps (set_nomination_enabled r b)) /\
  (forall o cp, keeps (opt_in_to_nomination o cp)) /\
  (forall o cp, keeps (opt_out_of_nomination o cp)) /\
  (forall o k x, keeps (Nomination.deposit_collateral o k x)) /\
  (forall o k x j, keeps (Nomination.withdraw_collateral o k x j)).
Proof.
  split_and!; intros; (apply inv_quiet; [by apply peg_nomination|]);
    unfold set_nomination_enabled, opt_in_to_nomination, _opt_in_to_nomination,
    opt_out_of_nomination, _opt_out_of_nomination, Nomination.deposit_collateral,
    _deposit_collateral, Nomination.withdraw_collateral, _withdraw_collateral,
    is_nomination_enabled, is_opted_in, put_nomination_vault, get_total_nominated_collateral;
    frame_requests.
Qed.

(** Settings: storage items that are in neither part of the invariant. *)
Lemma inv_setting {A} (m : M Chain A) :
  preserves books_of m -> preserves requests_of m -> maintains (ChainInv c p P) m.
Proof. intros Hb Hr. apply inv_quiet; [|done]. apply peg_quiet. intros. by apply maintains_books. Qed.

Lemma inv_fee_calls :
  (forall r x, keeps (set_issue_fee r x)) /\
  (forall r x, keeps (set_issue_griefing_collateral r x)) /\
  (forall r x, keeps (set_redeem_fee r x)) /\
  (forall r x, keeps (set_premium_redeem_fee r x)) /\
  (forall r x, keeps (set_punishment_fee r x)) /\
  (forall r x, keeps (set_replace_griefing_collateral r x)) /\
  (forall r x, keeps (set_reward_per_block r x)).
Proof.
  unfold set_issue_fee, set_issue_griefing_collateral, set_redeem_fee, set_premium_redeem_fee,
    set_punishment_fee, set_replace_griefing_collateral, set_reward_per_block,
    set_RewardPerBlock, set_RewardsAdaptedAt.
  split_and!; intros; (apply inv_setting; [solve_frame | frame_requests]).
Qed.

Lemma inv_request_settings :
  (forall r x, keeps (set_issue_period r x)) /\
  (forall r x, keeps (set_redeem_period r x)) /\
  (forall r x, keeps (set_replace_period r x)) /\
  (forall r a k n, keeps (Issue.rate_limit_update r a k n)) /\
  (forall r a k n, keeps (Redeem.rate_limit_update r a k n)) /\
  (forall r x, keeps (Issue.minimum_transfer_amount_update r x)) /\
  (forall r x, keeps (Redeem.minimum_transfer_amount_update r x)) /\
  (forall r x, keeps (Replace.minimum_transfer_amount_update r x)).
Proof.
  unfold set_issue_period, set_redeem_period, set_replace_period, Issue.rate_limit_update,
    Redeem.rate_limit_update, Issue.minimum_transfer_amount_update, Issue._rate_limit_update,
    Redeem._rate_limit_update, set_limits,
    Redeem.minimum_transfer_amount_update, Replace.minimum_transfer_amount_update.
  split_and!; intros; apply inv_setting; apply preserves_transactional, preserves_bind;
    solve [apply preserves_lift | intros ? s; reflexivity].
Qed.

(** Calls on requests. *)
Lemma inv_issue_calls :
  (forall o x k, keeps (request_issue o x k)) /\
  (mint_closed P -> forall o i env envs set, keeps (execute_issue o i env envs set)) /\
  (forall o i, keeps (cancel_issue o i)).
Proof.
  unfold request_issue, execute_issue, cancel_issue.
  split_and!; intros; apply maintains_transactional, maintains_bind;
    [apply maintains_lift | intros a | apply maintains_lift | intros a
    | apply maintains_lift | intros a]; apply inv_quiet.
  - by apply peg_request_issue.
  - apply requests_request_issue.
  - by apply peg_execute_issue.
  - apply requests_execute_issue.
  - by apply peg_cancel_issue.
  - apply requests_cancel_issue.
Qed.

Lemma inv_redeem_calls :
  (forall o x a k, keeps (request_redeem o x a k)) /\
  (burn_closed P -> forall o x cp, 0 <= x -> keeps (liquidation_redeem o cp x)) /\
  (burn_closed P -> forall o i env envs set, keeps (execute_redeem o i env envs set)) /\
  (burn_closed P -> forall o x cp, keeps (self_redeem o cp x)) /\
  (burn_closed P -> forall o i b, keeps (cancel_redeem o i b)) /\
  (mint_closed P -> forall o i cp, keeps (mint_tokens_for_reimbursed_redeem o cp i)).
Proof.
  unfold request_redeem, liquidation_redeem, execute_redeem, self_redeem, cancel_redeem,
    mint_tokens_for_reimbursed_redeem.
  split_and!; intros; apply maintains_transactional, maintains_bind; try apply maintains_lift;
    intros who.
  - apply inv_quiet; [by apply peg_request_redeem | apply requests_request_redeem].
  - apply inv_quiet; [by apply peg_liquidation_redeem | apply requests_liquidation_redeem].
  - apply inv_quiet; [by apply peg_execute_redeem | apply requests_execute_redeem].
  - apply inv_quiet; [by apply peg_self_redeem | apply requests_self_redeem].
  - intros s u s' [HP HR] Hrun. split; [by eapply peg_cancel_redeem | by eapply requests_cancel_redeem].
  - intros s u s' HI Hrun. split; [by eapply peg_mint | by eapply requests_mint, Hrun; apply HI].
Qed.

Lemma inv_replace_calls :
  (forall o cp x, keeps (request_replace o cp x)) /\
  (forall o cp x, keeps (withdraw_replace o cp x)) /\
  (forall o cp x k y a, 0 <= x -> keeps (accept_replace o cp k x y a)) /\
  (forall o i env envs set, keeps (execute_replace o i env envs set)) /\
  (forall o i, keeps (cancel_replace o i)).
Proof.
  unfold request_replace, withdraw_replace, accept_replace, execute_replace, cancel_replace.
  split_and!; intros; apply maintains_transactional, maintains_bind; try apply maintains_lift;
    intros who.
  - apply inv_quiet; [by apply peg_request_replace | apply requests_request_replace].
  - apply inv_quiet; [by apply peg_withdraw_replace | apply requests_withdraw_replace].
  - intros s u s' HI Hrun. split; [|by eapply requests_accept_replace].
    by eapply peg_accept_replace, Hrun; [|apply HI].
  - intros s u s' HI Hrun. split; [by eapply peg_execute_replace|].
    by eapply requests_execute_replace, Hrun; apply HI.
  - intros s u s' HI Hrun. split; [by eapply peg_cancel_replace|].
    by eapply requests_cancel_replace, Hrun; apply HI.
Qed.

Lemma maintains_drop {A} (Q : Chain -> Prop) (m : M Chain A) :
  maintains Q m -> maintains Q (m ;;; ret tt).
Proof. intros Hm. apply maintains_bind; [done|]. intros. apply maintains_ret. Qed.

Lemma inv_hooks :
  keeps execute_on_init /\ (forall x, keeps (modify (set_system x))) /\
  (forall A (m : M SecurityState A), keeps (in_security m)) /\
  (forall A (m : M OracleState A), keeps (on_oracle m)) /\
  (forall A (m : M RelayState A), keeps (on_relay m)).
Proof.
  split_and!; intros; [|apply inv_setting; [solve_frame|frame_requests]..].
  - apply inv_quiet; [by apply peg_on_init|].
    unfold execute_on_init, set_RewardPerBlock, set_RewardsAdaptedAt, set_NativeLiability.
    frame_requests.
  - by intros s.
Qed.

Lemma inv_moves :
  (forall a x y, keeps (transactional (on_ledger (Amount.transfer a x y)))) /\
  (forall o k x j, keeps (collect_reward o k x j)).
Proof.
  split; intros; apply inv_quiet.
  - apply peg_quiet. intros n g. by apply maintains_transactional, maintains_transfer.
  - frame_requests.
  - by apply peg_collect_reward.
  - unfold collect_reward, move_reward_to_vault, transfer_reward, set_NativeLiability.
    frame_requests.
Qed.

Lemma dispatch_inv call :
  well_typed call -> closed_under (supply_effect call) P -> keeps (dispatch call).
Proof.
  intros Hw Hc. destruct inv_registry_calls as (?&?&?&?&?&?&?&?&?&?&?&?&?&?).
  destruct inv_nomination_calls as (?&?&?&?&?), inv_fee_calls as (?&?&?&?&?&?&?).
  destruct inv_request_settings as (?&?&?&?&?&?&?&?), inv_issue_calls as (?&?&?).
  destruct inv_redeem_calls as (?&?&?&?&?&?), inv_replace_calls as (?&?&?&?&?).
  destruct inv_hooks as (?&?&?&?&?), inv_moves as (?&?).
  destruct call; cbn [dispatch]; try simple apply maintains_drop;
    match goal with H : _ |- _ => simple apply H; solve [apply Hw | apply Hc] end.
Qed.

End calls.
