(* ===== verification/RequestLife.v ===== *)
(** * The life of a request

    The stores of issue, redeem and replace requests under every call of the
    chain: which calls leave them alone, and which transitions a stored request
    can make.  A request that is settled stays as it is. *)

From S2P Require Import Prelude FixedPoint Primitives Currency Security Oracle Staking.
From S2P Require Import PooledRewards StellarRelay Chain RewardDistribution Fee VaultRegistry.
From S2P Require Import VaultFrames VaultBooks RateLimit Issue Redeem Nomination Replace Peg Runtime.

(** ** Calls that leave a store alone *)

(** The observation depends on the stores of the request pallets only. *)
Class BaseFrame `{RT : Runtime} {B} (f : Chain -> B) : Prop := {
  bf_outer :: OuterFrame f;
  bf_oracle :: OracleFrame f;
  bf_fee x s : f (set_fee x s) = f s;
  bf_relay x s : f (set_relay x s) = f s;
  bf_nomination x s : f (set_nomination x s) = f s;
  bf_system x s : f (set_system x s) = f s;
}.

Section base.
Context `{RT : Runtime} {B : Type} (f : Chain -> B) {F : BaseFrame f}.

Lemma base_fee {A} (m : M FeeStorage A) : preserves f (on_fee m).
Proof. apply preserves_zoom, F. Qed.
Lemma base_relay {A} (m : M RelayState A) : preserves f (on_relay m).
Proof. apply preserves_zoom, F. Qed.
Lemma base_nomination {A} (m : M NominationStorage A) : preserves f (on_nomination m).
Proof. apply preserves_zoom, F. Qed.

End base.

#[export] Hint Resolve base_fee base_relay base_nomination : outer.

(** The storage a call belongs to. *)
Inductive RequestPallet := IssuePallet | RedeemPallet | ReplacePallet.

#[export] Instance RequestPallet_eq_dec : EqDecision RequestPallet.
Proof. solve_decision. Defined.

Definition pallet_of (call : RuntimeCall) : option RequestPallet :=
  match call with
  | RequestIssue _ _ _ | ExecuteIssue _ _ _ _ _ | CancelIssue _ _ | SetIssuePeriod _ _
  | IssueRateLimit _ _ _ _ | IssueMinimum _ _ => Some IssuePallet
  | RequestRedeem _ _ _ _ | LiquidationRedeem _ _ _ | ExecuteRedeem _ _ _ _ _
  | CancelRedeem _ _ _ | SetRedeemPeriod _ _ | MintTokensForReimbursedRedeem _ _ _
  | SelfRedeem _ _ _ | RedeemRateLimit _ _ _ _ | RedeemMinimum _ _ => Some RedeemPallet
  | RequestReplace _ _ _ | WithdrawReplace _ _ _ | AcceptReplace _ _ _ _ _ _
  | ExecuteReplace _ _ _ _ _ | CancelReplace _ _ | SetReplacePeriod _ _ | ReplaceMinimum _ _ =>
      Some ReplacePallet
  | _ => None
  end.

(** The volume limit is in the storage of its pallet. *)
Lemma frame_rate_limit `{RT : Runtime} {B : Type} (f : Chain -> B) {OF : OuterFrame f} get put e a :
  (forall x s, f (put x s) = f s) ->
  preserves f (RateLimit.check_volume get put e a) /\
  preserves f (RateLimit.increase_interval_volume get put a).
Proof.
  intros Hput.
  unfold RateLimit.check_volume, RateLimit.increase_interval_volume,
    convert_into_limit_currency_id_amount, set_current_volume, set_last_interval.
  split; outer; by apply preserves_modify.
Qed.

Section frames.
Context `{RT : Runtime} {B : Type} (f : Chain -> B) {F : BaseFrame f}.

Lemma frame_set_system x : preserves f (modify (set_system x)).
Proof. apply preserves_modify, F. Qed.
Hint Resolve frame_set_system : outer.

Lemma base_calls call : pallet_of call = None -> preserves f (dispatch call).
Proof.
  pose proof (@bf_outer _ _ f F) as OF. pose proof (@bf_oracle _ _ f F) as OO.
  unfold dispatch, set_issue_fee, set_issue_griefing_collateral, set_redeem_fee,
    set_premium_redeem_fee, set_punishment_fee, set_replace_griefing_collateral,
    set_nomination_enabled, opt_in_to_nomination, _opt_in_to_nomination, opt_out_of_nomination,
    _opt_out_of_nomination, Nomination.deposit_collateral, _deposit_collateral,
    Nomination.withdraw_collateral, _withdraw_collateral, is_nomination_enabled, is_opted_in,
    put_nomination_vault, get_total_nominated_collateral.
  destruct call; try discriminate; intros _; outer.
Qed.

Section issue.
Context (Hi : forall x s, f (set_issue x s) = f s).

Lemma frame_on_issue {A} (m : M IssueStorage A) : preserves f (on_issue m).
Proof. apply preserves_zoom, Hi. Qed.
Hint Resolve frame_on_issue : outer.

Lemma frame_issue_volume a :
  preserves f (Issue.check_volume a) /\ preserves f (Issue.increase_interval_volume a).
Proof. apply (frame_rate_limit f). intros. apply Hi. Qed.

Lemma issue_pallet_calls call : pallet_of call = Some IssuePallet -> preserves f (dispatch call).
Proof.
  pose proof (@bf_outer _ _ f F) as OF. pose proof (@bf_oracle _ _ f F) as OO. pose proof (fun a => proj1 (frame_issue_volume a)).
  pose proof (fun a => proj2 (frame_issue_volume a)).
  unfold dispatch, request_issue, execute_issue, cancel_issue, _request_issue, _execute_issue,
    _cancel_issue, issue_minimum_transfer_amount, issue_period, insert_issue_request,
    get_executable_issue_request_from_id, get_pending_issue, get_issue_request,
    Issue.validate_stellar_transaction, relay_validate, _handle_issue_requests,
    decrease_issue_amount, try_increase_issue_amount, set_issue_amount, set_issue_status,
    put_issue_request, set_issue_period, Issue.rate_limit_update,
    Issue.minimum_transfer_amount_update, Issue._rate_limit_update, set_limits.
  destruct call; try discriminate; intros _; outer.
  apply preserves_modify. intros s. apply Hi.
Qed.

End issue.

Section redeem.
Context (Hr : forall x s, f (set_redeem x s) = f s).

Lemma frame_on_redeem {A} (m : M RedeemStorage A) : preserves f (on_redeem m).
Proof. apply preserves_zoom, Hr. Qed.
Hint Resolve frame_on_redeem : outer.

Lemma frame_redeem_volume a :
  preserves f (Redeem.check_volume a) /\ preserves f (Redeem.increase_interval_volume a).
Proof. apply (frame_rate_limit f). intros. apply Hr. Qed.

Lemma redeem_pallet_calls call : pallet_of call = Some RedeemPallet -> preserves f (dispatch call).
Proof.
  pose proof (@bf_outer _ _ f F) as OF. pose proof (@bf_oracle _ _ f F) as OO. pose proof (fun a => proj1 (frame_redeem_volume a)).
  pose proof (fun a => proj2 (frame_redeem_volume a)).
  unfold dispatch, request_redeem, liquidation_redeem, execute_redeem, cancel_redeem,
    mint_tokens_for_reimbursed_redeem, self_redeem, set_redeem_period, Redeem.rate_limit_update,
    Redeem.minimum_transfer_amount_update, Redeem._rate_limit_update, set_limits,
    _request_redeem, _execute_redeem, _liquidation_redeem, self_redeem_execute, _cancel_redeem,
    _mint_tokens_for_reimbursed_redeem, cancel_liquidated, cancel_active, cancel_tokens,
    calculate_token_amounts, take_user_tokens, update_vault_tokens, release_replace_collateral,
    get_balance, get_minimum_transfer_amount, redeem_period, get_open_redeem_request_from_id,
    get_redeem_request, relay_validate, collect_redeem_fee, put_cancelled_amount,
    insert_redeem_request, set_redeem_status, put_redeem_request.
  destruct call; try discriminate; intros _; outer.
  apply preserves_modify. intros s. apply Hr.
Qed.

End redeem.

Section replace.
Context (Hp : forall x s, f (set_replace x s) = f s).

Lemma frame_on_replace {A} (m : M ReplaceStorage A) : preserves f (on_replace m).
Proof. apply preserves_zoom, Hp. Qed.
Hint Resolve frame_on_replace : outer.

Lemma replace_pallet_calls call : pallet_of call = Some ReplacePallet -> preserves f (dispatch call).
Proof.
  pose proof (@bf_outer _ _ f F) as OF. pose proof (@bf_oracle _ _ f F) as OO.
  unfold dispatch, request_replace, withdraw_replace, accept_replace, execute_replace,
    cancel_replace, set_replace_period, Replace.minimum_transfer_amount_update, _request_replace,
    _withdraw_replace_request, _accept_replace, _execute_replace, _cancel_replace, is_opted_in,
    minimum_transfer_amount, replace_period, accept_replace_tokens, insert_replace_request,
    set_replace_status, put_replace_request, get_open_or_cancelled_replace_request,
    get_open_replace_request, get_replace_request, relay_validate.
  destruct call; try discriminate; intros _; outer.
Qed.

End replace.

End frames.

(** ** The stores *)

Section stores.
Context `{RT : Runtime}.
Implicit Types s : Chain.

Definition issue_store s := IssueRequests (issue_st s).
Definition redeem_store s := RedeemRequests (redeem_st s).
Definition replace_store s := ReplaceRequests (replace_st s).

#[export] Instance issue_store_frame : BaseFrame issue_store.
Proof. by repeat split. Qed.
#[export] Instance redeem_store_frame : BaseFrame redeem_store.
Proof. by repeat split. Qed.
#[export] Instance replace_store_frame : BaseFrame replace_store.
Proof. by repeat split. Qed.

(** What the next identifier is computed from. *)
Definition nonce_of s := (context (system s), Security.Nonce (sec (oracle_st s))).

(** The identifier the next request gets. *)
Definition next_id s : H256 :=
  sha256 (secure_id_preimage (context (system s)) ((Security.Nonce (sec (oracle_st s)) + 1) mod 2 ^ 256)).

Lemma next_id_ext s s' : nonce_of s' = nonce_of s -> next_id s' = next_id s.
Proof. intros [= H1 H2]. unfold next_id. by rewrite H1, H2. Qed.

Lemma chain_secure_id_ok s i s' :
  chain_secure_id s = (Ok i, s') ->
  i = next_id s /\ issue_store s' = issue_store s /\ redeem_store s' = redeem_store s /\
  replace_store s' = replace_store s.
Proof.
  unfold chain_secure_id, in_security, on_oracle, on_security, get_secure_id, get_nonce. intros H.
  inv_ok. simplify_eq/=. done.
Qed.

(** A store with what the identifiers depend on. *)
Definition with_nonce {B} (f : Chain -> B) s := (f s, nonce_of s).

#[export] Instance with_nonce_frame {B} (f : Chain -> B) {F : OuterFrame f} :
  OuterFrame (with_nonce f).
Proof. destruct F. split; intros; unfold with_nonce, nonce_of; cbn; by f_equal. Qed.

End stores.

(** Passes the first computation of the sequence [H], which leaves [f] alone.
    [Hf] relates the observation to that of the first state. *)
Ltac pass f H Hf :=
  let E := fresh in
  apply bind_ok in H as (? & ? & E & H); apply (preserves_ok f) in E;
  [let Hn := fresh in pose proof (eq_trans E Hf) as Hn; clear E Hf; rename Hn into Hf
  |let F := fresh in pose proof (_ : OuterFrame f) as F; solve [outer]].
Ltac pass_all f H :=
  match type of H with bind _ _ ?s = _ =>
    let Hf := fresh "Hf" in assert (Hf : f s = f s) by done; repeat pass f H Hf end.

Lemma alter_stored {A} (g : A -> A) (i : H256) (m : gmap H256 A) r :
  m !! i = Some r -> partial_alter (option_map g) i m = <[i := g r]> m.
Proof.
  intros Hr. rewrite <- (insert_id m i r Hr) at 1. rewrite partial_alter_insert_eq. done.
Qed.

(** ** Issue requests *)

Section issue_requests.
Context `{RT : Runtime}.

Inductive issue_transition : IssueRequest -> IssueRequest -> Prop :=
| issue_keeps r : issue_transition r r
| issue_completes r x :
    issue_status r <> IssueCompleted ->
    issue_transition r (with_issue_status IssueCompleted (set_issue_amounts x (issue_fee_ r) r))
| issue_cancels r :
    issue_status r = IssuePending -> issue_transition r (with_issue_status IssueCancelled r).

Lemma volume_frames {B} (f : Chain -> B) `{!OuterFrame f} a :
  (forall x s, f (put_issue_volume x s) = f s) ->
  preserves f (Issue.check_volume a) /\ preserves f (Issue.increase_interval_volume a).
Proof. by apply frame_rate_limit. Qed.

Lemma put_issue_ok i g s u s' :
  put_issue_request i g s = (Ok u, s') -> issue_store s' = partial_alter g i (issue_store s).
Proof. unfold put_issue_request, on_issue. intros H. inv_ok. done. Qed.

Lemma request_issue_store q x k s i s' :
  _request_issue q x k s = (Ok i, s') ->
  i = next_id s /\
  exists r, issue_status r = IssuePending /\ issue_store s' = <[i := r]> (issue_store s).
Proof.
  pose proof (fun a => proj1 (volume_frames (with_nonce issue_store) a (fun _ _ => eq_refl))).
  unfold _request_issue, issue_minimum_transfer_amount, issue_period. cbv zeta. intros Hrun.
  pass_all (with_nonce issue_store) Hrun.
  apply bind_ok in Hrun as (j & s1 & E & Hrun). apply chain_secure_id_ok in E as (-> & Hs & _).
  injection Hf as Hf Hn Hc. apply (f_equal2 pair Hn) in Hc. apply next_id_ext in Hc.
  rewrite Hc, Hf in *. clear Hc Hn Hf. pass_all issue_store Hrun.
  apply bind_ok in Hrun as (? & s2 & E & [-> ->]%ret_ok). apply put_issue_ok in E.
  split; [done|]. eexists. split; [|rewrite E, Hf, Hs; reflexivity]. done.
Qed.

(** The store with an amended amount of request [i], which was [r] in [m]. *)
Definition amended (i : H256) (r : IssueRequest) (m : gmap H256 IssueRequest) (s : Chain) : Prop :=
  exists x, issue_store s = <[i := set_issue_amounts x (issue_fee_ r) r]> m.

Lemma amended_frame i r m {A} (c : M Chain A) :
  preserves issue_store c -> maintains (amended i r m) c.
Proof. intros Hc s a s' [x Hx] H. exists x. by rewrite (preserves_ok _ _ _ _ _ Hc H). Qed.

Lemma amended_set i r m r' a b : maintains (amended i r m) (set_issue_amount i r' a b).
Proof.
  unfold set_issue_amount.
  do 2 (apply maintains_bind; [apply amended_frame; pose proof (_ : OuterFrame issue_store); outer|];
    intros ?).
  apply maintains_bind; [|intros ?; apply maintains_ret].
  intros s u s' [x Hx] E%put_issue_ok. exists (amount a1). rewrite E, Hx.
  by rewrite partial_alter_insert_eq.
Qed.

Ltac amend :=
  repeat match goal with
  | |- maintains _ (bind _ _) => apply maintains_bind; [|intros ?]
  | |- maintains _ (match ?x with _ => _ end) => destruct x
  | |- maintains _ (set_issue_amount _ _ _ _) => apply amended_set
  | |- maintains _ _ => apply amended_frame; solve [outer]
  end.

Lemma amended_handle e i r m r' a : maintains (amended i r m) (_handle_issue_requests e i r' a).
Proof.
  pose proof (_ : OuterFrame issue_store). unfold _handle_issue_requests, decrease_issue_amount,
    try_increase_issue_amount. cbv zeta. amend.
Qed.

Lemma get_executable_ok i s r s' :
  get_executable_issue_request_from_id i s = (Ok r, s') ->
  issue_store s !! i = Some r /\ issue_status r <> IssueCompleted /\
  issue_store s' = issue_store s.
Proof.
  unfold get_executable_issue_request_from_id, get_issue_request. intros H.
  apply bind_ok in H as (r' & s1 & E & H). apply bind_ok in E as (o & s2 & [-> ->]%gets_ok & E).
  apply lift_ok in E as [E ->]. apply ok_or_ok in E.
  destruct (issue_status r') eqn:Hs; [inv_ok; simplify_eq; by rewrite Hs|inv_ok|].
  apply bind_ok in H as (? & s2 & E2 & [-> ->]%ret_ok). rewrite Hs.
  apply (preserves_ok issue_store) in E2; [done|].
  pose proof (_ : OuterFrame issue_store). outer.
Qed.

Lemma execute_issue_store e i x y z s u s' :
  _execute_issue e i x y z s = (Ok u, s') ->
  exists r a, issue_store s !! i = Some r /\ issue_status r <> IssueCompleted /\
    issue_store s' =
      <[i := with_issue_status IssueCompleted (set_issue_amounts a (issue_fee_ r) r)]> (issue_store s).
Proof.
  pose proof (fun a => proj2 (volume_frames issue_store a (fun _ _ => eq_refl))).
  unfold _execute_issue, Issue.validate_stellar_transaction, relay_validate. cbv zeta. intros Hrun.
  apply bind_ok in Hrun as (r & s1 & E & Hrun). apply get_executable_ok in E as (Hr & Hst & Hs).
  pass_all issue_store Hrun. apply bind_ok in Hrun as (r' & s2 & E & Hrun).
  eapply (amended_handle _ _ r (issue_store s)) in E as [a Ha]; [|exists (issue_amount_ r)].
  - exists r, a. split_and!; [done..|]. pass_all issue_store Hrun. apply put_issue_ok in Hrun.
    rewrite Hrun, Hf0, Ha. by rewrite partial_alter_insert_eq.
  - rewrite Hf, Hs, insert_id; [done|]. rewrite Hr. by destruct r.
Qed.

Lemma cancel_issue_store q i s u s' :
  _cancel_issue q i s = (Ok u, s') ->
  exists r, issue_store s !! i = Some r /\ issue_status r = IssuePending /\
    issue_store s' = <[i := with_issue_status IssueCancelled r]> (issue_store s).
Proof.
  unfold _cancel_issue, get_pending_issue, get_issue_request, issue_period. cbv zeta. intros Hrun.
  apply bind_ok in Hrun as (r & s1 & E & Hrun).
  assert (s1 = s /\ issue_store s !! i = Some r /\ issue_status r = IssuePending) as (-> & Hr & Hst).
  { apply bind_ok in E as (r' & s2 & E & H). apply bind_ok in E as (o & s3 & [-> ->]%gets_ok & E).
    apply lift_ok in E as [E ->]. apply ok_or_ok in E.
    destruct (issue_status r') eqn:Hs; inv_ok. by simplify_eq. }
  exists r. split_and!; [done..|]. pass_all issue_store Hrun. apply put_issue_ok in Hrun.
  rewrite Hrun, Hf. by apply alter_stored.
Qed.

End issue_requests.

(** ** Redeem requests *)

Section redeem_requests.
Context `{RT : Runtime}.

Inductive redeem_transition : RedeemRequest -> RedeemRequest -> Prop :=
| redeem_keeps r : redeem_transition r r
| redeem_settles r st :
    redeem_status r = RedeemPending -> st <> RedeemPending ->
    redeem_transition r (with_redeem_status st r)
| redeem_mints r :
    redeem_status r = Reimbursed false ->
    redeem_transition r (with_redeem_status (Reimbursed true) r).

Lemma redeem_volume_frames {B} (f : Chain -> B) `{!OuterFrame f} a :
  (forall x s, f (put_redeem_volume x s) = f s) ->
  preserves f (Redeem.check_volume a) /\ preserves f (Redeem.increase_interval_volume a).
Proof. by apply frame_rate_limit. Qed.

Lemma put_redeem_ok i g s u s' :
  put_redeem_request i g s = (Ok u, s') -> redeem_store s' = partial_alter g i (redeem_store s).
Proof. unfold put_redeem_request, on_redeem. intros H. inv_ok. done. Qed.

Lemma set_redeem_status_ok i st r s u s' :
  set_redeem_status i st s = (Ok u, s') -> redeem_store s !! i = Some r ->
  redeem_store s' = <[i := with_redeem_status st r]> (redeem_store s).
Proof.
  unfold set_redeem_status. intros H Hr. inv_ok.
  match goal with E : put_redeem_request _ _ _ = _ |- _ => apply put_redeem_ok in E; rewrite E end.
  by apply alter_stored.
Qed.

Lemma get_redeem_ok i s r s' :
  get_redeem_request i s = (Ok r, s') -> s' = s /\ redeem_store s !! i = Some r.
Proof.
  unfold get_redeem_request. intros H. apply bind_ok in H as (o & s3 & [-> ->]%gets_ok & E).
  apply lift_ok in E as [E ->]. by apply ok_or_ok in E.
Qed.

Lemma get_open_redeem_ok i s r s' :
  get_open_redeem_request_from_id i s = (Ok r, s') ->
  s' = s /\ redeem_store s !! i = Some r /\ redeem_status r = RedeemPending.
Proof.
  unfold get_open_redeem_request_from_id. intros H. apply bind_ok in H as (r' & s1 & E & H).
  apply get_redeem_ok in E as [-> Hr]. destruct (redeem_status r') eqn:Hs; inv_ok. by simplify_eq.
Qed.

Lemma request_redeem_store q x a k s i s' :
  _request_redeem q x a k s = (Ok i, s') ->
  i = next_id s /\
  exists r, redeem_status r = RedeemPending /\ redeem_store s' = <[i := r]> (redeem_store s).
Proof.
  pose proof (fun a => proj1 (redeem_volume_frames (with_nonce redeem_store) a (fun _ _ => eq_refl))).
  unfold _request_redeem, get_balance, get_minimum_transfer_amount, redeem_period,
    release_replace_collateral. cbv zeta. intros Hrun.
  pass_all (with_nonce redeem_store) Hrun.
  apply bind_ok in Hrun as (j & s1 & E & Hrun). apply chain_secure_id_ok in E as (-> & _ & Hs & _).
  injection Hf as Hf Hn Hc. apply (f_equal2 pair Hn) in Hc. apply next_id_ext in Hc.
  rewrite Hc, Hf in *. clear Hc Hn Hf. pass_all redeem_store Hrun.
  apply bind_ok in Hrun as (? & s2 & E & [-> ->]%ret_ok). apply put_redeem_ok in E.
  split; [done|]. eexists. split; [|rewrite E, Hf, Hs; reflexivity]. done.
Qed.

Lemma execute_redeem_store i x y z s u s' :
  _execute_redeem i x y z s = (Ok u, s') ->
  exists r, redeem_store s !! i = Some r /\ redeem_status r = RedeemPending /\
    redeem_store s' = <[i := with_redeem_status RedeemCompleted r]> (redeem_store s).
Proof.
  pose proof (fun a => proj2 (redeem_volume_frames redeem_store a (fun _ _ => eq_refl))).
  unfold _execute_redeem, relay_validate, collect_redeem_fee. cbv zeta. intros Hrun.
  apply bind_ok in Hrun as (r & s1 & E & Hrun). apply get_open_redeem_ok in E as (-> & Hr & Hst).
  exists r. split_and!; [done..|]. pass_all redeem_store Hrun.
  apply bind_ok in Hrun as (? & s2 & E & [-> ->]%ret_ok).
  eapply set_redeem_status_ok in E; [|by rewrite Hf]. by rewrite E, Hf.
Qed.

Lemma cancel_tokens_store i r q b t s st s' :
  redeem_store s !! i = Some r -> cancel_tokens i r q b t s = (Ok st, s') ->
  exists st', st' <> RedeemPending /\
    redeem_store s' = <[i := with_redeem_status st' r]> (redeem_store s).
Proof.
  pose proof (_ : OuterFrame redeem_store). unfold cancel_tokens, collect_redeem_fee.
  intros Hr Hrun. destruct b.
  - pass_all redeem_store Hrun. case_match; pass_all redeem_store Hrun;
      (eapply set_redeem_status_ok in Hrun; [|by rewrite Hf0, Hf]);
      (eexists; split; [|rewrite Hrun, Hf0, Hf; reflexivity]); done.
  - pass_all redeem_store Hrun. eapply set_redeem_status_ok in Hrun; [|by rewrite Hf].
    (eexists; split; [|rewrite Hrun, Hf; reflexivity]); done.
Qed.

Lemma frame_cancel :
  (forall r q b x y, preserves redeem_store (cancel_liquidated r q b x y)) /\
  (forall i r q b x, preserves redeem_store (cancel_active i r q b x)).
Proof.
  pose proof (_ : OuterFrame redeem_store).
  assert (forall i x, preserves redeem_store (put_cancelled_amount i x)) by by intros i x s.
  unfold cancel_liquidated, cancel_active. split; intros; outer.
Qed.

Lemma cancel_redeem_store q i b s u s' :
  _cancel_redeem q i b s = (Ok u, s') ->
  exists r st, redeem_store s !! i = Some r /\ redeem_status r = RedeemPending /\
    st <> RedeemPending /\
    redeem_store s' = <[i := with_redeem_status st r]> (redeem_store s).
Proof.
  destruct frame_cancel. unfold _cancel_redeem, redeem_period. cbv zeta. intros Hrun.
  assert (Hf : redeem_store s = redeem_store s) by done. pass redeem_store Hrun Hf.
  apply bind_ok in Hrun as (r & s1 & E & Hrun). apply get_open_redeem_ok in E as (-> & Hr & Hst).
  pass_all redeem_store Hrun. apply bind_ok in Hrun as (? & s2 & E & [-> ->]%ret_ok).
  eapply (cancel_tokens_store i r) in E as (st & Hne & E); [|by rewrite Hf0].
  exists r, st. rewrite E, Hf0, <- Hf. auto.
Qed.

Lemma mint_redeem_store k i s u s' :
  _mint_tokens_for_reimbursed_redeem k i s = (Ok u, s') ->
  exists r, redeem_store s !! i = Some r /\ redeem_status r = Reimbursed false /\
    redeem_store s' = <[i := with_redeem_status (Reimbursed true) r]> (redeem_store s).
Proof.
  assert (forall i x, preserves redeem_store (put_cancelled_amount i x)) by by intros i' x s0.
  unfold _mint_tokens_for_reimbursed_redeem. cbv zeta. intros Hrun.
  assert (Hf : redeem_store s = redeem_store s) by done. pass redeem_store Hrun Hf.
  apply bind_ok in Hrun as (r & s1 & E & Hrun). apply get_redeem_ok in E as [-> Hr].
  apply bind_ok in Hrun as (? & s1 & [Hst ->]%ensure_ok & Hrun). apply bool_decide_eq_true in Hst.
  pass_all redeem_store Hrun. apply bind_ok in Hrun as (? & s2 & E & [-> ->]%ret_ok).
  eapply set_redeem_status_ok in E; [|by rewrite Hf0].
  exists r. rewrite E, Hf0, <- Hf. auto.
Qed.

End redeem_requests.

(** ** Replace requests *)

Section replace_requests.
Context `{RT : Runtime}.

Inductive replace_transition : ReplaceRequest -> ReplaceRequest -> Prop :=
| replace_keeps r : replace_transition r r
| replace_completes r :
    replace_status r <> ReplaceCompleted ->
    replace_transition r (with_replace_status ReplaceCompleted r)
| replace_cancels r :
    replace_status r = ReplacePending ->
    replace_transition r (with_replace_status ReplaceCancelled r).

Lemma put_replace_ok i g s u s' :
  put_replace_request i g s = (Ok u, s') -> replace_store s' = partial_alter g i (replace_store s).
Proof. unfold put_replace_request, on_replace. intros H. inv_ok. done. Qed.

Lemma set_replace_status_ok i st r s u s' :
  set_replace_status i st s = (Ok u, s') -> replace_store s !! i = Some r ->
  replace_store s' = <[i := with_replace_status st r]> (replace_store s).
Proof. unfold set_replace_status. intros H%put_replace_ok Hr. rewrite H. by apply alter_stored. Qed.

Lemma get_replace_status_ok i s r s' :
  get_open_or_cancelled_replace_request i s = (Ok r, s') -> replace_status r <> ReplaceCompleted.
Proof.
  unfold get_open_or_cancelled_replace_request. intros H. inv_ok.
  destruct (replace_status _) eqn:Hs; inv_ok; by rewrite Hs.
Qed.

Lemma get_open_replace_status_ok i s r s' :
  get_open_replace_request i s = (Ok r, s') -> replace_status r = ReplacePending.
Proof.
  unfold get_open_replace_request. intros H. inv_ok.
  destruct (replace_status _) eqn:Hs; inv_ok; by rewrite Hs.
Qed.

Lemma accept_replace_store k k' x y a s u s' :
  _accept_replace k k' x y a s = (Ok u, s') ->
  exists r, replace_status r = ReplacePending /\
    replace_store s' = <[next_id s := r]> (replace_store s).
Proof.
  unfold _accept_replace, minimum_transfer_amount, replace_period, accept_replace_tokens. cbv zeta.
  intros Hrun. assert (Hf : with_nonce replace_store s = with_nonce replace_store s) by done.
  do 3 pass (with_nonce replace_store) Hrun Hf.
  apply bind_ok in Hrun as ([t g] & s1 & E & Hrun). apply (preserves_ok (with_nonce replace_store)) in E;
    [|pose proof (_ : OuterFrame (with_nonce replace_store)); outer].
  apply (fun E => eq_trans E Hf) in E. clear Hf. rename E into Hf.
  repeat pass (with_nonce replace_store) Hrun Hf.
  apply bind_ok in Hrun as (j & s2 & E & Hrun). apply chain_secure_id_ok in E as (-> & _ & _ & Hs).
  injection Hf as Hf Hn Hc. apply (f_equal2 pair Hn) in Hc. apply next_id_ext in Hc.
  rewrite Hc, Hf in *. clear Hc Hn Hf. pass_all replace_store Hrun. apply put_replace_ok in Hrun.
  eexists. split; [|rewrite Hrun, Hf, Hs; reflexivity]. done.
Qed.

Lemma execute_replace_store i x y z s u s' :
  _execute_replace i x y z s = (Ok u, s') ->
  exists r, replace_store s !! i = Some r /\ replace_status r <> ReplaceCompleted /\
    replace_store s' = <[i := with_replace_status ReplaceCompleted r]> (replace_store s).
Proof.
  unfold _execute_replace, relay_validate, accept_replace_tokens. cbv zeta. intros Hrun.
  apply bind_ok in Hrun as (r & s1 & E & Hrun). pose proof (get_replace_status_ok _ _ _ _ E) as Hst.
  apply (fun E => get_replace_ok i s r s1 (or_intror E)) in E as [-> Hr].
  exists r. split_and!; [done..|]. pass_all replace_store Hrun.
  eapply set_replace_status_ok in Hrun; [|by rewrite Hf]. by rewrite Hrun, Hf.
Qed.

Lemma cancel_replace_store i s u s' :
  _cancel_replace i s = (Ok u, s') ->
  exists r, replace_store s !! i = Some r /\ replace_status r = ReplacePending /\
    replace_store s' = <[i := with_replace_status ReplaceCancelled r]> (replace_store s).
Proof.
  unfold _cancel_replace, replace_period. cbv zeta. intros Hrun.
  apply bind_ok in Hrun as (r & s1 & E & Hrun). pose proof (get_open_replace_status_ok _ _ _ _ E) as Hst.
  apply (fun E => get_replace_ok i s r s1 (or_introl E)) in E as [-> Hr].
  exists r. split_and!; [done..|]. pass_all replace_store Hrun.
  eapply set_replace_status_ok in Hrun; [|by rewrite Hf]. by rewrite Hrun, Hf.
Qed.

End replace_requests.

(** ** Every call *)

(** An extrinsic: a transaction that starts with a check of the origin. *)
Ltac open_call H :=
  apply transactional_ok in H; apply bind_ok in H as (? & ? & [_ ->]%lift_ok & H).

Section life.
Context `{RT : Runtime}.

(** Every request of [m] is in [m'], as it was or after a transition. *)
Definition evolves {R} (t : R -> R -> Prop) (m m' : gmap H256 R) : Prop :=
  forall i r, m !! i = Some r -> exists r', m' !! i = Some r' /\ t r r'.

Lemma evolves_refl {R} (t : R -> R -> Prop) m : (forall r, t r r) -> evolves t m m.
Proof. intros Ht i r Hr. eauto. Qed.

Lemma evolves_insert {R} (t : R -> R -> Prop) (m : gmap H256 R) i r' :
  (forall r, t r r) -> (forall r, m !! i = Some r -> t r r') -> evolves t m (<[i := r']> m).
Proof.
  intros Ht Hi j r Hr. destruct (decide (i = j)) as [<-|].
  - exists r'. rewrite lookup_insert_eq. auto.
  - exists r. rewrite lookup_insert_ne by done. auto.
Qed.

(** Other pallets' calls, and settings. *)
Lemma stores_frames call s s' :
  dispatch call s = (Ok tt, s') ->
  (pallet_of call <> Some IssuePallet -> issue_store s' = issue_store s) /\
  (pallet_of call <> Some RedeemPallet -> redeem_store s' = redeem_store s) /\
  (pallet_of call <> Some ReplacePallet -> replace_store s' = replace_store s).
Proof.
  intros H. split_and!; intros Hp; (eapply preserves_ok; [|exact H]);
    destruct (pallet_of call) as [[]|] eqn:E; try done;
    first [by eapply issue_pallet_calls | by eapply redeem_pallet_calls
      | by eapply replace_pallet_calls | by apply base_calls].
Qed.

Lemma inserted_evolves {R} (t : R -> R -> Prop) (m : gmap H256 R) i r' m' :
  (forall r, t r r) -> m' = <[i := r']> m -> m !! i = None -> evolves t m m'.
Proof. intros Ht -> Hi. apply evolves_insert; [done|]. intros r. by rewrite Hi. Qed.

Lemma updated_evolves {R} (t : R -> R -> Prop) (m : gmap H256 R) i r r' m' :
  (forall r, t r r) -> m' = <[i := r']> m -> m !! i = Some r -> t r r' -> evolves t m m'.
Proof. intros Ht -> Hi Hr. apply evolves_insert; [done|]. intros r0. rewrite Hi. by intros [= <-]. Qed.

Lemma issue_calls_evolve call s s' :
  issue_store s !! next_id s = None -> pallet_of call = Some IssuePallet ->
  dispatch call s = (Ok tt, s') -> evolves issue_transition (issue_store s) (issue_store s').
Proof.
  intros Hf Hp H. pose proof issue_keeps. destruct call; try discriminate; cbn [dispatch] in H.
  - unfold request_issue in H. apply bind_ok in H as (i & s1 & E & [_ ->]%ret_ok).
    open_call E.
    apply request_issue_store in E as (-> & r & _ & E). by eapply inserted_evolves.
  - unfold execute_issue in H. open_call H.
    apply execute_issue_store in H as (r & a & Hr & Hst & E).
    eapply updated_evolves; [done..|]. by apply issue_completes.
  - unfold cancel_issue in H. open_call H.
    apply cancel_issue_store in H as (r & Hr & Hst & E).
    eapply updated_evolves; [done..|]. by apply issue_cancels.
  - unfold set_issue_period, on_issue in H. inv_ok. by apply evolves_refl.
  - unfold Issue.rate_limit_update, Issue._rate_limit_update, set_limits in H. inv_ok. by apply evolves_refl.
  - unfold Issue.minimum_transfer_amount_update, on_issue in H. inv_ok. by apply evolves_refl.
Qed.

Lemma frame_direct_redeems :
  (forall r cp x, preserves redeem_store (_liquidation_redeem r cp x)) /\
  (forall k a, preserves redeem_store (self_redeem_execute k a)).
Proof.
  pose proof (_ : OuterFrame redeem_store).
  unfold _liquidation_redeem, get_balance, self_redeem_execute, calculate_token_amounts,
    take_user_tokens, update_vault_tokens, release_replace_collateral. split; intros; outer.
Qed.

(** What a call of the redeem pallet does to the stored requests: nothing, a
    transition of one of them, or a new request. *)
Lemma redeem_call_cases call s s' :
  pallet_of call = Some RedeemPallet -> dispatch call s = (Ok tt, s') ->
  redeem_store s' = redeem_store s \/
  (exists i r r', redeem_store s !! i = Some r /\ redeem_transition r r' /\
     redeem_store s' = <[i := r']> (redeem_store s)) \/
  (exists q x a k r, _request_redeem q x a k s = (Ok (next_id s), s') /\
     redeem_store s' = <[next_id s := r]> (redeem_store s)).
Proof.
  intros Hp H. destruct frame_direct_redeems as [Fl Fs].
  destruct call; try discriminate; cbn [dispatch] in H.
  - unfold request_redeem in H. apply bind_ok in H as (i & s1 & E & [_ ->]%ret_ok).
    open_call E. right; right. pose proof E as E1.
    apply request_redeem_store in E1 as (-> & r & _ & E1). by do 5 eexists.
  - unfold liquidation_redeem in H. open_call H.
    apply (preserves_ok redeem_store) in H; [|apply Fl]. by left.
  - unfold execute_redeem in H. open_call H. right; left.
    apply execute_redeem_store in H as (r & Hr & Hst & E).
    do 3 eexists. split_and!; [done| |done]. by apply redeem_settles.
  - unfold cancel_redeem in H. open_call H. right; left.
    apply cancel_redeem_store in H as (r & st & Hr & Hst & Hne & E).
    do 3 eexists. split_and!; [done| |done]. by apply redeem_settles.
  - unfold set_redeem_period, on_redeem in H. inv_ok. by left.
  - unfold mint_tokens_for_reimbursed_redeem in H. open_call H. right; left.
    apply mint_redeem_store in H as (r & Hr & Hst & E).
    do 3 eexists. split_and!; [done| |done]. by apply redeem_mints.
  - unfold self_redeem in H. open_call H.
    apply (preserves_ok redeem_store) in H; [|apply Fs]. by left.
  - unfold Redeem.rate_limit_update, Redeem._rate_limit_update, set_limits in H. inv_ok. by left.
  - unfold Redeem.minimum_transfer_amount_update, on_redeem in H. inv_ok. by left.
Qed.

Lemma redeem_calls_evolve call s s' :
  redeem_store s !! next_id s = None -> pallet_of call = Some RedeemPallet ->
  dispatch call s = (Ok tt, s') -> evolves redeem_transition (redeem_store s) (redeem_store s').
Proof.
  intros Hf Hp H. pose proof redeem_keeps.
  destruct (redeem_call_cases _ _ _ Hp H) as [->|[(i & r & r' & Hr & Ht & E)|(q & x & a & k & r & _ & E)]].
  - by apply evolves_refl.
  - by eapply updated_evolves.
  - by eapply inserted_evolves.
Qed.

Lemma frame_replace_offers :
  (forall k x, preserves replace_store (_request_replace k x)) /\
  (forall k x, preserves replace_store (_withdraw_replace_request k x)).
Proof.
  pose proof (_ : OuterFrame replace_store). unfold _request_replace, is_opted_in,
    minimum_transfer_amount, _withdraw_replace_request. split; intros; outer.
Qed.

Lemma replace_calls_evolve call s s' :
  replace_store s !! next_id s = None -> pallet_of call = Some ReplacePallet ->
  dispatch call s = (Ok tt, s') -> evolves replace_transition (replace_store s) (replace_store s').
Proof.
  intros Hf Hp H. pose proof replace_keeps. destruct frame_replace_offers as [Fr Fw].
  destruct call; try discriminate; cbn [dispatch] in H.
  - unfold request_replace in H. open_call H.
    apply (preserves_ok replace_store) in H; [|apply Fr]. rewrite H. by apply evolves_refl.
  - unfold withdraw_replace in H. open_call H.
    apply (preserves_ok replace_store) in H; [|apply Fw]. rewrite H. by apply evolves_refl.
  - unfold accept_replace in H. open_call H.
    apply accept_replace_store in H as (r & _ & E). by eapply inserted_evolves.
  - unfold execute_replace in H. open_call H.
    apply execute_replace_store in H as (r & Hr & Hst & E).
    eapply updated_evolves; [done..|]. by apply replace_completes.
  - unfold cancel_replace in H. open_call H.
    apply cancel_replace_store in H as (r & Hr & Hst & E).
    eapply updated_evolves; [done..|]. by apply replace_cancels.
  - unfold set_replace_period, on_replace in H. inv_ok. by apply evolves_refl.
  - unfold Replace.minimum_transfer_amount_update, on_replace in H. inv_ok. by apply evolves_refl.
Qed.

(** No request has the next identifier: the hashes that name requests do not
    collide. *)
Definition fresh_id (s : Chain) : Prop :=
  issue_store s !! next_id s = None /\ redeem_store s !! next_id s = None /\
  replace_store s !! next_id s = None.

Lemma calls_evolve call s s' :
  fresh_id s -> dispatch call s = (Ok tt, s') ->
  evolves issue_transition (issue_store s) (issue_store s') /\
  evolves redeem_transition (redeem_store s) (redeem_store s') /\
  evolves replace_transition (replace_store s) (replace_store s').
Proof.
  intros (Hi & Hr & Hp) H. pose proof issue_keeps. pose proof redeem_keeps. pose proof replace_keeps.
  destruct (stores_frames _ _ _ H) as (Fi & Fr & Fp). split_and!.
  - destruct (decide (pallet_of call = Some IssuePallet)) as [E|E]; [by eapply issue_calls_evolve|].
    rewrite (Fi E). by apply evolves_refl.
  - destruct (decide (pallet_of call = Some RedeemPallet)) as [E|E]; [by eapply redeem_calls_evolve|].
    rewrite (Fr E). by apply evolves_refl.
  - destruct (decide (pallet_of call = Some ReplacePallet)) as [E|E]; [by eapply replace_calls_evolve|].
    rewrite (Fp E). by apply evolves_refl.
Qed.

End life.
