(* ===== verification/Sample.v ===== *)
(** * A configuration for evaluation

    A concrete [Runtime] that satisfies [RuntimeLaws], a chain before the first
    vault, and runs of calls on it.  Every quotient is rounded down, the ledger
    is [SimpleCurrencies], hashes and encodings are the data itself, and a
    payment of [x] stroops to the account [dst] with the memo [m] is the byte
    string [dst :: x :: m]. *)

From S2P Require Import Prelude FixedPoint Primitives Currency Security Oracle Staking.
From S2P Require Import PooledRewards StellarRelay Chain VaultRegistry Issue Redeem Replace Runtime.

Definition sample_tx (b : Bytes) : option TransactionEnvelope :=
  match b with
  | 0 :: dst :: x :: m =>
      Some (EnvelopeTypeTx (mkTransaction [CreateAccount (PublicKeyTypeEd25519 [dst]) x]
                              (MemoText m) 0 0))
  | dst :: x :: m =>
      Some (EnvelopeTypeTx (mkTransaction [Payment (KeyTypeEd25519 [dst]) AssetTypeNative x]
                              (MemoText m) 0 0))
  | _ => None
  end.

Definition SampleSdk : StellarSdk := {|
  TransactionSetType := list TransactionEnvelope * Bytes;
  txes set := set.1;
  tx_set_hash_of set := Some set.2;
  network_id public := if public then [1] else [2];
  get_hash network tx :=
    network ++ match get_text_memo_from_tx_env tx with Some m => m | None => [] end;
  stellar_value_tx_set_hash value := Some value;
  to_encoding pk := match pk with PublicKeyTypeEd25519 k => k end;
  statement_to_xdr st := [slot_index st];
  node_verify_signature pk body sig := bool_decide (take 1 sig = into_binary pk);
  to_base58 b := b;
  base64_decode b := Some b;
  transaction_envelope_from_xdr := sample_tx;
  scp_envelopes_from_xdr b := Some [toy_envelope];
  transaction_set_from_xdr b :=
    match sample_tx b with Some tx => Some ([tx], [9]) | None => None end;
|}.

Definition SampleRuntime : Runtime := {|
  rt_fixed := FixedFloor;
  rt_currencies := SimpleCurrencies;
  rt_stellar := SampleSdk;
  currency_decimals _ := 12;
  GetNativeCurrencyId := Native;
  GetGriefingCollateralCurrencyId := Native;
  StakingMaxRewardCurrencies := 10;
  RewardsMaxRewardCurrencies := 10;
  liquidation_vault_account_id := 101;
  fee_pool_account_id := 102;
  treasury_account_id := 103;
  MaxExpectedValue := DIV;
  DecayInterval := 100;
  DecayRate := 50000000000000000;
  IsPublicNetwork := true;
  ValidatorLimit := 255;
  OrganizationLimit := 255;
  sha256 b := b;
  perquintill_from_rational p q := p * 10 ^ 18 / q;
  perquintill_mul_floor f x := x * f / 10 ^ 18;
  perquintill_one_minus f := 10 ^ 18 - f;
  native_free_balance a l := sl_get_free Native a l;
  native_deposit_creating a x l := sl_shift Native a (Z.max 0 x) 0 l;
|}.

Lemma native_deposit_law who x l :
  same_others (CUR := SimpleCurrencies) Native l (sl_shift Native who (Z.max 0 x) 0 l).
Proof. apply sl_shift_others; pose proof (sl_nonneg Native who l); lia. Qed.

#[export] Instance SampleRuntime_laws : RuntimeLaws SampleRuntime.
Proof.
  split; try done; try apply _.
  exact native_deposit_law.
Qed.

(** ** A chain before the first vault *)

Definition XLM : CurrencyId := Stellar StellarNative.
Definition DOT : CurrencyId := XCM 0.
Definition sample_pair : VaultCurrencyPair := mkPair DOT XLM.
Definition sample_vault : VaultId := new_vault_id 1 DOT XLM.
Definition no_limit : VolumeLimit := mkVolumeLimit None Native 0 100 0.
Definition one_price : TimestampedValue := mkTimestamped DIV 0.

(** Account 1 will run a vault, account 2 is a user. *)
Definition sample_genesis : Chain (RT := SampleRuntime) :=
  mkChain SampleRuntime (mkSystem 10 (mkSystemContext (Some 0) (replicate 32 7)))
    (mkLedger (list_to_map [((DOT, 1%N), 10 ^ 16); ((Native, 1%N), 10 ^ 16); ((Native, 2%N), 10 ^ 16)]) ∅)
    (mkOracleState default_security (mkOracle 100 [] ∅ 0))
    empty_staking empty_pool (mkRewardDistribution None None None)
    (mkFeeStorage 1000000000000000 5000000000000000 1000000000000000 50000000000000000
       100000000000000000 100000000000000000)
    toy_relay (mkRegistry ∅ 100 ∅ ∅ ∅ ∅ ∅ ∅ ∅ ∅)
    (mkIssueStorage ∅ 100 0 no_limit) (mkRedeemStorage ∅ 100 0 no_limit ∅)
    (mkReplaceStorage ∅ 100 0) (mkNominationStorage false ∅).

(** Prices, thresholds, and the vault. *)
Definition set_up : list RuntimeCall := [
  PriceFeed (list_to_map [(ExchangeRate DOT, one_price); (ExchangeRate XLM, one_price);
                          (ExchangeRate Native, one_price)]) 0;
  SetMinimumCollateral (Ok tt) DOT 1000;
  SetSystemCollateralCeiling (Ok tt) sample_pair (10 ^ 18);
  SetSecureCollateralThreshold (Ok tt) sample_pair 1500000000000000000;
  SetPremiumRedeemThreshold (Ok tt) sample_pair 1300000000000000000;
  SetLiquidationCollateralThreshold (Ok tt) sample_pair 1100000000000000000;
  RegisterPublicKey (Ok 1%N) [77];
  RegisterVault (Ok 1%N) sample_pair (10 ^ 15) ].

(** ** Runs *)

(** The calls that succeed, one after the other; a run that meets an error stops there. *)
Fixpoint run `{RT : Runtime} (calls : list RuntimeCall) (s : Chain) : Chain :=
  match calls with
  | [] => s
  | call :: rest => match dispatch call s with (Ok _, s') => run rest s' | _ => s end
  end.

Fixpoint succeeds `{RT : Runtime} (calls : list RuntimeCall) (s : Chain) : bool :=
  match calls with
  | [] => true
  | call :: rest => match dispatch call s with (Ok _, s') => succeeds rest s' | _ => false end
  end.

(** ** An issue and a redeem *)

(** The identifier of the request made next. *)
Definition id_of_next `{RT : Runtime} (s : Chain) : H256 :=
  sha256 (secure_id_preimage (context (system s)) ((Security.Nonce (sec (oracle_st s)) + 1) mod 2 ^ 256)).

Definition with_vault : Chain (RT := SampleRuntime) := run set_up sample_genesis.

(** The user asks for 10 million, pays 100 stroops, and shows the payment. *)
Definition issue_calls : list RuntimeCall :=
  let id := id_of_next with_vault in
  [ RequestIssue (Ok 2%N) 10000000 sample_vault;
    ExecuteIssue (Ok 2%N) id (77 :: 100 :: take 28 id) [] (77 :: 100 :: take 28 id) ].

Definition with_tokens : Chain (RT := SampleRuntime) := run issue_calls with_vault.

(** The user gives half of the tokens back, and the vault pays 50 stroops. *)
Definition redeem_calls : list RuntimeCall :=
  let id := id_of_next with_tokens in
  [ RequestRedeem (Ok 2%N) 5000000 [88] sample_vault;
    ExecuteRedeem (Ok 1%N) id (88 :: 50 :: take 28 id) [] (88 :: 50 :: take 28 id) ].

Definition after_redeem : Chain (RT := SampleRuntime) := run redeem_calls with_tokens.
