(* ===== verification/Reachable.v ===== *)
(** * Reachable states

    What holds after any sequence of calls, successful or not: the chain that
    started without vaults has as many tokens of each wrapped currency in
    circulation as its vaults have issued. *)

From S2P Require Import Prelude FixedPoint Primitives Currency Security Oracle Staking.
From S2P Require Import PooledRewards StellarRelay Chain RewardDistribution Fee VaultRegistry.
From S2P Require Import VaultFrames VaultBooks RateLimit Issue Redeem Nomination Replace Peg.
From S2P Require Import Runtime RequestLife Sample.

(** ** Failed calls *)

Section failed.
Context `{RT : Runtime}.

Lemma hooks_unfailing :
  unfailing (in_security on_initialize) /\ unfailing (on_oracle begin_block) /\
  unfailing execute_on_init.
Proof.
  split_and!; unfold in_security, on_oracle, on_security.
  - unfold on_initialize, increment_active_block, is_parachain_shutdown. unfailing.
  - unfold begin_block, report_oracle_offline, recover_from_oracle_offline, recover_from_, on_security,
      set_status, insert_error, remove_error, get_errors. unfailing.
  - unfold execute_on_init. unfailing.
Qed.

Lemma zoomed_reverts :
  (forall A (m : M OracleState A), reverts m -> reverts (on_oracle m)) /\
  (forall A (m : M SecurityState A), reverts m -> reverts (in_security m)) /\
  (forall A (m : M RelayState A), reverts m -> reverts (on_relay m)).
Proof.
  unfold in_security, on_oracle, on_relay, on_security.
  split_and!; intros; repeat (apply reverts_zoom; [by intros []|]); done.
Qed.

Lemma dispatch_reverts call : reverts (dispatch call).
Proof.
  destruct call; cbn [dispatch]; try apply reverts_drop;
    first [ apply reverts_transactional
      | apply unfailing_reverts; first [apply hooks_unfailing | solve [unfold on_oracle; unfailing]]
      | apply zoomed_reverts, reverts_transactional ].
Qed.

End failed.

(** ** Steps *)

Section steps.
Context `{RT : Runtime}.

(** One call.  A panic aborts the block, so it leads nowhere. *)
Inductive step : Chain -> Chain -> Prop :=
| step_ok call s s' : well_typed call -> dispatch call s = (Ok tt, s') -> step s s'
| step_err call e s s' : well_typed call -> dispatch call s = (Err e, s') -> step s s'.

(** No vault has registered, no request is stored and no token of [c] exists. *)
Record at_genesis (c : CurrencyId) (s : Chain) : Prop := {
  no_vaults : Vaults (registry s) = ∅;
  no_liquidation_vaults : LiquidationVault (registry s) = ∅;
  no_replace_requests : ReplaceRequests (replace_st s) = ∅;
  no_cancelled_amounts : CancelledRedeemAmount (redeem_st s) = ∅;
  nothing_issued : total_issuance c (ledger s) = 0;
}.

Lemma genesis_inv c s : at_genesis c s -> ChainInv c 0 (fun _ => True) s.
Proof.
  intros [Hv Hl Hr Hc Hi]. unfold ChainInv, Peg, unbacked, issued_total. rewrite Hv, Hl, Hi.
  split; [split_and!|split].
  - split; unfold liquidation_vault_of; rewrite ?Hv, ?Hl; intros *; rewrite ?lookup_empty; try done;
      by rewrite ?map_sum_empty.
  - by rewrite !map_sum_empty.
  - done.
  - rewrite Hr. intros k r. by rewrite lookup_empty.
  - rewrite Hc. intros k a b. by rewrite lookup_empty.
Qed.

End steps.

Section reachable.
Context `{RT : Runtime} {L : RuntimeLaws RT} (c : CurrencyId) (Hed : existential_deposit c = 0).
Context (Hnat : c <> GetNativeCurrencyId).

Lemma step_inv p s s' : step s s' -> ChainInv c p (fun _ => True) s -> ChainInv c p (fun _ => True) s'.
Proof.
  intros [call s1 s2 Hw H|call e s1 s2 Hw H] HI.
  - eapply (dispatch_inv c Hed Hnat p _ call Hw) in H; [exact H|by destruct (supply_effect call)|exact HI].
  - by apply dispatch_reverts in H as ->.
Qed.

Lemma reachable_inv p s s' :
  rtc step s s' -> ChainInv c p (fun _ => True) s -> ChainInv c p (fun _ => True) s'.
Proof. induction 1; eauto using step_inv. Qed.

(** C1: on a chain that starts without vaults, after any sequence of calls and
    hooks by anyone, successful or not, the tokens of a wrapped currency in
    circulation are exactly the tokens that vaults, active or liquidated, have
    on their books as issued. *)
Theorem supply_backed s s' :
  at_genesis c s -> rtc step s s' -> total_issuance c (ledger s') = issued_total c (registry s').
Proof.
  intros Hg H. eapply reachable_inv in H; [|by apply genesis_inv].
  destruct H as [(_ & H & _) _]. unfold unbacked in H. lia.
Qed.

(** C6: in every state reached from one without vaults, the registry is well
    formed: each vault and liquidation vault is stored under its own
    identifier, a liquidated vault has no issued or to-be-issued tokens left,
    an active one never owes more redeems than it has issued, and the
    liquidation vault owes exactly what the liquidated vaults of its currency
    pair still owe, and has issued tokens for it. *)
Theorem registry_well_formed s s' :
  at_genesis c s -> rtc step s s' ->
  let r := registry s' in
  (forall k v, Vaults r !! k = Some v -> id v = k /\ 0 <= to_be_replaced_tokens v /\
     if is_liquidated v then issued_tokens v = 0 /\ to_be_issued_tokens v = 0
     else to_be_redeemed_tokens v <= issued_tokens v) /\
  (forall p lv, LiquidationVault r !! p = Some lv -> currency_pair lv = p) /\
  (forall p, let lv := liquidation_vault_of p r in
     lv_to_be_redeemed_tokens lv = map_sum (owed_in p) (Vaults r) /\
     lv_to_be_redeemed_tokens lv <= lv_issued_tokens lv).
Proof.
  intros Hg H. eapply reachable_inv in H; [|by apply genesis_inv].
  destruct H as [([I1 I2 I3 I4 I5] & _) _]. simpl. split_and!; eauto.
  intros k v Hv. destruct (I3 _ _ Hv). eauto.
Qed.

(** The abstract machine: an amount of tokens that is both issued and in
    circulation, and what a kind of call may do to it. *)
Definition supply_step (e : SupplyEffect) (z z' : Z) : Prop :=
  match e with Mints => z <= z' | Burns => z' <= z | Keeps => z' = z end.

Definition represents (s : Chain) (z : Z) : Prop :=
  RegistryInv (registry s) /\ requests_ok s /\
  total_issuance c (ledger s) = z /\ issued_total c (registry s) = z.

(** C7: the chain refines a counter of tokens: whatever a successful call does
    to collateral, requests, fees, rewards and liquidations, the issued tokens
    and the tokens in circulation move together, up only by an executed issue
    or a mint for a reimbursed redeem, down only by a redeem (executed,
    cancelled with reimbursement, of a liquidated vault or of the vault itself),
    and not at all by any other call. *)
Theorem chain_refines_counter call s s' z :
  represents s z -> well_typed call -> dispatch call s = (Ok tt, s') ->
  exists z', represents s' z' /\ supply_step (supply_effect call) z z'.
Proof.
  intros (I & HR & Hg & Hn) Hw H. set (P := supply_step (supply_effect call) z).
  eapply (dispatch_inv c Hed Hnat 0 P) in H as [(I' & Hu & HP) HR']; [|done| |].
  - exists (issued_total c (registry s')). unfold represents, unbacked in *. split_and!; auto. lia.
  - subst P. destruct (supply_effect call); cbn; unfold mint_closed, burn_closed, supply_step; intros; lia || done.
  - unfold ChainInv, Peg, unbacked. subst P. rewrite Hg, Hn. split_and!; [done|lia| |done].
    destruct (supply_effect call); simpl; lia.
Qed.

End reachable.

Section failures.
Context `{RT : Runtime}.


(** Identifiers do not collide along the run. *)
Inductive fresh_step : Chain -> Chain -> Prop :=
| fresh_step_intro s s' : fresh_id s -> step s s' -> fresh_step s s'.

Lemma fresh_step_evolves s s' :
  fresh_step s s' ->
  evolves issue_transition (issue_store s) (issue_store s') /\
  evolves redeem_transition (redeem_store s) (redeem_store s') /\
  evolves replace_transition (replace_store s) (replace_store s').
Proof.
  intros [s1 s2 Hf Hs]. destruct Hs as [call s3 s4 _ H|call e s3 s4 _ H]; [by eapply calls_evolve|].
  apply dispatch_reverts in H as ->. pose proof issue_keeps. pose proof redeem_keeps.
  pose proof replace_keeps. split_and!; by apply evolves_refl.
Qed.


Definition issue_settled (r : IssueRequest) : Prop := issue_status r = IssueCompleted.
Definition redeem_settled (r : RedeemRequest) : Prop :=
  redeem_status r <> RedeemPending /\ redeem_status r <> Reimbursed false.
Definition replace_settled (r : ReplaceRequest) : Prop := replace_status r = ReplaceCompleted.

Lemma settled_stays {R} (t : R -> R -> Prop) (settled : R -> Prop) (get : Chain -> gmap H256 R) s s' i r :
  (forall s s', fresh_step s s' -> evolves t (get s) (get s')) ->
  (forall r r', settled r -> t r r' -> r' = r) ->
  rtc fresh_step s s' -> get s !! i = Some r -> settled r -> get s' !! i = Some r.
Proof.
  intros He Ht Hr. induction Hr as [|s1 s2 s3 H _ IH]; [done|]. intros Hi Hs. apply IH; [|done].
  destruct (He _ _ H _ _ Hi) as (r' & Hr' & Htr). by rewrite (Ht _ _ Hs Htr) in Hr'.
Qed.

(** C5: a completed issue request, a redeem request that was completed,
    retried or fully reimbursed, and a completed replace request never change
    again, whatever is called: no payment proof is used twice for a request,
    and nobody is paid twice for it. *)
Theorem settled_requests_final s s' i :
  rtc fresh_step s s' ->
  (forall r, issue_store s !! i = Some r -> issue_settled r -> issue_store s' !! i = Some r) /\
  (forall r, redeem_store s !! i = Some r -> redeem_settled r -> redeem_store s' !! i = Some r) /\
  (forall r, replace_store s !! i = Some r -> replace_settled r -> replace_store s' !! i = Some r).
Proof.
  intros H. split_and!; intros r Hr Hs.
  - eapply (settled_stays issue_transition issue_settled); [|..|exact H|done|done];
      [intros; by apply fresh_step_evolves|]. unfold issue_settled. intros ? ? ? Ht. destruct Ht; congruence.
  - eapply (settled_stays redeem_transition redeem_settled); [|..|exact H|done|done];
      [intros; by apply fresh_step_evolves|]. unfold redeem_settled. intros ? ? [] Ht. destruct Ht; congruence.
  - eapply (settled_stays replace_transition replace_settled); [|..|exact H|done|done];
      [intros; by apply fresh_step_evolves|]. unfold replace_settled. intros ? ? ? Ht. destruct Ht; congruence.
Qed.

End failures.

(** ** Witnesses *)

Section runs.
Context `{RT : Runtime}.

Lemma run_reaches calls s :
  Forall well_typed calls -> succeeds calls s = true -> rtc step s (run calls s).
Proof.
  revert s. induction calls as [|call rest IH]; simpl; intros s Hw H; [done|].
  apply Forall_cons_1 in Hw as [Hw Hrest]. destruct (dispatch call s) as [[[]|e|] s1] eqn:E; try done.
  eapply rtc_l; [by eapply step_ok|]. by apply IH.
Qed.

(** A step of a run, when the call succeeds. *)
Lemma run_fresh call s :
  well_typed call -> fresh_id s -> fst (dispatch call s) = Ok tt ->
  fresh_step s (snd (dispatch call s)).
Proof. intros Hw Hf H. split; [done|]. eapply step_ok; [done|]. by apply run_ok. Qed.

End runs.

#[local] Existing Instance SampleRuntime.

Lemma sample_at_genesis : at_genesis XLM sample_genesis.
Proof. split; reflexivity. Qed.

Definition sample_run : list RuntimeCall := set_up ++ issue_calls ++ redeem_calls.

Lemma sample_reached : rtc step sample_genesis (run sample_run sample_genesis).
Proof.
  apply run_reaches; [|vm_compute; reflexivity].
  repeat constructor; vm_compute; done.
Qed.

Lemma supply_backed_witness :
  total_issuance XLM (ledger (run sample_run sample_genesis)) =
  issued_total XLM (registry (run sample_run sample_genesis)).
Proof.
  apply (supply_backed (RT := SampleRuntime) XLM) with (s := sample_genesis);
    [reflexivity | discriminate | exact sample_at_genesis | exact sample_reached].
Defined.

Lemma registry_well_formed_witness :
  let r := registry (run sample_run sample_genesis) in
  (forall k v, Vaults r !! k = Some v -> id v = k /\ 0 <= to_be_replaced_tokens v /\
     if is_liquidated v then issued_tokens v = 0 /\ to_be_issued_tokens v = 0
     else to_be_redeemed_tokens v <= issued_tokens v) /\
  (forall p lv, LiquidationVault r !! p = Some lv -> currency_pair lv = p) /\
  (forall p, let lv := liquidation_vault_of p r in
     lv_to_be_redeemed_tokens lv = map_sum (owed_in p) (Vaults r) /\
     lv_to_be_redeemed_tokens lv <= lv_issued_tokens lv).
Proof.
  apply (registry_well_formed (RT := SampleRuntime) XLM) with (s := sample_genesis);
    [reflexivity | discriminate | exact sample_at_genesis | exact sample_reached].
Defined.

(** The user has asked for tokens and not paid yet. *)
Definition requested : Chain := run (set_up ++ take 1 issue_calls) sample_genesis.
Definition execution : RuntimeCall := nth 1 issue_calls RewardOnInitialize.

Lemma requested_represents : represents XLM requested 0.
Proof.
  assert (rtc step sample_genesis requested) as H.
  { apply run_reaches; [repeat constructor; vm_compute; done | vm_compute; reflexivity]. }
  eapply (reachable_inv XLM) in H as [(I & Hp & _) R];
    [|reflexivity | discriminate | by apply genesis_inv, sample_at_genesis].
  split_and!; [exact I | exact R | vm_compute; reflexivity..].
Qed.

Lemma chain_refines_counter_witness :
  exists z', represents XLM (snd (dispatch execution requested)) z' /\ supply_step Mints 0 z'.
Proof.
  apply (chain_refines_counter (RT := SampleRuntime) XLM) with (call := execution) (s := requested);
    [reflexivity | discriminate | exact requested_represents | exact I |].
  apply run_ok. vm_compute. reflexivity.
Defined.



Lemma settled_requests_final_witness :
  let s' := snd (dispatch (hd RewardOnInitialize redeem_calls) with_tokens) in
  let i := id_of_next with_vault in
  (forall r, issue_store with_tokens !! i = Some r -> issue_settled r -> issue_store s' !! i = Some r) /\
  (forall r, redeem_store with_tokens !! i = Some r -> redeem_settled r -> redeem_store s' !! i = Some r) /\
  (forall r, replace_store with_tokens !! i = Some r -> replace_settled r -> replace_store s' !! i = Some r).
Proof.
  apply (settled_requests_final with_tokens).
  apply rtc_once, run_fresh; [easy | | vm_compute; reflexivity].
  split_and!; vm_compute; reflexivity.
Defined.
