(* ===== verification/OpenRequests.v ===== *)
(** * Open requests and the books of their vaults

    The [to_be_redeemed_tokens] of a vault are what its open redeem requests and
    the replace requests it hands over will take from it, after every sequence of
    calls.  [Owes f] says that the counters are [f]; [tracks] is for computations
    that leave them alone, however they end, and [moves] for those that change the
    counter of one vault. *)

From S2P Require Import Prelude FixedPoint Primitives Currency Security Oracle Staking.
From S2P Require Import PooledRewards StellarRelay Chain RewardDistribution Fee VaultRegistry.
From S2P Require Import VaultFrames VaultBooks RateLimit Issue Redeem Nomination Replace Peg.
From S2P Require Import Runtime RequestLife Sample Reachable.

(** ** The counters *)

Section counters.
Context `{RT : Runtime}.
Implicit Types (s : Chain) (v : Vault) (f : VaultId -> Z).

Definition vaults_of s := Vaults (registry s).

Definition owed f v : Prop := to_be_redeemed_tokens v = f (id v).

Record Owes f s : Prop := mkOwes {
  owes_id k v : vaults_of s !! k = Some v -> id v = k /\ owed f v;
  owes_none k : vaults_of s !! k = None -> f k = 0;
}.

Definition tracks f {A} (Q : A -> Prop) (m : M Chain A) : Prop :=
  forall s r s', Owes f s -> m s = (r, s') -> Owes f s' /\ forall a, r = Ok a -> Q a.

(** What is known of a handle. *)
Definition of_vault f (k : VaultId) v : Prop := id v = k /\ owed f v.

Lemma owes_ext f s s' : vaults_of s' = vaults_of s -> Owes f s -> Owes f s'.
Proof. intros E [H1 H2]. split; rewrite E; auto. Qed.

Lemma tracks_frame f {A} (m : M Chain A) : preserves vaults_of m -> tracks f (fun _ => True) m.
Proof. intros Hm s r s' HO H. split; [|done]. by eapply owes_ext; [eapply preserves_ok|]. Qed.

Lemma vaults_of_books {A} (m : M Chain A) : preserves books_of m -> preserves vaults_of m.
Proof. intros Hm s. specialize (Hm s). by injection Hm. Qed.

Lemma vaults_of_ledger {A} (m : M Ledger A) : preserves vaults_of (on_ledger m).
Proof. by apply preserves_zoom. Qed.

Lemma vaults_of_system lv : preserves vaults_of (RichSystemVault.update lv).
Proof.
  unfold RichSystemVault.update, on_registry. intros s. apply Vaults_put_liquidation_vault.
Qed.

Lemma tracks_weaken f {A} (Q R : A -> Prop) (m : M Chain A) :
  tracks f Q m -> (forall a, Q a -> R a) -> tracks f R m.
Proof. intros Hm HQ s r s' HO H. destruct (Hm _ _ _ HO H). eauto. Qed.

Lemma tracks_run f {A} (Q : A -> Prop) (m : M Chain A) s a s' :
  tracks f Q m -> Owes f s -> m s = (Ok a, s') -> Owes f s' /\ Q a.
Proof. intros Hm HO H. destruct (Hm _ _ _ HO H). eauto. Qed.

Lemma tracks_any f {A} (Q : A -> Prop) (m : M Chain A) : tracks f Q m -> tracks f (fun _ => True) m.
Proof. intros Hm. by eapply tracks_weaken. Qed.

Lemma tracks_ret f {A} (Q : A -> Prop) a : Q a -> tracks f Q (ret a).
Proof. intros HQ s r s' HO [= <- <-]. split; [done|]. by intros ? [= <-]. Qed.

Lemma tracks_bind f {A B} (Q : A -> Prop) (R : B -> Prop) (m : M Chain A) k :
  tracks f Q m -> (forall a, Q a -> tracks f R (k a)) -> tracks f R (bind m k).
Proof.
  intros Hm Hk s r s' HO H. unfold bind in H. destruct (m s) as [o s1] eqn:E.
  destruct (Hm _ _ _ HO E) as [HO1 HQ]. destruct o as [a|e|].
  - by eapply Hk; [apply HQ|..].
  - injection H as <- <-. by split.
  - injection H as <- <-. by split.
Qed.

Lemma tracks_attempt f {A} (Q : A -> Prop) (m : M Chain A) :
  tracks f Q m -> tracks f (fun _ => True) (attempt m).
Proof.
  intros Hm s r s' HO H. unfold attempt in H. destruct (m s) as [o s1] eqn:E.
  destruct (Hm _ _ _ HO E) as [HO1 _]. split; [|done]. destruct o; by injection H as <- <-.
Qed.

Lemma tracks_map_err f {A} (Q : A -> Prop) (m : M Chain A) e : tracks f Q m -> tracks f Q (map_err m e).
Proof.
  intros Hm s r s' HO H. unfold map_err in H. destruct (m s) as [o s1] eqn:E.
  destruct (Hm _ _ _ HO E) as [HO1 HQ]. destruct o; injection H as <- <-; by split.
Qed.

Lemma tracks_transactional f {A} (Q : A -> Prop) (m : M Chain A) :
  tracks f Q m -> tracks f Q (transactional m).
Proof.
  intros Hm s r s' HO H. unfold transactional in H. destruct (m s) as [o s1] eqn:E.
  destruct (Hm _ _ _ HO E) as [HO1 HQ]. destruct o; injection H as <- <-; by split.
Qed.

Lemma tracks_get f k : tracks f (of_vault f k) (get_rich_vault_from_id k).
Proof.
  intros s r s' HO H. pose proof (preserves_ok _ _ _ _ _ (vaults_of_books _ (preserves_get_vault k)) H) as E.
  split; [by eapply owes_ext|]. intros v ->. apply get_vault_ok in H as [-> H]. by apply HO in H.
Qed.

Lemma tracks_get_active f k : tracks f (of_vault f k) (get_active_rich_vault_from_id k).
Proof.
  unfold get_active_rich_vault_from_id, get_active_vault_from_id.
  eapply tracks_bind; [apply tracks_get|]. intros v Hv. destruct (status v); [by apply tracks_ret|].
  intros s r s' HO [= <- <-]. by split.
Qed.

(** Writing back a handle whose counter is the right one. *)
Lemma tracks_update f k v : of_vault f k v -> tracks f (of_vault f k) (RichVault.update v).
Proof.
  intros [<- Hv] s r s' HO H. unfold RichVault.update, insert_vault, on_registry in H. injection H as <- <-.
  split; [|by intros ? [= <-]]. split; unfold vaults_of in *; cbn; destruct (registry s) eqn:Er; cbn.
  - intros k w [[<- <-]|[Hne H]]%lookup_insert_Some; [done|]. apply HO. unfold vaults_of. by rewrite Er.
  - intros k [H _]%lookup_insert_None. apply HO. unfold vaults_of. by rewrite Er.
Qed.

End counters.

Create HintDb tracks discriminated.
Create HintDb vaults discriminated.
#[export] Hint Resolve tracks_get tracks_get_active tracks_update : tracks.
#[export] Hint Resolve vaults_of_ledger vaults_of_system : vaults.
#[export] Hint Extern 3 (preserves vaults_of _) => apply vaults_of_books; solve [eauto 2 with frame] : vaults.
#[export] Hint Extern 2 (tracks _ _ _) => apply tracks_frame; solve [eauto 2 with vaults] : tracks.
#[export] Hint Extern 4 (tracks _ (fun _ => True) _) => eapply tracks_any; solve [eauto 2 with tracks] : tracks.
#[export] Hint Extern 1 (of_vault _ _ _) =>
  match goal with H : of_vault _ _ ?v |- _ => destruct v; exact H end : tracks.

(** [track] follows the program text. *)
Ltac track_step :=
  lazymatch goal with
  | |- forall _, _ => intro
  | |- tracks _ _ (match ?x with _ => _ end) => destruct x
  | |- tracks _ _ (ret _) => apply tracks_ret; try exact I; eauto with tracks
  | |- tracks _ _ (transactional _) => apply tracks_transactional
  | |- tracks _ _ (attempt _) => eapply tracks_attempt
  | |- tracks _ _ (map_err _ _) => eapply tracks_map_err
  | |- tracks _ _ (bind _ _) =>
      first [eapply tracks_bind; [solve [eauto 3 with tracks]|]
            |eapply (tracks_bind _ (fun _ => True))]
  | |- tracks _ _ _ => solve [eauto 3 with tracks]
  end.
Ltac track := repeat track_step.

Section quiet_methods.
Context `{RT : Runtime} (f : VaultId -> Z) (k : VaultId).
Implicit Types v : Vault.

Lemma tracks_tokens v t : of_vault f k v ->
  tracks f (of_vault f k) (RichVault.increase_issued v t) /\
  tracks f (of_vault f k) (RichVault.decrease_issued v t) /\
  tracks f (of_vault f k) (RichVault.increase_to_be_issued v t) /\
  tracks f (of_vault f k) (RichVault.decrease_to_be_issued v t) /\
  tracks f (of_vault f k) (RichVault.set_to_be_replaced_amount v t).
Proof.
  intros Hv. unfold RichVault.increase_issued, RichSystemVault.increase_issued,
    RichVault.decrease_issued, RichSystemVault.decrease_issued, RichVault.increase_to_be_issued,
    RichVault.decrease_to_be_issued, RichSystemVault.decrease_to_be_issued,
    RichVault.set_to_be_replaced_amount. split_and!; track.
Qed.

Lemma tracks_collaterals v t : of_vault f k v ->
  tracks f (of_vault f k) (RichVault.increase_available_replace_collateral v t) /\
  tracks f (of_vault f k) (RichVault.decrease_available_replace_collateral v t) /\
  tracks f (of_vault f k) (RichVault.increase_active_replace_collateral v t) /\
  tracks f (of_vault f k) (RichVault.decrease_active_replace_collateral v t) /\
  tracks f (of_vault f k) (RichVault.increase_liquidated_collateral v t) /\
  tracks f (of_vault f k) (RichVault.decrease_liquidated_collateral v t).
Proof.
  intros Hv. unfold RichVault.increase_available_replace_collateral,
    RichVault.decrease_available_replace_collateral, RichVault.increase_active_replace_collateral,
    RichVault.decrease_active_replace_collateral, RichVault.increase_liquidated_collateral,
    RichVault.decrease_liquidated_collateral. split_and!; track.
Qed.

Lemma tracks_settings v : of_vault f k v ->
  (forall t, tracks f (of_vault f k) (RichVault.set_custom_secure_threshold v t)) /\
  (forall b, tracks f (of_vault f k) (RichVault.set_accept_new_issues v b)) /\
  (forall h, tracks f (of_vault f k) (RichVault.ban_until v h)).
Proof.
  intros Hv. unfold RichVault.set_custom_secure_threshold, RichVault.set_accept_new_issues,
    RichVault.ban_until. split_and!; track.
Qed.

End quiet_methods.

(** A known fact about the computation itself, by its text. *)
Ltac tracked :=
  match goal with |- tracks _ _ ?m => match goal with E : tracks _ _ m |- _ => exact E end end.

#[export] Hint Extern 1 (tracks _ _ (_ ?v ?t)) =>
  match goal with H : of_vault _ _ v |- _ =>
    first [ destruct (tracks_tokens _ _ _ t H) as (? & ? & ? & ? & ?); tracked
          | destruct (tracks_collaterals _ _ _ t H) as (? & ? & ? & ? & ? & ?); tracked
          | destruct (tracks_settings _ _ _ H) as (Ht & Hb & Hh);
            first [pose proof (Ht t) | pose proof (Hb t) | pose proof (Hh t)]; tracked ] end : tracks.

Lemma tracks_execute_issue `{RT : Runtime} f k v t :
  of_vault f k v -> tracks f (of_vault f k) (RichVault.execute_issue_tokens v t).
Proof. intros Hv. unfold RichVault.execute_issue_tokens. track. Qed.
#[export] Hint Resolve tracks_execute_issue : tracks.

Section quiet_functions.
Context `{RT : Runtime} (f : VaultId -> Z).
#[local] Abbreviation quiet m := (tracks f (fun _ => True) m).

Lemma tracks_try_deposit k a : quiet (try_deposit_collateral k a).
Proof. unfold try_deposit_collateral. track. Qed.

Lemma tracks_take_from x a : quiet (take_from x a).
Proof.
  destruct x; cbn [take_from]; unfold slash_backing_collateral, force_withdraw_collateral,
    RichSystemVault.decrease_collateral; track.
Qed.

Lemma tracks_give_to x a : quiet (give_to x a).
Proof.
  pose proof tracks_try_deposit.
  destruct x; cbn [give_to]; unfold RichSystemVault.increase_collateral; track.
Qed.

Lemma tracks_transfer_funds x y a : quiet (transfer_funds x y a).
Proof. pose proof tracks_take_from. pose proof tracks_give_to. unfold transfer_funds. track. Qed.

End quiet_functions.

#[export] Hint Resolve tracks_try_deposit tracks_take_from tracks_give_to tracks_transfer_funds : tracks.

Section quiet_functions_2.
Context `{RT : Runtime} (f : VaultId -> Z).
#[local] Abbreviation quiet m := (tracks f (fun _ => True) m).

Lemma tracks_funds :
  (forall x y a, quiet (transfer_funds_saturated x y a)) /\
  (forall k a, quiet (force_withdraw_collateral k a)) /\
  (forall k a, quiet (slash_backing_collateral k a)) /\
  (forall k a, quiet (try_withdraw_collateral k a)).
Proof.
  unfold transfer_funds_saturated, try_withdraw_collateral, force_withdraw_collateral,
    slash_backing_collateral. split_and!; track.
Qed.

Lemma tracks_counters :
  (forall k t, quiet (try_increase_to_be_issued_tokens k t)) /\
  (forall k t, quiet (try_increase_to_be_replaced_tokens k t)) /\
  (forall k t, quiet (decrease_to_be_replaced_tokens k t)) /\
  (forall k t, quiet (decrease_to_be_issued_tokens k t)) /\
  (forall k t, quiet (issue_tokens k t)) /\
  (forall k t, quiet (decrease_liquidated_collateral k t)) /\
  (forall k, quiet (ban_vault k)).
Proof.
  unfold try_increase_to_be_issued_tokens, RichVault.request_issue_tokens,
    try_increase_to_be_replaced_tokens, decrease_to_be_replaced_tokens, decrease_to_be_issued_tokens,
    RichVault.cancel_issue_tokens, issue_tokens,
    decrease_liquidated_collateral, ban_vault. split_and!; track.
Qed.

Lemma tracks_withdraw_replace k a : quiet (withdraw_replace_request k a).
Proof.
  unfold withdraw_replace_request. eapply tracks_bind; [apply tracks_counters|]. intros [x y] _. track.
Qed.

Lemma tracks_redeem_liquidation c u a : quiet (redeem_tokens_liquidation c u a).
Proof.
  unfold redeem_tokens_liquidation, RichSystemVault.burn_issued, RichSystemVault.decrease_issued. track.
Qed.

Lemma tracks_slash_for k v a : of_vault f k v -> tracks f (of_vault f k) (slash_for_to_be_redeemed v a).
Proof. intros Hv. unfold slash_for_to_be_redeemed, RichVault.get_vault_collateral. track. Qed.

Lemma tracks_slash_to v a : quiet (slash_to_liquidation_vault v a).
Proof.
  unfold slash_to_liquidation_vault, RichVault.get_vault_collateral. track_step.
  intros x _. destruct (match Amount.checked_sub a x with Ok _ => _ | _ => _ end). track.
Qed.

Lemma tracks_liquidate v : quiet (liquidate v).
Proof.
  pose proof tracks_withdraw_replace. pose proof tracks_slash_for. pose proof tracks_slash_to.
  unfold liquidate, RichSystemVault.increase_issued, RichSystemVault.increase_to_be_issued,
    RichSystemVault.increase_to_be_redeemed. cbv zeta. track.
Qed.

End quiet_functions_2.

#[export] Hint Resolve tracks_withdraw_replace tracks_redeem_liquidation tracks_liquidate : tracks.
#[export] Hint Extern 1 (tracks ?f _ _) =>
  destruct (tracks_funds f) as (? & ? & ? & ?), (tracks_counters f) as (? & ? & ? & ? & ? & ? & ?);
  match goal with H : _ |- _ => simple apply H end : tracks.

(** ** Changes of a counter *)

(** [d] more tokens at [k]. *)
Definition bump (k : VaultId) (d : Z) (f : VaultId -> Z) (j : VaultId) : Z :=
  if decide (j = k) then f j + d else f j.

Section moves.
Context `{RT : Runtime}.
Implicit Types (s : Chain) (v : Vault) (f : VaultId -> Z).

Definition moves (k : VaultId) (d : Z) {A} (m : M Chain A) : Prop :=
  forall f s a s', Owes f s -> m s = (Ok a, s') -> Owes (bump k d f) s'.

Lemma bump_other f k k' d v : k <> k' -> of_vault f k' v -> of_vault (bump k d f) k' v.
Proof. intros Hk [<- Hv]. split; [done|]. unfold owed, bump. by rewrite decide_False by congruence. Qed.

Lemma owes_bump f k d v s : of_vault f k v -> Owes f s ->
  Owes (bump k d f) (set_registry (put_vault k (set_to_be_redeemed_tokens (f k + d) v) (registry s)) s).
Proof.
  intros [Hid Hv] HO. split; unfold vaults_of; cbn [registry set_registry].
  - intros j w Hw. destruct (decide (k = j)) as [<-|Hne].
    + rewrite Vaults_put_vault in Hw. injection Hw as <-. destruct v; cbn in *. subst.
      split; [done|]. unfold owed, bump. cbn. by rewrite decide_True.
    + rewrite Vaults_put_vault_ne in Hw by done. apply HO in Hw as [<- Hw]. split; [done|].
      unfold owed, bump. by rewrite decide_False by congruence.
  - intros j Hj. destruct (decide (k = j)) as [<-|Hne]; [by rewrite Vaults_put_vault in Hj|].
    rewrite Vaults_put_vault_ne in Hj by done. unfold bump. rewrite decide_False by congruence. by apply HO.
Qed.

Lemma of_vault_bump f k d v : of_vault f k v -> of_vault (bump k d f) k (set_to_be_redeemed_tokens (f k + d) v).
Proof. intros [<- _]. destruct v. split; [done|]. unfold owed, bump. cbn. by rewrite decide_True. Qed.

(** A write of the counter. *)
Lemma counter_written f k d x v s w s' :
  of_vault f k v -> Owes f s -> x = to_be_redeemed_tokens v + d ->
  RichVault.update (set_to_be_redeemed_tokens x v) s = (Ok w, s') ->
  Owes (bump k d f) s' /\ of_vault (bump k d f) k w.
Proof.
  intros Hv HO -> [-> ->]%update_vault_ok. pose proof Hv as [Hid Ho]. unfold owed in Ho. rewrite Ho, Hid.
  assert (id (set_to_be_redeemed_tokens (f k + d) v) = k) as -> by (by destruct v).
  split; [by apply owes_bump|by apply of_vault_bump].
Qed.

Lemma increase_to_be_redeemed_owes f k v t s w s' :
  of_vault f k v -> Owes f s -> RichVault.increase_to_be_redeemed v t s = (Ok w, s') ->
  Owes (bump k (amount t) f) s' /\ of_vault (bump k (amount t) f) k w.
Proof.
  intros Hv HO H. unfold RichVault.increase_to_be_redeemed in H. inv_ok. inv_amount.
  by eapply counter_written.
Qed.

Lemma decrease_to_be_redeemed_owes f k v t s w s' :
  of_vault f k v -> Owes f s -> RichVault.decrease_to_be_redeemed v t s = (Ok w, s') ->
  Owes (bump k (- amount t) f) s' /\ of_vault (bump k (- amount t) f) k w.
Proof.
  intros Hv HO H. unfold RichVault.decrease_to_be_redeemed, RichSystemVault.decrease_to_be_redeemed in H.
  apply bind_ok in H as (? & s1 & E & H).
  assert (Owes f s1) as HO1.
  { refine (proj1 ((_ : tracks f (fun _ => True) _) _ _ _ HO E)). track. }
  inv_ok. inv_amount. by eapply counter_written.
Qed.

Lemma execute_redeem_tokens_owes f k v t s w s' :
  of_vault f k v -> Owes f s -> RichVault.execute_redeem_tokens v t s = (Ok w, s') ->
  Owes (bump k (- amount t) f) s' /\ of_vault (bump k (- amount t) f) k w.
Proof.
  intros Hv HO H. unfold RichVault.execute_redeem_tokens in H. apply bind_ok in H as (v1 & s1 & E & H).
  eapply decrease_to_be_redeemed_owes in E as [HO1 Hv1]; [|done..].
  destruct (tracks_tokens _ _ _ t Hv1) as (_ & Hd & _).
  destruct (Hd _ _ _ HO1 H) as [? HQ]. eauto.
Qed.

(** Quiet computations around a move. *)
Lemma moves_after k d {A B} (m : M Chain A) (h : A -> M Chain B) :
  (forall f, tracks f (fun _ => True) m) -> (forall a, moves k d (h a)) -> moves k d (bind m h).
Proof.
  intros Hm Hh f s b s' HO H. apply bind_ok in H as (a & s1 & E & H).
  eapply Hh, H. by eapply Hm.
Qed.

Lemma moves_before k d {A B} (m : M Chain A) (h : A -> M Chain B) :
  moves k d m -> (forall f a, tracks f (fun _ => True) (h a)) -> moves k d (bind m h).
Proof.
  intros Hm Hh f s b s' HO H. apply bind_ok in H as (a & s1 & E & H).
  eapply (Hh _ a); [|exact H]. by eapply Hm.
Qed.

(** A computation on a handle just read. *)
Lemma moves_vault k d {B} (h : Vault -> M Chain B) get :
  (forall f, tracks f (of_vault f k) get) ->
  (forall f v s b s', of_vault f k v -> Owes f s -> h v s = (Ok b, s') -> Owes (bump k d f) s') ->
  moves k d (bind get h).
Proof.
  intros Hg Hh f s b s' HO H. apply bind_ok in H as (v & s1 & E & H).
  destruct (Hg f _ _ _ HO E) as [HO1 HQ]. eauto.
Qed.

End moves.

(** Drops the state, for a computation that is quiet from here on. *)
Ltac quiet_rest HO H :=
  match type of HO with Owes ?f _ => refine (proj1 ((_ : tracks f (fun _ => True) _) _ _ _ HO H)); clear H end.

Section token_functions.
Context `{RT : Runtime}.

Lemma moves_try_increase_to_be_redeemed k t : moves k (amount t) (try_increase_to_be_redeemed_tokens k t).
Proof.
  unfold try_increase_to_be_redeemed_tokens. apply moves_vault; [intros; apply tracks_get_active|].
  intros f v s b s' Hv HO H. inv_ok. by eapply increase_to_be_redeemed_owes.
Qed.

Lemma moves_decrease_to_be_redeemed k t : moves k (- amount t) (decrease_to_be_redeemed_tokens k t).
Proof.
  apply moves_vault; [intros; apply tracks_get|]. intros f v s b s' Hv HO H. inv_ok.
  by eapply decrease_to_be_redeemed_owes.
Qed.

Lemma moves_decrease_tokens k u t : moves k (- amount t) (decrease_tokens k u t).
Proof.
  apply moves_vault; [intros; apply tracks_get|]. intros f v s b s' Hv HO H. inv_ok.
  by eapply execute_redeem_tokens_owes.
Qed.

Lemma moves_redeem_tokens k t x u : moves k (- amount t) (redeem_tokens k t x u).
Proof.
  apply moves_vault; [intros; apply tracks_get|]. intros f v s b s' Hv HO H.
  apply bind_ok in H as (w & s1 & E & H). eapply execute_redeem_tokens_owes in E as [HO1 Hw]; [|done..].
  quiet_rest HO1 H. track.
Qed.

Lemma moves_replace_tokens k k' t c : k <> k' -> moves k (- amount t) (replace_tokens k k' t c).
Proof.
  intros Hk. apply moves_vault; [intros; apply tracks_get|]. intros f v s b s' Hv HO H.
  apply bind_ok in H as (v' & s1 & E & H). destruct (tracks_get f k' _ _ _ HO E) as [HO1 Hv'].
  specialize (Hv' _ eq_refl). apply bind_ok in H as (v1 & s2 & E2 & H).
  eapply (tracks_run f (of_vault f k)) in E2 as [HO2 Hv1]; [|clear E2; track|exact HO1].
  apply bind_ok in H as (w & s3 & E3 & H). eapply execute_redeem_tokens_owes in E3 as [HO3 _]; [|done..].
  apply (bump_other _ _ _ (- amount t) _ Hk) in Hv'. quiet_rest HO3 H. track.
Qed.

Lemma moves_cancel_replace_tokens k k' t : k <> k' -> moves k (- amount t) (cancel_replace_tokens k k' t).
Proof.
  intros Hk. apply moves_vault; [intros; apply tracks_get|]. intros f v s b s' Hv HO H.
  apply bind_ok in H as (v' & s1 & E & H). destruct (tracks_get f k' _ _ _ HO E) as [HO1 Hv'].
  specialize (Hv' _ eq_refl). apply bind_ok in H as (v1 & s2 & E2 & H).
  eapply (tracks_run f (of_vault f k)) in E2 as [HO2 Hv1]; [|clear E2; track|exact HO1].
  apply bind_ok in H as (w & s3 & E3 & H). eapply decrease_to_be_redeemed_owes in E3 as [HO3 _]; [|done..].
  apply (bump_other _ _ _ (- amount t) _ Hk) in Hv'. unfold RichVault.cancel_issue_tokens in H.
  quiet_rest HO3 H. track.
Qed.

End token_functions.

Create HintDb moves discriminated.
#[export] Hint Resolve moves_try_increase_to_be_redeemed moves_decrease_to_be_redeemed
  moves_decrease_tokens moves_redeem_tokens moves_replace_tokens moves_cancel_replace_tokens : moves.

(** ** The request pallets *)

Section moves_rules.
Context `{RT : Runtime}.

Lemma moves_lift k d {A B} (o : outcome A) (h : A -> M Chain B) :
  (forall a, o = Ok a -> moves k d (h a)) -> moves k d (bind (lift o) h).
Proof. intros Hh f s b s' HO H. apply bind_ok in H as (a & s1 & [Ha ->]%lift_ok & H). by eapply Hh. Qed.

Lemma moves_same k d d' {A} (m : M Chain A) : moves k d m -> d = d' -> moves k d' m.
Proof. by intros Hm <-. Qed.

Lemma owes_pointwise f g s : (forall j, f j = g j) -> Owes f s -> Owes g s.
Proof.
  intros E [H1 H2]. split; [|intros k Hk; rewrite <- E; auto].
  intros k v Hv. destruct (H1 _ _ Hv) as [? Ho]. unfold owed in *. rewrite <- E. auto.
Qed.

Lemma bump_back k d f j : bump k (- d) (bump k d f) j = f j.
Proof. unfold bump. destruct (decide (j = k)); lia. Qed.

(** A move and its inverse. *)
Lemma moves_back k d {A B} (m : M Chain A) (h : A -> M Chain B) f :
  moves k d m -> (forall a, moves k (- d) (h a)) ->
  forall s b s', Owes f s -> bind m h s = (Ok b, s') -> Owes f s'.
Proof.
  intros Hm Hh s b s' HO H. apply bind_ok in H as (a & s1 & E & H).
  eapply owes_pointwise; [apply (bump_back k d)|]. eapply Hh, H. by eapply Hm.
Qed.

End moves_rules.

(** Passes quiet steps up to the one that moves a counter. *)
Ltac moves_step :=
  match goal with
  | |- forall _, _ => intro
  | |- moves _ _ _ => solve [eauto 2 with moves]
  | |- moves _ _ (bind (lift _) _) => apply moves_lift
  | |- moves _ _ (bind _ _) => apply moves_after; [intros; solve [track]|]
  | |- moves _ _ (bind _ _) => eapply moves_before; [solve [eauto 2 with moves]|intros; track]
  end.

Section pallets.
Context `{RT : Runtime}.
#[local] Abbreviation quiet f m := (tracks f (fun _ => True) m).

Lemma tracks_fee_distribute f a : quiet f (fee_distribute_rewards a).
Proof. unfold fee_distribute_rewards, distribute. track. Qed.
Hint Resolve tracks_fee_distribute : tracks.

Lemma tracks_collect_redeem_fee f r : quiet f (collect_redeem_fee r).
Proof. unfold collect_redeem_fee. track. Qed.

Lemma tracks_release_replace f k t : quiet f (release_replace_collateral k t).
Proof. unfold release_replace_collateral. track. Qed.

Lemma tracks_redeem_storage f :
  (forall i g, quiet f (put_redeem_request i g)) /\ (forall i st, quiet f (set_redeem_status i st)) /\
  (forall i x, quiet f (put_cancelled_amount i x)).
Proof. unfold set_redeem_status, put_redeem_request, put_cancelled_amount. split_and!; track. Qed.

Lemma tracks_replace_storage f :
  (forall i g, quiet f (put_replace_request i g)) /\ (forall i st, quiet f (set_replace_status i st)).
Proof. unfold set_replace_status, put_replace_request. split_and!; track. Qed.

End pallets.

#[export] Hint Resolve tracks_fee_distribute tracks_collect_redeem_fee tracks_release_replace : tracks.
#[export] Hint Extern 1 (tracks ?f _ _) =>
  destruct (tracks_redeem_storage f) as (? & ? & ?), (tracks_replace_storage f) as (? & ?);
  match goal with H : _ |- _ => simple apply H end : tracks.

(** Passes the first, quiet, step of the run [H]. *)
Ltac quiet_step f H :=
  let E := fresh in apply bind_ok in H as (? & ? & E & H);
  eapply (tracks_run f (fun _ => True)) in E as [? _]; [|clear E H; track|eassumption].

Section redeem_pallet.
Context `{RT : Runtime}.

(** What an open redeem request takes from its vault. *)
Definition burned (r : RedeemRequest) : Z := redeem_amount_ r + redeem_transfer_fee_ r.

Lemma execute_redeem_owes f i x y z s u s' r :
  Owes f s -> _execute_redeem i x y z s = (Ok u, s') -> redeem_store s !! i = Some r ->
  Owes (bump (redeem_vault r) (- burned r) f) s'.
Proof.
  intros HO H Hr. unfold _execute_redeem in H. apply bind_ok in H as (r' & s1 & E & H).
  apply get_open_redeem_ok in E as (-> & Hr' & _). assert (r' = r) as -> by congruence.
  revert HO H. refine ((_ : moves _ _ _) f s u s').
  repeat moves_step. replace (burned r) with (amount a7) by (inv_amount; done). repeat moves_step.
Qed.

Lemma tracks_cancel_collateral f :
  (forall r q b x y, tracks f (fun _ => True) (cancel_liquidated r q b x y)) /\
  (forall i r q b x, tracks f (fun _ => True) (cancel_active i r q b x)).
Proof. unfold cancel_liquidated, cancel_active. cbv zeta. split; track. Qed.

Lemma moves_cancel_tokens i r q b t : moves (redeem_vault r) (- amount t) (cancel_tokens i r q b t).
Proof.
  unfold cancel_tokens. destruct b; [|repeat moves_step]. do 3 moves_step. intros below.
  destruct below; repeat moves_step.
Qed.

Lemma cancel_redeem_owes f q i b s u s' r :
  Owes f s -> _cancel_redeem q i b s = (Ok u, s') -> redeem_store s !! i = Some r ->
  Owes (bump (redeem_vault r) (- burned r) f) s'.
Proof.
  intros HO H Hr. pose proof (fun f => proj1 (tracks_cancel_collateral f)).
  pose proof (fun f => proj2 (tracks_cancel_collateral f)). pose proof moves_cancel_tokens. unfold _cancel_redeem, redeem_period in H.
  apply bind_ok in H as (u0 & s0 & E0 & H).
  pose proof (preserves_ok redeem_store _ _ _ _ (proj1 (proj2 (outer_in_security redeem_store))) E0) as Hs0.
  eapply (tracks_run f (fun _ => True)) in E0 as [HO0 _]; [|track|exact HO].
  apply bind_ok in H as (r' & s1 & E & H). apply get_open_redeem_ok in E as (-> & Hr' & _).
  assert (r' = r) as -> by congruence. revert HO0 H. refine ((_ : moves _ _ _) f s0 u s').
  cbv zeta. repeat moves_step. replace (burned r) with (amount a4) by (inv_amount; done). repeat moves_step.
Qed.

Lemma request_redeem_owes f q x a k s i s' :
  Owes f s -> _request_redeem q x a k s = (Ok i, s') ->
  exists r, redeem_store s' = <[next_id s := r]> (redeem_store s) /\ redeem_status r = RedeemPending /\
    redeem_vault r = k /\ 0 <= redeem_amount_ r /\ 0 <= burned r /\ Owes (bump k (burned r) f) s'.
Proof.
  intros HO H. pose proof H as Hst. apply request_redeem_store in Hst as (-> & r & Hp & Hst).
  exists r. split; [done|]. unfold _request_redeem, get_minimum_transfer_amount, redeem_period, get_balance in H. cbv zeta in H.
  do 9 quiet_step f H. apply bind_ok in H as (t & s1 & [Ht ->]%lift_ok & H).
  apply bind_ok in H as (p & s1 & Hu & H). apply map_err_ok, lift_ok in Hu as [Hu ->].
  do 4 quiet_step f H. apply bind_ok in H as (? & s2 & E & H).
  eapply (moves_try_increase_to_be_redeemed k t f) in E; [|eassumption]. set (g := bump k (amount t) f) in *.
  do 7 quiet_step g H. apply bind_ok in H as (? & s3 & Ei & [<- ->]%ret_ok).
  assert (Owes g s3) as HO3 by (eapply tracks_run in Ei as [? _]; [done|apply tracks_redeem_storage|done]).
  apply put_redeem_ok, (f_equal (lookup (next_id s))) in Ei.
  rewrite Hst, lookup_insert_eq, lookup_partial_alter_eq in Ei. injection Ei as ->. unfold burned. cbn.
  inv_amount. replace (amount p + _) with (amount t) by lia. split_and!; lia || done.
Qed.

Lemma mint_redeem_owes f k i s u s' :
  Owes f s -> _mint_tokens_for_reimbursed_redeem k i s = (Ok u, s') -> Owes f s'.
Proof.
  intros HO H. unfold _mint_tokens_for_reimbursed_redeem, get_redeem_request in H. cbv zeta in H.
  quiet_rest HO H. track.
Qed.

Lemma self_redeem_owes f k a s u s' :
  Owes f s -> self_redeem_execute k a s = (Ok u, s') -> Owes f s'.
Proof.
  intros HO H. unfold self_redeem_execute, calculate_token_amounts, take_user_tokens, update_vault_tokens in H.
  do 2 quiet_step f H. apply bind_ok in H as ([fees t] & s1 & E & H).
  eapply (tracks_run f (fun _ => True)) in E as [HO1 _]; [|clear E H; track|eassumption].
  apply bind_ok in H as (? & s2 & E & H).
  eapply (tracks_run f (fun _ => True)) in E as [HO2 _]; [|clear E H; track|eassumption].
  eapply (moves_back k (amount t)); [..|exact HO2|exact H]; [auto with moves|]. intros ?. cbn beta. repeat moves_step.
Qed.

Lemma liquidation_redeem_owes f q cp x s u s' :
  Owes f s -> _liquidation_redeem q cp x s = (Ok u, s') -> Owes f s'.
Proof. intros HO H. unfold _liquidation_redeem, get_balance in H. quiet_rest HO H. track. Qed.

End redeem_pallet.

(** The same, with an observation [o] that the step leaves alone. *)
Ltac quiet_pass f o H Hn :=
  let E := fresh in let F := fresh in
  apply bind_ok in H as (? & ? & E & H); pose proof E as F;
  apply (preserves_ok o) in F; [|let I := fresh in pose proof (_ : OuterFrame o) as I; solve [outer]];
  apply (fun E => eq_trans E Hn) in F; clear Hn; rename F into Hn;
  eapply (tracks_run f (fun _ => True)) in E as [? _]; [|clear E H; track|eassumption].

Section replace_pallet.
Context `{RT : Runtime}.

Lemma accept_replace_owes f k k' x y a s u s' :
  Owes f s -> _accept_replace k k' x y a s = (Ok u, s') ->
  exists r, replace_store s' = <[next_id s := r]> (replace_store s) /\ replace_status r = ReplacePending /\
    old_vault r = k /\ Owes (bump k (replace_amount_ r) f) s'.
Proof.
  intros HO H. unfold _accept_replace, minimum_transfer_amount, accept_replace_tokens, replace_period in H.
  cbv zeta in H. set (o := with_nonce replace_store). assert (o s = o s) as Hn by done.
  do 3 quiet_pass f o H Hn. apply bind_ok in H as ([t g] & s1 & E & H).
  pose proof E as F. apply (preserves_ok o) in F; [|pose proof (_ : OuterFrame o); outer]. apply (fun E => eq_trans E Hn) in F. clear Hn.
  eapply (tracks_run f (fun _ => True)) in E as [HO1 _]; [|clear E H; track|eassumption].
  do 5 quiet_pass f o H F. rewrite bind_assoc in H. apply bind_ok in H as (? & s2 & E & H). pose proof E as Fn.
  apply (preserves_ok o) in Fn; [|pose proof (_ : OuterFrame o); outer]. apply (fun E => eq_trans E F) in Fn. clear F.
  eapply (moves_try_increase_to_be_redeemed k t f) in E; [|eassumption]. set (g' := bump k (amount t) f) in *.
  do 2 quiet_pass g' o H Fn. apply bind_ok in H as (j & s3 & E3 & H). pose proof E3 as Ej.
  apply chain_secure_id_ok in Ej as (-> & _ & _ & Hs). injection Fn as Hst Hn Hc. apply (f_equal2 pair Hn), next_id_ext in Hc.
  eapply (tracks_run g' (fun _ => True)) in E3 as [HO3 _]; [|clear E3 H; track|eassumption].
  rewrite Hc, Hst in *. do 2 quiet_pass g' replace_store H Hs.
  eexists. split; [rewrite (put_replace_ok _ _ _ _ _ H), Hs; reflexivity|]. cbn. split_and!; [done..|].
  quiet_rest H11 H. apply tracks_replace_storage.
Qed.

Lemma execute_replace_owes f i x y z s u s' r :
  Owes f s -> _execute_replace i x y z s = (Ok u, s') -> replace_store s !! i = Some r ->
  old_vault r <> new_vault r ->
  Owes (bump (old_vault r) (- match replace_status r with ReplacePending => replace_amount_ r | _ => 0 end) f) s'.
Proof.
  intros HO H Hr Hne. unfold _execute_replace, accept_replace_tokens in H. apply bind_ok in H as (r' & s1 & E & H).
  apply (fun E => get_replace_ok i s r' s1 (or_intror E)) in E as [-> Hr'].
  assert (r' = r) as -> by (unfold replace_store in Hr; congruence). cbv zeta in H. do 8 quiet_step f H. destruct (replace_status r) eqn:Hst.
  - quiet_step f H. refine ((_ : moves (old_vault r) (- amount (replace_amount r)) _) f _ u s' _ H); [|eassumption].
    repeat moves_step.
  - apply bind_ok in H as (? & ? & []%throw_ok & _).
  - eapply (owes_pointwise f); [intros j; unfold bump; destruct (decide _); lia|].
    rewrite !bind_assoc in H. eapply (moves_back (old_vault r) (amount (replace_amount r))); [..|exact H7|exact H];
      [auto with moves|]. intros ?. cbn beta. repeat moves_step.
Qed.

Lemma cancel_replace_owes f i s u s' r :
  Owes f s -> _cancel_replace i s = (Ok u, s') -> replace_store s !! i = Some r ->
  old_vault r <> new_vault r -> Owes (bump (old_vault r) (- replace_amount_ r) f) s'.
Proof.
  intros HO H Hr Hne. unfold _cancel_replace, replace_period in H. apply bind_ok in H as (r' & s1 & E & H).
  apply (fun E => get_replace_ok i s r' s1 (or_introl E)) in E as [-> Hr'].
  assert (r' = r) as -> by (unfold replace_store in Hr; congruence). cbv zeta in H.
  refine ((_ : moves (old_vault r) (- amount (replace_amount r)) _) f _ u s' HO H). repeat moves_step.
Qed.

Lemma replace_offers_owe f :
  (forall k x, tracks f (fun _ => True) (_request_replace k x)) /\
  (forall k x, tracks f (fun _ => True) (_withdraw_replace_request k x)).
Proof.
  unfold _request_replace, is_opted_in, minimum_transfer_amount, _withdraw_replace_request. split; track.
Qed.

End replace_pallet.

#[export] Hint Extern 1 (tracks ?f _ _) =>
  destruct (replace_offers_owe f) as [? ?]; match goal with H : _ |- _ => simple apply H end : tracks.

Section calls.
Context `{RT : Runtime} (f : VaultId -> Z).
#[local] Abbreviation quiet m := (tracks f (fun _ => True) m).

Lemma tracks_settings_of_registry (g : VaultRegistryStorage -> VaultRegistryStorage) :
  (forall r, Vaults (g r) = Vaults r) -> quiet (on_registry (modify g)).
Proof. intros Hg. apply tracks_frame. intros s. unfold on_registry, vaults_of. apply Hg. Qed.

(** A new vault owes nothing, and its place was empty. *)
Lemma tracks_new_vault k e {B} (m : M Chain B) :
  quiet m -> quiet (let* exists_ := vault_exists k in ensure (negb exists_) e ;;; insert_vault k (vault_new k) ;;; m).
Proof.
  intros Hm s r s' HO H. unfold vault_exists, bind at 1, gets in H. cbv beta iota in H.
  destruct (bool_decide _) eqn:Hk; [by injection H as <- <-|]. apply bool_decide_eq_false, eq_None_not_Some in Hk.
  refine (Hm _ _ _ _ H). split; unfold vaults_of; cbn [registry set_registry].
  - intros j v Hv. destruct (decide (k = j)) as [<-|Hne].
    + rewrite Vaults_put_vault in Hv. injection Hv as <-. split; [done|]. symmetry. by apply (owes_none f s HO).
    + rewrite Vaults_put_vault_ne in Hv by done. by apply HO.
  - intros j Hj. destruct (decide (k = j)) as [<-|Hne]; [by rewrite Vaults_put_vault in Hj|].
    rewrite Vaults_put_vault_ne in Hj by done. by apply HO.
Qed.

Lemma tracks_register k x : quiet (_register_vault k x).
Proof.
  unfold _register_vault, contains_key, get_minimum_collateral_vault, get_stellar_public_key. cbv zeta.
  do 14 (track_step; intros ? _). apply tracks_new_vault, tracks_try_deposit.
Qed.

(** The calls that settle or open redeem and replace requests, or pass through
    one. *)
Definition moves_counter (call : RuntimeCall) : bool :=
  match call with
  | RequestRedeem _ _ _ _ | ExecuteRedeem _ _ _ _ _ | CancelRedeem _ _ _ | SelfRedeem _ _ _
  | AcceptReplace _ _ _ _ _ _ | ExecuteReplace _ _ _ _ _ | CancelReplace _ _ => true
  | _ => false
  end.

Lemma quiet_base_calls call : pallet_of call = None -> quiet (dispatch call).
Proof.
  pose proof tracks_register. destruct call; try discriminate; intros _; cbn [dispatch];
    unfold execute_on_init, set_RewardPerBlock, set_RewardsAdaptedAt, set_NativeLiability,
      set_reward_per_block, collect_reward, move_reward_to_vault, transfer_reward, set_issue_fee,
      set_issue_griefing_collateral, set_redeem_fee, set_premium_redeem_fee, set_punishment_fee,
      set_replace_griefing_collateral, register_vault, VaultRegistry.deposit_collateral,
      VaultRegistry.withdraw_collateral, RichVault.get_total_collateral, register_public_key,
      accept_new_issues, set_custom_secure_threshold, try_set_vault_custom_secure_threshold,
      report_undercollateralized_vault, liquidate_vault, recover_vault_id, set_minimum_collateral,
      set_system_collateral_ceiling, set_secure_collateral_threshold_, set_premium_redeem_threshold,
      set_liquidation_collateral_threshold, set_punishment_delay, set_nomination_enabled,
      opt_in_to_nomination, _opt_in_to_nomination, opt_out_of_nomination, _opt_out_of_nomination,
      Nomination.deposit_collateral, _deposit_collateral, Nomination.withdraw_collateral,
      _withdraw_collateral, is_nomination_enabled, is_opted_in, put_nomination_vault,
      get_total_nominated_collateral; track; apply tracks_settings_of_registry; by intros [].
Qed.

Lemma quiet_issue_calls call : pallet_of call = Some IssuePallet -> quiet (dispatch call).
Proof.
  destruct call; try discriminate; intros _; cbn [dispatch];
    unfold request_issue, execute_issue, cancel_issue, _request_issue, _execute_issue, _cancel_issue,
      issue_minimum_transfer_amount, issue_period, insert_issue_request,
      get_executable_issue_request_from_id, get_pending_issue, get_issue_request,
      Issue.validate_stellar_transaction, _handle_issue_requests, decrease_issue_amount,
      try_increase_issue_amount, set_issue_amount, set_issue_status, put_issue_request,
      set_issue_period, Issue.rate_limit_update, Issue.minimum_transfer_amount_update,
      Issue._rate_limit_update, set_limits; track.
Qed.

End calls.

(** ** The invariant *)

Section due.
Context `{RT : Runtime}.
Implicit Types s : Chain.

Definition open_redeem (k : VaultId) (_ : H256) (r : RedeemRequest) : Z :=
  if decide (redeem_vault r = k /\ redeem_status r = RedeemPending) then burned r else 0.
Definition open_replace (k : VaultId) (_ : H256) (r : ReplaceRequest) : Z :=
  if decide (old_vault r = k /\ replace_status r = ReplacePending) then replace_amount_ r else 0.

(** What the open requests will take from vault [k]. *)
Definition due s (k : VaultId) : Z :=
  map_sum (open_redeem k) (redeem_store s) + map_sum (open_replace k) (replace_store s).

Lemma due_ext s s' j :
  redeem_store s' = redeem_store s -> replace_store s' = replace_store s -> due s j = due s' j.
Proof. intros E1 E2. unfold due. by rewrite E1, E2. Qed.

(** The request at [i] changes. *)
Lemma due_redeem s s' i r' j :
  redeem_store s' = <[i := r']> (redeem_store s) -> replace_store s' = replace_store s ->
  due s' j = due s j - default 0 (open_redeem j i <$> redeem_store s !! i) + open_redeem j i r'.
Proof.
  intros E1 E2. unfold due. rewrite E1, E2, map_sum_insert. unfold entry.
  destruct (redeem_store s !! i); simpl; lia.
Qed.

Lemma due_replace s s' i r' j :
  redeem_store s' = redeem_store s -> replace_store s' = <[i := r']> (replace_store s) ->
  due s' j = due s j - default 0 (open_replace j i <$> replace_store s !! i) + open_replace j i r'.
Proof.
  intros E1 E2. unfold due. rewrite E1, E2, map_sum_insert. unfold entry.
  destruct (replace_store s !! i); simpl; lia.
Qed.

End due.

Ltac by_cases :=
  repeat destruct (decide _); destruct_and?; subst; first [lia | congruence | exfalso; eauto].

Section on_books.
Context `{RT : Runtime}.
Implicit Types s : Chain.

Definition OnBooks s : Prop :=
  Owes (due s) s /\ map_Forall (fun _ r => 0 <= burned r) (redeem_store s).

(** A redeem request is settled, and its tokens leave the counter. *)
Lemma redeem_settled_books i st r s s' :
  OnBooks s -> redeem_store s !! i = Some r -> redeem_status r = RedeemPending -> st <> RedeemPending ->
  redeem_store s' = <[i := with_redeem_status st r]> (redeem_store s) -> replace_store s' = replace_store s ->
  Owes (bump (redeem_vault r) (- burned r) (due s)) s' -> OnBooks s'.
Proof.
  intros [_ Hf] Hr Hp Hst E1 E2 HO. split.
  - revert HO. apply owes_pointwise. intros j. rewrite (due_redeem _ _ _ _ j E1 E2), Hr. simpl.
    assert (open_redeem j i (with_redeem_status st r) = 0) as ->.
    { unfold open_redeem. rewrite decide_False; [done|]. destruct r. by intros [_ ?]. }
    unfold bump, open_redeem. rewrite Hp. by_cases.
  - rewrite E1. apply map_Forall_insert_2; [|done]. apply Hf in Hr. by destruct r.
Qed.

Lemma replace_settled_books i st r s s' :
  OnBooks s -> replace_store s !! i = Some r -> st <> ReplacePending ->
  redeem_store s' = redeem_store s -> replace_store s' = <[i := with_replace_status st r]> (replace_store s) ->
  Owes (bump (old_vault r) (- match replace_status r with ReplacePending => replace_amount_ r | _ => 0 end) (due s)) s' ->
  OnBooks s'.
Proof.
  intros [_ Hf] Hr Hst E1 E2 HO. split; [|by rewrite E1].
  revert HO. apply owes_pointwise. intros j. rewrite (due_replace _ _ _ _ j E1 E2), Hr. simpl.
  assert (open_replace j i (with_replace_status st r) = 0) as ->.
  { unfold open_replace. rewrite decide_False; [done|]. destruct r. by intros [_ ?]. }
  unfold bump, open_replace. destruct (replace_status r); by_cases.
Qed.

Lemma redeem_opened_books i r s s' :
  OnBooks s -> redeem_store s !! i = None -> redeem_status r = RedeemPending -> 0 <= burned r ->
  redeem_store s' = <[i := r]> (redeem_store s) -> replace_store s' = replace_store s ->
  Owes (bump (redeem_vault r) (burned r) (due s)) s' -> OnBooks s'.
Proof.
  intros [_ Hf] Hr Hp Hb E1 E2 HO. split.
  - revert HO. apply owes_pointwise. intros j. rewrite (due_redeem _ _ _ _ j E1 E2), Hr. simpl.
    unfold bump, open_redeem. rewrite Hp. by_cases.
  - rewrite E1. by apply map_Forall_insert_2.
Qed.

Lemma replace_opened_books i r s s' :
  OnBooks s -> replace_store s !! i = None -> replace_status r = ReplacePending ->
  redeem_store s' = redeem_store s -> replace_store s' = <[i := r]> (replace_store s) ->
  Owes (bump (old_vault r) (replace_amount_ r) (due s)) s' -> OnBooks s'.
Proof.
  intros [_ Hf] Hr Hp E1 E2 HO. split; [|by rewrite E1].
  revert HO. apply owes_pointwise. intros j. rewrite (due_replace _ _ _ _ j E1 E2), Hr. simpl.
  unfold bump, open_replace. rewrite Hp. by_cases.
Qed.

Lemma same_stores_books s s' :
  OnBooks s -> redeem_store s' = redeem_store s -> replace_store s' = replace_store s ->
  Owes (due s) s' -> OnBooks s'.
Proof.
  intros [_ Hf] E1 E2 HO. split; [|by rewrite E1].
  revert HO. apply owes_pointwise. intros j. by apply due_ext.
Qed.

(** Every call. *)
Lemma quiet_request_calls f call s s' :
  moves_counter call = false -> pallet_of call = Some RedeemPallet \/ pallet_of call = Some ReplacePallet ->
  Owes f s -> dispatch call s = (Ok tt, s') -> Owes f s'.
Proof.
  intros Hm Hp HO H. destruct call; try discriminate; destruct Hp; try discriminate; cbn [dispatch] in H.
  - unfold liquidation_redeem in H. open_call H. by eapply liquidation_redeem_owes.
  - unfold set_redeem_period in H. quiet_rest HO H. track.
  - unfold mint_tokens_for_reimbursed_redeem in H. open_call H. by eapply mint_redeem_owes.
  - unfold Redeem.rate_limit_update, Redeem._rate_limit_update, set_limits in H. quiet_rest HO H. track.
  - unfold Redeem.minimum_transfer_amount_update in H. quiet_rest HO H. track.
  - unfold request_replace in H. quiet_rest HO H. track.
  - unfold withdraw_replace in H. quiet_rest HO H. track.
  - unfold set_replace_period in H. quiet_rest HO H. track.
  - unfold Replace.minimum_transfer_amount_update in H. quiet_rest HO H. track.
Qed.

Lemma quiet_call f call s s' :
  moves_counter call = false -> Owes f s -> dispatch call s = (Ok tt, s') -> Owes f s'.
Proof.
  intros Hm HO H. destruct (pallet_of call) as [[]|] eqn:Hp.
  - by eapply quiet_issue_calls.
  - eapply quiet_request_calls; eauto.
  - eapply quiet_request_calls; eauto.
  - by eapply quiet_base_calls.
Qed.

(** The stores under the calls that leave the counters alone: at most a
    reimbursed request is marked as minted. *)
Lemma quiet_call_books call s s' :
  moves_counter call = false -> OnBooks s -> dispatch call s = (Ok tt, s') -> OnBooks s'.
Proof.
  intros Hm HB H. pose proof (quiet_call _ _ _ _ Hm (proj1 HB) H) as HO.
  destruct (stores_frames _ _ _ H) as (_ & Fr & Fp).
  destruct call; try discriminate; try (apply (same_stores_books s s'); [done|by apply Fr|by apply Fp|done]);
    cbn [dispatch] in H.
  - unfold liquidation_redeem in H. open_call H. apply (preserves_ok redeem_store) in H; [|apply frame_direct_redeems].
    apply (same_stores_books s s'); [done|done|by apply Fp|done].
  - unfold set_redeem_period, on_redeem in H. inv_ok. by apply (same_stores_books s).
  - unfold mint_tokens_for_reimbursed_redeem in H. open_call H. apply mint_redeem_store in H as (r & Hr & Hst & E).
    specialize (Fp ltac:(done)). destruct HB as [_ Hf]. split.
    + revert HO. apply owes_pointwise. intros j. rewrite (due_redeem _ _ _ _ j E Fp), Hr. simpl.
      unfold open_redeem. rewrite !decide_False; [lia|by destruct r; intros [_ ?]|by rewrite Hst; intros [_ ?]].
    + rewrite E. apply map_Forall_insert_2; [|done]. apply Hf in Hr. by destruct r.
  - unfold Redeem.rate_limit_update, Redeem._rate_limit_update, set_limits in H. inv_ok. by apply (same_stores_books s).
  - unfold Redeem.minimum_transfer_amount_update, on_redeem in H. inv_ok. by apply (same_stores_books s).
  - unfold request_replace in H. open_call H. apply (preserves_ok replace_store) in H; [|apply frame_replace_offers].
    apply (same_stores_books s s'); [done|by apply Fr|done|done].
  - unfold withdraw_replace in H. open_call H. apply (preserves_ok replace_store) in H; [|apply frame_replace_offers].
    apply (same_stores_books s s'); [done|by apply Fr|done|done].
  - unfold set_replace_period, on_replace in H. inv_ok. by apply (same_stores_books s).
  - unfold Replace.minimum_transfer_amount_update, on_replace in H. inv_ok. by apply (same_stores_books s).
Qed.

Lemma moving_call_books call s s' :
  fresh_id s -> requests_ok s -> moves_counter call = true -> OnBooks s ->
  dispatch call s = (Ok tt, s') -> OnBooks s'.
Proof.
  intros (_ & Hfr & Hfp) [Hok _] Hm HB H. destruct (stores_frames _ _ _ H) as (_ & Fr & Fp).
  destruct call; try discriminate; cbn [dispatch] in H.
  - unfold request_redeem in H. apply bind_ok in H as (i & s1 & E & [_ ->]%ret_ok). open_call E.
    apply (request_redeem_owes (due s)) in E as (r & E & Hp & <- & _ & Hb & HO); [|apply HB].
    eapply redeem_opened_books; eauto.
  - unfold execute_redeem in H. open_call H. pose proof H as Hs. apply execute_redeem_store in Hs as (r & Hr & Hp & E).
    eapply redeem_settled_books; eauto; [done|]. by eapply execute_redeem_owes; [apply HB|..].
  - unfold cancel_redeem in H. open_call H. pose proof H as Hs.
    apply cancel_redeem_store in Hs as (r & st & Hr & Hp & Hst & E).
    eapply redeem_settled_books; eauto. by eapply cancel_redeem_owes; [apply HB|..].
  - unfold self_redeem in H. open_call H. pose proof H as Hs.
    apply (preserves_ok redeem_store) in Hs; [|apply frame_direct_redeems].
    eapply same_stores_books; eauto. by eapply self_redeem_owes; [apply HB|].
  - unfold accept_replace in H. open_call H.
    apply (accept_replace_owes (due s)) in H as (r & E & Hp & <- & HO); [|apply HB].
    eapply replace_opened_books; eauto.
  - unfold execute_replace in H. open_call H. pose proof H as Hs. apply execute_replace_store in Hs as (r & Hr & Hp & E).
    eapply replace_settled_books; eauto; [done|]. eapply execute_replace_owes; eauto; [apply HB|by eapply Hok].
  - unfold cancel_replace in H. open_call H. pose proof H as Hs. apply cancel_replace_store in Hs as (r & Hr & Hp & E).
    eapply replace_settled_books; eauto; [done|]. rewrite Hp. eapply cancel_replace_owes; eauto; [apply HB|by eapply Hok].
Qed.

End on_books.

Section reachable.
Context `{RT : Runtime} {L : RuntimeLaws RT} (c : CurrencyId) (Hed : existential_deposit c = 0).
Context (Hnat : c <> GetNativeCurrencyId).

(** The counter of vault [k]. *)
Definition counter (k : VaultId) (s : Chain) : Z :=
  default 0 (to_be_redeemed_tokens <$> Vaults (registry s) !! k).

Lemma owes_counter f s k : Owes f s -> counter k s = f k.
Proof.
  intros [H1 H2]. unfold counter. destruct (Vaults (registry s) !! k) as [v|] eqn:Hv; simpl.
  - destruct (H1 _ _ Hv) as [<- Ho]. exact Ho.
  - symmetry. by apply H2.
Qed.

Lemma fresh_step_books s s' :
  fresh_step s s' -> OnBooks s -> ChainInv c 0 (fun _ => True) s ->
  OnBooks s' /\ ChainInv c 0 (fun _ => True) s'.
Proof.
  intros [s1 s2 Hf Hs] HB HI. split; [|by eapply step_inv].
  destruct Hs as [call s3 s4 Hw H|call e s3 s4 Hw H]; [|by apply dispatch_reverts in H as ->].
  destruct (moves_counter call) eqn:Hm; [|by eapply quiet_call_books].
  eapply moving_call_books; eauto. apply HI.
Qed.

Lemma genesis_on_books s :
  at_genesis c s -> redeem_store s = ∅ -> OnBooks s.
Proof.
  intros [Hv _ Hr _ _] Hs. unfold OnBooks. rewrite Hs. split; [|apply map_Forall_empty].
  split; unfold vaults_of; rewrite Hv; intros k; [intros v; by rewrite lookup_empty|]. intros _.
  unfold due, replace_store. by rewrite Hs, Hr, !map_sum_empty.
Qed.

Lemma reachable_books s s' :
  rtc fresh_step s s' -> OnBooks s -> ChainInv c 0 (fun _ => True) s ->
  OnBooks s' /\ ChainInv c 0 (fun _ => True) s'.
Proof.
  induction 1 as [|s1 s2 s3 H _ IH]; [done|]. intros HB HI.
  destruct (fresh_step_books _ _ H HB HI). auto.
Qed.

(** C8: on a chain that starts without vaults and requests, after any sequence of
    calls, the to-be-redeemed tokens of every vault, active or liquidated, are
    exactly what its open redeem requests and the open replace requests it hands
    over will take from it; so no open request can fail because its vault's
    counter is too small. *)
Theorem open_requests_on_books s s' :
  at_genesis c s -> redeem_store s = ∅ -> rtc fresh_step s s' ->
  (forall k, counter k s' = due s' k) /\
  (forall i r, redeem_store s' !! i = Some r -> redeem_status r = RedeemPending ->
     redeem_amount_ r + redeem_transfer_fee_ r <= counter (redeem_vault r) s') /\
  (forall i r, replace_store s' !! i = Some r -> replace_status r = ReplacePending ->
     replace_amount_ r <= counter (old_vault r) s').
Proof.
  intros Hg Hr Hs. destruct (reachable_books _ _ Hs (genesis_on_books _ Hg Hr) (genesis_inv _ _ Hg)) as [[HO Hf] [_ [Hok _]]].
  assert (forall k, counter k s' = due s' k) as Hc by (intros; by apply owes_counter).
  assert (forall k i x, redeem_store s' !! i = Some x -> 0 <= open_redeem k i x) as Hr0.
  { intros k i x Hx. unfold open_redeem. apply Hf in Hx. destruct (decide _); lia. }
  assert (forall k i x, replace_store s' !! i = Some x -> 0 <= open_replace k i x) as Hp0.
  { intros k i x Hx. unfold open_replace. apply Hok in Hx as [_ ?]. destruct (decide _); lia. }
  split_and!; [done|..]; intros i r Hi Hp; rewrite Hc; unfold due.
  - pose proof (map_sum_ge_entry (open_redeem (redeem_vault r)) _ i (Hr0 _)) as He.
    pose proof (map_sum_nonneg _ _ (Hp0 (redeem_vault r))).
    unfold entry, open_redeem at 1 in He. rewrite Hi, decide_True in He by done. unfold burned in He. lia.
  - pose proof (map_sum_ge_entry (open_replace (old_vault r)) _ i (Hp0 _)) as He.
    pose proof (map_sum_nonneg _ _ (Hr0 (old_vault r))).
    unfold entry, open_replace at 1 in He. rewrite Hi, decide_True in He by done. lia.
Qed.

End reachable.

(** ** Witness: the user has asked for a redeem *)

Section witnesses.
#[local] Existing Instance SampleRuntime.

Definition fresh_idb (s : Chain) : bool :=
  bool_decide (issue_store s !! next_id s = None) && bool_decide (redeem_store s !! next_id s = None) &&
  bool_decide (replace_store s !! next_id s = None).

(** The calls succeed, and identifiers do not collide. *)
Fixpoint succeeds_fresh (calls : list RuntimeCall) (s : Chain) : bool :=
  match calls with
  | [] => true
  | call :: rest =>
      fresh_idb s && match dispatch call s with (Ok _, s') => succeeds_fresh rest s' | _ => false end
  end.

Lemma run_reaches_fresh calls s :
  Forall well_typed calls -> succeeds_fresh calls s = true -> rtc fresh_step s (run calls s).
Proof.
  revert s. induction calls as [|call rest IH]; simpl; intros s Hw H; [done|].
  apply Forall_cons_1 in Hw as [Hw Hrest]. apply andb_true_iff in H as [Hf H].
  destruct (dispatch call s) as [[[]|e|] s1] eqn:E; try done.
  eapply rtc_l; [|by apply IH]. split; [|by eapply step_ok].
  unfold fresh_idb in Hf. rewrite !andb_true_iff, !bool_decide_eq_true in Hf. unfold fresh_id. tauto.
Qed.

Definition redeem_run : list RuntimeCall := set_up ++ issue_calls ++ take 1 redeem_calls.
Definition redeem_asked : Chain := run redeem_run sample_genesis.

Lemma redeem_asked_reached : rtc fresh_step sample_genesis redeem_asked.
Proof.
  apply run_reaches_fresh; [repeat constructor; vm_compute; done|vm_compute; reflexivity].
Qed.

Lemma open_requests_on_books_witness :
  (forall k, counter k redeem_asked = due redeem_asked k) /\
  (forall i r, redeem_store redeem_asked !! i = Some r -> redeem_status r = RedeemPending ->
     redeem_amount_ r + redeem_transfer_fee_ r <= counter (redeem_vault r) redeem_asked) /\
  (forall i r, replace_store redeem_asked !! i = Some r -> replace_status r = ReplacePending ->
     replace_amount_ r <= counter (old_vault r) redeem_asked).
Proof.
  exact (open_requests_on_books (RT := SampleRuntime) (L := SampleRuntime_laws) XLM eq_refl
    ltac:(discriminate) sample_genesis redeem_asked sample_at_genesis eq_refl redeem_asked_reached).
Defined.

(** The counter is not trivial there. *)
Lemma redeem_asked_counter : counter sample_vault redeem_asked = 5000000.
Proof. vm_compute. reflexivity. Qed.

End witnesses.
