(* ===== verification/RecoveredVaults.v ===== *)
(** * Issue requests of recovered vaults

    A liquidated vault hands its to-be-issued tokens to the liquidation vault,
    and starts again from zero when [recover_vault_id] makes it active; the open
    issue requests stay with it.  This file shows what this means for them. *)

From S2P Require Import Prelude FixedPoint Primitives Currency Security Oracle Staking.
From S2P Require Import PooledRewards StellarRelay Chain RewardDistribution Fee VaultRegistry.
From S2P Require Import VaultFrames VaultBooks RateLimit Issue Redeem Nomination Replace Peg.
From S2P Require Import Runtime RequestLife Sample Reachable OpenRequests.

Section stranded.
Context `{RT : Runtime}.
Implicit Types s : Chain.

(** Vault [k] is active, with [n] to-be-issued tokens. *)
Definition Awaits (k : VaultId) (n : Z) s : Prop :=
  exists v, vaults_of s !! k = Some v /\ id v = k /\ is_liquidated v = false /\ to_be_issued_tokens v = n.

Lemma awaits_frame k n {A} (m : M Chain A) s r s' :
  Awaits k n s -> m s = (r, s') -> preserves vaults_of m -> Awaits k n s'.
Proof. intros (v & Hv & H) E Hm. exists v. by rewrite (preserves_ok _ _ _ _ _ Hm E). Qed.

(** Writing the vault back with another counter. *)
Lemma awaits_update k v n s w s' :
  id v = k -> is_liquidated v = false -> RichVault.update (set_to_be_issued_tokens n v) s = (Ok w, s') ->
  Awaits k n s'.
Proof.
  intros <- Hl [-> ->]%update_vault_ok. exists (set_to_be_issued_tokens n v). destruct v. cbn in *.
  split_and!; try done. unfold vaults_of. apply Vaults_put_vault.
Qed.

Lemma awaits_get k n s v s' :
  Awaits k n s -> get_rich_vault_from_id k s = (Ok v, s') ->
  s' = s /\ id v = k /\ is_liquidated v = false /\ to_be_issued_tokens v = n.
Proof. intros (w & Hw & H) [-> Hv]%get_vault_ok. unfold vaults_of in Hw. by simplify_eq. Qed.

Lemma awaits_decrease k n t s u s' :
  Awaits k n s -> decrease_to_be_issued_tokens k t s = (Ok u, s') ->
  amount t <= n /\ Awaits k (n - amount t) s'.
Proof.
  intros Ha H. unfold decrease_to_be_issued_tokens, RichVault.cancel_issue_tokens, RichVault.decrease_to_be_issued in H.
  apply bind_ok in H as (v & s1 & E & H). apply awaits_get with (1 := Ha) in E as (-> & Hid & Hl & <-).
  rewrite Hl in H. inv_ok. inv_amount. cbn in *. split; [lia|]. rewrite <- H1. by eapply awaits_update.
Qed.

Lemma awaits_issue_tokens k n t s u s' :
  Awaits k n s -> issue_tokens k t s = (Ok u, s') -> amount t <= n.
Proof.
  intros Ha H. unfold issue_tokens, RichVault.execute_issue_tokens, RichVault.decrease_to_be_issued in H.
  apply bind_ok in H as (v & s1 & E & H). apply awaits_get with (1 := Ha) in E as (-> & Hid & Hl & <-).
  rewrite Hl in H. inv_ok. inv_amount. cbn in *. lia.
Qed.

Lemma awaits_increase k n t s u s' :
  Awaits k n s -> try_increase_to_be_issued_tokens k t s = (Ok u, s') -> Awaits k (n + amount t) s'.
Proof.
  intros Ha H. unfold try_increase_to_be_issued_tokens in H. apply bind_ok in H as (v & s1 & E & H).
  unfold get_active_rich_vault_from_id, get_active_vault_from_id in E. apply bind_ok in E as (w & s2 & E & E').
  apply awaits_get with (1 := Ha) in E as (-> & Hid & Hl & <-).
  destruct (status w); [|inv_ok]. apply ret_ok in E' as [-> ->].
  apply bind_ok in H as (x & s2 & E & H). eapply awaits_frame in E; [|exact Ha|eauto with vaults]. clear Ha.
  unfold RichVault.request_issue_tokens, RichVault.increase_to_be_issued in H. inv_ok. inv_amount. cbn in *.
  rewrite <- H1. by eapply awaits_update.
Qed.

(** A failed attempt leaves the counter as it was. *)
Lemma awaits_attempt k n t s r s' :
  Awaits k n s -> attempt (try_increase_to_be_issued_tokens k t) s = (Ok r, s') ->
  Awaits k (if is_ok r then n + amount t else n) s'.
Proof.
  intros Ha H. unfold attempt in H. destruct (try_increase_to_be_issued_tokens k t s) as [o s1] eqn:E.
  destruct o as [u|e|]; try discriminate; injection H as <- <-; [by eapply awaits_increase|].
  pose proof (fails_try_increase_to_be_issued k t s) as F. rewrite E in F. specialize (F eq_refl).
  injection F as F _ _. destruct Ha as (v & Hv & Ha). exists v. unfold vaults_of in *. by rewrite F.
Qed.

(** The total of the request in memory. *)
Definition total_of (r : IssueRequest) : Z := issue_amount_ r + issue_fee_ r.

Lemma set_issue_amount_total i r t g s r' s' :
  set_issue_amount i r t g s = (Ok r', s') -> total_of r' = amount t /\ issue_vault r' = issue_vault r.
Proof. unfold set_issue_amount. intros H. inv_ok. inv_amount. unfold total_of. cbn in *. split; [lia|done]. Qed.

Lemma frame_set_issue_amount i r t g : preserves vaults_of (set_issue_amount i r t g).
Proof. apply vaults_of_books. unfold set_issue_amount, put_issue_request. solve_frame. Qed.

(** Whatever was paid, the counter moves as the request does. *)
Lemma handle_awaits e i r t k n s r' s' :
  issue_status r = IssuePending -> issue_vault r = k -> Awaits k n s ->
  _handle_issue_requests e i r t s = (Ok r', s') ->
  issue_vault r' = k /\ Awaits k (n + total_of r' - total_of r) s'.
Proof.
  intros Hp Hk Ha H. unfold _handle_issue_requests in H. rewrite Hp in H. cbv zeta in H.
  apply bind_ok in H as (expected & s1 & [Hex ->]%lift_ok & H).
  apply bind_ok in H as (less & s1 & [Hless ->]%lift_ok & H).
  apply bind_ok in H as ([r1 g] & s2 & E & H). apply bind_ok in H as (? & s3 & Eu & [-> ->]%ret_ok).
  enough (issue_vault r1 = k /\ Awaits k (n + total_of r1 - total_of r) s2) as [? ?].
  { split; [done|]. eapply awaits_frame; [done|exact Eu|apply vaults_of_ledger]. }
  assert (amount expected = total_of r) as Htot by (inv_amount; done). destruct less.
  - apply bind_ok in E as (? & s4 & [_ ->]%ensure_ok & E). unfold decrease_issue_amount in E.
    apply bind_ok in E as (deficit & s4 & [Hd ->]%lift_ok & E). apply bind_ok in E as (? & s4 & E4 & E).
    rewrite Hk in *. eapply awaits_decrease in E4 as [_ E4]; [|exact Ha].
    do 2 apply bind_ok in E as (? & ? & [_ ->]%lift_ok & E). apply bind_ok in E as (? & s5 & E5 & E).
    eapply awaits_frame in E5; [|exact E4|unfold transfer_funds; cbn [take_from give_to]; solve_frame; eauto with vaults].
    apply bind_ok in E as (r2 & s6 & E6 & [[= -> ->] ->]%ret_ok). pose proof E6 as Hr2.
    apply set_issue_amount_total in Hr2 as [Ht Hv]. eapply awaits_frame in E6; [|exact E5|apply frame_set_issue_amount].
    split; [congruence|]. inv_amount. replace (n + _ - _) with (n - amount deficit) by lia. done.
  - apply bind_ok in E as (more & s4 & [_ ->]%lift_ok & E). apply bind_ok in E as (liq & s4 & El & E).
    eapply awaits_frame in El; [|exact Ha|destruct more; eauto with vaults].
    apply bind_ok in E as (r2 & s5 & E5 & [[= -> ->] ->]%ret_ok).
    destruct (more && negb liq); [|apply ret_ok in E5 as [-> ->]; split; [done|]; by replace (n + _ - _) with n by lia].
    unfold try_increase_issue_amount in E5. apply bind_ok in E5 as (surplus & s6 & [Hsu ->]%lift_ok & E5).
    apply bind_ok in E5 as (mx & s6 & Em & E5). eapply awaits_frame in Em; [|exact El|eauto with vaults].
    apply bind_ok in E5 as (extra & s7 & [Hx ->]%lift_ok & E5). apply bind_ok in E5 as (res & s8 & Ea & E5).
    rewrite Hk in *. eapply awaits_attempt in Ea; [|exact Em]. destruct (is_ok res).
    + apply bind_ok in E5 as (tot & s9 & [Hto ->]%lift_ok & E5). pose proof E5 as Hr2.
      apply set_issue_amount_total in Hr2 as [Ht Hv]. eapply awaits_frame in E5; [|exact Ea|apply frame_set_issue_amount].
      split; [congruence|]. inv_amount. replace (n + _ - _) with (n + amount extra) by lia. done.
    + apply ret_ok in E5 as [-> ->]. split; [done|]. by replace (n + _ - _) with n by lia.
Qed.

(** Passes a step that writes no vault. *)
Ltac awaits_step H :=
  let E := fresh "E" in apply bind_ok in H as (? & ? & E & H);
  eapply awaits_frame in E; [|eassumption|clear;
    unfold transfer_funds; cbn [take_from give_to]; solve_frame; eauto with vaults].

Lemma execute_needs_counter e i x y z r k n s u s' :
  issue_store s !! i = Some r -> issue_status r = IssuePending -> issue_vault r = k -> Awaits k n s ->
  _execute_issue e i x y z s = (Ok u, s') -> total_of r <= n.
Proof.
  intros Hr Hp Hk Ha H. unfold _execute_issue in H. apply bind_ok in H as (r0 & s1 & E0 & H).
  assert (r0 = r /\ s1 = s) as [-> ->].
  { unfold get_executable_issue_request_from_id, get_issue_request in E0. inv_ok.
    unfold issue_store in Hr. simplify_eq. rewrite Hp in E0. by apply ret_ok in E0 as [-> ->]. }
  cbv zeta in H. apply bind_ok in H as (env & s1 & E & H).
  eapply awaits_frame in E; [|exact Ha|apply vaults_of_books; unfold Issue.validate_stellar_transaction; solve_frame].
  apply bind_ok in H as (paid & s2 & [_ ->]%lift_ok & H). apply bind_ok in H as (r1 & s2 & Eh & H).
  eapply handle_awaits in Eh as [Hv Ha2]; [|done|exact Hk|exact E].
  apply bind_ok in H as (tot & s3 & [Ht ->]%lift_ok & H). apply bind_ok in H as (? & s3 & Ei & H).
  rewrite Hv in Ei. eapply awaits_issue_tokens in Ei; [|exact Ha2]. inv_amount. unfold total_of in *. cbn in *. lia.
Qed.

Lemma cancel_needs_counter q i r k n s u s' :
  issue_store s !! i = Some r -> issue_status r = IssuePending -> issue_vault r = k -> Awaits k n s ->
  _cancel_issue q i s = (Ok u, s') -> total_of r <= n.
Proof.
  intros Hr Hp Hk Ha H. unfold _cancel_issue, issue_period in H. apply bind_ok in H as (r0 & s1 & E0 & H).
  assert (r0 = r /\ s1 = s) as [-> ->].
  { unfold get_pending_issue, get_issue_request in E0. inv_ok.
    unfold issue_store in Hr. simplify_eq. rewrite Hp in E0. by apply ret_ok in E0 as [-> ->]. }
  cbv zeta in H. apply bind_ok in H as (p & s1 & [-> ->]%gets_ok & H).
  do 4 awaits_step H. apply bind_ok in H as (t & s2 & [Ht ->]%lift_ok & H).
  apply bind_ok in H as (? & s2 & Ed & H). rewrite Hk in Ed. eapply awaits_decrease in Ed as [Hle _]; [|eassumption].
  inv_amount. unfold total_of. cbn in *. lia.
Qed.

(** A recovered vault has no to-be-issued tokens. *)
Lemma recover_awaits who cp s u s' :
  RegistryInv (registry s) -> recover_vault_id (Ok who) cp s = (Ok u, s') ->
  Awaits (new_vault_id who (collateral cp) (wrapped cp)) 0 s' /\ issue_store s' = issue_store s.
Proof.
  intros I H. split.
  2: { apply (preserves_ok issue_store) in H; [done|]. apply (base_calls issue_store (RecoverVaultId (Ok who) cp)). done. }
  unfold recover_vault_id in H. apply transactional_ok in H.
  apply bind_ok in H as (? & ? & [[= <-] ->]%lift_ok & H). cbv zeta in H. set (k := new_vault_id _ _ _) in *.
  apply bind_ok in H as (l & s1 & E & H). unfold is_vault_liquidated in E.
  apply bind_ok in E as (w & s2 & Ew & [-> ->]%ret_ok). apply get_vault_ok in Ew as [-> Hw].
  apply bind_ok in H as (? & s1 & [Hl ->]%ensure_ok & H). apply bool_decide_eq_true in Hl.
  apply bind_ok in H as (v & s1 & Ev & H). apply get_vault_ok in Ev as [-> Hv]. assert (v = w) as -> by congruence.
  apply bind_ok in H as (? & s1 & [_ ->]%ensure_ok & H). apply bind_ok in H as (v' & s1 & Ea & [_ ->]%ret_ok).
  pose proof (inv_id _ I _ _ Hw) as Hid. destruct (inv_vault _ I _ _ Hw) as [_ Hok].
  unfold is_liquidated in Hok. rewrite bool_decide_true in Hok by done. destruct Hok as [_ Hz].
  unfold RichVault.set_accept_new_issues in Ea. apply update_vault_ok in Ea as [-> ->].
  exists (set_vault_status (Active true) w). unfold vaults_of. destruct w. cbn in *. subst.
  split_and!; try done. apply Vaults_put_vault.
Qed.

(** C23: in the state in which the recovery of a liquidated vault leaves the
    chain, the issue requests that were open with the vault can be neither
    executed, whatever their users paid, nor cancelled: the counter they would be
    taken from is zero. *)
Theorem recovery_strands_issues who cp s s' i r :
  RegistryInv (registry s) -> dispatch (RecoverVaultId (Ok who) cp) s = (Ok tt, s') ->
  issue_store s !! i = Some r -> issue_status r = IssuePending ->
  issue_vault r = new_vault_id who (collateral cp) (wrapped cp) -> 0 < issue_amount_ r + issue_fee_ r ->
  (forall o env envs set, fst (dispatch (ExecuteIssue o i env envs set) s') <> Ok tt) /\
  (forall o, fst (dispatch (CancelIssue o i) s') <> Ok tt).
Proof.
  intros I H Hr Hp Hk Hpos. cbn [dispatch] in H. apply recover_awaits in H as [Ha Hs]; [|done].
  rewrite <- Hs in Hr. split.
  - intros o env envs set E%run_ok. cbn [dispatch] in E. unfold execute_issue in E. open_call E.
    eapply execute_needs_counter in E; eauto. unfold total_of in E. lia.
  - intros o E%run_ok. cbn [dispatch] in E. unfold cancel_issue in E. open_call E.
    eapply cancel_needs_counter in E; eauto. unfold total_of in E. lia.
Qed.

End stranded.

(** ** Witness: a user has asked for tokens, and the price of the asset rises *)

Section witnesses.
#[local] Existing Instance SampleRuntime.

Definition stranded_id : H256 := id_of_next with_tokens.

Definition liquidation_calls : list RuntimeCall := [
  RequestIssue (Ok 2%N) 10000000 sample_vault;
  PriceFeed (list_to_map [(ExchangeRate DOT, one_price); (ExchangeRate XLM, mkTimestamped (10 ^ 9 * DIV) 0);
                          (ExchangeRate Native, one_price)]) 0;
  ReportUndercollateralizedVault sample_vault ].

Definition liquidation_run : list RuntimeCall := set_up ++ issue_calls ++ liquidation_calls.
Definition liquidated_chain : Chain := run liquidation_run sample_genesis.
Definition recovered : Chain := snd (dispatch (RecoverVaultId (Ok 1%N) sample_pair) liquidated_chain).
Definition open_issue : IssueRequest :=
  mkIssueRequest sample_vault 0 100 50000 10000000 XLM 0 2%N [77] IssuePending.

Lemma liquidated_reached : rtc step sample_genesis liquidated_chain.
Proof. apply run_reaches; [repeat constructor; vm_compute; done|vm_compute; reflexivity]. Qed.

Lemma liquidated_inv : RegistryInv (registry liquidated_chain).
Proof.
  pose proof (reachable_inv (RT := SampleRuntime) XLM eq_refl ltac:(discriminate) 0 _ _ liquidated_reached
    (genesis_inv _ _ sample_at_genesis)) as [(I & _) _]. exact I.
Qed.

Lemma recovery_strands_issues_witness :
  issue_store liquidated_chain !! stranded_id = Some open_issue /\
  dispatch (RecoverVaultId (Ok 1%N) sample_pair) liquidated_chain = (Ok tt, recovered) /\
  (forall o env envs set, fst (dispatch (ExecuteIssue o stranded_id env envs set) recovered) <> Ok tt) /\
  (forall o, fst (dispatch (CancelIssue o stranded_id) recovered) <> Ok tt).
Proof.
  assert (issue_store liquidated_chain !! stranded_id = Some open_issue) as Hr by (vm_compute; reflexivity).
  assert (dispatch (RecoverVaultId (Ok 1%N) sample_pair) liquidated_chain = (Ok tt, recovered)) as Hd
    by (apply run_ok; vm_compute; reflexivity).
  refine (conj Hr (conj Hd _)).
  exact (recovery_strands_issues (RT := SampleRuntime) 1%N sample_pair liquidated_chain recovered stranded_id
    open_issue liquidated_inv Hd Hr eq_refl eq_refl ltac:(reflexivity)).
Defined.

(** The payment of the request would otherwise be accepted: before the recovery
    it is executed against the liquidation vault. *)
Lemma executable_before_recovery :
  fst (dispatch (ExecuteIssue (Ok 2%N) stranded_id (77 :: 100 :: take 28 stranded_id) []
    (77 :: 100 :: take 28 stranded_id)) liquidated_chain) = Ok tt.
Proof. vm_compute. reflexivity. Qed.

End witnesses.
