(* ===== verification/OffchainWorker.v ===== *)
(** * The offchain worker of the vault registry

    [src/pallets/vault-registry/src/lib.rs]: in every block the node looks for
    vaults below their liquidation threshold and reports them with unsigned
    transactions, which the pallet validates for the transaction pool.

    The pool is code of the node: an interface, [TransactionPool], with the rule
    about tags as its law. *)

From S2P Require Import Prelude FixedPoint Primitives Currency Security Oracle Staking.
From S2P Require Import PooledRewards StellarRelay Chain RewardDistribution Fee VaultRegistry.
From S2P Require Import VaultFrames VaultBooks RateLimit Issue Redeem Nomination Replace.
From S2P Require Import Runtime RequestLife Sample Reachable.

(** ** Validation *)

Inductive TransactionSource := External | Local | InBlock.

Definition UNSIGNED_TXS_PRIORITY : Z := 100.

Record ValidTransaction := mkValid {
  priority : Z;
  provides : list (string * string);
  longevity : Z;
  propagate : bool;
}.

(** [None] is [InvalidTransaction::Call]. *)
Definition validate_unsigned (source : TransactionSource) (call : RuntimeCall)
  : option ValidTransaction :=
  match source with
  | External => None
  | Local | InBlock =>
      let valid_tx provide :=
        mkValid UNSIGNED_TXS_PRIORITY [("vault-registry"%string, provide)] 3 false in
      match call with
      | ReportUndercollateralizedVault _ => Some (valid_tx "report_undercollateralized_vault"%string)
      | _ => None
      end
  end.

(** ** The pool of the node *)

Class TransactionPool (P : Type) := {
  entries : P -> list (RuntimeCall * ValidTransaction);
  import : RuntimeCall -> ValidTransaction -> P -> option P;
}.

(** What is imported is added.  A transaction that provides a tag which one in the
    pool provides is accepted only in place of one with a lower priority. *)
Class TransactionPoolLaws (P : Type) (TP : TransactionPool P) : Prop := {
  import_adds call v p p' : import call v p = Some p' ->
    (forall call' v', (call', v') ∈ entries p -> priority v' < priority v -> provides v' <> provides v) ->
    entries p' = entries p ++ [(call, v)];
  import_conflict call v p call' v' :
    (call', v') ∈ entries p -> provides v' = provides v -> priority v <= priority v' ->
    import call v p = None;
}.

Section worker.
Context `{RT : Runtime} `{TP : TransactionPool P}.

(** [SubmitTransaction::submit_unsigned_transaction]: the transaction is valid if
    a pallet says so. *)
Definition submit_unsigned_transaction (call : RuntimeCall) (p : P) : option P :=
  v ← validate_unsigned Local call; import call v p.

Definition _offchain_worker (s : Chain) (p : P) : P :=
  match undercollateralized_vaults s with
  | (Ok vaults, _) =>
      foldl (fun p vault =>
        default p (submit_unsigned_transaction (ReportUndercollateralizedVault vault) p)) p vaults
  | _ => p
  end.

End worker.

(** ** Which vaults are found *)

Section found.
Context `{RT : Runtime}.

(** A component that is put back as it was. *)
Lemma reads_zoom {S T A} (get : S -> T) put (m : M T A) :
  (forall s, put (get s) s = s) -> preserves (fun t => t) m -> preserves (fun s => s) (zoom get put m).
Proof.
  intros Hg Hm s. unfold zoom. specialize (Hm (get s)). destruct (m (get s)) as [o t]. simpl in *. by rewrite Hm.
Qed.

Lemma reads_threshold v t : preserves (fun s => s) (is_vault_below_liquidation_threshold v t).
Proof.
  unfold is_vault_below_liquidation_threshold, get_backing_collateral, is_collateral_below_threshold,
    calculate_max_wrapped_from_collateral_for_threshold, convert_to, on_staking, on_oracle, staking_total_stake,
    total_current_stake, balance_result, Oracle.convert, get_price, on_security, ensure_parachain_status_running.
  repeat first [apply reads_zoom; [by intros []|] | solve_frame_step].
Qed.

(** The vault stored under [k] has a threshold and is below it. *)
Definition below_liquidation (s : Chain) (k : VaultId) : Prop :=
  exists vault threshold, Vaults (registry s) !! k = Some vault /\
    LiquidationCollateralThreshold (registry s) !! currencies (id vault) = Some threshold /\
    fst (is_vault_below_liquidation_threshold vault threshold s) = Ok true.

Lemma found_step (acc : list VaultId) (s : Chain) k vault o s' :
  (let* t := gets (fun s => LiquidationCollateralThreshold (registry s) !! currencies (id vault)) in
   match t with
   | Some liquidation_threshold =>
       let* below := attempt (is_vault_below_liquidation_threshold vault liquidation_threshold) in
       ret (match below with Ok true => acc ++ [k] | _ => acc end)
   | None => ret acc
   end) s = (Ok o, s') ->
  s' = s /\
  (o = acc ++ [k] /\ (exists t, LiquidationCollateralThreshold (registry s) !! currencies (id vault) = Some t /\
       fst (is_vault_below_liquidation_threshold vault t s) = Ok true) \/
   o = acc /\ ~ (exists t, LiquidationCollateralThreshold (registry s) !! currencies (id vault) = Some t /\
       fst (is_vault_below_liquidation_threshold vault t s) = Ok true)).
Proof.
  intros H. apply bind_ok in H as (t & s1 & [-> ->]%gets_ok & H).
  destruct (LiquidationCollateralThreshold (registry s) !! currencies (id vault)) as [t|] eqn:Et.
  - apply bind_ok in H as (b & s1 & [E _]%attempt_ok & [-> ->]%ret_ok).
    pose proof (reads_threshold vault t s) as Hs. rewrite E in Hs. simpl in Hs. split; [done|].
    destruct b as [[]|e|]; [left; split; [done|]; exists t; by rewrite E|right; split; [done|]..];
      intros (t' & [= <-] & Hb); rewrite E in Hb; done.
  - apply ret_ok in H as [-> ->]. split; [done|]. right. split; [done|]. by intros (t & ? & _).
Qed.

(** The vaults found are exactly the ones below their threshold, each once. *)
Lemma undercollateralized_spec s l s' :
  undercollateralized_vaults s = (Ok l, s') ->
  s' = s /\ NoDup l /\ forall k, k ∈ l <-> below_liquidation s k.
Proof.
  unfold undercollateralized_vaults. intros H. apply bind_ok in H as (es & s1 & [-> ->]%gets_ok & H).
  match type of H with fold_m ?g _ _ _ = _ => set (find := g) in H end.
  assert (forall es acc, fold_m find es acc s = (Ok l, s') -> NoDup (es.*1) ->
    s' = s /\ exists found, l = acc ++ found /\ NoDup found /\ (forall k, k ∈ found -> k ∈ es.*1) /\
    (forall k v, (k, v) ∈ es -> k ∈ found <-> exists t, LiquidationCollateralThreshold (registry s) !! currencies (id v) = Some t /\
       fst (is_vault_below_liquidation_threshold v t s) = Ok true)) as G.
  { clear H. induction es as [|[k v] es IH]; intros acc H Hn.
    - cbn in H. apply ret_ok in H as [-> ->]. split; [done|]. exists []. split_and!; [by rewrite app_nil_r|constructor| |];
        intros *; by intros ?%elem_of_nil.
    - cbn [fold_m] in H. apply bind_ok in H as (o & s1 & E & H). apply (found_step acc s k v) in E as [-> Ho].
      rewrite fmap_cons in Hn. apply list.NoDup_cons in Hn as [Hk Hn].
      destruct (IH _ H Hn) as (-> & found & -> & Hf & Hin & Hiff). split; [done|].
      assert (k ∉ found) as Hkf by auto.
      assert (forall k' v', (k', v') ∈ es -> k' <> k) as Hne.
      { intros k' v' Hin' ->. apply Hk. apply list_elem_of_fmap. by exists (k, v'). }
      destruct Ho as [[-> Hb]|[-> Hb]].
      + exists (k :: found). split_and!; [by rewrite <- app_assoc|by constructor| |].
        { intros k' [->|Hk']%elem_of_cons; simpl; rewrite elem_of_cons; auto. }
        intros k' v' [[= -> ->]|Hin']%elem_of_cons; rewrite elem_of_cons; [tauto|].
        rewrite <- (Hiff _ _ Hin'). pose proof (Hne _ _ Hin'). tauto.
      + exists found. split_and!; [done|done|intros k' Hk'; simpl; rewrite elem_of_cons; auto|].
        intros k' v' [[= -> ->]|Hin']%elem_of_cons; [tauto|]. by apply Hiff. }
  apply G in H as (-> & found & -> & Hf & Hin & Hiff); [|apply NoDup_fst_map_to_list].
  split_and!; [done|done|]. intros k. simpl. split.
  - intros Hk. pose proof (Hin _ Hk) as ([k' v] & -> & Hkv)%list_elem_of_fmap. simpl in *.
    apply (Hiff _ _ Hkv) in Hk as (t & Ht & Hb). exists v, t. apply elem_of_map_to_list in Hkv. done.
  - intros (v & t & Hv & Ht & Hb). apply elem_of_map_to_list in Hv. apply (Hiff _ _ Hv). eauto.
Qed.

End found.

(** ** Properties *)

Definition report_tag : list (string * string) :=
  [("vault-registry"%string, "report_undercollateralized_vault"%string)].

Section properties.
Context `{RT : Runtime} `{TP : TransactionPool P} {L : TransactionPoolLaws P TP}.

(** Somebody provides the tag of reports, at their priority. *)
Definition occupied (p : P) : Prop :=
  exists call v, (call, v) ∈ entries p /\ provides v = report_tag /\ UNSIGNED_TXS_PRIORITY <= priority v.

Lemma occupied_refuses k p :
  occupied p -> submit_unsigned_transaction (ReportUndercollateralizedVault k) p = None.
Proof.
  intros (call & v & Hv & Ht & Hp). unfold submit_unsigned_transaction. simpl. by eapply import_conflict.
Qed.

Lemma occupied_fold l p :
  occupied p ->
  foldl (fun p vault => default p (submit_unsigned_transaction (ReportUndercollateralizedVault vault) p)) p l = p.
Proof. intros Ho. induction l as [|k l IH]; simpl; [done|]. by rewrite (occupied_refuses k p Ho). Qed.

Lemma occupied_worker s p : occupied p -> _offchain_worker s p = p.
Proof.
  intros Ho. unfold _offchain_worker. destruct (undercollateralized_vaults s) as [[l|e|] s']; try done.
  by apply occupied_fold.
Qed.

(** In one block the offchain worker adds at most one transaction to the pool: a
    report of a vault that is below its liquidation threshold.  All reports
    provide the same tag, so while it is in the pool no other vault is reported,
    however many are below the threshold. *)
Theorem worker_reports_one_vault s p :
  (forall call v, (call, v) ∈ entries p -> provides v = report_tag -> UNSIGNED_TXS_PRIORITY <= priority v) ->
  let p' := _offchain_worker s p in
  p' = p \/
  exists k v, below_liquidation s k /\ validate_unsigned Local (ReportUndercollateralizedVault k) = Some v /\
    entries p' = entries p ++ [(ReportUndercollateralizedVault k, v)] /\
    forall later, _offchain_worker later p' = p'.
Proof.
  intros Hp p'. assert (p' = _offchain_worker s p) as Hq by done. clearbody p'. unfold _offchain_worker in Hq.
  destruct (undercollateralized_vaults s) as [[l|e|] s'] eqn:E; [|by left..].
  apply undercollateralized_spec in E as (_ & _ & Hl).
  assert (forall k, k ∈ l -> below_liquidation s k) as Hb by (intros; by apply Hl). clear Hl.
  induction l as [|k l IH]; [by left|]. cbn [foldl] in Hq.
  destruct (submit_unsigned_transaction (ReportUndercollateralizedVault k) p) as [p1|] eqn:Es; simpl in Hq.
  - right. unfold submit_unsigned_transaction in Es. simpl in Es.
    pose proof (fun H => import_adds _ _ _ _ Es H) as Ha. specialize (Ha ltac:(intros call v Hv Hlt Ht; pose proof (Hp _ _ Hv Ht); simpl in Hlt; lia)).
    assert (occupied p1) as Ho.
    { eexists _, _. split_and!; [rewrite Ha; apply elem_of_app; right; by apply list_elem_of_singleton|done|simpl; lia]. }
    rewrite (occupied_fold l p1 Ho) in Hq. subst p'. exists k. eexists. split_and!; [apply Hb; by left|done|done|].
    intros later. by apply occupied_worker.
  - apply IH; [done|]. intros k' Hk'. apply Hb. by right.
Qed.

End properties.

(** The report of a vault the worker found goes through to its liquidation:
    in the state in which it was found, the call is the liquidation itself. *)
Theorem found_vault_liquidated `{RT : Runtime} s l s' k :
  (forall k v, Vaults (registry s) !! k = Some v -> id v = k) ->
  undercollateralized_vaults s = (Ok l, s') -> k ∈ l ->
  dispatch (ReportUndercollateralizedVault k) s = transactional (liquidate_vault k ;;; ret tt) s.
Proof.
  intros Hid H Hk. apply undercollateralized_spec in H as (_ & _ & Hl). apply Hl in Hk as (v & t & Hv & Ht & Hb).
  rewrite (Hid _ _ Hv) in Ht. simpl. unfold report_undercollateralized_vault, transactional.
  apply reads_run in Hb; [|apply reads_threshold].
  enough (forall m : M Chain unit, (let* vault := get_vault_from_id k in
    let* t := gets (fun s => LiquidationCollateralThreshold (registry s) !! currencies k) in
    let* liquidation_threshold := lift (ok_or t vault_registry.LiquidationCollateralThresholdNotSet) in
    let* below := is_vault_below_liquidation_threshold vault liquidation_threshold in
    if below then m else throw vault_registry.VaultNotBelowLiquidationThreshold) s = m s) as -> by done.
  intros m. unfold get_vault_from_id, bind, gets, lift. rewrite Hv. simpl. rewrite Ht. simpl. by rewrite Hb.
Qed.

(** ** Witnesses *)

Section witnesses.
#[local] Existing Instance SampleRuntime.

(** A pool that keeps what came first. *)
Definition ListPool : TransactionPool (list (RuntimeCall * ValidTransaction)) := {|
  entries p := p;
  import call v p :=
    if List.existsb (fun e => bool_decide (provides (snd e) = provides v)) p then None else Some (p ++ [(call, v)]);
|}.

Lemma ListPool_laws : TransactionPoolLaws _ ListPool.
Proof.
  split; simpl.
  - intros call v p p' H _. by destruct (List.existsb _ _); simplify_eq.
  - intros call v p call' v' Hin Ht _. rewrite (proj2 (List.existsb_exists _ _)); [done|].
    exists (call', v'). split; [by apply list_elem_of_In|]. by apply bool_decide_eq_true_2.
Qed.

(** The vault needs a hundred million times what it has issued. *)
Definition threatened : Chain :=
  run [SetLiquidationCollateralThreshold (Ok tt) sample_pair (10 ^ 27)] with_tokens.

Lemma worker_reports_one_vault_witness :
  let p' := _offchain_worker (TP := ListPool) threatened [] in
  p' = [] \/
  exists k v, below_liquidation threatened k /\ validate_unsigned Local (ReportUndercollateralizedVault k) = Some v /\
    entries (TransactionPool := ListPool) p' = [] ++ [(ReportUndercollateralizedVault k, v)] /\
    forall later, _offchain_worker (TP := ListPool) later p' = p'.
Proof.
  apply (worker_reports_one_vault (L := ListPool_laws) threatened []). by intros call v ?%elem_of_nil.
Defined.

Lemma threatened_reported :
  _offchain_worker (TP := ListPool) threatened [] =
    [(ReportUndercollateralizedVault sample_vault, mkValid UNSIGNED_TXS_PRIORITY report_tag 3 false)].
Proof. vm_compute. reflexivity. Qed.

Lemma found_vault_liquidated_witness :
  dispatch (ReportUndercollateralizedVault sample_vault) threatened =
    transactional (liquidate_vault sample_vault ;;; ret tt) threatened.
Proof.
  apply (found_vault_liquidated (RT := SampleRuntime) threatened [sample_vault] (snd (undercollateralized_vaults threatened))).
  - change (map_Forall (fun k v => id v = k) (Vaults (registry threatened))).
    apply (bool_decide_unpack _). vm_compute. exact I.
  - apply run_ok. vm_compute. reflexivity.
  - by left.
Defined.

End witnesses.
