(* ===== verification/Payments.v ===== *)
(** * Payments

    What a successful execution of a request shows: tokens are minted only
    against a payment on Stellar, validated by the relay and marked with the
    identifier of the request, and a redeem is completed only after the user
    was paid on Stellar. *)

From S2P Require Import Prelude FixedPoint Primitives Currency Security Oracle Staking.
From S2P Require Import PooledRewards StellarRelay Chain RewardDistribution Fee VaultRegistry.
From S2P Require Import VaultFrames VaultBooks RateLimit Issue Redeem Replace Peg Runtime.
From S2P Require Import RequestLife Sample Reachable.

(** ** Payment proofs *)

Section proofs.
Context `{RT : Runtime}.

(** The three arguments of an execution are a transaction, marked with the
    identifier [i], and a proof that the relay accepts. *)
Definition proven (i : H256) (env envs set : Bytes) (s : Chain) (tx : TransactionEnvelope) : Prop :=
  construct_from_raw_encoded_xdr transaction_envelope_from_xdr env = Ok tx /\
  get_text_memo_from_tx_env tx = Some (take 28 (to_base58 i)) /\
  exists envelopes transaction_set,
    construct_from_raw_encoded_xdr scp_envelopes_from_xdr envs = Ok envelopes /\
    construct_from_raw_encoded_xdr transaction_set_from_xdr set = Ok transaction_set /\
    StellarRelay.validate_stellar_transaction IsPublicNetwork (block_number (system s)) tx envelopes
      transaction_set (relay_st s) = Ok tt.

Lemma relay_validate_ok tx envelopes transaction_set s u s' :
  relay_validate tx envelopes transaction_set s = (Ok u, s') ->
  s' = s /\ StellarRelay.validate_stellar_transaction IsPublicNetwork (block_number (system s)) tx
    envelopes transaction_set (relay_st s) = Ok tt.
Proof. unfold relay_validate. destruct u. intros H. by inv_ok. Qed.

Lemma memo_ok i tx m :
  derive_shortened_request_id to_base58 i = Ok m -> ensure_transaction_memo_matches tx m = Ok tt ->
  get_text_memo_from_tx_env tx = Some (take 28 (to_base58 i)).
Proof.
  unfold derive_shortened_request_id, ensure_transaction_memo_matches. intros Hm H.
  destruct (length _ <? 28)%nat; [done|]. injection Hm as <-.
  destruct (get_text_memo_from_tx_env tx) as [m'|]; [|done]. apply oensure_ok in H.
  apply bool_decide_eq_true in H. by subst.
Qed.

Lemma validate_proven i env envs set s tx s' :
  Issue.validate_stellar_transaction i env envs set s = (Ok tx, s') ->
  s' = s /\ proven i env envs set s tx.
Proof.
  unfold Issue.validate_stellar_transaction. intros H.
  apply bind_ok in H as (tx' & s1 & [Htx ->]%lift_ok & H).
  apply bind_ok in H as (es & s1 & [Hes ->]%lift_ok & H).
  apply bind_ok in H as (ts & s1 & [Hts ->]%lift_ok & H).
  apply bind_ok in H as (m & s1 & [Hm ->]%lift_ok & H).
  apply bind_ok in H as ([] & s1 & [Hmm ->]%lift_ok & H).
  apply bind_ok in H as (u & s1 & [-> Hv]%relay_validate_ok & [-> ->]%ret_ok).
  split; [done|]. split_and!; [done|by eapply memo_ok|]. eauto.
Qed.

End proofs.

(** ** Issue *)

Section issue.
Context `{RT : Runtime} {L : RuntimeLaws RT}.

Lemma set_issue_amount_ok i r t c s r' s' :
  set_issue_amount i r t c s = (Ok r', s') ->
  issue_asset r' = issue_asset r /\ issue_amount_ r' + issue_fee_ r' = amount t.
Proof.
  unfold set_issue_amount. intros H. apply bind_ok in H as (fee & s1 & _ & H).
  apply bind_ok in H as (a & s2 & [Ha ->]%lift_ok & H).
  apply bind_ok in H as (? & s3 & _ & [-> ->]%ret_ok). inv_amount. cbn in *.
  split; [done|lia].
Qed.

(** Fewer tokens than expected: the request gets what was paid. *)
Lemma decrease_issue_bound i r a t s r' g s' :
  decrease_issue_amount i r a t s = (Ok (r', g), s') ->
  issue_asset r' = issue_asset r /\ issue_amount_ r' + issue_fee_ r' = amount a.
Proof.
  unfold decrease_issue_amount. intros H. do 5 apply bind_ok in H as (? & ? & _ & H).
  apply bind_ok in H as (r1 & s1 & E%set_issue_amount_ok & [[= -> ->] ->]%ret_ok). done.
Qed.

(** More tokens than expected: the request gets at most the surplus. *)
Lemma increase_issue_bound i r a t s r' s' :
  Amount.checked_add (issue_amount r) (issue_fee r) = Ok t -> amount t <= amount a ->
  try_increase_issue_amount i r a t s = (Ok r', s') ->
  issue_asset r' = issue_asset r /\ issue_amount_ r' + issue_fee_ r' <= amount a.
Proof.
  unfold try_increase_issue_amount. intros Ht Hle H.
  apply bind_ok in H as (x & s1 & [Hx ->]%lift_ok & H). apply bind_ok in H as (m & s2 & _ & H).
  apply bind_ok in H as (y & s3 & [Hy ->]%lift_ok & H). apply bind_ok in H as (res & s4 & _ & H).
  destruct (is_ok res).
  - apply bind_ok in H as (z & s5 & [Hz ->]%lift_ok & [Ha Hb]%set_issue_amount_ok). inv_amount.
    split; [done|]. lia.
  - apply ret_ok in H as [-> ->]. inv_amount. cbn in *. split; [done|lia].
Qed.

(** The tokens of the amended request do not exceed the payment. *)
Lemma handle_issue_bound e i r a s r' s' :
  _handle_issue_requests e i r a s = (Ok r', s') ->
  issue_asset r' = issue_asset r /\ issue_amount_ r' + issue_fee_ r' <= amount a.
Proof.
  unfold _handle_issue_requests. cbv zeta. intros H.
  apply bind_ok in H as (t & s1 & [Ht ->]%lift_ok & H).
  assert (Hs : issue_amount_ r + issue_fee_ r = amount t) by (apply checked_add_ok in Ht; cbn in *; lia).
  destruct (issue_status r); [|by apply throw_ok in H|].
  - apply bind_ok in H as (less & s1 & [[_ ->]%lt_ok ->]%lift_ok & H).
    apply bind_ok in H as ([r1 g] & s2 & E & H). apply bind_ok in H as (? & ? & _ & [-> ->]%ret_ok).
    destruct (amount a <? amount t) eqn:Hl.
    + apply bind_ok in E as (? & ? & _ & [? ?]%decrease_issue_bound). split; [done|lia].
    + apply bind_ok in E as (more & s3 & [[_ ->]%gt_ok ->]%lift_ok & E).
      apply bind_ok in E as (b & s4 & _ & E).
      apply bind_ok in E as (r2 & s5 & E & [[= -> ->] ->]%ret_ok).
      destruct (_ && _); [eapply increase_issue_bound in E; [done..|lia]|].
      apply ret_ok in E as [-> ->]. split; [done|lia].
  - do 2 apply bind_ok in H as (? & ? & _ & H). apply bind_ok in H as (? & ? & _ & H).
    apply bind_ok in H as (d & s3 & [Hd ->]%lift_ok & H). unfold Amount.ne in Hd. inv_ok. inv_amount.
    destruct (negb _) eqn:Hn.
    + apply set_issue_amount_ok in H as [? ?]. split; [done|lia].
    + apply ret_ok in H as [-> ->]. split; [done|]. subst. apply negb_false_iff, Z.eqb_eq in Hn. lia.
Qed.

Lemma get_executable_reads i s r s' :
  get_executable_issue_request_from_id i s = (Ok r, s') -> s' = s.
Proof.
  apply (preserves_ok (fun s => s)). unfold get_executable_issue_request_from_id, get_issue_request,
    ensure_accepting_new_issues, get_active_rich_vault_from_id, get_active_vault_from_id,
    get_rich_vault_from_id, get_vault_from_id. solve_frame.
Qed.

(** C2: an executed issue is backed by a payment: the stored request was not
    completed before and is completed now, the transaction carries the
    request's identifier as its memo and was externalized by a quorum of
    validators, and the tokens that come into circulation, for the user and as
    fee together, are at most what the transaction pays to the vault's Stellar
    account.  No other currency changes its supply. *)
Theorem issue_backed_by_payment o i env envs set s s' :
  (forall c, existential_deposit c = 0) -> RegistryInv (registry s) ->
  execute_issue o i env envs set s = (Ok tt, s') ->
  exists r r' tx paid minted,
    issue_store s !! i = Some r /\ issue_status r <> IssueCompleted /\
    issue_store s' !! i = Some r' /\ issue_status r' = IssueCompleted /\
    proven i env envs set s tx /\
    get_amount_from_transaction_envelope tx (issue_stellar_address r) (issue_asset r) = Ok paid /\
    0 <= minted <= amount paid /\
    forall c, total_issuance c (ledger s') =
      total_issuance c (ledger s) + if decide (issue_asset r = c) then minted else 0.
Proof.
  intros Hed I H. unfold execute_issue in H. apply transactional_ok in H.
  apply bind_ok in H as (q & s0 & [_ ->]%lift_ok & H).
  destruct (execute_issue_store _ _ _ _ _ _ _ _ H) as (r0 & x & Hr0 & Hst & Hs').
  unfold _execute_issue in H. cbv zeta in H. apply bind_ok in H as (r & s1 & E & H).
  pose proof (get_executable_reads _ _ _ _ E) as ->.
  destruct (get_executable_ok _ _ _ _ E) as (Hr & _ & _). assert (r0 = r) as -> by congruence.
  apply bind_ok in H as (tx & s1 & [-> Htx]%validate_proven & H).
  apply bind_ok in H as (paid & s1 & [Hpaid ->]%lift_ok & H).
  apply bind_ok in H as (r' & s1 & E1 & H). destruct (handle_issue_bound _ _ _ _ _ _ _ E1) as [Has Hle].
  apply bind_ok in H as (t & s2 & [Ht ->]%lift_ok & H).
  assert (amount t = issue_amount_ r' + issue_fee_ r' /\ currency_id t = issue_asset r /\ 0 <= amount t)
    as (Hat & Hct & Hpos) by (clear - Ht Has; inv_amount; cbn in *; split_and!; [lia|congruence|lia]).
  exists r, (with_issue_status IssueCompleted (set_issue_amounts x (issue_fee_ r) r)), tx, paid, (amount t).
  split_and!; [done|done|by rewrite Hs', lookup_insert_eq|done|done|done|lia|lia|]. intros c.
  assert (Books c (issued_total c (registry s)) (total_issuance c (ledger s)) s) as B by by split_and!.
  eapply maintains_handle_issue in E1; [|done|exact B].
  eapply (shifts_issue_block c (Hed c) _ _ _ _ Ht) in H; [|exact E1]. destruct H as (_ & _ & ->).
  unfold amount_in. by rewrite Hct.
Qed.

End issue.

(** ** Redeem *)

Section redeem.
Context `{RT : Runtime} {L : RuntimeLaws RT}.

(** C3: a redeem is completed only when the redeemer was paid: the request was
    pending, the transaction carries its identifier as memo and was
    externalized by a quorum, it pays at least the requested amount to the
    redeemer's Stellar account, and exactly the redeemed tokens, with the
    transfer fee, leave circulation. *)
Theorem redeem_completed_when_paid o i env envs set s s' :
  (forall c, existential_deposit c = 0) -> RegistryInv (registry s) ->
  execute_redeem o i env envs set s = (Ok tt, s') ->
  exists r tx paid,
    redeem_store s !! i = Some r /\ redeem_status r = RedeemPending /\
    redeem_store s' !! i = Some (with_redeem_status RedeemCompleted r) /\
    proven i env envs set s tx /\
    get_amount_from_transaction_envelope tx (redeem_stellar_address r) (redeem_asset r) = Ok paid /\
    redeem_amount_ r <= amount paid /\
    forall c, total_issuance c (ledger s') =
      total_issuance c (ledger s) -
      if decide (redeem_asset r = c) then redeem_amount_ r + redeem_transfer_fee_ r else 0.
Proof.
  intros Hed I H. unfold execute_redeem in H. apply transactional_ok in H.
  apply bind_ok in H as (q & s0 & [_ ->]%lift_ok & H).
  destruct (execute_redeem_store _ _ _ _ _ _ _ H) as (r0 & Hr0 & Hst & Hs').
  unfold _execute_redeem in H. apply bind_ok in H as (r & s1 & E & H).
  apply get_open_redeem_ok in E as (-> & Hr & _). assert (r0 = r) as -> by congruence. clear Hr0.
  apply bind_ok in H as (tx & s1 & [Htx ->]%lift_ok & H).
  apply bind_ok in H as (es & s1 & [Hes ->]%lift_ok & H).
  apply bind_ok in H as (ts & s1 & [Hts ->]%lift_ok & H).
  apply bind_ok in H as ([] & s1 & [Hm ->]%lift_ok & H).
  apply bind_ok in H as (? & s1 & [-> Hv]%relay_validate_ok & H).
  apply bind_ok in H as (paid & s1 & [Hpaid ->]%lift_ok & H).
  apply bind_ok in H as (b & s1 & [[_ ->]%ge_ok ->]%lift_ok & H).
  apply bind_ok in H as (? & s1 & [Hle ->]%ensure_ok & H).
  apply bind_ok in H as (t & s2 & [Ht ->]%lift_ok & H).
  exists r, tx, paid. cbn in Hle. split_and!; [done|done|by rewrite Hs', lookup_insert_eq| |done|lia|].
  - split_and!; [done| |eauto]. apply obind_ok in Hm as (m & Hm1 & Hm2). by eapply memo_ok.
  - intros c. eapply (shifts_redeem_block c (Hed c) _ _ _ Ht) in H; [|by split_and!].
    destruct H as (_ & _ & ->). unfold amount_in. apply checked_add_ok in Ht as (? & -> & -> & _).
    cbn. goal_decide; lia.
Qed.

End redeem.

(** ** Witnesses *)

#[local] Existing Instance SampleRuntime.

(** The user has asked for tokens and not paid yet; has tokens and asked to redeem some. *)
Definition issue_requested : Chain := run (take 1 issue_calls) with_vault.
Definition redeem_requested : Chain := run (take 1 redeem_calls) with_tokens.
Definition issue_id : H256 := id_of_next with_vault.
Definition redeem_id : H256 := id_of_next with_tokens.
Definition issue_payment : Bytes := 77 :: 100 :: take 28 issue_id.
Definition redeem_payment : Bytes := 88 :: 50 :: take 28 redeem_id.

Lemma reached_inv calls :
  Forall well_typed calls -> succeeds calls sample_genesis = true ->
  RegistryInv (registry (run calls sample_genesis)).
Proof.
  intros Hw Hs. pose proof (run_reaches _ _ Hw Hs) as H.
  eapply (reachable_inv XLM) in H as [(I & _) _];
    [exact I | reflexivity | discriminate | by apply genesis_inv, sample_at_genesis].
Qed.

Lemma run_app `{RT : Runtime} calls calls' s :
  succeeds calls s = true -> run (calls ++ calls') s = run calls' (run calls s).
Proof.
  revert s. induction calls as [|call rest IH]; simpl; intros s H; [done|].
  destruct (dispatch call s) as [[]]; [by apply IH|done..].
Qed.

Lemma requested_inv : RegistryInv (registry issue_requested) /\ RegistryInv (registry redeem_requested).
Proof.
  assert (issue_requested = run (set_up ++ take 1 issue_calls) sample_genesis) as ->
    by (rewrite run_app by (vm_compute; reflexivity); reflexivity).
  assert (redeem_requested = run (set_up ++ issue_calls ++ take 1 redeem_calls) sample_genesis) as ->
    by (rewrite !run_app by (vm_compute; reflexivity); reflexivity).
  split; apply reached_inv; first [by repeat constructor | vm_compute; reflexivity].
Qed.

Lemma issue_backed_by_payment_witness :
  let s' := snd (execute_issue (Ok 2%N) issue_id issue_payment [] issue_payment issue_requested) in
  exists r r' tx paid minted,
    issue_store issue_requested !! issue_id = Some r /\ issue_status r <> IssueCompleted /\
    issue_store s' !! issue_id = Some r' /\ issue_status r' = IssueCompleted /\
    proven issue_id issue_payment [] issue_payment issue_requested tx /\
    get_amount_from_transaction_envelope tx (issue_stellar_address r) (issue_asset r) = Ok paid /\
    0 <= minted <= amount paid /\
    forall c, total_issuance c (ledger s') =
      total_issuance c (ledger issue_requested) + if decide (issue_asset r = c) then minted else 0.
Proof.
  apply (issue_backed_by_payment (RT := SampleRuntime) (Ok 2%N)); [done | apply requested_inv |].
  apply run_ok. vm_compute. reflexivity.
Defined.

Lemma redeem_completed_when_paid_witness :
  let s' := snd (execute_redeem (Ok 1%N) redeem_id redeem_payment [] redeem_payment redeem_requested) in
  exists r tx paid,
    redeem_store redeem_requested !! redeem_id = Some r /\ redeem_status r = RedeemPending /\
    redeem_store s' !! redeem_id = Some (with_redeem_status RedeemCompleted r) /\
    proven redeem_id redeem_payment [] redeem_payment redeem_requested tx /\
    get_amount_from_transaction_envelope tx (redeem_stellar_address r) (redeem_asset r) = Ok paid /\
    redeem_amount_ r <= amount paid /\
    forall c, total_issuance c (ledger s') =
      total_issuance c (ledger redeem_requested) -
      if decide (redeem_asset r = c) then redeem_amount_ r + redeem_transfer_fee_ r else 0.
Proof.
  apply (redeem_completed_when_paid (RT := SampleRuntime) (Ok 1%N)); [done | apply requested_inv |].
  apply run_ok. vm_compute. reflexivity.
Defined.
