(* ===== verification/Horizon.v ===== *)
(** * The vault's wallet: what Horizon lists

    [src/clients/wallet/src]: paging through the transactions of an account
    ([horizon/responses.rs]) and the check whether a transaction was already
    submitted ([resubmissions.rs]).

    HTTP and JSON are parameters: a page of transactions is what the client
    gets for a URL. *)

From S2P Require Import Prelude Primitives.

Abbreviation SequenceNumber := Z (only parsing).
Abbreviation PagingToken := Z (only parsing).

(** A record of a page, with the fields the wallet and the vault read.  The
    decoders of the account, the sequence number and the envelope are part of
    the Stellar SDK and of Rust's parsing: the fields hold their results. *)
Record TransactionResponse := mkResponse {
  paging_token : PagingToken;
  ledger : Z;
  source_account : option PublicKey;
  source_account_sequence : option SequenceNumber;
  to_envelope : option TransactionEnvelope;
  memo_type : string;
  response_memo : option TextMemo;
}.

Definition TYPE_MEMOTEXT : string := "text".

Definition memo_text (self : TransactionResponse) : option TextMemo :=
  if bool_decide (memo_type self = TYPE_MEMOTEXT) then response_memo self else None.

(** ** Paging through transactions *)

Class HorizonClient := {
  (** the records of a page and the URL of the next one *)
  get_from_url : string -> option (list TransactionResponse * string);
}.

Record TransactionsResponseIter := mkIter {
  records : list TransactionResponse;
  next_page : string;
}.

Section paging.
Context `{HC : HorizonClient}.

Definition get_top_record (self : TransactionsResponseIter)
  : option TransactionResponse * TransactionsResponseIter :=
  match records self with
  | [] => (None, self)
  | r :: rest => (Some r, mkIter rest (next_page self))
  end.

(** [None] leaves the iterator as it is. *)
Definition jump_to_next_page (self : TransactionsResponseIter) : option TransactionsResponseIter :=
  match get_from_url (next_page self) with
  | None => None
  | Some (recs, next) => Some (mkIter recs next)
  end.

Definition next (self : TransactionsResponseIter)
  : option TransactionResponse * TransactionsResponseIter :=
  match get_top_record self with
  | (Some record, self) => (Some record, self)
  | (None, self) =>
      match jump_to_next_page self with
      | None => (None, self)
      | Some self => get_top_record self
      end
  end.

Definition next_back (self : TransactionsResponseIter)
  : option TransactionResponse * TransactionsResponseIter :=
  match list.last (records self) with
  | None => (None, self)
  | Some r => (Some r, mkIter (take (length (records self) - 1) (records self)) (next_page self))
  end.

(** [Vec::remove] of the record in the middle. *)
Definition middle (self : TransactionsResponseIter)
  : option TransactionResponse * TransactionsResponseIter :=
  let idx := Nat.div (length (records self)) 2 in
  match records self !! idx with
  | None => (None, self)
  | Some r => (Some r, mkIter (delete idx (records self)) (next_page self))
  end.

Definition remove_last_half_records (self : TransactionsResponseIter) : TransactionsResponseIter :=
  let idx := Nat.div (length (records self)) 2 in
  if (idx =? 0)%nat then self else mkIter (take idx (records self)) (next_page self).

Definition remove_first_half_records (self : TransactionsResponseIter) : TransactionsResponseIter :=
  let idx := Nat.div (length (records self)) 2 in
  if (idx =? 0)%nat then self else mkIter (drop idx (records self)) (next_page self).

(** ** Was the transaction submitted? *)

Definition is_source_account_match (public_key : PublicKey) (tx : TransactionResponse) : bool :=
  match source_account tx with
  | None => false
  | Some source_account => bool_decide (source_account = public_key)
  end.

Definition is_memo_match (tx1 : Transaction) (tx2 : TransactionResponse) : bool :=
  match memo_text tx2 with
  | None => false
  | Some response_memo =>
      match memo tx1 with
      | MemoText tx_memo => bool_decide (response_memo = tx_memo)
      | _ => false
      end
  end.

(** [Result<bool, Option<SequenceNumber>>] *)
Definition _check_transaction_match (tx : Transaction) (tx_resp : TransactionResponse)
    (public_key : PublicKey) : bool + option SequenceNumber :=
  if negb (is_source_account_match public_key tx_resp) then inr None
  else
    match source_account_sequence tx_resp with
    | None => inr None
    | Some source_account_sequence =>
        if seq_num tx =? source_account_sequence then inl (is_memo_match tx tx_resp)
        else inr (Some source_account_sequence)
    end.

Definition check_middle_transaction_match (iter : TransactionsResponseIter) (tx : Transaction)
    (public_key : PublicKey) : option bool * TransactionsResponseIter :=
  match middle iter with
  | (None, iter) => (None, iter)
  | (Some response, iter) =>
      match _check_transaction_match tx response public_key with
      | inl res => (Some res, iter)
      | inr (Some source_account_sequence) =>
          (None, if source_account_sequence <? seq_num tx then remove_last_half_records iter
                 else remove_first_half_records iter)
      | inr None => (None, iter)
      end
  end.

Definition check_last_transaction_match (iter : TransactionsResponseIter) (tx : Transaction)
    (public_key : PublicKey) : option bool * TransactionsResponseIter :=
  match next_back iter with
  | (None, iter) => (None, iter)
  | (Some response, iter) =>
      match _check_transaction_match tx response public_key with
      | inl res => (Some res, iter)
      | inr (Some source_account_sequence) =>
          if seq_num tx <? source_account_sequence then
            match jump_to_next_page iter with
            | None => (Some false, iter)
            | Some iter => (None, iter)
            end
          else (None, iter)
      | inr None => (None, iter)
      end
  end.

(** The loop of [is_transaction_already_submitted]; [None] when out of fuel. *)
Fixpoint search (fuel : nat) (iter : TransactionsResponseIter) (tx : Transaction)
    (own_public_key : PublicKey) : option bool :=
  match fuel with
  | O => None
  | S fuel =>
      match next iter with
      | (None, _) => Some false
      | (Some response, iter) =>
          match _check_transaction_match tx response own_public_key with
          | inl res => Some res
          | inr None => search fuel iter tx own_public_key
          | inr (Some top_sequence_num) =>
              if top_sequence_num <? seq_num tx then Some false
              else
                match check_middle_transaction_match iter tx own_public_key with
                | (Some result, _) => Some result
                | (None, iter) =>
                    match check_last_transaction_match iter tx own_public_key with
                    | (Some result, _) => Some result
                    | (None, iter) => search fuel iter tx own_public_key
                    end
                end
          end
      end
  end.

(** [get_all_transactions_iter] starts at the page of the latest transactions;
    without it the answer is that nothing was submitted. *)
Definition is_transaction_already_submitted (fuel : nat) (first_page : string) (tx : Transaction)
    (own_public_key : PublicKey) : option bool :=
  match get_from_url first_page with
  | None => Some false
  | Some (recs, next) => search fuel (mkIter recs next) tx own_public_key
  end.

(** *** What an iterator can still return *)

Fixpoint pages (n : nat) (url : string) : list TransactionResponse :=
  match n with
  | O => []
  | S n => match get_from_url url with None => [] | Some (recs, next) => recs ++ pages n next end
  end.

Definition visible (it : TransactionsResponseIter) (r : TransactionResponse) : Prop :=
  r ∈ records it \/ exists n, r ∈ pages n (next_page it).

(** The pages behind a URL have at most [b] records in all. *)
Definition at_most (url : string) (b : nat) : Prop := forall n, (length (pages n url) <= b)%nat.

(** [it'] is what is left of [it]: nothing new, and a smaller bound. *)
Record shrinks (it it' : TransactionsResponseIter) : Prop := {
  shrinks_visible : forall r, visible it' r -> visible it r;
  shrinks_bound : forall b, at_most (next_page it) b ->
    exists b', at_most (next_page it') b' /\
      (length (records it') + b' <= length (records it) + b)%nat;
}.

Lemma shrinks_refl it : shrinks it it.
Proof. split; [done|]. intros b Hb. by exists b. Qed.

Lemma shrinks_trans it1 it2 it3 : shrinks it1 it2 -> shrinks it2 it3 -> shrinks it1 it3.
Proof.
  intros [V1 B1] [V2 B2]. split; [auto|]. intros b Hb. destruct (B1 b Hb) as (b1 & Hb1 & ?).
  destruct (B2 b1 Hb1) as (b2 & Hb2 & ?). exists b2. split; [done|lia].
Qed.

Lemma shrinks_records it recs :
  recs ⊆ records it -> (length recs <= length (records it))%nat -> shrinks it (mkIter recs (next_page it)).
Proof.
  intros Hs Hl. split.
  - intros r [Hr|Hr]; [left; by apply Hs|by right].
  - intros b Hb. exists b. split; [done|simpl; lia].
Qed.

Lemma jump_shrinks it it' : jump_to_next_page it = Some it' -> shrinks it it'.
Proof.
  unfold jump_to_next_page. destruct (get_from_url (next_page it)) as [[recs next]|] eqn:E; [|done].
  intros [= <-]. split.
  - intros r [Hr|[n Hr]]; right; [exists 1%nat|exists (S n)]; simpl; rewrite E; apply elem_of_app; auto.
  - intros b Hb. exists (b - length recs)%nat. simpl. split.
    + intros n. specialize (Hb (S n)). simpl in Hb. rewrite E, length_app in Hb. lia.
    + specialize (Hb 1%nat). simpl in Hb. rewrite E, length_app in Hb. simpl in Hb. lia.
Qed.

Lemma top_shrinks it r it' :
  get_top_record it = (Some r, it') ->
  visible it r /\ shrinks it it' /\ length (records it) = S (length (records it')) /\ next_page it' = next_page it.
Proof.
  unfold get_top_record. destruct it as [[|x recs] np]; [done|]. simpl. intros [= <- <-].
  split_and!; try done; [left; by left|]. apply (shrinks_records (mkIter (x :: recs) np)); [by intros ? ?; right|simpl; lia].
Qed.

(** A record that [next] returns is gone from what is left. *)
Lemma next_shrinks it r it' b :
  next it = (Some r, it') -> at_most (next_page it) b ->
  visible it r /\ shrinks it it' /\
  exists b', at_most (next_page it') b' /\ (length (records it') + b' < length (records it) + b)%nat.
Proof.
  unfold next. destruct (get_top_record it) as [[x|] it1] eqn:E1.
  - intros [= <- <-] Hb. destruct (top_shrinks _ _ _ E1) as (? & ? & Hl & Hn). split_and!; try done.
    exists b. rewrite Hn. split; [done|lia].
  - assert (it1 = it) as -> by (unfold get_top_record in E1; destruct (records it); congruence).
    destruct (jump_to_next_page it) as [it2|] eqn:E2; [|done]. intros E3 Hb.
    destruct (jump_shrinks _ _ E2) as [V B], (top_shrinks _ _ _ E3) as (? & ? & Hl & Hn).
    destruct (B b Hb) as (b' & Hb' & ?). split_and!; [auto|by eapply shrinks_trans|].
    exists b'. rewrite Hn. split; [done|lia].
Qed.

Lemma half_shrinks it : shrinks it (remove_last_half_records it) /\ shrinks it (remove_first_half_records it).
Proof.
  unfold remove_last_half_records, remove_first_half_records. destruct (_ =? 0)%nat; [by split; apply shrinks_refl|].
  split; apply shrinks_records; [apply subseteq_take|rewrite length_take; lia|apply subseteq_drop|rewrite length_drop; lia].
Qed.

Lemma middle_shrinks it o it' :
  middle it = (o, it') -> shrinks it it' /\ forall r, o = Some r -> visible it r.
Proof.
  unfold middle. destruct (records it !! _) as [r|] eqn:E; intros [= <- <-]; (split; [|intros ? [= ?]; subst]).
  - rewrite delete_take_drop. apply shrinks_records.
    + intros x [Hx|Hx]%elem_of_app; [by eapply subseteq_take|by eapply subseteq_drop].
    + rewrite length_app, length_take, length_drop. lia.
  - left. by eapply list_elem_of_lookup_2.
  - apply shrinks_refl.
Qed.

Lemma next_back_shrinks it o it' :
  next_back it = (o, it') -> shrinks it it' /\ forall r, o = Some r -> visible it r.
Proof.
  unfold next_back. destruct (list.last (records it)) as [r|] eqn:E; intros [= <- <-]; (split; [|intros ? [= ?]; subst]).
  - apply shrinks_records; [apply subseteq_take|rewrite length_take; lia].
  - left. rewrite last_lookup in E. by eapply list_elem_of_lookup_2.
  - apply shrinks_refl.
Qed.

(** The record shows that [tx] was submitted by the account. *)
Definition submitted_as (tx : Transaction) (pk : PublicKey) (r : TransactionResponse) : Prop :=
  source_account r = Some pk /\ source_account_sequence r = Some (seq_num tx) /\
  exists text, memo tx = MemoText text /\ memo_text r = Some text.

Lemma match_submitted tx r pk : _check_transaction_match tx r pk = inl true -> submitted_as tx pk r.
Proof.
  unfold _check_transaction_match, is_source_account_match, is_memo_match, submitted_as.
  destruct (source_account r) as [a|]; [|done]. case_bool_decide as Ha; [subst a|done]. simpl.
  destruct (source_account_sequence r) as [q|]; [|done]. destruct (Z.eqb_spec (seq_num tx) q) as [<-|]; [|done].
  intros [= H]. destruct (memo_text r) as [m|]; [|done]. destruct (memo tx) as [x|]; [|done].
  apply bool_decide_eq_true in H as ->. eauto.
Qed.

Lemma check_middle_shrinks it tx pk o it' :
  check_middle_transaction_match it tx pk = (o, it') ->
  shrinks it it' /\ (o = Some true -> exists r, visible it r /\ submitted_as tx pk r).
Proof.
  unfold check_middle_transaction_match. destruct (middle it) as [o1 it1] eqn:E.
  destruct (middle_shrinks _ _ _ E) as [S V]. destruct o1 as [r|]; [|by intros [= <- <-]].
  destruct (_check_transaction_match tx r pk) as [[]|[q|]] eqn:Em; intros [= <- <-]; (split; [|try done]); try done.
  - intros _. exists r. split; [by apply V|by apply match_submitted].
  - eapply shrinks_trans; [exact S|]. destruct (half_shrinks it1). by destruct (q <? seq_num tx).
Qed.

Lemma check_last_shrinks it tx pk o it' :
  check_last_transaction_match it tx pk = (o, it') ->
  shrinks it it' /\ (o = Some true -> exists r, visible it r /\ submitted_as tx pk r).
Proof.
  unfold check_last_transaction_match. destruct (next_back it) as [o1 it1] eqn:E.
  destruct (next_back_shrinks _ _ _ E) as [S V]. destruct o1 as [r|]; [|by intros [= <- <-]].
  destruct (_check_transaction_match tx r pk) as [[]|[q|]] eqn:Em; try (intros [= <- <-]; split; done).
  - intros [= <- <-]. split; [done|]. intros _. exists r. split; [by apply V|by apply match_submitted].
  - destruct (seq_num tx <? q); [|by intros [= <- <-]].
    destruct (jump_to_next_page it1) as [it2|] eqn:Ej; intros [= <- <-]; (split; [|done]); [|done].
    by eapply shrinks_trans, jump_shrinks.
Qed.

(** The search ends once it has seen every record. *)
Lemma search_enough_fuel fuel it tx pk b :
  at_most (next_page it) b -> (length (records it) + b < fuel)%nat -> exists res, search fuel it tx pk = Some res.
Proof.
  revert it b. induction fuel as [|fuel IH]; intros it b Hb Hf; [lia|]. simpl.
  destruct (next it) as [[r|] it1] eqn:En; [|by eexists].
  destruct (next_shrinks _ _ _ _ En Hb) as (_ & _ & b1 & Hb1 & Hlt).
  destruct (_check_transaction_match tx r pk) as [res|[q|]]; [by eexists| |by eapply IH; [exact Hb1|lia]].
  destruct (q <? seq_num tx); [by eexists|].
  destruct (check_middle_transaction_match it1 tx pk) as [[res|] it2] eqn:Em; [by eexists|].
  destruct (check_last_transaction_match it2 tx pk) as [[res|] it3] eqn:El; [by eexists|].
  apply check_middle_shrinks in Em as [Sm _]. apply check_last_shrinks in El as [Sl _].
  destruct (shrinks_bound _ _ (shrinks_trans _ _ _ Sm Sl) b1 Hb1) as (b3 & Hb3 & ?).
  by eapply IH; [exact Hb3|lia].
Qed.

(** A positive answer is right. *)
Lemma search_sound fuel it tx pk b :
  at_most (next_page it) b -> search fuel it tx pk = Some true -> exists r, visible it r /\ submitted_as tx pk r.
Proof.
  revert it b. induction fuel as [|fuel IH]; intros it b Hb; [done|]. simpl.
  destruct (next it) as [[r|] it1] eqn:En; [|done].
  destruct (next_shrinks _ _ _ _ En Hb) as (Hr & [V _] & b1 & Hb1 & _).
  assert (Hrec : forall it', shrinks it1 it' -> search fuel it' tx pk = Some true -> exists r, visible it r /\ submitted_as tx pk r).
  { intros it' Hs H. destruct (shrinks_bound _ _ Hs b1 Hb1) as (b' & Hb' & _).
    destruct (IH it' b' Hb' H) as (x & Hx & ?). exists x. split; [|done]. by apply V, (shrinks_visible _ _ Hs). }
  destruct (_check_transaction_match tx r pk) as [res|[q|]] eqn:Ec; [|destruct (q <? seq_num tx); [done|]|].
  - intros [= ->]. exists r. split; [done|by apply match_submitted].
  - destruct (check_middle_transaction_match it1 tx pk) as [o2 it2] eqn:Em. apply check_middle_shrinks in Em as [Sm Hm].
    destruct o2 as [res|]; [intros [= ->]; destruct (Hm eq_refl) as (x & Hx & ?); eauto|].
    destruct (check_last_transaction_match it2 tx pk) as [o3 it3] eqn:El. apply check_last_shrinks in El as [Sl Hl].
    destruct o3 as [res|].
    + intros [= ->]. destruct (Hl eq_refl) as (x & Hx & ?). exists x. split; [|done]. by apply V, (shrinks_visible _ _ Sm).
    + apply Hrec. by eapply shrinks_trans.
  - apply Hrec, shrinks_refl.
Qed.

End paging.

(** ** Properties *)

(** The check whether a transaction was submitted always answers, after at
    most one round per record the pages have, and when it says yes there is a
    record of the account with the transaction's sequence number and memo. *)
Theorem submission_check_answers `{HC : HorizonClient} fuel first_page tx pk b :
  at_most first_page b -> (b < fuel)%nat ->
  exists res, is_transaction_already_submitted fuel first_page tx pk = Some res /\
    (res = true -> exists n r, r ∈ pages n first_page /\ submitted_as tx pk r).
Proof.
  intros Hb Hf. unfold is_transaction_already_submitted.
  destruct (get_from_url first_page) as [[recs nxt]|] eqn:E; [|by eexists].
  assert (Hb' : at_most nxt (b - length recs)).
  { intros n. specialize (Hb (S n)). simpl in Hb. rewrite E, length_app in Hb. lia. }
  assert (length recs <= b)%nat by (specialize (Hb 1%nat); simpl in Hb; rewrite E, length_app in Hb; lia).
  destruct (search_enough_fuel fuel (mkIter recs nxt) tx pk _ Hb') as [res Hres]; [simpl; lia|].
  exists res. split; [done|]. intros ->. destruct (search_sound _ (mkIter recs nxt) tx pk _ Hb' Hres) as (r & [Hr|[n Hr]] & Hs).
  - exists 1%nat, r. split; [|done]. simpl. rewrite E. apply elem_of_app. by left.
  - exists (S n), r. split; [|done]. simpl. rewrite E. apply elem_of_app. by right.
Qed.

(** A history of one page: the account's transactions with these sequence
    numbers, the latest first. *)
Definition own_key : PublicKey := PublicKeyTypeEd25519 [1].
Definition payment_tx (seq : Z) : Transaction :=
  mkTransaction [Payment (KeyTypeEd25519 [2]) AssetTypeNative 10000000] (MemoText [seq]) seq 100.
Definition record_of (seq : Z) : TransactionResponse :=
  mkResponse seq seq (Some own_key) (Some seq) (Some (EnvelopeTypeTx (payment_tx seq))) "text" (Some [seq]).
Definition one_page (seqs : list Z) : HorizonClient :=
  {| get_from_url url := if bool_decide (url = "first"%string) then Some (map record_of seqs, "end"%string)
                         else Some ([], "end"%string) |}.

Lemma one_page_length seqs n url : (length (pages (HC := one_page seqs) n url) <= length seqs)%nat.
Proof.
  assert (Hend : forall n, pages (HC := one_page seqs) n "end" = []).
  { intros m. induction m as [|m IH]; simpl; [done|]. exact IH. }
  destruct n as [|n]; simpl; [lia|]. case_bool_decide; rewrite Hend; [|simpl; lia].
  rewrite app_nil_r, length_map. lia.
Qed.

Lemma submission_check_answers_witness :
  exists n r, r ∈ pages (HC := one_page [4; 3; 2; 1]) n "first" /\ submitted_as (payment_tx 2) own_key r.
Proof.
  destruct (submission_check_answers (HC := one_page [4; 3; 2; 1]) 5 "first" (payment_tx 2) own_key 4) as (res & E & H).
  - intros n. apply one_page_length.
  - lia.
  - apply H. vm_compute in E. congruence.
Defined.

(** The check misses transactions that were submitted: with five
    transactions of the account on the first page, in order, it finds the one
    before the middle neither there nor afterwards, because halving the list
    after the middle record was taken out drops that record. *)
Theorem submitted_transaction_missed :
  let client := one_page [5; 4; 3; 2; 1] in
  record_of 3 ∈ pages (HC := client) 1 "first" /\ submitted_as (payment_tx 3) own_key (record_of 3) /\
  forall fuel, (5 < fuel)%nat ->
    is_transaction_already_submitted (HC := client) fuel "first" (payment_tx 3) own_key = Some false.
Proof.
  split_and!.
  - simpl. by right; right; left.
  - split_and!; [done..|]. by exists [3].
  - intros fuel Hf. do 6 (destruct fuel as [|fuel]; [lia|]). by vm_compute.
Qed.
