(* ===== verification/Wallet.v ===== *)
(** * The vault's wallet: payments, submission and resubmission

    [src/clients/wallet/src]: the operation that pays a request
    ([operations.rs]), submission with retries ([horizon/horizon.rs]), the
    cache of envelopes under submission ([cache.rs], [stellar_wallet.rs]) and
    what happens to envelopes that failed ([resubmissions.rs]).

    Horizon's answers, signing and the operation constructors of the Stellar SDK
    are the class [Network]. *)

From S2P Require Import Prelude Primitives Horizon.

(** ** Errors: [error.rs] *)

Record HttpError := mkHttpError { is_timeout : bool; http_status : option Z }.

Inductive CacheErrorKind :=
  UnknownSequenceNumber | SequenceNumberAlreadyUsed | CreateDirectoryFailed | FileCreationFailed
| WriteToFileFailed | DeleteFileFailed | FileDoesNotExist | ReadFileFailed | InvalidFile
| DecodeFileFailed.

(** [envelope_xdr] is absent, or present and maybe not decodable. *)
Inductive WalletError :=
| HorizonResponseError (error : option HttpError) (status : option Z)
| HorizonSubmissionError (status : Z) (reason : string)
    (envelope_xdr : option (option TransactionEnvelope))
| CacheError (kind : CacheErrorKind) (envelope : option TransactionEnvelope)
| DecodeError
| SignEnvelopeError
| BuildTransactionError
| SelfPaymentError
| ResubmissionError (message : string).

Definition is_recoverable (e : WalletError) : bool :=
  match e with
  | HorizonResponseError error status =>
      match error with Some e => is_timeout e | None => false end || bool_decide (status = Some 403)
  | HorizonSubmissionError status _ _ => status =? 504
  | CacheError kind _ =>
      match kind with
      | CreateDirectoryFailed | FileCreationFailed | WriteToFileFailed | DeleteFileFailed
      | FileDoesNotExist => true
      | _ => false
      end
  | _ => false
  end.

(** [500u16..599] *)
Definition server_errors (status : Z) : bool := (500 <=? status) && (status <? 599).

Definition is_server_error (e : WalletError) : bool :=
  match e with
  | HorizonResponseError (Some e) _ =>
      match http_status e with Some code => server_errors code | None => false end
  | HorizonResponseError None (Some status) => server_errors status
  | HorizonSubmissionError status _ _ => server_errors status
  | _ => false
  end.

(** What Horizon says about an account. *)
Inductive AccountAnswer :=
| Account (balances : list (option StellarAsset)) (sequence : SequenceNumber)
| AccountError (e : WalletError).

Class Network := {
  network_client :: HorizonClient;
  (** the first page of the account's transactions, latest first *)
  all_transactions_page : string;
  get_account : PublicKey -> AccountAnswer;
  (** the answer to the [n]-th attempt, at the fallback server or not *)
  post : nat -> bool -> TransactionEnvelope -> TransactionResponse + WalletError;
  sign : TransactionEnvelope -> bool;
  new_payment : PublicKey -> StellarAsset -> Z -> option OperationBody;
  set_source_account : OperationBody -> PublicKey -> option OperationBody;
  new_claimant : PublicKey -> ClaimPredicate -> option Claimant;
  new_create_claimable_balance : StellarAsset -> Z -> list Claimant -> option OperationBody;
  new_create_account : PublicKey -> Z -> option OperationBody;
  (** source account, sequence number, fee per operation and text memo *)
  new_transaction : PublicKey -> SequenceNumber -> Z -> TextMemo -> option Transaction;
  append_operation : Transaction -> OperationBody -> option Transaction;
}.

(** What the constructors of operations build when they build something. *)
Class NetworkLaws (N : Network) := {
  new_payment_body key asset amount op :
    new_payment (PublicKeyTypeEd25519 key) asset amount = Some op -> op = Payment (KeyTypeEd25519 key) asset amount;
  set_source_account_body op source op' : set_source_account op source = Some op' -> op' = op;
  new_claimant_fields key p c : new_claimant key p = Some c -> c = mkClaimant key p;
  new_claimable_body asset amount claimants op :
    new_create_claimable_balance asset amount claimants = Some op ->
    op = CreateClaimableBalance asset amount claimants;
  new_account_body key amount op : new_create_account key amount = Some op -> op = CreateAccount key amount;
  new_transaction_fields key seq f text tx :
    new_transaction key seq f text = Some tx -> operations tx = [] /\ memo tx = MemoText text /\ seq_num tx = seq;
  append_operation_fields tx op tx' :
    append_operation tx op = Some tx' ->
    operations tx' = operations tx ++ [op] /\ memo tx' = memo tx /\ seq_num tx' = seq_num tx;
}.

Section operations.
Context `{N : Network}.

(** ** Operations *)

Definition is_trustline_exist (balances : list (option StellarAsset)) (asset : StellarAsset) : bool :=
  List.existsb (fun balance_asset => bool_decide (balance_asset = Some asset)) balances.

Definition create_payment_operation (destination_address : PublicKey) (asset : StellarAsset)
    (stroop_amount : Z) (source_address : PublicKey) : OperationBody + WalletError :=
  match op ← new_payment destination_address asset stroop_amount; set_source_account op source_address with
  | Some op => inl op
  | None => inr BuildTransactionError
  end.

Definition create_unconditional_claimable_balance_operation (destination_address : PublicKey)
    (asset : StellarAsset) (amount : Z) : OperationBody + WalletError :=
  match claimant ← new_claimant destination_address ClaimPredicateUnconditional;
        new_create_claimable_balance asset amount [claimant] with
  | Some op => inl op
  | None => inr BuildTransactionError
  end.

Definition create_account_operation (destination_address : PublicKey) (starting_stroop_amount : Z)
  : OperationBody + WalletError :=
  match new_create_account destination_address starting_stroop_amount with
  | Some op => inl op
  | None => inr BuildTransactionError
  end.

(** [DefaultDecimalsLookup::one(StellarNative)] *)
Definition one_xlm : Balance := 10 ^ 12.

Definition create_payment_op_for_redeem_request (source_address destination_address : PublicKey)
    (to_be_redeemed_asset : StellarAsset) (to_be_redeemed_amount : Z) : OperationBody + WalletError :=
  let claimable_balance_operation :=
    create_unconditional_claimable_balance_operation destination_address to_be_redeemed_asset
      to_be_redeemed_amount in
  match get_account destination_address with
  | Account balances _ =>
      if is_trustline_exist balances to_be_redeemed_asset
      then create_payment_operation destination_address to_be_redeemed_asset to_be_redeemed_amount
             source_address
      else claimable_balance_operation
  | AccountError (HorizonSubmissionError status reason envelope_xdr) =>
      if status =? 404 then
        let to_be_redeemed_amount_u128 := stellar_stroops_to_u128 to_be_redeemed_amount in
        if bool_decide (to_be_redeemed_asset = AssetTypeNative)
           && (one_xlm <=? to_be_redeemed_amount_u128)
        then create_account_operation destination_address to_be_redeemed_amount
        else claimable_balance_operation
      else inr (HorizonSubmissionError status reason envelope_xdr)
  | AccountError e => inr e
  end.

(** ** Submission *)

Definition BASE_BACKOFF_DELAY_IN_SECS : Z := 10.

(** One attempt of [submit_transaction]: whether it went to the fallback server
    and how long the pause after it was. *)
Record Attempt := mkAttempt { fallback : bool; pause : Z }.

(** The loop of [HorizonClient::submit_transaction].  [None] when the answers so
    far were all worth a retry. *)
Fixpoint submit_loop (fuel n : nat) (max_retries max_backoff_delay_in_secs : Z)
    (server_error_count backoff_delay_counter : Z) (envelope : TransactionEnvelope)
  : option (TransactionResponse + WalletError) * list Attempt :=
  match fuel with
  | O => (None, [])
  | S fuel =>
      let need_fallback := server_error_count =? max_retries in
      let server_error_count := if need_fallback then 0 else server_error_count in
      match post n need_fallback envelope with
      | inl response => (Some (inl response), [mkAttempt need_fallback 0])
      | inr e =>
          if is_recoverable e || is_server_error e then
            let server_error_count :=
              if is_server_error e then server_error_count + 1 else server_error_count in
            let sleep_duration := backoff_delay_counter * BASE_BACKOFF_DELAY_IN_SECS in
            let backoff_delay_counter :=
              if sleep_duration <? max_backoff_delay_in_secs then backoff_delay_counter + 1
              else backoff_delay_counter in
            let '(res, attempts) :=
              submit_loop fuel (S n) max_retries max_backoff_delay_in_secs server_error_count
                backoff_delay_counter envelope in
            (res, mkAttempt need_fallback sleep_duration :: attempts)
          else
            (Some (inr match e with
                       | HorizonSubmissionError status reason None =>
                           HorizonSubmissionError status reason (Some (Some envelope))
                       | e => e
                       end), [mkAttempt need_fallback 0])
      end
  end.

Definition client_submit_transaction (fuel : nat) (envelope : TransactionEnvelope)
    (max_retries max_backoff_delay_in_secs : Z)
  : option (TransactionResponse + WalletError) * list Attempt :=
  submit_loop fuel 0 max_retries max_backoff_delay_in_secs 0 1 envelope.

End operations.

(** ** The wallet *)

(** The directory of envelopes under submission, by sequence number, and what
    went out to Horizon, the latest last. *)
Record Wallet := mkWallet {
  tx_envelopes : gmap SequenceNumber TransactionEnvelope;
  posted : list TransactionEnvelope;
}.

Section wallet.
Context `{N : Network} (public_key : PublicKey) (fuel : nat).

Definition DEFAULT_MAX_RETRY_ATTEMPTS_BEFORE_FALLBACK : Z := 3.
Definition DEFAULT_MAX_BACKOFF_DELAY_IN_SECS : Z := 60.
Definition MAXIMUM_TX_FEE : Z := 10000000.

(** An existing file of the sequence number is kept. *)
Definition save_tx_envelope (envelope : TransactionEnvelope) (w : Wallet) : Wallet :=
  match sequence_number envelope with
  | None => w
  | Some sequence =>
      match tx_envelopes w !! sequence with
      | Some _ => w
      | None => mkWallet (<[sequence := envelope]> (tx_envelopes w)) (posted w)
      end
  end.

Definition remove_tx_envelope_from_cache (envelope : TransactionEnvelope) (w : Wallet) : Wallet :=
  match sequence_number envelope with
  | Some sequence => mkWallet (delete sequence (tx_envelopes w)) (posted w)
  | None => w
  end.

(** The result is [None] while the client is still retrying. *)
Definition submit_transaction (envelope : TransactionEnvelope) (w : Wallet)
  : option (TransactionResponse + WalletError) * Wallet :=
  let w := save_tx_envelope envelope w in
  let '(submission_result, _) :=
    client_submit_transaction fuel envelope DEFAULT_MAX_RETRY_ATTEMPTS_BEFORE_FALLBACK
      DEFAULT_MAX_BACKOFF_DELAY_IN_SECS in
  let w := mkWallet (tx_envelopes w) (posted w ++ [envelope]) in
  match submission_result with
  | None => (None, w)
  | Some res => (Some res, remove_tx_envelope_from_cache envelope w)
  end.

Definition create_and_sign_envelope (tx : Transaction) : TransactionEnvelope + WalletError :=
  let envelope := EnvelopeTypeTx tx in
  if sign envelope then inl envelope else inr SignEnvelopeError.

Definition with_seq_num (seq : SequenceNumber) (tx : Transaction) : Transaction :=
  mkTransaction (operations tx) (memo tx) seq (fee tx).
Definition with_fee (f : Z) (tx : Transaction) : Transaction :=
  mkTransaction (operations tx) (memo tx) (seq_num tx) f.

Definition bump_sequence_number_and_submit (tx : Transaction) (w : Wallet)
  : option (TransactionResponse + WalletError) * Wallet :=
  match get_account public_key with
  | AccountError e => (Some (inr e), w)
  | Account _ sequence_number =>
      match create_and_sign_envelope (with_seq_num (sequence_number + 1) tx) with
      | inr e => (Some (inr e), w)
      | inl envelope => submit_transaction envelope w
      end
  end.

(** Submit [tx] with a new sequence number unless it was already submitted. *)
Definition already_submitted (tx : Transaction) : option bool :=
  is_transaction_already_submitted fuel all_transactions_page tx public_key.

Definition handle_tx_bad_seq_error_with_envelope (tx_envelope : TransactionEnvelope) (w : Wallet)
  : option (TransactionResponse + WalletError) * Wallet :=
  match get_transaction tx_envelope with
  | None => (Some (inr DecodeError), w)
  | Some tx =>
      match already_submitted tx with
      | None => (None, w)
      | Some false =>
          bump_sequence_number_and_submit tx (remove_tx_envelope_from_cache tx_envelope w)
      | Some true => (Some (inr (ResubmissionError "Transaction already submitted")), w)
      end
  end.

(** The product is a [u32]. *)
Definition bumped_fee (f : Z) : Z :=
  let f := f * 10 mod 2 ^ 32 in if MAXIMUM_TX_FEE <? f then MAXIMUM_TX_FEE else f.

Definition handle_tx_insufficient_fee_error (tx_envelope : TransactionEnvelope) (w : Wallet)
  : option (TransactionResponse + WalletError) * Wallet :=
  match get_transaction tx_envelope with
  | None => (Some (inr DecodeError), w)
  | Some tx =>
      match already_submitted tx with
      | None => (None, w)
      | Some false =>
          bump_sequence_number_and_submit (with_fee (bumped_fee (fee tx)) tx)
            (remove_tx_envelope_from_cache tx_envelope w)
      | Some true => (Some (inr (ResubmissionError "Transaction already submitted")), w)
      end
  end.

Definition handle_tx_internal_error (envelope : TransactionEnvelope) (w : Wallet)
  : option (TransactionResponse + WalletError) * Wallet :=
  if sign envelope then submit_transaction envelope w else (Some (inr SignEnvelopeError), w).

Definition decode_to_envelope (envelope_xdr : option (option TransactionEnvelope))
  : TransactionEnvelope + WalletError :=
  match envelope_xdr with
  | None => inr (ResubmissionError "no envelope_xdr")
  | Some None => inr DecodeError
  | Some (Some envelope) => inl envelope
  end.

(** [Ok(Some(response))], [Ok(None)] for an error that cannot be resubmitted, or
    a new error. *)
Inductive Handled := Resubmitted (response : TransactionResponse) | GivenUp | NewError (e : WalletError).

Definition to_handled (r : TransactionResponse + WalletError) : Handled :=
  match r with inl response => Resubmitted response | inr e => NewError e end.

Definition with_envelope (envelope_xdr : option (option TransactionEnvelope))
    (k : TransactionEnvelope -> Wallet -> option (TransactionResponse + WalletError) * Wallet)
    (w : Wallet) : option Handled * Wallet :=
  match decode_to_envelope envelope_xdr with
  | inr e => (Some (NewError e), w)
  | inl envelope => let '(r, w) := k envelope w in (option_map to_handled r, w)
  end.

Definition handle_error (error : WalletError) (w : Wallet) : option Handled * Wallet :=
  match error with
  | HorizonSubmissionError _ reason envelope_xdr =>
      if bool_decide (reason = "tx_bad_seq"%string) then
        with_envelope envelope_xdr handle_tx_bad_seq_error_with_envelope w
      else if bool_decide (reason = "tx_internal_error"%string) then
        with_envelope envelope_xdr handle_tx_internal_error w
      else if bool_decide (reason = "tx_insufficient_fee"%string) then
        with_envelope envelope_xdr handle_tx_insufficient_fee_error w
      else
        (Some GivenUp,
         match decode_to_envelope envelope_xdr with
         | inl env => remove_tx_envelope_from_cache env w
         | inr _ => w
         end)
  | CacheError SequenceNumberAlreadyUsed (Some transaction_envelope) =>
      let '(r, w) := handle_tx_bad_seq_error_with_envelope transaction_envelope w in
      (option_map to_handled r, w)
  | _ => (Some GivenUp, w)
  end.

(** ** Sending a payment *)

Definition DEFAULT_STROOP_FEE_PER_OPERATION : Z := 100000.

Fixpoint append_multiple (tx : Transaction) (items : list OperationBody) : option Transaction :=
  match items with
  | [] => Some tx
  | operation :: items => tx ← append_operation tx operation; append_multiple tx items
  end.

Definition create_envelope (to_base58 : Bytes -> Bytes) (request_id : H256)
    (stroop_fee_per_operation : Z) (next_sequence_number : SequenceNumber)
    (ops : list OperationBody) : outcome (TransactionEnvelope + WalletError) :=
  let? memo_text := derive_shortened_request_id to_base58 request_id in
  Ok match transaction ← new_transaction public_key next_sequence_number stroop_fee_per_operation
                          memo_text;
           append_multiple transaction ops with
     | None => inr BuildTransactionError
     | Some transaction => create_and_sign_envelope transaction
     end.

Definition send_to_address (to_base58 : Bytes -> Bytes) (fee_stat : option Z) (request_id : H256)
    (ops : list OperationBody) (w : Wallet)
  : outcome (option (TransactionResponse + WalletError) * Wallet) :=
  let stroop_fee_per_operation := default DEFAULT_STROOP_FEE_PER_OPERATION fee_stat in
  match get_account public_key with
  | AccountError e => Ok (Some (inr e), w)
  | Account _ sequence =>
      let next_sequence_number := sequence + 1 in
      let? created := create_envelope to_base58 request_id stroop_fee_per_operation
                        next_sequence_number ops in
      Ok match created with
         | inr e => (Some (inr e), w)
         | inl envelope => submit_transaction envelope w
         end
  end.

Definition send_payment_to_address (to_base58 : Bytes -> Bytes) (fee_stat : option Z)
    (destination_address : PublicKey) (asset : StellarAsset) (stroop_amount : Z) (request_id : H256)
    (is_payment_for_redeem_request : bool) (w : Wallet)
  : outcome (option (TransactionResponse + WalletError) * Wallet) :=
  if bool_decide (public_key = destination_address) then Ok (Some (inr SelfPaymentError), w)
  else
    let payment_op :=
      if is_payment_for_redeem_request
      then create_payment_op_for_redeem_request public_key destination_address asset stroop_amount
      else create_payment_operation destination_address asset stroop_amount public_key in
    match payment_op with
    | inr e => Ok (Some (inr e), w)
    | inl op => send_to_address to_base58 fee_stat request_id [op] w
    end.

End wallet.

(** ** What a payment counts for *)

Section counted.
Context `{N : Network} {L : NetworkLaws N}.

Definition paying (tx : Transaction) (op : OperationBody) : Prop := operations tx = [op].

Lemma payment_op_inv key asset amount source op :
  create_payment_operation (PublicKeyTypeEd25519 key) asset amount source = inl op ->
  op = Payment (KeyTypeEd25519 key) asset amount.
Proof.
  unfold create_payment_operation. destruct (new_payment _ _ _) as [p|] eqn:E; simpl; [|done].
  apply new_payment_body in E as ->. destruct (set_source_account _ _) as [q|] eqn:E; [|done].
  apply set_source_account_body in E as ->. by intros [= <-].
Qed.

Lemma claimable_op_inv key asset amount op :
  create_unconditional_claimable_balance_operation key asset amount = inl op ->
  op = CreateClaimableBalance asset amount [mkClaimant key ClaimPredicateUnconditional].
Proof.
  unfold create_unconditional_claimable_balance_operation.
  destruct (new_claimant _ _) as [c|] eqn:E; simpl; [|done]. apply new_claimant_fields in E as ->.
  destruct (new_create_claimable_balance _ _ _) as [q|] eqn:E; [|done].
  apply new_claimable_body in E as ->. by intros [= <-].
Qed.

Lemma account_op_inv key amount op : create_account_operation key amount = inl op -> op = CreateAccount key amount.
Proof.
  unfold create_account_operation. destruct (new_create_account _ _) as [q|] eqn:E; [|done].
  apply new_account_body in E as ->. by intros [= <-].
Qed.

(** The account does not exist and at least one unit of the native asset is
    due: the only case in which an account is created. *)
Definition creates_account (key : PublicKey) (asset : StellarAsset) (amount : Z) : Prop :=
  (exists reason xdr, get_account key = AccountError (HorizonSubmissionError 404 reason xdr)) /\
  asset = AssetTypeNative /\ one_xlm <= stellar_stroops_to_u128 amount.

Lemma redeem_op_cases source key asset amount op :
  create_payment_op_for_redeem_request source (PublicKeyTypeEd25519 key) asset amount = inl op ->
  op = Payment (KeyTypeEd25519 key) asset amount \/
  op = CreateClaimableBalance asset amount [mkClaimant (PublicKeyTypeEd25519 key) ClaimPredicateUnconditional] \/
  op = CreateAccount (PublicKeyTypeEd25519 key) amount /\ creates_account (PublicKeyTypeEd25519 key) asset amount.
Proof.
  unfold create_payment_op_for_redeem_request.
  destruct (get_account (PublicKeyTypeEd25519 key)) as [balances s|e] eqn:Ea.
  - destruct (is_trustline_exist _ _); intros H; [left; by eapply payment_op_inv|].
    right; left; by apply claimable_op_inv.
  - destruct e as [|status reason xdr| | | | | |]; try done.
    destruct (Z.eqb_spec status 404) as [->|]; [|done].
    destruct (bool_decide (asset = AssetTypeNative)) eqn:Eb; simpl;
      [destruct (Z.leb_spec one_xlm (stellar_stroops_to_u128 amount)) as [Hle|Hlt]|]; intros H; right;
      [right|left; by apply claimable_op_inv|left; by apply claimable_op_inv].
    apply bool_decide_eq_true in Eb. apply account_op_inv in H. split; [done|]. split_and!; eauto.
Qed.

Lemma counted_single env_tx op key asset :
  operations env_tx = [op] ->
  get_payment_amount_for_asset_to (EnvelopeTypeTx env_tx) key asset =
  balance_unlookup
    match op with
    | Payment d a x => if bool_decide (d = KeyTypeEd25519 key) && bool_decide (a = asset) then i64_saturating_add 0 x else 0
    | CreateClaimableBalance a x [c] =>
        if bool_decide (claimant_destination c = PublicKeyTypeEd25519 key) && bool_decide (a = asset)
           && bool_decide (predicate c = ClaimPredicateUnconditional) then i64_saturating_add 0 x else 0
    | _ => 0
    end.
Proof.
  intros H. unfold get_payment_amount_for_asset_to. simpl. rewrite H, bool_decide_false by done. simpl.
  by destruct op as [|a x [|c [|]]| |].
Qed.

Lemma saturating_id x : 0 <= x <= i64_max -> i64_saturating_add 0 x = x.
Proof. unfold i64_saturating_add, i64_min, i64_max. lia. Qed.

Lemma creates_account_op source key asset amount op :
  creates_account (PublicKeyTypeEd25519 key) asset amount ->
  create_payment_op_for_redeem_request source (PublicKeyTypeEd25519 key) asset amount = inl op ->
  op = CreateAccount (PublicKeyTypeEd25519 key) amount.
Proof.
  intros ((reason & xdr & Ha) & -> & Hle). unfold create_payment_op_for_redeem_request. rewrite Ha. simpl.
  rewrite (proj2 (Z.leb_le _ _) Hle). apply account_op_inv.
Qed.

(** The payment the wallet makes for a redeem request counts, in the
    runtime and for the vault itself, for exactly the amount that was due,
    unless the recipient's account does not exist and at least one XLM is due:
    then the wallet creates the account, and the payment counts for nothing. *)
Theorem redeem_payment_counted source key asset amount op tx :
  0 <= amount <= i64_max ->
  create_payment_op_for_redeem_request source (PublicKeyTypeEd25519 key) asset amount = inl op ->
  operations tx = [op] ->
  let counted := get_payment_amount_for_asset_to (EnvelopeTypeTx tx) key asset in
  (~ creates_account (PublicKeyTypeEd25519 key) asset amount -> counted = stellar_stroops_to_u128 amount) /\
  (creates_account (PublicKeyTypeEd25519 key) asset amount -> counted = 0).
Proof.
  intros Ha Hop Htx counted. subst counted. rewrite (counted_single _ _ _ _ Htx). split.
  - intros Hn. destruct (redeem_op_cases _ _ _ _ _ Hop) as [->|[->|[_ ?]]]; [..|done]; simpl;
      rewrite !bool_decide_true by done; simpl; by rewrite saturating_id.
  - intros Hc. by rewrite (creates_account_op _ _ _ _ _ Hc Hop).
Qed.

End counted.

(** ** Resubmission *)

Section resubmission.
Context `{N : Network} (public_key : PublicKey) (fuel : nat).

Lemma remove_posted env w : posted (remove_tx_envelope_from_cache env w) = posted w.
Proof. unfold remove_tx_envelope_from_cache. by destruct (sequence_number env). Qed.

Lemma save_posted env w : posted (save_tx_envelope env w) = posted w.
Proof. unfold save_tx_envelope. by repeat case_match. Qed.

Lemma submit_posts env w : posted (submit_transaction fuel env w).2 = posted w ++ [env].
Proof.
  unfold submit_transaction. destruct (client_submit_transaction _ _ _ _) as [[r|] l]; simpl;
    by rewrite ?remove_posted; simpl; rewrite save_posted.
Qed.

(** What was sent instead of [tx]: the same payment under the same memo. *)
Definition same_payment (tx tx' : Transaction) : Prop :=
  operations tx' = operations tx /\ memo tx' = memo tx.

Lemma bump_posts tx w :
  let w' := (bump_sequence_number_and_submit public_key fuel tx w).2 in
  posted w' = posted w \/
  exists tx', posted w' = posted w ++ [EnvelopeTypeTx tx'] /\ same_payment tx tx'.
Proof.
  unfold bump_sequence_number_and_submit. destruct (get_account public_key) as [bs s|e]; [|by left].
  unfold create_and_sign_envelope. destruct (sign _); [|by left]. right. rewrite submit_posts. by eexists.
Qed.

(** The envelope an error is about. *)
Definition failed_envelope (error : WalletError) : option TransactionEnvelope :=
  match error with
  | HorizonSubmissionError _ _ (Some (Some env)) => Some env
  | CacheError SequenceNumberAlreadyUsed (Some env) => Some env
  | _ => None
  end.

(** What handling an error about [env] may send: nothing, the envelope as it
    is, or its payment once more when the check found no such transaction. *)
Inductive resends (env : TransactionEnvelope) (w w' : Wallet) : Prop :=
| resends_nothing : posted w' = posted w -> resends env w w'
| resends_as_is : posted w' = posted w ++ [env] -> resends env w w'
| resends_again tx tx' :
    get_transaction env = Some tx -> already_submitted public_key fuel tx = Some false ->
    same_payment tx tx' -> posted w' = posted w ++ [EnvelopeTypeTx tx'] -> resends env w w'.

Lemma bad_seq_resends env w : resends env w (handle_tx_bad_seq_error_with_envelope public_key fuel env w).2.
Proof.
  unfold handle_tx_bad_seq_error_with_envelope. destruct (get_transaction env) as [tx|] eqn:Et; [|by constructor].
  destruct (already_submitted public_key fuel tx) as [[]|] eqn:Ea; [by constructor| |by constructor].
  destruct (bump_posts tx (remove_tx_envelope_from_cache env w)) as [H|(tx' & H & Hs)]; rewrite remove_posted in H.
  - by constructor.
  - by eapply resends_again.
Qed.

Lemma fee_resends env w : resends env w (handle_tx_insufficient_fee_error public_key fuel env w).2.
Proof.
  unfold handle_tx_insufficient_fee_error. destruct (get_transaction env) as [tx|] eqn:Et; [|by constructor].
  destruct (already_submitted public_key fuel tx) as [[]|] eqn:Ea; [by constructor| |by constructor].
  destruct (bump_posts (with_fee (bumped_fee (fee tx)) tx) (remove_tx_envelope_from_cache env w)) as [H|(tx' & H & Hs)];
    rewrite remove_posted in H.
  - by constructor.
  - by eapply resends_again.
Qed.

Lemma with_envelope_resends xdr k w :
  (forall env w, resends env w (k env w).2) ->
  match xdr with
  | Some (Some env) => resends env w (with_envelope xdr k w).2
  | _ => posted (with_envelope xdr k w).2 = posted w
  end.
Proof.
  intros Hk. unfold with_envelope. destruct xdr as [[env|]|]; [|done..]. simpl.
  specialize (Hk env w). by destruct (k env w) as [r w'].
Qed.

(** C31: handling a failed submission sends at most one envelope: the failed one
    as it is, after an internal error, or the same operations under the same
    memo with a new sequence number, and then only if the check found no such
    transaction among those of the account. *)
Theorem resubmission_keeps_payment error w :
  let w' := (handle_error public_key fuel error w).2 in
  match failed_envelope error with Some env => resends env w w' | None => posted w' = posted w end.
Proof.
  destruct error as [?|status reason xdr|kind env| | | | |]; simpl; try done.
  - assert (Hint : forall env w, resends env w (handle_tx_internal_error fuel env w).2).
    { intros env w1. unfold handle_tx_internal_error. destruct (sign env); [|by constructor].
      apply resends_as_is, submit_posts. }
    pose proof (with_envelope_resends xdr _ w bad_seq_resends) as H1.
    pose proof (with_envelope_resends xdr _ w Hint) as H2.
    pose proof (with_envelope_resends xdr _ w fee_resends) as H3.
    destruct (bool_decide _); [by destruct xdr as [[]|]|]. destruct (bool_decide _); [by destruct xdr as [[]|]|].
    destruct (bool_decide _); [by destruct xdr as [[]|]|].
    destruct xdr as [[env|]|]; simpl; [|done..]. constructor. apply remove_posted.
  - destruct kind, env as [env|]; try done. pose proof (bad_seq_resends env w) as H.
    by destruct (handle_tx_bad_seq_error_with_envelope public_key fuel env w).
Qed.

End resubmission.

(** ** A network for evaluation *)

(** The account has the transactions with these sequence numbers; the account
    [[3]] does not exist; every submission succeeds. *)
Definition ToyNetwork (seqs : list Z) : Network := {|
  network_client := one_page seqs;
  all_transactions_page := "first";
  get_account key :=
    if bool_decide (key = PublicKeyTypeEd25519 [3]) then AccountError (HorizonSubmissionError 404 "Not Found" None)
    else Account [Some AssetTypeNative] (default 0 (head seqs));
  post n fallback env := inl (record_of (default 0 (sequence_number env)));
  sign env := true;
  new_payment key asset amount :=
    match key with PublicKeyTypeEd25519 k => Some (Payment (KeyTypeEd25519 k) asset amount) end;
  set_source_account op source := Some op;
  new_claimant key p := Some (mkClaimant key p);
  new_create_claimable_balance asset amount claimants := Some (CreateClaimableBalance asset amount claimants);
  new_create_account key amount := Some (CreateAccount key amount);
  new_transaction key seq f text := Some (mkTransaction [] (MemoText text) seq f);
  append_operation tx op := Some (mkTransaction (operations tx ++ [op]) (memo tx) (seq_num tx) (fee tx));
|}.

Lemma ToyNetwork_laws seqs : NetworkLaws (ToyNetwork seqs).
Proof. split; simpl; intros; simplify_eq; auto. Qed.

(** Ten XLM for an account that does not exist. *)
Lemma redeem_payment_counted_witness :
  get_payment_amount_for_asset_to
    (EnvelopeTypeTx (mkTransaction [CreateAccount (PublicKeyTypeEd25519 [3]) 100000000] (MemoText [7]) 1 100))
    [3] AssetTypeNative = 0.
Proof.
  apply (redeem_payment_counted (N := ToyNetwork []) (L := ToyNetwork_laws [])) with (source := own_key) (amount := 100000000)
    (op := CreateAccount (PublicKeyTypeEd25519 [3]) 100000000); [by vm_compute|reflexivity|reflexivity|].
  split_and!; [by do 2 eexists|done|by vm_compute].
Defined.

(** A payment that is already on the ledger is made a second time: the
    check misses it, and the wallet sends the same operations under the same
    memo again. *)
Theorem missed_payment_repeated w :
  let network := ToyNetwork [5; 4; 3; 2; 1] in
  let error := HorizonSubmissionError 400 "tx_bad_seq" (Some (Some (EnvelopeTypeTx (payment_tx 3)))) in
  record_of 3 ∈ pages (HC := one_page [5; 4; 3; 2; 1]) 1 "first" /\
  to_envelope (record_of 3) = Some (EnvelopeTypeTx (payment_tx 3)) /\
  posted (handle_error (N := network) own_key 20 error w).2 =
    posted w ++ [EnvelopeTypeTx (with_seq_num 6 (payment_tx 3))].
Proof.
  split_and!; [simpl; by right; right; left|done|]. unfold handle_error. rewrite bool_decide_true by done.
  unfold with_envelope. cbn [decode_to_envelope].
  pose proof (submit_posts (N := ToyNetwork [5; 4; 3; 2; 1]) 20 (EnvelopeTypeTx (with_seq_num 6 (payment_tx 3)))
    (remove_tx_envelope_from_cache (EnvelopeTypeTx (payment_tx 3)) w)) as H. rewrite remove_posted in H.
  rewrite <- H. unfold handle_tx_bad_seq_error_with_envelope. cbn [get_transaction].
  assert (already_submitted (N := ToyNetwork [5; 4; 3; 2; 1]) own_key 20 (payment_tx 3) = Some false) as -> by by vm_compute.
  unfold bump_sequence_number_and_submit. simpl.
  by destruct (submit_transaction _ _ _).
Qed.
