(* ===== verification/WalletCache.v ===== *)
(** * The wallet's cache on disk

    [src/clients/wallet/src/cache.rs]: envelopes under submission are files, named
    by their sequence number, with the bytes of the envelope printed as a list of
    numbers; the cursor of the last transaction seen is a file with a number.
    [resubmissions.rs]: what is left in the cache is submitted again at the start,
    and the errors of that are handled until there is none.

    The cache refines the map of envelopes that [Wallet] has. *)

From Stdlib Require Import Ascii.
From stdpp Require Import strings pretty sorting.
From S2P Require Import Prelude Primitives Horizon Wallet.

(** ** Numbers as text *)

(** The numeric value of a decimal digit. *)
Definition digit (c : Ascii.ascii) : option Z :=
  let n := Z.of_nat (Ascii.nat_of_ascii c) in
  if (48 <=? n) && (n <=? 57) then Some (n - 48) else None.

(** [str::parse] to an unsigned integer type with the given maximum. *)
Fixpoint parse_digits (max acc : Z) (s : string) : option Z :=
  match s with
  | EmptyString => Some acc
  | String c s =>
      d ← digit c;
      let acc := acc * 10 + d in
      if max <? acc then None else parse_digits max acc s
  end.

Definition parse_unsigned (max : Z) (s : string) : option Z :=
  match s with
  | EmptyString => None
  | String c rest =>
      if bool_decide (c = "+"%char) then
        match rest with EmptyString => None | _ => parse_digits max 0 rest end
      else parse_digits max 0 s
  end.

(** [format!("{}", n)] for an unsigned [n]. *)
Definition print_unsigned (n : Z) : string := pretty (Z.to_N n).

Fixpoint digits_only (s : string) : Prop :=
  match s with EmptyString => True | String c s => is_Some (digit c) /\ digits_only s end.

Lemma digit_char n : (n < 10)%N -> digit (pretty_N_char n) = Some (Z.of_N n).
Proof.
  intros H. destruct n as [|p]; [done|].
  do 4 (try destruct p as [p|p|]); first [done|exfalso; lia].
Qed.

Lemma parse_go max x s : Z.of_N x <= max ->
  parse_digits max 0 (pretty_N_go x s) = parse_digits max (Z.of_N x) s.
Proof.
  revert s. induction (N.lt_wf_0 x) as [x _ IH]. intros s Hx. destruct (decide (x = 0)%N) as [->|Hne].
  - by rewrite pretty_N_go_0.
  - rewrite pretty_N_go_step by lia.
    pose proof (N.Div0.div_mod x 10) as Hd. pose proof (N.mod_lt x 10 ltac:(done)) as Hm.
    pose proof (N.div_lt x 10 ltac:(lia) ltac:(done)) as Hlt. specialize (IH _ Hlt).
    set (q := (x `div` 10)%N) in *. set (r := (x `mod` 10)%N) in *. clearbody q r.
    rewrite IH by lia. cbn [parse_digits]. rewrite digit_char by done. simpl.
    replace (Z.of_N q * 10 + Z.of_N r) with (Z.of_N x) by lia.
    by rewrite (proj2 (Z.ltb_ge _ _) Hx).
Qed.

Lemma digits_go x s : digits_only s -> digits_only (pretty_N_go x s).
Proof.
  revert s. induction (N.lt_wf_0 x) as [x _ IH]. intros s Hs. destruct (decide (x = 0)%N) as [->|Hne].
  - by rewrite pretty_N_go_0.
  - rewrite pretty_N_go_step by lia. apply IH; [apply N.div_lt; lia|]. split; [|done].
    rewrite digit_char by (apply N.mod_lt; done). eauto.
Qed.

Lemma go_nonempty x s : s <> EmptyString \/ x <> 0%N -> pretty_N_go x s <> EmptyString.
Proof.
  revert s. induction (N.lt_wf_0 x) as [x _ IH]. intros s H. destruct (decide (x = 0)%N) as [->|Hne].
  - rewrite pretty_N_go_0. by destruct H.
  - rewrite pretty_N_go_step by lia. apply IH; [apply N.div_lt; lia|by left].
Qed.

Lemma print_digits n : digits_only (print_unsigned n) /\ print_unsigned n <> EmptyString.
Proof.
  unfold print_unsigned, pretty, pretty_N. destruct (decide _) as [|Hne]; [split; [split; [by eexists|done]|done]|].
  split; [by apply digits_go|]. apply go_nonempty. by right.
Qed.

Lemma parse_digits_first max s :
  digits_only s -> s <> EmptyString -> parse_unsigned max s = parse_digits max 0 s.
Proof.
  destruct s as [|c s]; [done|]. intros [[d Hd] _] _. unfold parse_unsigned.
  rewrite bool_decide_false; [done|]. by intros ->.
Qed.

Lemma unsigned_roundtrip max n : 0 <= n <= max -> parse_unsigned max (print_unsigned n) = Some n.
Proof.
  intros H. destruct (print_digits n). rewrite parse_digits_first by done.
  unfold print_unsigned, pretty, pretty_N. destruct (decide (Z.to_N n = 0%N)) as [E|E].
  - replace n with 0 by lia. cbn [parse_digits]. change (digit _) with (Some 0).
    cbn [mbind option_bind]. change (0 * 10 + 0) with 0. by rewrite (proj2 (Z.ltb_ge max 0)) by lia.
  - rewrite parse_go by lia. simpl. f_equal. lia.
Qed.

(** ** Bytes as text *)

(** [format!("{:?}", bytes)] *)
Fixpoint commas (bytes : Bytes) : string :=
  match bytes with
  | [] => EmptyString
  | [b] => print_unsigned b
  | b :: bytes => print_unsigned b +:+ ", " +:+ commas bytes
  end.

Definition debug_bytes (bytes : Bytes) : string := "[" +:+ commas bytes +:+ "]".

(** [value.replace(' ', "")] *)
Fixpoint remove_spaces (s : string) : string :=
  match s with
  | EmptyString => EmptyString
  | String c s => if bool_decide (c = " "%char) then remove_spaces s else String c (remove_spaces s)
  end.

(** [str::split(',')] *)
Fixpoint split_commas (s : string) : list string :=
  match s with
  | EmptyString => [EmptyString]
  | String c s =>
      if bool_decide (c = ","%char) then EmptyString :: split_commas s
      else match split_commas s with [] => [String c EmptyString] | t :: rest => String c t :: rest end
  end.

(** The slice [1..len - 1] panics on fewer than two bytes. *)
Definition remove_brackets (s : string) : outcome string :=
  let n := String.length s in
  if (n <? 2)%nat then Panic else Ok (String.substring 1 (n - 2) s).

Definition parse_xdr_string_to_vec_u8 (value : string) : outcome (option Bytes) :=
  let? inner := remove_brackets (remove_spaces value) in
  Ok (mapM (parse_unsigned 255) (split_commas inner)).

Lemma remove_spaces_app s t : remove_spaces (s +:+ t) = remove_spaces s +:+ remove_spaces t.
Proof. induction s as [|c s IH]; simpl; [done|]. destruct (bool_decide _); simpl; by rewrite IH. Qed.

Lemma remove_spaces_digits s : digits_only s -> remove_spaces s = s.
Proof.
  induction s as [|c s IH]; simpl; [done|]. intros [[d Hd] Hs]. rewrite bool_decide_false by (by intros ->).
  by rewrite IH.
Qed.

Lemma split_digits s : digits_only s -> split_commas s = [s].
Proof.
  induction s as [|c s IH]; simpl; [done|]. intros [[d Hd] Hs]. rewrite bool_decide_false by (by intros ->).
  by rewrite IH.
Qed.

Lemma split_digits_comma s t : digits_only s -> split_commas (s +:+ String "," t) = s :: split_commas t.
Proof.
  induction s as [|c s IH]; simpl; [done|]. intros [[d Hd] Hs]. rewrite bool_decide_false by (by intros ->).
  by rewrite IH.
Qed.

Lemma substring_prefix s t : String.substring 0 (String.length s) (s +:+ t) = s.
Proof. induction s as [|c s IH]; simpl; [by destruct t|by rewrite IH]. Qed.

Lemma remove_brackets_text s : remove_brackets ("[" +:+ s +:+ "]") = Ok s.
Proof.
  unfold remove_brackets. change ("[" +:+ s +:+ "]") with (String "[" (s +:+ "]")). cbn [String.length].
  assert (String.length (s +:+ "]") = S (String.length s)) as ->.
  { induction s as [|c s IH]; [done|]. change (String c s +:+ "]") with (String c (s +:+ "]")). simpl. by rewrite IH. }
  change (S (S (String.length s)) <? 2)%nat with false.
  replace (S (S (String.length s)) - 2)%nat with (String.length s) by lia.
  cbn [String.substring]. by rewrite substring_prefix.
Qed.

(** The text between the brackets, without the spaces. *)
Lemma commas_split bytes :
  bytes <> [] -> Forall (fun b => 0 <= b <= 255) bytes ->
  mapM (parse_unsigned 255) (split_commas (remove_spaces (commas bytes))) = Some bytes.
Proof.
  intros Hne Hb. induction Hb as [|b bytes Hb Hrest IH]; [done|]. clear Hne.
  destruct (print_digits b) as [Hd _]. destruct bytes as [|b' bytes].
  - cbn [commas]. rewrite remove_spaces_digits, split_digits by done. simpl. by rewrite unsigned_roundtrip.
  - change (commas (b :: b' :: bytes)) with (print_unsigned b +:+ ", " +:+ commas (b' :: bytes)).
    rewrite remove_spaces_app, (remove_spaces_digits _ Hd).
    change (remove_spaces (", " +:+ commas (b' :: bytes))) with (String "," (remove_spaces (commas (b' :: bytes)))).
    rewrite split_digits_comma by done. cbn [mapM]. rewrite unsigned_roundtrip by done. by rewrite IH.
Qed.

Lemma bytes_text bytes :
  bytes <> [] -> Forall (fun b => 0 <= b <= 255) bytes ->
  parse_xdr_string_to_vec_u8 (debug_bytes bytes) = Ok (Some bytes).
Proof.
  intros Hne Hb. unfold parse_xdr_string_to_vec_u8, debug_bytes. rewrite !remove_spaces_app.
  change (remove_spaces "[") with "["%string. change (remove_spaces "]") with "]"%string.
  rewrite remove_brackets_text. simpl. by rewrite commas_split.
Qed.

(** ** Files *)

(** The codec of the Stellar SDK. *)
Class EnvelopeXdr := {
  to_xdr : TransactionEnvelope -> Bytes;
  from_xdr : Bytes -> option TransactionEnvelope;
}.

Class EnvelopeXdrLaws (EX : EnvelopeXdr) : Prop := {
  from_to_xdr env : from_xdr (to_xdr env) = Some env;
  to_xdr_bytes env : Forall (fun b => 0 <= b <= 255) (to_xdr env);
  to_xdr_nonempty env : to_xdr env <> [];
}.

(** The directory of the envelopes and the cursor, by file name. *)
Record WalletStateStorage := mkStorage {
  txs_inner_dir : gmap string string;
  cursor_file : option string;
}.

(** What the file system does with a new file: nothing, or it has been written in
    part when the error or the end of the process comes. *)
Inductive Writing := Written | CreationFails | WritingFails (part : string).

Section files.
Context `{EX : EnvelopeXdr}.

Definition storage_save_tx_envelope (io : Writing) (tx_envelope : TransactionEnvelope)
    (f : WalletStateStorage) : (WalletError + unit) * WalletStateStorage :=
  match sequence_number tx_envelope with
  | None => (inl (CacheError UnknownSequenceNumber (Some tx_envelope)), f)
  | Some sequence =>
      let path := pretty sequence in
      match txs_inner_dir f !! path with
      | Some _ => (inl (CacheError SequenceNumberAlreadyUsed None), f)
      | None =>
          let create content := mkStorage (<[path := content]> (txs_inner_dir f)) (cursor_file f) in
          match io with
          | Written => (inr tt, create (debug_bytes (to_xdr tx_envelope)))
          | CreationFails => (inl (CacheError FileCreationFailed (Some tx_envelope)), f)
          | WritingFails part => (inl (CacheError WriteToFileFailed (Some tx_envelope)), create part)
          end
      end
  end.

Definition storage_remove_tx_envelope (sequence : SequenceNumber) (f : WalletStateStorage)
  : WalletStateStorage :=
  mkStorage (delete (pretty sequence) (txs_inner_dir f)) (cursor_file f).

(** The content of a file that cannot be read is empty. *)
Definition extract_tx_envelope_from_path (content_from_file : string)
  : outcome (WalletError + TransactionEnvelope * SequenceNumber) :=
  let? content_as_vec_u8 := parse_xdr_string_to_vec_u8 content_from_file in
  Ok match content_as_vec_u8 with
     | None => inl (CacheError InvalidFile None)
     | Some bytes =>
         match from_xdr bytes with
         | None => inl (CacheError DecodeFileFailed None)
         | Some env =>
             match sequence_number env with
             | Some seq => inr (env, seq)
             | None => inl (CacheError UnknownSequenceNumber (Some env))
             end
         end
     end.

(** The entries of the directory, in its order; files that are not valid are
    removed. *)
Fixpoint read_entries (entries : list (string * string)) (f : WalletStateStorage)
  : outcome (list (TransactionEnvelope * SequenceNumber) * list WalletError * WalletStateStorage) :=
  match entries with
  | [] => Ok ([], [], f)
  | (path, content) :: entries =>
      let? r := extract_tx_envelope_from_path content in
      match r with
      | inr e => let? rest := read_entries entries f in let '(envs, errors, f) := rest in Ok (e :: envs, errors, f)
      | inl e =>
          let f := mkStorage (delete path (txs_inner_dir f)) (cursor_file f) in
          let? rest := read_entries entries f in let '(envs, errors, f) := rest in Ok (envs, e :: errors, f)
      end
  end.

Definition by_sequence (a b : TransactionEnvelope * SequenceNumber) : Prop := a.2 <= b.2.

#[export] Instance by_sequence_dec a b : Decision (by_sequence a b).
Proof. unfold by_sequence. apply _. Defined.

Definition get_tx_envelopes (f : WalletStateStorage)
  : outcome ((list WalletError + list TransactionEnvelope * list WalletError) * WalletStateStorage) :=
  let? read := read_entries (map_to_list (txs_inner_dir f)) f in
  let '(tx_envelopes, errors, f) := read in
  match tx_envelopes, errors with
  | [], _ :: _ => Ok (inl errors, f)
  | _, _ => Ok (inr (map fst (merge_sort by_sequence tx_envelopes), errors), f)
  end.

End files.

Definition get_last_cursor (f : WalletStateStorage) : Z :=
  match cursor_file f with
  | None => 0
  | Some content_from_file => default 0 (parse_unsigned u128_max content_from_file)
  end.

Definition save_cursor (io : Writing) (paging_token : Z) (f : WalletStateStorage)
  : (WalletError + unit) * WalletStateStorage :=
  match io with
  | Written => (inr tt, mkStorage (txs_inner_dir f) (Some (print_unsigned paging_token)))
  | CreationFails => (inl (CacheError FileCreationFailed None), f)
  | WritingFails part => (inl (CacheError WriteToFileFailed None), mkStorage (txs_inner_dir f) (Some part))
  end.

(** ** The cache as a map *)

(** Each envelope is stored under its own sequence number. *)
Definition keyed (m : gmap SequenceNumber TransactionEnvelope) : Prop :=
  map_Forall (fun sequence env => sequence_number env = Some sequence) m.

(** The map's envelopes, in the order of their sequence numbers. *)
Definition cached_envelopes (m : gmap SequenceNumber TransactionEnvelope) : list TransactionEnvelope :=
  map fst (merge_sort by_sequence (map (fun e => (e.2, e.1)) (map_to_list m))).

Section refinement.
Context `{EX : EnvelopeXdr} {L : EnvelopeXdrLaws EX}.

(** The directory has exactly the envelopes of the map. *)
Definition stores (f : WalletStateStorage) (m : gmap SequenceNumber TransactionEnvelope) : Prop :=
  txs_inner_dir f = kmap pretty ((fun env => debug_bytes (to_xdr env)) <$> m) /\ keyed m.

Lemma stored_file f m sequence :
  stores f m -> txs_inner_dir f !! pretty sequence = (fun env => debug_bytes (to_xdr env)) <$> m !! sequence.
Proof. intros [-> _]. rewrite (lookup_kmap pretty). by rewrite lookup_fmap. Qed.

Lemma save_stores f w env :
  stores f (tx_envelopes w) ->
  stores (storage_save_tx_envelope Written env f).2 (tx_envelopes (save_tx_envelope env w)).
Proof.
  intros Hf. unfold storage_save_tx_envelope, save_tx_envelope. destruct (sequence_number env) as [seq|] eqn:Es; [|done].
  pose proof (stored_file _ _ seq Hf) as Hs. destruct (tx_envelopes w !! seq) as [env'|] eqn:Ew; simpl in Hs; rewrite Hs; [done|].
  destruct Hf as [Hf Hk]. split; simpl.
  - by rewrite fmap_insert, (kmap_insert pretty), <- Hf.
  - by apply map_Forall_insert_2.
Qed.

Lemma remove_stores f m sequence :
  stores f m -> stores (storage_remove_tx_envelope sequence f) (delete sequence m).
Proof.
  intros [Hf Hk]. split; simpl; [|by apply map_Forall_delete].
  by rewrite fmap_delete, (kmap_delete pretty), <- Hf.
Qed.

Lemma extract_stored env seq :
  sequence_number env = Some seq ->
  extract_tx_envelope_from_path (debug_bytes (to_xdr env)) = Ok (inr (env, seq)).
Proof.
  intros Hs. unfold extract_tx_envelope_from_path. rewrite bytes_text by apply L. simpl. by rewrite from_to_xdr, Hs.
Qed.

(** A valid entry of the directory and what is read from it. *)
Definition reads_as (e : string * string) (x : TransactionEnvelope * SequenceNumber) : Prop :=
  e = (pretty x.2, debug_bytes (to_xdr x.1)) /\ sequence_number x.1 = Some x.2.

Lemma read_valid es l f : Forall2 reads_as es l -> read_entries es f = Ok (l, [], f).
Proof.
  induction 1 as [|e [env seq] es l [-> Hs] _ IH]; [done|]. cbn [read_entries].
  simpl in *. rewrite (extract_stored _ _ Hs). simpl. by rewrite IH.
Qed.

Lemma entries_valid f m :
  stores f m -> exists l, Forall2 reads_as (map_to_list (txs_inner_dir f)) l /\
    l ≡ₚ map (fun e => (e.2, e.1)) (map_to_list m).
Proof.
  intros [-> Hk]. rewrite kmap_fmap by apply _.
  set (text := fun env => debug_bytes (to_xdr env)).
  assert (map_to_list (text <$> kmap pretty m) ≡ₚ
    map (fun e => (pretty e.1, text e.2)) (map_to_list m)) as Hp.
  { rewrite map_to_list_fmap, (map_to_list_kmap pretty). rewrite <- list_fmap_compose.
    apply Permutation_refl'. apply list_fmap_ext. by intros ? []. }
  assert (Forall2 reads_as (map (fun e => (pretty e.1, text e.2)) (map_to_list m))
    (map (fun e => (e.2, e.1)) (map_to_list m))) as Hv.
  { assert (Forall (fun e => sequence_number e.2 = Some e.1) (map_to_list m)) as Hall.
    { apply list.Forall_forall. intros [seq env] He%elem_of_map_to_list. by apply Hk. }
    clear Hp. induction Hall as [|[seq env] es He _ IH]; simpl; constructor; [by split|done]. }
  symmetry in Hp. destruct (Permutation_Forall2 Hp Hv) as (l & Hl & Hr). by exists l.
Qed.

Lemma in_cached (m : gmap SequenceNumber TransactionEnvelope) x :
  x ∈ map (fun e => (e.2, e.1)) (map_to_list m) <-> m !! x.2 = Some x.1.
Proof.
  destruct x as [env seq]. rewrite list_elem_of_fmap. setoid_rewrite elem_of_map_to_list'. split.
  - intros ([] & [= -> ->] & H). done.
  - intros H. by exists (seq, env).
Qed.

(** What is read back from the directory is the map, in order. *)
Lemma get_stored f m :
  stores f m -> get_tx_envelopes f = Ok (inr (cached_envelopes m, []), f).
Proof.
  intros Hf. destruct (entries_valid f m Hf) as (l & Hl & Hp). unfold get_tx_envelopes.
  rewrite (read_valid _ _ f Hl). simpl. unfold cached_envelopes.
  assert (merge_sort by_sequence l = merge_sort by_sequence (map (fun e => (e.2, e.1)) (map_to_list m))) as ->.
  2: { by destruct l. }
  assert (Transitive by_sequence) by (intros x y z; unfold by_sequence; lia).
  assert (Total by_sequence) by (intros x y; unfold by_sequence; lia).
  apply (StronglySorted_unique_strong by_sequence); [|by apply StronglySorted_merge_sort..|by rewrite !merge_sort_Permutation].
  intros [e1 s1] [e2 s2] H1 H2. rewrite merge_sort_Permutation in H1, H2. rewrite Hp in H1. apply in_cached in H1, H2.
  unfold by_sequence. simpl in *. intros. assert (s1 = s2) as -> by lia. congruence.
Qed.

End refinement.

(** ** Resubmission *)

Section resubmit.
Context `{N : Network} (public_key : PublicKey) (fuel : nat).

(** The loop of [_resubmit_transactions_from_cache] over the envelopes: the
    errors with their envelopes, or [None] while a submission is being retried. *)
Fixpoint resubmit_envelopes (envelopes : list TransactionEnvelope) (w : Wallet)
  : option (list (WalletError * TransactionEnvelope)) * Wallet :=
  match envelopes with
  | [] => (Some [], w)
  | envelope :: envelopes =>
      match submit_transaction fuel envelope w with
      | (None, w) => (None, w)
      | (Some (inl _), w) => resubmit_envelopes envelopes w
      | (Some (inr e), w) =>
          let '(error_collector, w) := resubmit_envelopes envelopes w in
          (cons (e, envelope) <$> error_collector, w)
      end
  end.

(** The vector is in reverse: its last element is popped first.  [false] when
    there are errors left after [n] of them were handled. *)
Fixpoint handle_errors (n : nat) (errors : list (WalletError * TransactionEnvelope)) (w : Wallet)
  : bool * Wallet :=
  match errors with
  | [] => (true, w)
  | (error, env) :: errors =>
      match n with
      | O => (false, w)
      | S n =>
          match handle_error public_key fuel error w with
          | (None, w) => (false, w)
          | (Some (NewError e), w) => handle_errors n ((e, env) :: errors) w
          | (Some GivenUp, w) => handle_errors n errors (remove_tx_envelope_from_cache env w)
          | (Some (Resubmitted _), w) => handle_errors n errors w
          end
      end
  end.

(** [_resubmit_transactions_from_cache] on what the cache returned. *)
Definition _resubmit_transactions_from_cache (n : nat)
    (cache : list WalletError + list TransactionEnvelope * list WalletError) (w : Wallet) : bool * Wallet :=
  match cache with
  | inl _ => (true, w)
  | inr (envelopes, _) =>
      match resubmit_envelopes envelopes w with
      | (None, w) => (false, w)
      | (Some errors, w) => handle_errors n (reverse errors) w
      end
  end.

(** The scheduler of [start_periodic_resubmission_of_transactions_from_cache] after
    the first resubmission: [recv] waits for a message, and only a closed channel
    lets the loop go on.  The number of resubmissions within [rounds] turns. *)
Fixpoint periodic_resubmissions (rounds : nat) (messages : nat) (sender_dropped : bool) : nat :=
  match rounds with
  | O => O
  | S rounds =>
      match messages with
      | S _ => O
      | O => if sender_dropped then S (periodic_resubmissions rounds O true) else O
      end
  end.

Lemma periodic_never_runs rounds messages : periodic_resubmissions rounds messages false = O.
Proof. destruct rounds; [done|]. by destruct messages. Qed.

(** A submission that is answered posts the envelope and takes it out of the
    cache. *)
Lemma submit_answered env seq w r :
  fst (client_submit_transaction fuel env DEFAULT_MAX_RETRY_ATTEMPTS_BEFORE_FALLBACK DEFAULT_MAX_BACKOFF_DELAY_IN_SECS) = Some r ->
  sequence_number env = Some seq -> tx_envelopes w !! seq = Some env ->
  submit_transaction fuel env w = (Some r, mkWallet (delete seq (tx_envelopes w)) (posted w ++ [env])).
Proof.
  intros Hr Hs Hw. unfold submit_transaction, save_tx_envelope, remove_tx_envelope_from_cache. rewrite Hs, Hw.
  destruct (client_submit_transaction _ _ _ _) as [res attempts]. simpl in Hr. by subst res.
Qed.

Definition answered (env : TransactionEnvelope) : Prop :=
  is_Some (fst (client_submit_transaction fuel env DEFAULT_MAX_RETRY_ATTEMPTS_BEFORE_FALLBACK
    DEFAULT_MAX_BACKOFF_DELAY_IN_SECS)).

Lemma resubmit_all (l : list (TransactionEnvelope * SequenceNumber)) w :
  NoDup (l.*2) -> Forall (fun x => answered x.1 /\ sequence_number x.1 = Some x.2 /\ tx_envelopes w !! x.2 = Some x.1) l ->
  exists errors, resubmit_envelopes (l.*1) w =
    (Some errors, mkWallet (foldl (fun m x => delete x.2 m) (tx_envelopes w) l) (posted w ++ l.*1)).
Proof.
  revert w. induction l as [|[env seq] l IH]; intros w Hn Hl.
  - exists []. simpl. rewrite app_nil_r. by destruct w.
  - apply Forall_cons_1 in Hl as [([r Hr] & Hs & Hw) Hl]. rewrite fmap_cons in Hn. apply list.NoDup_cons in Hn as [Hnot Hn].
    cbn [fst snd] in *. rewrite fmap_cons. cbn [resubmit_envelopes fst]. rewrite (submit_answered env seq w r Hr Hs Hw).
    destruct (IH (mkWallet (delete seq (tx_envelopes w)) (posted w ++ [env])) Hn) as [errors He].
    { apply list.Forall_forall. intros x Hx. rewrite list.Forall_forall in Hl. destruct (Hl _ Hx) as (? & ? & ?).
      split_and!; [done..|]. simpl. rewrite lookup_delete_ne; [done|]. intros ->. apply Hnot. apply list_elem_of_fmap. eauto. }
    cbn [posted tx_envelopes] in He. rewrite <- app_assoc in He. destruct r as [resp|e]; rewrite He; eauto.
Qed.

End resubmit.

(** ** Properties *)

Section properties.
Context `{EX : EnvelopeXdr} {L : EnvelopeXdrLaws EX}.

(** C20: the files of the cache implement the wallet's map of envelopes: saving and
    removing an envelope has the effect it has on the map, whether or not there is
    a file of its number, and reading the directory gives the envelopes of the
    map, all of them, in the order of their sequence numbers. *)
Theorem cache_refines_map f w env :
  stores f (tx_envelopes w) ->
  stores (storage_save_tx_envelope Written env f).2 (tx_envelopes (save_tx_envelope env w)) /\
  stores (match sequence_number env with Some seq => storage_remove_tx_envelope seq f | None => f end)
    (tx_envelopes (remove_tx_envelope_from_cache env w)) /\
  get_tx_envelopes f = Ok (inr (cached_envelopes (tx_envelopes w), []), f).
Proof.
  intros Hf. split_and!; [by apply save_stores| |by apply get_stored].
  unfold remove_tx_envelope_from_cache. destruct (sequence_number env); [by apply remove_stores|done].
Qed.

Lemma cached_all m :
  keyed m -> exists l, cached_envelopes m = l.*1 /\ NoDup (l.*2) /\
    (forall x, x ∈ l <-> m !! x.2 = Some x.1) /\ StronglySorted by_sequence l.
Proof.
  intros Hk. exists (merge_sort by_sequence (map (fun e => (e.2, e.1)) (map_to_list m))). split_and!.
  - done.
  - rewrite merge_sort_Permutation. rewrite <- list_fmap_compose. apply NoDup_fst_map_to_list.
  - intros x. rewrite merge_sort_Permutation. apply in_cached.
  - apply StronglySorted_merge_sort; intros ?; unfold by_sequence; lia.
Qed.

Lemma delete_all (l : list (TransactionEnvelope * SequenceNumber)) (m : gmap SequenceNumber TransactionEnvelope) :
  (forall seq env, m !! seq = Some env -> (env, seq) ∈ l) -> foldl (fun m x => delete x.2 m) m l = ∅.
Proof.
  revert m. induction l as [|[env seq] l IH]; intros m Hm; simpl.
  - apply map_empty. intros seq. destruct (m !! seq) eqn:E; [|done]. apply Hm in E. by apply elem_of_nil in E.
  - apply IH. intros s e [Hne He]%lookup_delete_Some. apply Hm in He. apply elem_of_cons in He as [[= -> ->]|He]; [done|done].
Qed.


Lemma extract_no_error content e : extract_tx_envelope_from_path content <> Err e.
Proof.
  unfold extract_tx_envelope_from_path, parse_xdr_string_to_vec_u8, remove_brackets. by destruct (_ <? 2)%nat.
Qed.

(** A process that ends between the creation of a cache file and the writing of
    its content leaves a file on which every later start panics, whatever else is
    in the cache. *)
Theorem unfinished_file_panics env seq f :
  sequence_number env = Some seq -> txs_inner_dir f !! pretty seq = None ->
  get_tx_envelopes (storage_save_tx_envelope (WritingFails EmptyString) env f).2 = Panic.
Proof.
  intros Hs Hf. unfold storage_save_tx_envelope. rewrite Hs, Hf. simpl. unfold get_tx_envelopes. cbn [txs_inner_dir].
  set (d := <[pretty seq := EmptyString]> (txs_inner_dir f)).
  assert ((pretty seq, EmptyString) ∈ map_to_list d) as Hin by (apply elem_of_map_to_list; unfold d; by rewrite lookup_insert_eq).
  enough (forall es f', (pretty seq, EmptyString) ∈ es -> read_entries es f' = Panic) as -> by done.
  clear. induction es as [|[path content] es IH]; intros f' He; [by apply elem_of_nil in He|].
  apply elem_of_cons in He as [[= <- <-]|He]; [done|]. cbn [read_entries].
  destruct (extract_tx_envelope_from_path content) as [[e|x]|e|] eqn:E; simpl; [by rewrite IH|by rewrite IH| |done].
  by apply extract_no_error in E.
Qed.

(** A cursor that was saved is the one that is read at the next start; when the
    file is missing or is not a number, all transactions are read again. *)
Theorem cursor_roundtrip n f :
  0 <= n <= u128_max -> get_last_cursor (save_cursor Written n f).2 = n.
Proof. intros Hn. unfold get_last_cursor. simpl. by rewrite unsigned_roundtrip. Qed.

End properties.

(** While Horizon answers a submission with an internal error, the wallet posts the
    same envelope again without a pause and without an end. *)
Theorem internal_errors_never_end `{N : Network} public_key fuel env n w :
  (forall k fallback, post k fallback env = inr (HorizonSubmissionError 400 "tx_internal_error" None)) -> sign env = true ->
  let '(done, w') := handle_errors public_key (S fuel) n
    [(HorizonSubmissionError 400 "tx_internal_error" (Some (Some env)), env)] w in
  done = false /\ posted w' = posted w ++ replicate n env.
Proof.
  intros Hp Hs. revert w. induction n as [|n IH]; intros w; simpl; [by rewrite app_nil_r|].
  unfold with_envelope, handle_tx_internal_error. simpl. rewrite Hs.
  pose proof (submit_posts (S fuel) env w) as Hpost.
  unfold submit_transaction, client_submit_transaction in *. cbn [submit_loop] in *. rewrite Hp in *. simpl in *.
  specialize (IH (remove_tx_envelope_from_cache env (mkWallet (tx_envelopes (save_tx_envelope env w)) (posted (save_tx_envelope env w) ++ [env])))).
  destruct (handle_errors _ _ n _ _) as [b w']. destruct IH as [-> ->]. split; [done|]. rewrite Hpost, <- app_assoc. done.
Qed.

(** ** Witnesses *)

Section witnesses.

#[local] Instance PublicKey_countable : Countable PublicKey.
Proof. refine (inj_countable' into_binary PublicKeyTypeEd25519 _). by intros []. Qed.
#[local] Instance StellarAsset_countable : Countable StellarAsset.
Proof.
  refine (inj_countable'
    (fun a => match a with
     | AssetTypeNative => inl (inl ()) | AssetTypeCreditAlphanum4 c i => inl (inr (c, i))
     | AssetTypeCreditAlphanum12 c i => inr (inl (c, i)) | AssetDefault d => inr (inr d) end)
    (fun x => match x with
     | inl (inl _) => AssetTypeNative | inl (inr (c, i)) => AssetTypeCreditAlphanum4 c i
     | inr (inl (c, i)) => AssetTypeCreditAlphanum12 c i | inr (inr d) => AssetDefault d end) _). by intros [].
Qed.
#[local] Instance MuxedAccount_countable : Countable MuxedAccount.
Proof.
  refine (inj_countable' (fun a => match a with KeyTypeEd25519 k => inl k | MuxedOther t => inr t end)
    (fun x => match x with inl k => KeyTypeEd25519 k | inr t => MuxedOther t end) _). by intros [].
Qed.
#[local] Instance ClaimPredicate_countable : Countable ClaimPredicate.
Proof.
  refine (inj_countable' (fun a => match a with ClaimPredicateUnconditional => None | ClaimPredicateOther t => Some t end)
    (fun x => match x with None => ClaimPredicateUnconditional | Some t => ClaimPredicateOther t end) _). by intros [].
Qed.
#[local] Instance Claimant_eq_dec' : EqDecision Claimant.
Proof. solve_decision. Defined.
#[local] Instance Claimant_countable : Countable Claimant.
Proof.
  refine (inj_countable' (fun c => (claimant_destination c, predicate c)) (fun x => mkClaimant x.1 x.2) _). by intros [].
Qed.
#[local] Instance OperationBody_eq_dec' : EqDecision OperationBody.
Proof. solve_decision. Defined.
#[local] Instance OperationBody_countable : Countable OperationBody.
Proof.
  refine (inj_countable'
    (fun a => match a with
     | Payment d a x => inl (inl (d, a, x)) | CreateClaimableBalance a x l => inl (inr (a, x, l))
     | CreateAccount d x => inr (inl (d, x)) | OperationOther t => inr (inr t) end)
    (fun x => match x with
     | inl (inl (d, a, x)) => Payment d a x | inl (inr (a, x, l)) => CreateClaimableBalance a x l
     | inr (inl (d, x)) => CreateAccount d x | inr (inr t) => OperationOther t end) _). by intros [].
Qed.
#[local] Instance Memo_eq_dec' : EqDecision Memo.
Proof. solve_decision. Defined.
#[local] Instance Memo_countable : Countable Memo.
Proof.
  refine (inj_countable' (fun a => match a with MemoText k => inl k | MemoOther t => inr t end)
    (fun x => match x with inl k => MemoText k | inr t => MemoOther t end) _). by intros [].
Qed.
#[local] Instance Transaction_eq_dec' : EqDecision Transaction.
Proof. solve_decision. Defined.
#[local] Instance Transaction_countable : Countable Transaction.
Proof.
  refine (inj_countable' (fun t => (operations t, memo t, seq_num t, fee t))
    (fun x => let '(a, b, c, d) := x in mkTransaction a b c d) _). by intros [].
Qed.
#[local] Instance TransactionEnvelope_eq_dec' : EqDecision TransactionEnvelope.
Proof. solve_decision. Defined.
#[local] Instance TransactionEnvelope_countable : Countable TransactionEnvelope.
Proof.
  refine (inj_countable'
    (fun a => match a with
     | EnvelopeTypeTxV0 t => inl (inl t) | EnvelopeTypeTx t => inl (inr t)
     | EnvelopeTypeTxFeeBump t => inr (inl t) | EnvelopeDefault t => inr (inr t) end)
    (fun x => match x with
     | inl (inl t) => EnvelopeTypeTxV0 t | inl (inr t) => EnvelopeTypeTx t
     | inr (inl t) => EnvelopeTypeTxFeeBump t | inr (inr t) => EnvelopeDefault t end) _). by intros [].
Qed.

Fixpoint bits (p : positive) : Bytes :=
  match p with xH => [] | xO p => 0 :: bits p | xI p => 1 :: bits p end.
Fixpoint unbits (l : Bytes) : positive :=
  match l with [] => xH | 0 :: l => xO (unbits l) | _ :: l => xI (unbits l) end.

(** The number of the envelope, one bit per byte. *)
Definition ToyXdr : EnvelopeXdr := {|
  to_xdr env := 1 :: bits (encode env);
  from_xdr b := match b with _ :: l => decode (unbits l) | [] => None end;
|}.

Lemma ToyXdr_laws : EnvelopeXdrLaws ToyXdr.
Proof.
  assert (forall p, unbits (bits p) = p) as Hu by (induction p; simpl; congruence).
  split; simpl; [intros env; by rewrite Hu, decode_encode|intros env; constructor; [lia|]|done].
  generalize (encode env). induction p; simpl; constructor; [lia|done|lia|done].
Qed.

Definition kept_envelope : TransactionEnvelope := EnvelopeTypeTx (payment_tx 3).
Definition empty_storage : WalletStateStorage := mkStorage ∅ None.
Definition kept_storage : WalletStateStorage := (storage_save_tx_envelope (EX := ToyXdr) Written kept_envelope empty_storage).2.
Definition kept_wallet : Wallet := save_tx_envelope kept_envelope (mkWallet ∅ []).

Lemma kept_stores : stores (EX := ToyXdr) kept_storage (tx_envelopes kept_wallet).
Proof. apply (save_stores (EX := ToyXdr) empty_storage (mkWallet ∅ [])). by split; [|apply map_Forall_empty]. Qed.

Lemma cache_refines_map_witness :
  stores (EX := ToyXdr) (storage_save_tx_envelope (EX := ToyXdr) Written kept_envelope kept_storage).2
    (tx_envelopes (save_tx_envelope kept_envelope kept_wallet)) /\
  stores (EX := ToyXdr) (match sequence_number kept_envelope with
    Some seq => storage_remove_tx_envelope seq kept_storage | None => kept_storage end)
    (tx_envelopes (remove_tx_envelope_from_cache kept_envelope kept_wallet)) /\
  get_tx_envelopes (EX := ToyXdr) kept_storage = Ok (inr (cached_envelopes (tx_envelopes kept_wallet), []), kept_storage).
Proof. apply (cache_refines_map (EX := ToyXdr) (L := ToyXdr_laws)). apply kept_stores. Defined.


Lemma unfinished_file_panics_witness :
  get_tx_envelopes (EX := ToyXdr) (storage_save_tx_envelope (EX := ToyXdr) (WritingFails EmptyString) kept_envelope empty_storage).2 = Panic.
Proof. by apply (unfinished_file_panics (EX := ToyXdr) kept_envelope 3). Defined.

Lemma cursor_roundtrip_witness : get_last_cursor (save_cursor Written 123456789 empty_storage).2 = 123456789.
Proof. apply (cursor_roundtrip 123456789). vm_compute. split; discriminate. Defined.

End witnesses.
