(* ===== verification/CollectorTypes.v ===== *)
(** * Queues and maps of the vault's collector

    [src/clients/vault/src/oracle/types]: the bounded first-in-first-out map
    that holds envelopes and transaction sets, and the two-way map between
    hashes of transaction sets and slots.  [usize] is 64 bits wide, and its
    arithmetic wraps around as in a release build. *)

From S2P Require Import Prelude.

(** ** Limited queues: [types/limited_fifo_map.rs] *)

Module LimitedFifoMap.
Section fifo.
Context {K T : Type} `{EqDecision K}.

Record t := mk { limit : Z; queue : list (K * T) }.

Definition MAX_SLOTS_PER_FILE : Z := 200.
Definition DEFAULT_MAX_ITEMS_IN_QUEUE : Z := MAX_SLOTS_PER_FILE.

Definition new : t := mk DEFAULT_MAX_ITEMS_IN_QUEUE [].

Definition with_limit (self : t) (n : Z) : t :=
  if n <? DEFAULT_MAX_ITEMS_IN_QUEUE then mk DEFAULT_MAX_ITEMS_IN_QUEUE (queue self)
  else mk n (queue self).

Definition len (self : t) : Z := Z.of_nat (length (queue self)).

Definition has_key (key : K) (e : K * T) : bool := bool_decide (e.1 = key).

Definition contains (self : t) (key : K) : bool := List.existsb (has_key key) (queue self).

(** [find_position] and [VecDeque::remove]: the first entry with the key. *)
Fixpoint remove_first (key : K) (q : list (K * T)) : option T * list (K * T) :=
  match q with
  | [] => (None, [])
  | e :: rest =>
      if has_key key e then (Some e.2, rest)
      else let '(v, rest') := remove_first key rest in (v, e :: rest')
  end.

Definition remove (self : t) (key : K) : option T * t :=
  let '(v, q) := remove_first key (queue self) in (v, mk (limit self) q).

Definition clear (self : t) : t := mk (limit self) [].

Definition get (self : t) (key : K) : option T :=
  option_map snd (List.find (has_key key) (queue self)).

Definition first (self : t) : option (K * T) := head (queue self).

(** The entries of [other] that do not fit are its oldest, which are returned. *)
Definition append (self other : t) : t * list (K * T) :=
  let allowable_size := (limit self - len self) mod 2 ^ 64 in
  let other_queue_len := len other in
  if allowable_size <? other_queue_len then
    let split_index := Z.to_nat (other_queue_len - allowable_size) in
    (mk (limit self) (queue self ++ drop split_index (queue other)), take split_index (queue other))
  else (mk (limit self) (queue self ++ queue other), []).

Definition insert (self : t) (key : K) (value : T) : option T * t :=
  let '(old_value, self) := remove self key in
  let q := if len self =? limit self then tail (queue self) else queue self in
  (old_value, mk (limit self) (q ++ [(key, value)])).

(** *** Laws *)

(** At most [limit] entries, with distinct keys. *)
Record wf (m : t) : Prop := {
  bounded : len m <= limit m;
  room : 0 < limit m;
  distinct : NoDup (queue m).*1;
}.

Lemma has_key_true k e : has_key k e = true <-> e.1 = k.
Proof. unfold has_key. apply bool_decide_eq_true. Qed.

Lemma has_key_false k e : has_key k e = false <-> e.1 <> k.
Proof. unfold has_key. apply bool_decide_eq_false. Qed.

Lemma find_Some_key k q e : List.find (has_key k) q = Some e -> e.1 = k /\ (e ∈ q).
Proof. intros [Hin Hk]%List.find_some. split; [by apply has_key_true|by apply list_elem_of_In]. Qed.

Lemma find_None_key k q : List.find (has_key k) q = None <-> k ∉ q.*1.
Proof.
  induction q as [|e q IH]; simpl; [split; [inversion 2|done]|]. rewrite not_elem_of_cons.
  destruct (has_key k e) eqn:E; [apply has_key_true in E|apply has_key_false in E].
  - split; [done|]. by intros [[] _].
  - rewrite IH. split; [intros Hq; split; [by intros ->|exact Hq]|by intros []].
Qed.

Lemma get_elem m k v : get m k = Some v -> (k, v) ∈ queue m.
Proof.
  unfold get. destruct (List.find _ _) as [[k' v']|] eqn:E; [|done]. intros [= ->].
  by apply find_Some_key in E as [[= ->] ?].
Qed.

Lemma get_None m k : get m k = None <-> k ∉ (queue m).*1.
Proof. unfold get. rewrite <- find_None_key. by destruct (List.find _ _). Qed.

Lemma contains_get m k : contains m k = true <-> is_Some (get m k).
Proof.
  unfold contains, get. induction (queue m) as [|e q IH]; simpl; [split; [done|intros []; done]|].
  destruct (has_key k e); simpl; [split; eauto|done].
Qed.

Lemma contains_false m k : contains m k = false <-> get m k = None.
Proof.
  rewrite eq_None_not_Some, <- contains_get. by destruct (contains m k).
Qed.

Lemma remove_first_spec k q :
  NoDup q.*1 ->
  let '(v, q') := remove_first k q in
  v = option_map snd (List.find (has_key k) q) /\ NoDup q'.*1 /\ (k ∉ q'.*1) /\
  (q'.*1 ⊆ q.*1) /\ (forall j, j <> k -> List.find (has_key j) q' = List.find (has_key j) q) /\
  (v = None -> q' = q) /\ (is_Some v -> length q = S (length q')).
Proof.
  induction q as [|e q IH]; simpl; intros Hnd.
  - split_and!; try done. apply not_elem_of_nil.
  - apply list.NoDup_cons in Hnd as [He Hq]. specialize (IH Hq).
    destruct (has_key k e) eqn:E.
    + apply has_key_true in E as <-. split_and!; try done; [by intros ? ?; right|].
      intros j Hj. by rewrite (proj2 (has_key_false j e)) by congruence.
    + apply has_key_false in E. destruct (remove_first k q) as [v q']. destruct IH as (-> & Hn & Hk & Hs & Ho & Hnone & Hlen).
      simpl. split_and!; try done; 
        [apply list.NoDup_cons; split; [by intros ?%Hs|done]|by apply not_elem_of_cons; auto
        |by intros x; rewrite !elem_of_cons; intros [|?%Hs]; auto|..].
      * intros j Hj. destruct (has_key j e); [done|auto].
      * intros Hv. by rewrite Hnone.
      * intros Hv. by rewrite Hlen.
Qed.

Lemma remove_spec m k :
  wf m ->
  let '(v, m') := remove m k in
  v = get m k /\ wf m' /\ limit m' = limit m /\ get m' k = None /\
  (forall j, j <> k -> get m' j = get m j) /\ (v = None -> m' = m) /\
  (is_Some v -> len m = len m' + 1).
Proof.
  intros [Hb Hr Hd]. unfold remove. pose proof (remove_first_spec k _ Hd) as H.
  destruct (remove_first k (queue m)) as [v q']. destruct H as (-> & Hn & Hk & _ & Ho & Hnone & Hlen).
  unfold len in *. split_and!; try done; simpl.
  - split; simpl; [|done|done]. unfold len in *. simpl.
    destruct (option_map snd _) eqn:E; [rewrite Hlen in Hb by eauto; lia|by rewrite Hnone].
  - by rewrite get_None.
  - intros j Hj. unfold get. simpl. by rewrite Ho.
  - intros Hv. rewrite Hnone by done. by destruct m.
  - intros Hv. rewrite Hlen by done. lia.
Qed.

Lemma get_remove_eq m k : wf m -> get (remove m k).2 k = None.
Proof. intros Hm%(fun H => remove_spec m k H). destruct (remove m k). by destruct Hm as (_ & _ & _ & ? & _). Qed.

Lemma find_app_key k q q' :
  List.find (has_key k) (q ++ q') =
  match List.find (has_key k) q with Some e => Some e | None => List.find (has_key k) q' end.
Proof. induction q as [|e q IH]; simpl; [done|]. by destruct (has_key k e). Qed.

(** Inserting keeps the queue well formed, makes the entry readable, and gives
    up at most the oldest entry, and none when there is room or the key is
    already there. *)
Lemma insert_spec m k v :
  wf m ->
  let m' := (insert m k v).2 in
  wf m' /\ limit m' = limit m /\ get m' k = Some v /\
  (forall j x, j <> k -> get m' j = Some x -> get m j = Some x) /\
  (len m < limit m \/ is_Some (get m k) -> forall j, j <> k -> get m' j = get m j).
Proof.
  intros Hwf. unfold insert. pose proof (remove_spec m k Hwf) as H.
  destruct (remove m k) as [o m1]. destruct H as (-> & [Hb Hr Hd] & Hl & Hk & Ho & Hn & Hs). cbn [snd].
  set (q := if len m1 =? limit m1 then tail (queue m1) else queue m1).
  assert (Hq : NoDup q.*1 /\ (k ∉ q.*1) /\ Z.of_nat (length q) < limit m1 /\
               forall j x, option_map snd (List.find (has_key j) q) = Some x -> get m1 j = Some x).
  { apply get_None in Hk. unfold get. subst q. unfold len in *.
    destruct (Z.eqb_spec (Z.of_nat (length (queue m1))) (limit m1)) as [Hfull|Hfull];
      [|split_and!; done || lia].
    destruct (queue m1) as [|e q'] eqn:E; simpl in *; [lia|].
    apply list.NoDup_cons in Hd as [He Hd]. apply not_elem_of_cons in Hk as [Hke Hk'].
    split_and!; try done; [lia|]. intros j x Hj.
    destruct (List.find (has_key j) q') as [e'|] eqn:Ej; [|done].
    apply find_Some_key in Ej as [<- Hin]. rewrite (proj2 (has_key_false e'.1 e)); [done|].
    intros Heq. apply He. rewrite Heq. by apply (list_elem_of_fmap_2 fst). }
  destruct Hq as (Hnd & Hkq & Hlen & Hsub). split_and!; simpl.
  - split; unfold len; simpl; [rewrite length_app; simpl; lia|done|].
    rewrite fmap_app. simpl. apply list.NoDup_app. split_and!; [done| |apply NoDup_singleton].
    intros j Hj ->%list_elem_of_singleton. done.
  - done.
  - unfold get. simpl. rewrite find_app_key, (proj2 (find_None_key k q)) by done. simpl.
    by rewrite (proj2 (has_key_true k (k, v))).
  - intros j x Hj Hx. rewrite <- (Ho j Hj). apply Hsub. unfold get in Hx. simpl in Hx.
    rewrite find_app_key in Hx. destruct (List.find (has_key j) q); [done|]. simpl in Hx.
    by rewrite (proj2 (has_key_false j (k, v))) in Hx by (simpl; congruence).
  - intros Hroom j Hj. rewrite <- (Ho j Hj).
    assert (q = queue m1) as Hqe.
    { subst q. destruct (Z.eqb_spec (len m1) (limit m1)) as [He|]; [exfalso|done].
      destruct (get m k) eqn:E; [destruct Hwf; specialize (Hs ltac:(eauto)); lia|].
      rewrite (Hn eq_refl) in *. destruct Hroom as [|[]]; [lia|done]. }
    unfold get. simpl. rewrite Hqe, find_app_key. destruct (List.find (has_key j) (queue m1)); [done|].
    simpl. by rewrite (proj2 (has_key_false j (k, v))) by (simpl; congruence).
Qed.

Lemma wf_new : wf new.
Proof. split; [unfold len; simpl; unfold DEFAULT_MAX_ITEMS_IN_QUEUE, MAX_SLOTS_PER_FILE; lia|done|constructor]. Qed.

Lemma wf_with_limit n : wf (with_limit new n).
Proof.
  unfold with_limit, new, DEFAULT_MAX_ITEMS_IN_QUEUE, MAX_SLOTS_PER_FILE.
  destruct (Z.ltb_spec n 200); split; unfold len; simpl; try lia; constructor.
Qed.

Lemma append_bounded self other :
  len self <= limit self < 2 ^ 64 -> len (append self other).1 <= limit self.
Proof.
  intros H. unfold append. rewrite Z.mod_small by (unfold len in *; lia). unfold len in *.
  destruct (Z.ltb_spec (limit self - Z.of_nat (length (queue self))) (Z.of_nat (length (queue other))));
    simpl; rewrite length_app; rewrite ?length_drop; lia.
Qed.

End fifo.
#[global] Arguments t : clear implicits.
#[global] Arguments mk {K T} _ _.
End LimitedFifoMap.

(** ** Two-way maps: [types/double_sided_map.rs] *)

Module DoubleSidedHashMap.
Section two_way.
Context {K V : Type} `{Countable K} `{Countable V}.

Record t := mk { k_to_v_map : gmap K V; v_to_k_map : gmap V K }.

Definition new : t := mk ∅ ∅.

Definition insert (self : t) (k : K) (v : V) : t :=
  mk (<[k := v]> (k_to_v_map self)) (<[v := k]> (v_to_k_map self)).

Definition get_slot_by_txset_hash (self : t) (hash : K) : option V := k_to_v_map self !! hash.
Definition get_txset_hash_by_slot (self : t) (slot : V) : option K := v_to_k_map self !! slot.

(** [?] after the first removal returns before the second one. *)
Definition remove_by_slot (self : t) (slot : V) : option K * t :=
  match v_to_k_map self !! slot with
  | None => (None, self)
  | Some hash =>
      (match k_to_v_map self !! hash with Some _ => Some hash | None => None end,
       mk (delete hash (k_to_v_map self)) (delete slot (v_to_k_map self)))
  end.

Definition remove_by_txset_hash (self : t) (txset_hash : K) : option V * t :=
  match k_to_v_map self !! txset_hash with
  | None => (None, self)
  | Some slot =>
      (match v_to_k_map self !! slot with Some _ => Some slot | None => None end,
       mk (delete txset_hash (k_to_v_map self)) (delete slot (v_to_k_map self)))
  end.

(** *** Laws *)

Lemma remove_by_txset_hash_spec m hash :
  let '(o, m') := remove_by_txset_hash m hash in
  (forall slot, o = Some slot -> k_to_v_map m !! hash = Some slot) /\
  (forall h slot, k_to_v_map m' !! h = Some slot -> k_to_v_map m !! h = Some slot).
Proof.
  unfold remove_by_txset_hash. destruct (k_to_v_map m !! hash) as [s|] eqn:E; [|done].
  split; simpl; [intros slot; case_match; congruence|]. by intros h slot [_ ?]%lookup_delete_Some.
Qed.

(** Both directions agree when neither side of the pair was known before. *)
Lemma remove_by_txset_hash_insert m hash slot :
  (remove_by_txset_hash (insert m hash slot) hash).1 = Some slot.
Proof. unfold remove_by_txset_hash, insert. simpl. by rewrite lookup_insert_eq; simpl; rewrite lookup_insert_eq. Qed.

End two_way.
#[global] Arguments t K V {_ _ _ _}.
End DoubleSidedHashMap.
