(* ===== verification/Archive.v ===== *)
(** * History archives

    [src/clients/vault/src/oracle/storage]: archived SCP messages and
    transaction sets are kept by the archives in one compressed file per 64
    ledgers; the vault downloads a file into its working directory, decodes it
    and removes it after use.

    The working directory is a map from file names to contents.  Downloading,
    gzip and XDR are parameters: [ArchiveWorld]. *)

From S2P Require Import Prelude Primitives StellarRelay.

#[local] Open Scope string_scope.
#[local] Open Scope Z_scope.

Definition Slot := Z.
Definition Filename := string.

(** The entries of an archive file.  [ScpHistoryEntry] has one version. *)
Record ScpHistoryEntry := mkScpEntry { scp_ledger_seq : Z; scp_messages : list ScpEnvelope }.

Definition ARCHIVE_NODE_LEDGER_BATCH : Slot := 64.

(** [u64] arithmetic of a release build. *)
Definition u64 (x : Z) : Z := x mod 2 ^ 64.

Definition find_last_slot_index_in_batch (slot_index : Slot) : Slot :=
  let rest := u64 (slot_index + 1) mod ARCHIVE_NODE_LEDGER_BATCH in
  if rest =? 0 then slot_index
  else u64 (u64 (slot_index + ARCHIVE_NODE_LEDGER_BATCH) - rest).

(** [format!("{:08x}")] on a [u64]: at least eight hexadecimal digits. *)
Definition hex_digit (d : Z) : Ascii.ascii :=
  Ascii.ascii_of_nat (Z.to_nat (if d <? 10 then 48 + d else 87 + d)).

Fixpoint hex_digits (n : nat) (x : Z) : string :=
  match n with
  | O => EmptyString
  | S n => hex_digits n (x / 16) +:+ String (hex_digit (x mod 16)) EmptyString
  end.

Fixpoint hex_length (fuel : nat) (x : Z) : nat :=
  match fuel with
  | O => O
  | S fuel => if x =? 0 then O else S (hex_length fuel (x / 16))
  end.

Definition hex_string (x : Z) : string := hex_digits (Nat.max 8 (hex_length 16 x)) x.

(** An archive: [ScpArchiveStorage] or [TransactionsArchiveStorage], each with
    its base URL. *)
Inductive Storage := ScpArchiveStorage (url : string) | TransactionsArchiveStorage (url : string).

Definition stellar_history_base_url (self : Storage) : string :=
  match self with ScpArchiveStorage url | TransactionsArchiveStorage url => url end.
Definition PREFIX_URL (self : Storage) : string :=
  match self with ScpArchiveStorage _ => "scp" | TransactionsArchiveStorage _ => "transactions" end.
Definition PREFIX_FILENAME (self : Storage) : string :=
  match self with ScpArchiveStorage _ => EmptyString | TransactionsArchiveStorage _ => "txs-" end.

Definition get_url_and_file_name (self : Storage) (slot_index : Slot) : string * Filename :=
  let slot_index := find_last_slot_index_in_batch slot_index in
  let hex_string := hex_string slot_index in
  let file_name := hex_string +:+ ".xdr" in
  let url :=
    stellar_history_base_url self +:+ "/" +:+ PREFIX_URL self +:+ "/" +:+ String.substring 0 2 hex_string
    +:+ "/" +:+ String.substring 2 2 hex_string +:+ "/" +:+ String.substring 4 2 hex_string +:+ "/"
    +:+ PREFIX_URL self +:+ "-" +:+ file_name +:+ ".gz" in
  (url, PREFIX_FILENAME self +:+ file_name).

(** The contents of the working directory. *)
Abbreviation Files := (gmap Filename Bytes).

Section archive.
Context `{SDK : StellarSdk}.

Record TransactionHistoryEntry := mkTxEntry {
  tx_ledger_seq : Z;
  tx_set : TransactionSetType;
  ext : option TransactionSetType;
}.

(** What lies outside: the answer of an archive to a request, decompression,
    the XDR of the two kinds of files, and whether a vector fits into an XDR
    array, [UnlimitedVarArray::new]. *)
Class ArchiveWorld := {
  download : string -> option Bytes;
  gz_decode : Bytes -> option Bytes;
  scp_archive_from_xdr : Bytes -> option (list ScpHistoryEntry);
  transactions_archive_from_xdr : Bytes -> option (list TransactionHistoryEntry);
  fits_var_array : list ScpEnvelope -> bool;
}.

Context `{AW : ArchiveWorld}.

Definition try_gz_decode_archive_file (path : Filename) (files : Files) : option Bytes :=
  files !! path ≫= gz_decode.

Definition download_file_and_save (url : string) (file_name : Filename) (files : Files)
  : option Files :=
  content ← download url; Some (<[file_name := content]> files).

(** [get_archive] for a decoder [decode_xdr] of the storage's entries. *)
Definition get_archive {T} (decode_xdr : Bytes -> option (list T)) (self : Storage)
    (slot_index : Slot) (files : Files) : option (list T) * Files :=
  let '(url, file_name) := get_url_and_file_name self slot_index in
  match try_gz_decode_archive_file file_name files with
  | Some bytes => (decode_xdr bytes, files)
  | None =>
      match download_file_and_save url file_name files with
      | None => (None, files)
      | Some files => (try_gz_decode_archive_file file_name files ≫= decode_xdr, files)
      end
  end.

Definition remove_file (self : Storage) (target_slot : Slot) (files : Files) : Files :=
  let '(_, file) := get_url_and_file_name self target_slot in delete file files.

End archive.

(** ** Batches and file names *)

Lemma last_slot_index s :
  0 <= s -> s + ARCHIVE_NODE_LEDGER_BATCH < 2 ^ 64 -> find_last_slot_index_in_batch s = s / 64 * 64 + 63.
Proof.
  unfold find_last_slot_index_in_batch, ARCHIVE_NODE_LEDGER_BATCH, u64. intros H0 H.
  rewrite (Z.mod_small (s + 1)) by lia. rewrite (Z.mod_small (s + 64)) by lia.
  pose proof (Z.div_mod s 64 ltac:(lia)). pose proof (Z.mod_pos_bound s 64 ltac:(lia)).
  pose proof (Z.mod_pos_bound (s + 1) 64 ltac:(lia)). pose proof (Z.div_mod (s + 1) 64 ltac:(lia)).
  destruct (Z.eqb_spec ((s + 1) mod 64) 0) as [He|He]; [|rewrite Z.mod_small by lia];
    rewrite He in * || idtac; lia.
Qed.

(** The number a string of hexadecimal digits stands for. *)
Definition digit_value (a : Ascii.ascii) : Z :=
  let n := Z.of_nat (Ascii.nat_of_ascii a) in if n <? 58 then n - 48 else n - 87.

Fixpoint hex_value (acc : Z) (s : string) : Z :=
  match s with EmptyString => acc | String a s => hex_value (16 * acc + digit_value a) s end.

Lemma digit_roundtrip d : 0 <= d < 16 -> digit_value (hex_digit d) = d.
Proof.
  intros H. assert (d ∈ seqZ 0 16) as Hin by (apply elem_of_seqZ; lia). clear H.
  revert d Hin. apply (proj1 (list.Forall_forall _ _)). vm_compute. repeat constructor.
Qed.

Lemma hex_value_app acc s s' : hex_value acc (s +:+ s') = hex_value (hex_value acc s) s'.
Proof. revert acc. induction s as [|a s IH]; intros acc; simpl; [done|apply IH]. Qed.

Lemma hex_digits_value n x : 0 <= x -> hex_value 0 (hex_digits n x) = x mod 16 ^ Z.of_nat n.
Proof.
  revert x. induction n as [|n IH]; intros x Hx; cbn [hex_digits].
  { by rewrite Z.mod_1_r. }
  rewrite hex_value_app, IH by (apply Z.div_pos; lia). cbn [hex_value].
  rewrite digit_roundtrip by (apply Z.mod_pos_bound; lia).
  rewrite Nat2Z.inj_succ, Z.pow_succ_r, Z.rem_mul_r by lia. lia.
Qed.

Lemma hex_length_bound fuel x :
  0 <= x < 16 ^ Z.of_nat fuel -> x < 16 ^ Z.of_nat (hex_length fuel x).
Proof.
  revert x. induction fuel as [|fuel IH]; intros x H; [simpl in *; lia|]. cbn [hex_length].
  destruct (Z.eqb_spec x 0) as [->|Hx]; [done|].
  rewrite Nat2Z.inj_succ, Z.pow_succ_r in H |- * by lia.
  assert (x / 16 < 16 ^ Z.of_nat (hex_length fuel (x / 16))).
  { apply IH. split; [apply Z.div_pos; lia|]. apply Z.div_lt_upper_bound; lia. }
  pose proof (Z.div_mod x 16 ltac:(lia)). pose proof (Z.mod_pos_bound x 16 ltac:(lia)). lia.
Qed.

Lemma hex_string_value x : 0 <= x < 2 ^ 64 -> hex_value 0 (hex_string x) = x.
Proof.
  intros H. unfold hex_string. rewrite hex_digits_value, Z.mod_small; [done| |lia]. split; [lia|].
  eapply Z.lt_le_trans; [apply (hex_length_bound 16); lia|]. apply Z.pow_le_mono_r; lia.
Qed.

Lemma hex_digits_head n x : exists d s, hex_digits (S n) x = String (hex_digit d) s /\ 0 <= d < 16.
Proof.
  revert x. induction n as [|n IH]; intros x.
  - exists (x mod 16), EmptyString. split; [done|]. apply Z.mod_pos_bound. lia.
  - destruct (IH (x / 16)) as (d & s & E & Hd). remember (S n) as m. cbn [hex_digits].
    rewrite E. exists d. eexists. split; [reflexivity|done].
Qed.

Lemma hex_digit_not_t d : 0 <= d < 16 -> hex_digit d <> Ascii.ascii_of_nat 116.
Proof. intros Hd E. pose proof (digit_roundtrip d Hd) as H. rewrite E in H. vm_compute in H. lia. Qed.

Lemma string_app_inj (s s1 s2 : string) : s +:+ s1 = s +:+ s2 -> s1 = s2.
Proof. induction s as [|a s IH]; simpl; [done|]. intros [= H]. auto. Qed.

Lemma string_length_app (s1 s2 : string) :
  String.length (s1 +:+ s2) = (String.length s1 + String.length s2)%nat.
Proof. induction s1 as [|a s1 IH]; simpl; [done|by rewrite IH]. Qed.

Lemma string_app_inj_r (s1 s2 s : string) : s1 +:+ s = s2 +:+ s -> s1 = s2.
Proof.
  intros H. assert (String.length s1 = String.length s2) as Hl.
  { apply (f_equal String.length) in H. rewrite !string_length_app in H. lia. }
  revert s2 H Hl. induction s1 as [|a s1 IH]; intros [|b s2]; simpl; try done.
  intros [= -> H] [= Hl]. by rewrite (IH s2).
Qed.

Lemma hex_not_txs x s s' : hex_string x +:+ s <> "txs-" +:+ s'.
Proof.
  unfold hex_string. destruct (Nat.max 8 (hex_length 16 x)) as [|n] eqn:E; [lia|].
  destruct (hex_digits_head n x) as (d & r & -> & Hd). simpl. intros [= H _]. by apply (hex_digit_not_t d).
Qed.

Lemma batch_bounds s : 0 <= s -> s + 64 < 2 ^ 64 -> 0 <= s / 64 * 64 + 63 < 2 ^ 64.
Proof. intros. pose proof (Z.div_mod s 64 ltac:(lia)). pose proof (Z.div_pos s 64). pose proof (Z.mod_pos_bound s 64). lia. Qed.

(** Slots share an archive file exactly when they lie in the same batch of
    64 ledgers, and files of messages and of transactions never collide. *)
Theorem archive_file_per_batch a b s t :
  0 <= s -> s + ARCHIVE_NODE_LEDGER_BATCH < 2 ^ 64 -> 0 <= t -> t + ARCHIVE_NODE_LEDGER_BATCH < 2 ^ 64 ->
  (get_url_and_file_name a s).2 = (get_url_and_file_name b t).2 <->
  PREFIX_FILENAME a = PREFIX_FILENAME b /\ s / ARCHIVE_NODE_LEDGER_BATCH = t / ARCHIVE_NODE_LEDGER_BATCH.
Proof.
  intros Hs0 Hs Ht0 Ht. unfold get_url_and_file_name, ARCHIVE_NODE_LEDGER_BATCH in *. cbn [snd].
  rewrite !last_slot_index by done. split.
  - assert (PREFIX_FILENAME a = PREFIX_FILENAME b ->
      PREFIX_FILENAME a +:+ hex_string (s / 64 * 64 + 63) +:+ ".xdr" =
      PREFIX_FILENAME b +:+ hex_string (t / 64 * 64 + 63) +:+ ".xdr" -> s / 64 = t / 64) as Hsame.
    { intros -> H%string_app_inj%string_app_inj_r%(f_equal (hex_value 0)).
      rewrite !hex_string_value in H by by apply batch_bounds. lia. }
    destruct a, b; intros H; try (split; [done|by apply Hsame]);
      [apply hex_not_txs in H|symmetry in H; apply hex_not_txs in H]; done.
  - by intros [-> ->].
Qed.

Lemma archive_file_per_batch_witness :
  (get_url_and_file_name (ScpArchiveStorage "a") 44041100).2 =
  (get_url_and_file_name (ScpArchiveStorage "b") 44041116).2.
Proof. apply archive_file_per_batch; by vm_compute. Defined.
