(* ===== verification/ScpCollector.v ===== *)
(** * The vault's collector of SCP messages

    [src/clients/vault/src/oracle/collector] and [agent.rs]: the vault listens
    to the Stellar overlay, keeps the externalized envelopes and the
    transaction sets of recent slots, and builds from them, or from history
    archives, the proofs that the stellar-relay pallet checks.

    Each call holds the collector's lock, so a call is one step of the
    collector.  The agent's state is the collector, the working directory of
    the archives and the messages sent to the Stellar node; [open] says whether
    the channel to the connection still has a receiver. *)

From S2P Require Import Prelude Primitives StellarRelay CollectorTypes Archive.

Abbreviation fifo := LimitedFifoMap.t (only parsing).

Abbreviation TxSetHash := Bytes (only parsing).

Section collector.
Context `{SDK : StellarSdk}.

Record ScpMessageCollector := mkCollector {
  envelopes_map : fifo Slot (list ScpEnvelope);
  env_from_archive_map : fifo Slot unit;
  txset_map : fifo Slot TransactionSetType;
  txset_and_slot_map : DoubleSidedHashMap.t TxSetHash Slot;
  last_slot_index : Slot;
  public_network : bool;
  stellar_history_archive_urls : list string;
}.

Definition new (public_network : bool) (urls : list string) : ScpMessageCollector :=
  mkCollector LimitedFifoMap.new LimitedFifoMap.new LimitedFifoMap.new DoubleSidedHashMap.new 0
    public_network urls.

Definition new_with_size_limit (public_network : bool) (urls : list string) (size_limit : Z)
  : ScpMessageCollector :=
  mkCollector (LimitedFifoMap.with_limit LimitedFifoMap.new size_limit)
    (LimitedFifoMap.with_limit LimitedFifoMap.new size_limit)
    (LimitedFifoMap.with_limit LimitedFifoMap.new size_limit)
    DoubleSidedHashMap.new 0 public_network urls.

Definition set_envelopes_map m (c : ScpMessageCollector) : ScpMessageCollector :=
  mkCollector m (env_from_archive_map c) (txset_map c) (txset_and_slot_map c) (last_slot_index c)
    (public_network c) (stellar_history_archive_urls c).
Definition set_env_from_archive_map m (c : ScpMessageCollector) : ScpMessageCollector :=
  mkCollector (envelopes_map c) m (txset_map c) (txset_and_slot_map c) (last_slot_index c)
    (public_network c) (stellar_history_archive_urls c).
Definition set_txset_map m (c : ScpMessageCollector) : ScpMessageCollector :=
  mkCollector (envelopes_map c) (env_from_archive_map c) m (txset_and_slot_map c)
    (last_slot_index c) (public_network c) (stellar_history_archive_urls c).
Definition set_txset_and_slot_map m (c : ScpMessageCollector) : ScpMessageCollector :=
  mkCollector (envelopes_map c) (env_from_archive_map c) (txset_map c) m (last_slot_index c)
    (public_network c) (stellar_history_archive_urls c).
Definition put_last_slot_index i (c : ScpMessageCollector) : ScpMessageCollector :=
  mkCollector (envelopes_map c) (env_from_archive_map c) (txset_map c) (txset_and_slot_map c) i
    (public_network c) (stellar_history_archive_urls c).

(** ** collector.rs *)

Definition is_envelopes_data_from_archive (c : ScpMessageCollector) (slot : Slot) : bool :=
  LimitedFifoMap.contains (env_from_archive_map c) slot.

Definition get_txset_hash_by_slot (c : ScpMessageCollector) (slot : Slot) : option TxSetHash :=
  DoubleSidedHashMap.get_txset_hash_by_slot (txset_and_slot_map c) slot.

Definition add_scp_envelope (slot : Slot) (scp_envelope : ScpEnvelope) (c : ScpMessageCollector)
  : ScpMessageCollector :=
  let value :=
    match LimitedFifoMap.get (envelopes_map c) slot with
    | Some value => value ++ [scp_envelope]
    | None => [scp_envelope]
    end in
  set_envelopes_map (LimitedFifoMap.insert (envelopes_map c) slot value).2 c.

Definition save_txset_hash_and_slot (txset_hash : TxSetHash) (slot : Slot)
    (c : ScpMessageCollector) : ScpMessageCollector :=
  set_txset_and_slot_map (DoubleSidedHashMap.insert (txset_and_slot_map c) txset_hash slot) c.

Definition set_last_slot_index (slot : Slot) (c : ScpMessageCollector) : ScpMessageCollector :=
  if last_slot_index c <? slot then put_last_slot_index slot c else c.

(** The result says whether the set had a slot, that is [Ok]. *)
Definition add_txset_type (tx_set : TransactionSetType) (c : ScpMessageCollector)
  : bool * ScpMessageCollector :=
  match tx_set_hash_of tx_set with
  | None => (false, c)
  | Some hash =>
      let '(slot, m) := DoubleSidedHashMap.remove_by_txset_hash (txset_and_slot_map c) hash in
      let c := set_txset_and_slot_map m c in
      match slot with
      | Some slot => (true, set_txset_map (LimitedFifoMap.insert (txset_map c) slot tx_set).2 c)
      | None => (false, c)
      end
  end.

Definition remove_data (slot : Slot) (c : ScpMessageCollector) : ScpMessageCollector :=
  let c := set_envelopes_map (LimitedFifoMap.remove (envelopes_map c) slot).2 c in
  let c := set_env_from_archive_map (LimitedFifoMap.remove (env_from_archive_map c) slot).2 c in
  set_txset_map (LimitedFifoMap.remove (txset_map c) slot).2 c.

Definition is_txset_new (c : ScpMessageCollector) (txset_hash : TxSetHash) (slot : Slot) : bool :=
  match DoubleSidedHashMap.get_slot_by_txset_hash (txset_and_slot_map c) txset_hash with
  | Some _ => false
  | None => negb (LimitedFifoMap.contains (txset_map c) slot)
  end.

(** ** The agent *)

Inductive StellarMessage :=
| ScpMessage (env : ScpEnvelope)
| TxSet (set : TransactionSetType)
| GeneralizedTxSet (set : TransactionSetType)
| GetTxSet (hash : TxSetHash)
| GetScpState (ledger_seq : Z)
| OtherMessage.

Record Agent := mkAgent {
  collector : ScpMessageCollector;
  files : Files;
  sent : list StellarMessage;
  open : bool;
}.

Definition on_collector (f : ScpMessageCollector -> ScpMessageCollector) (a : Agent) : Agent :=
  mkAgent (f (collector a)) (files a) (sent a) (open a).
Definition set_files (fs : Files) (a : Agent) : Agent :=
  mkAgent (collector a) fs (sent a) (open a).

(** [sender.send(message).await], an error once the receiver is gone. *)
Definition send (message : StellarMessage) (a : Agent) : bool * Agent :=
  if open a then (true, mkAgent (collector a) (files a) (sent a ++ [message]) (open a))
  else (false, a).

(** What a handler ends with: a value, an error of the client, or a panic. *)
Inductive result (A : Type) := Returns (a : A) | Fails | Panics.
#[global] Arguments Returns {A} _.
#[global] Arguments Fails {A}.
#[global] Arguments Panics {A}.

(** [x.commit.value[0..32].try_into()]: a slice out of range panics. *)
Definition client_get_tx_set_hash (scp_value : Bytes) : result TxSetHash :=
  if (length scp_value <? 32)%nat then Panics else Returns (take 32 scp_value).

Definition handle_envelope (env : ScpEnvelope) (a : Agent) : result (option Slot) * Agent :=
  let slot := slot_index (statement env) in
  match pledges (statement env) with
  | ScpStExternalize commit_value _ =>
      let a := on_collector (set_last_slot_index slot) a in
      match client_get_tx_set_hash commit_value with
      | Panics => (Panics, a)
      | Fails => (Fails, a)
      | Returns txset_hash =>
          let '(ok, a) :=
            if is_txset_new (collector a) txset_hash slot then
              let '(ok, a) := send (GetTxSet txset_hash) a in
              if ok then (true, on_collector (save_txset_hash_and_slot txset_hash slot) a)
              else (false, a)
            else (true, a) in
          if ok then (Returns (Some slot), on_collector (add_scp_envelope slot env) a)
          else (Fails, a)
      end
  | _ => (Returns None, on_collector (remove_data slot) a)
  end.

(** [handle_message] of [agent.rs]: errors of [add_txset] are logged. *)
Definition handle_message (message : StellarMessage) (a : Agent) : result unit * Agent :=
  match message with
  | ScpMessage env =>
      match handle_envelope env a with
      | (Returns _, a) => (Returns tt, a)
      | (Fails, a) => (Fails, a)
      | (Panics, a) => (Panics, a)
      end
  | TxSet set | GeneralizedTxSet set =>
      (Returns tt, on_collector (fun c => (add_txset_type set c).2) a)
  | _ => (Returns tt, a)
  end.

(** ** proof_builder.rs *)

Definition MAX_SLOTS_TO_REMEMBER : Slot := 12.
Definition VALIDATOR_COUNT_TEST_NETWORK : Z := 3.
Definition VALIDATOR_COUNT_PUBLIC_NETWORK : Z := 23.

Definition get_min_externalized_messages (public_network : bool) : Z :=
  let validator_count :=
    if public_network then VALIDATOR_COUNT_PUBLIC_NETWORK else VALIDATOR_COUNT_TEST_NETWORK in
  validator_count * 2 / 3.

Definition check_slot_still_recoverable_from_overlay (last_slot_index slot : Slot) : bool :=
  let recoverable_point := Z.max 0 (last_slot_index - MAX_SLOTS_TO_REMEMBER) in
  negb (last_slot_index =? 0) && (recoverable_point <? slot).

Record Proof := mkProof {
  slot : Slot;
  envelopes : list ScpEnvelope;
  proof_tx_set : TransactionSetType;
}.

Definition ask_overlay_for_envelopes (slot : Slot) (a : Agent) : Agent :=
  if (0 <=? slot) && (slot <=? u32_max) then (send (GetScpState slot) a).2 else a.

Definition ask_overlay_for_txset (slot : Slot) (a : Agent) : Agent :=
  match get_txset_hash_by_slot (collector a) slot with
  | Some txset_hash => (send (GetTxSet txset_hash) a).2
  | None => a
  end.

Definition is_relevant (scp : ScpEnvelope) : bool :=
  match pledges (statement scp) with
  | ScpStExternalize _ _ | ScpStConfirm _ _ => true
  | _ => false
  end.

Context `{AW : !ArchiveWorld}.

(** The loop over the archives ends at the first with a usable entry. *)
Fixpoint get_envelopes_from_horizon_archive (archive_urls : list string) (slot : Slot) (a : Agent)
  : Agent :=
  match archive_urls with
  | [] => a
  | archive_url :: rest =>
      let storage := ScpArchiveStorage archive_url in
      let '(archive, fs) := get_archive scp_archive_from_xdr storage slot (files a) in
      let a := set_files fs a in
      match archive with
      | None => get_envelopes_from_horizon_archive rest slot a
      | Some scp_archive =>
          match List.find (fun e => scp_ledger_seq e =? slot) scp_archive with
          | None => get_envelopes_from_horizon_archive rest slot a
          | Some entry =>
              let relevant_envelopes := List.filter is_relevant (scp_messages entry) in
              let externalized := List.filter is_externalize relevant_envelopes in
              let a' := set_files (remove_file storage slot (files a)) a in
              if (length externalized =? 0)%nat then
                get_envelopes_from_horizon_archive rest slot a'
              else
                on_collector (fun c =>
                  let c := set_envelopes_map
                             (LimitedFifoMap.insert (envelopes_map c) slot relevant_envelopes).2 c in
                  set_env_from_archive_map
                    (LimitedFifoMap.insert (env_from_archive_map c) slot tt).2 c) a'
          end
      end
  end.

Fixpoint get_txset_from_horizon_archive (archive_urls : list string) (slot : Slot) (a : Agent)
  : Agent :=
  match archive_urls with
  | [] => a
  | archive_url :: rest =>
      let storage := TransactionsArchiveStorage archive_url in
      let '(archive, fs) := get_archive transactions_archive_from_xdr storage slot (files a) in
      let a := set_files fs a in
      match archive with
      | None => get_txset_from_horizon_archive rest slot a
      | Some transactions_archive =>
          match List.find (fun e => tx_ledger_seq e =? slot) transactions_archive with
          | None => get_txset_from_horizon_archive rest slot a
          | Some entry =>
              let tx_set_type := match ext entry with Some g => g | None => tx_set entry end in
              let a := on_collector (fun c =>
                set_txset_map (LimitedFifoMap.insert (txset_map c) slot tx_set_type).2 c) a in
              set_files (remove_file storage slot (files a)) a
          end
      end
  end.

Definition _get_envelopes (slot : Slot) (a : Agent) : Agent :=
  if check_slot_still_recoverable_from_overlay (last_slot_index (collector a)) slot
  then ask_overlay_for_envelopes slot a
  else get_envelopes_from_horizon_archive (stellar_history_archive_urls (collector a)) slot a.

Definition enough_envelopes (c : ScpMessageCollector) (slot : Slot) (envs : list ScpEnvelope) : bool :=
  negb (negb (is_envelopes_data_from_archive c slot) &&
        (len envs <? get_min_externalized_messages (public_network c))).

Definition get_envelopes (slot : Slot) (a : Agent) : option (list ScpEnvelope) * Agent :=
  match LimitedFifoMap.get (envelopes_map (collector a)) slot with
  | Some envs =>
      if enough_envelopes (collector a) slot envs
      then (if fits_var_array envs then Some envs else None, a)
      else (None, _get_envelopes slot a)
  | None => (None, _get_envelopes slot a)
  end.

Definition get_txset (slot : Slot) (a : Agent) : option TransactionSetType * Agent :=
  match LimitedFifoMap.get (txset_map (collector a)) slot with
  | Some res => (Some res, a)
  | None =>
      (None,
       if check_slot_still_recoverable_from_overlay (last_slot_index (collector a)) slot
       then ask_overlay_for_txset slot a
       else get_txset_from_horizon_archive (stellar_history_archive_urls (collector a)) slot a)
  end.

Definition build_proof (slot : Slot) (a : Agent) : option Proof * Agent :=
  if last_slot_index (collector a) =? 0 then (None, a)
  else
    match get_envelopes slot a with
    | (None, a) => (None, a)
    | (Some envs, a) =>
        match get_txset slot a with
        | (None, a) => (None, a)
        | (Some set, a) => (Some (mkProof slot envs set), a)
        end
    end.

End collector.

(** ** Runs *)

Section runs.
Context `{SDK : StellarSdk}.

(** The agent hears a message, or is asked for a proof while the archives
    answer as [aw] says. *)
Inductive Event := Hears (message : StellarMessage) | Builds (aw : ArchiveWorld) (slot : Slot).

Definition exec (e : Event) (a : Agent) : Agent :=
  match e with
  | Hears message => (handle_message message a).2
  | Builds aw slot => (build_proof slot a).2
  end.

Definition run (events : list Event) (a : Agent) : Agent := fold_left (fun a e => exec e a) events a.

(** [get_proof] of [agent.rs]: attempts every [BUILD_PROOF_INTERVAL] seconds
    until one succeeds or the timeout of 60 seconds strikes.  [pauses] are the
    events during the waits, one list per wait that ends before the timeout. *)
Fixpoint get_proof `{AW : !ArchiveWorld} (pauses : list (list Event)) (slot : Slot) (a : Agent)
  : option Proof * Agent :=
  match build_proof slot a with
  | (Some proof, a) => (Some proof, a)
  | (None, a) =>
      match pauses with
      | [] => (None, a)
      | events :: pauses => get_proof pauses slot (run events a)
      end
  end.

(** [e] is an externalize statement for [slot] that was heard. *)
Definition heard (events : list Event) (slot : Slot) (e : ScpEnvelope) : Prop :=
  Hears (ScpMessage e) ∈ events /\ is_externalize e = true /\ slot_index (statement e) = slot.

(** An externalize statement for [slot] with this hash was heard. *)
Definition announced (events : list Event) (slot : Slot) (h : TxSetHash) : Prop :=
  exists e value n_h, heard events slot e /\ pledges (statement e) = ScpStExternalize value n_h /\
    client_get_tx_set_hash value = Returns h.

(** What the entry of a slot in some archive file holds. *)
Definition archived (events : list Event) (slot : Slot) (e : ScpEnvelope) : Prop :=
  exists aw file entries entry,
    Builds aw slot ∈ events /\ scp_archive_from_xdr (ArchiveWorld := aw) file = Some entries /\
    entry ∈ entries /\ scp_ledger_seq entry = slot /\ e ∈ scp_messages entry /\ is_relevant e = true.
Definition archived_set (events : list Event) (slot : Slot) (set : TransactionSetType) : Prop :=
  exists aw file entries entry,
    Builds aw slot ∈ events /\ transactions_archive_from_xdr (ArchiveWorld := aw) file = Some entries /\
    entry ∈ entries /\ tx_ledger_seq entry = slot /\ (set = tx_set entry \/ ext entry = Some set).

Definition sound_set (events : list Event) (slot : Slot) (set : TransactionSetType) : Prop :=
  (exists h, tx_set_hash_of set = Some h /\ announced events slot h) \/ archived_set events slot set.

Record CollectorInv (events : list Event) (c : ScpMessageCollector) : Prop := {
  wf_envelopes : LimitedFifoMap.wf (envelopes_map c);
  wf_from_archive : LimitedFifoMap.wf (env_from_archive_map c);
  wf_txsets : LimitedFifoMap.wf (txset_map c);
  limits : LimitedFifoMap.limit (envelopes_map c) = LimitedFifoMap.DEFAULT_MAX_ITEMS_IN_QUEUE /\
    LimitedFifoMap.limit (env_from_archive_map c) = LimitedFifoMap.DEFAULT_MAX_ITEMS_IN_QUEUE /\
    LimitedFifoMap.limit (txset_map c) = LimitedFifoMap.DEFAULT_MAX_ITEMS_IN_QUEUE;
  envelopes_sound : forall slot envs, LimitedFifoMap.get (envelopes_map c) slot = Some envs ->
    Forall (fun e => heard events slot e \/ archived events slot e) envs;
  hashes_sound : forall h slot,
    DoubleSidedHashMap.k_to_v_map (txset_and_slot_map c) !! h = Some slot -> announced events slot h;
  txsets_sound : forall slot set,
    LimitedFifoMap.get (txset_map c) slot = Some set -> sound_set events slot set;
}.

(** *** Every event keeps the invariant *)

Lemma inv_mono events events' c : events ⊆ events' -> CollectorInv events c -> CollectorInv events' c.
Proof.
  intros Hs [? ? ? ? He Hh Ht].
  assert (Hheard : forall s e, heard events s e -> heard events' s e) by (intros s e (?%Hs & ?); by split).
  assert (Hann : forall s h, announced events s h -> announced events' s h).
  { intros s h (e & v & n & ? & ?). exists e, v, n. by eauto. }
  split; try done.
  - intros s l Hl. eapply list.Forall_impl; [by apply He|]. intros e [|(aw & f & en & x & ?%Hs & ?)]; [by auto|].
    right. by exists aw, f, en, x.
  - by eauto.
  - intros s set [(h & ? & ?)|(aw & f & en & x & ?%Hs & ?)]%Ht; [left; by eauto|]. right. by exists aw, f, en, x.
Qed.

Lemma inv_set_last_slot_index ev slot c : CollectorInv ev c -> CollectorInv ev (set_last_slot_index slot c).
Proof. intros [? ? ? ? ? ? ?]. unfold set_last_slot_index. destruct (_ <? _); by split. Qed.

(** The invariant after an insertion into one of the queues. *)
Lemma inv_insert_envelopes ev slot envs c :
  CollectorInv ev c -> Forall (fun e => heard ev slot e \/ archived ev slot e) envs ->
  CollectorInv ev (set_envelopes_map (LimitedFifoMap.insert (envelopes_map c) slot envs).2 c).
Proof.
  intros [Hw ? ? (? & ? & ?) He ? ?] Henvs.
  destruct (LimitedFifoMap.insert_spec (envelopes_map c) slot envs Hw) as (Hw' & Hl & Hget & Hother & _).
  split; simpl; try done; [split_and!; congruence|].
  intros s l. destruct (decide (s = slot)) as [->|Hne]; [rewrite Hget; by intros [= <-]|].
  intros Hs. by apply He, Hother.
Qed.

Lemma inv_insert_txset ev slot set c :
  CollectorInv ev c -> sound_set ev slot set ->
  CollectorInv ev (set_txset_map (LimitedFifoMap.insert (txset_map c) slot set).2 c).
Proof.
  intros [? ? Hw (? & ? & ?) ? ? Ht] Hset.
  destruct (LimitedFifoMap.insert_spec (txset_map c) slot set Hw) as (Hw' & Hl & Hget & Hother & _).
  split; simpl; try done; [split_and!; congruence|].
  intros s l. destruct (decide (s = slot)) as [->|Hne]; [rewrite Hget; by intros [= <-]|].
  intros Hs. by apply Ht, Hother.
Qed.

Lemma inv_insert_flag ev slot c :
  CollectorInv ev c ->
  CollectorInv ev (set_env_from_archive_map (LimitedFifoMap.insert (env_from_archive_map c) slot tt).2 c).
Proof.
  intros [? Hw ? (? & ? & ?) ? ? ?].
  destruct (LimitedFifoMap.insert_spec (env_from_archive_map c) slot tt Hw) as (Hw' & Hl & _).
  split; simpl; try done. split_and!; congruence.
Qed.

Lemma inv_save_hash ev slot h c :
  CollectorInv ev c -> announced ev slot h -> CollectorInv ev (save_txset_hash_and_slot h slot c).
Proof.
  intros [? ? ? ? ? Hh ?] Ha. split; simpl; try done. intros h' s.
  destruct (decide (h = h')) as [->|Hne]; [rewrite lookup_insert_eq; by intros [= <-]|].
  rewrite lookup_insert_ne by done. apply Hh.
Qed.

Lemma inv_add_txset ev set c : CollectorInv ev c -> CollectorInv ev (add_txset_type set c).2.
Proof.
  intros I. pose proof I as [? ? ? ? ? Hh ?]. unfold add_txset_type.
  destruct (tx_set_hash_of set) as [h|] eqn:Eh; [|done].
  pose proof (DoubleSidedHashMap.remove_by_txset_hash_spec (txset_and_slot_map c) h) as Hspec.
  destruct (DoubleSidedHashMap.remove_by_txset_hash (txset_and_slot_map c) h) as [o m].
  destruct Hspec as [Ho Hm]. assert (CollectorInv ev (set_txset_and_slot_map m c)) as I'.
  { split; simpl; try done. intros h' s' ?%Hm. by apply Hh. }
  destruct o as [s|]; [|done]. apply inv_insert_txset; [done|]. left. exists h. eauto.
Qed.

Lemma inv_remove_data ev slot c : CollectorInv ev c -> CollectorInv ev (remove_data slot c).
Proof.
  intros [W1 W2 W3 (L1 & L2 & L3) He Hh Ht]. unfold remove_data. simpl.
  pose proof (LimitedFifoMap.remove_spec _ slot W1) as S1. pose proof (LimitedFifoMap.remove_spec _ slot W2) as S2.
  pose proof (LimitedFifoMap.remove_spec _ slot W3) as S3.
  destruct (LimitedFifoMap.remove (envelopes_map c) slot) as [o1 m1], (LimitedFifoMap.remove (env_from_archive_map c) slot) as [o2 m2],
    (LimitedFifoMap.remove (txset_map c) slot) as [o3 m3].
  destruct S1 as (_ & ? & ? & G1 & O1 & _), S2 as (_ & ? & ? & _), S3 as (_ & ? & ? & G3 & O3 & _).
  split; simpl; try done; [split_and!; congruence|..].
  - intros s l Hs. apply He. destruct (decide (s = slot)) as [->|]; [congruence|by rewrite <- O1].
  - intros s l Hs. apply Ht. destruct (decide (s = slot)) as [->|]; [congruence|by rewrite <- O3].
Qed.

Lemma send_collector m a : collector (send m a).2 = collector a.
Proof. unfold send. by destruct (open a). Qed.

Lemma inv_handle_envelope ev env a :
  CollectorInv ev (collector a) -> Hears (ScpMessage env) ∈ ev ->
  CollectorInv ev (collector (handle_envelope env a).2).
Proof.
  intros I Hin. unfold handle_envelope. destruct (pledges (statement env)) as [| |value n_h|] eqn:Ep;
    try by apply inv_remove_data.
  set (slot := slot_index (statement env)).
  assert (heard ev slot env) as Hh by (unfold heard, is_externalize; by rewrite Ep).
  pose proof (inv_set_last_slot_index ev slot _ I) as I1.
  destruct (client_get_tx_set_hash value) as [h| |] eqn:Eh; try done.
  assert (announced ev slot h) as Ha by by exists env, value, n_h.
  assert (Hadd : forall c, CollectorInv ev c -> CollectorInv ev (add_scp_envelope slot env c)).
  { intros c Ic. apply inv_insert_envelopes; [done|]. destruct (LimitedFifoMap.get _ _) as [l|] eqn:El.
    - apply Forall_app_2; [by eapply envelopes_sound|]. constructor; auto.
    - constructor; auto. }
  destruct (is_txset_new _ _ _); [|by apply Hadd]. unfold send. destruct (open _); simpl; [|done]. by apply Hadd, inv_save_hash.
Qed.

(** The entry that an archive file has for a slot. *)
Lemma find_entry {T} (seq : T -> Z) slot entries e :
  List.find (fun e => seq e =? slot) entries = Some e -> e ∈ entries /\ seq e = slot.
Proof. intros [Hin He%Z.eqb_eq]%List.find_some. split; [by apply list_elem_of_In|done]. Qed.

Lemma get_archive_decodes `{AW : ArchiveWorld} {T} (decode : Bytes -> option (list T)) st slot fs entries fs' :
  get_archive decode st slot fs = (Some entries, fs') -> exists file, decode file = Some entries.
Proof.
  unfold get_archive. destruct (get_url_and_file_name st slot) as [url file].
  destruct (try_gz_decode_archive_file file fs) as [b|]; [intros [= ? _]; by exists b|].
  destruct (download_file_and_save url file fs) as [fs1|]; [|done].
  destruct (try_gz_decode_archive_file file fs1) as [b|]; [intros [= ? _]; by exists b|done].
Qed.

Lemma inv_archive_envelopes ev aw slot urls a :
  CollectorInv ev (collector a) -> Builds aw slot ∈ ev ->
  CollectorInv ev (collector (get_envelopes_from_horizon_archive urls slot a)).
Proof.
  intros I Hin. revert a I. induction urls as [|url urls IH]; intros a I; simpl; [done|].
  destruct (get_archive _ _ _ _) as [[entries|] fs] eqn:E; [|by apply IH].
  destruct (List.find _ _) as [entry|] eqn:Ef; [|by apply IH]. destruct (_ =? _)%nat; [by apply IH|].
  refine (inv_insert_flag ev slot (set_envelopes_map _ (collector a)) _).
  apply inv_insert_envelopes; [done|]. apply list.Forall_forall. intros e He. right.
  apply list_elem_of_In, List.filter_In in He as [He Hr].
  destruct (get_archive_decodes _ _ _ _ _ _ E) as [file Hf]. apply find_entry in Ef as [? ?].
  exists aw, file, entries, entry. split_and!; try done. by apply list_elem_of_In.
Qed.

Lemma inv_archive_txset ev aw slot urls a :
  CollectorInv ev (collector a) -> Builds aw slot ∈ ev ->
  CollectorInv ev (collector (get_txset_from_horizon_archive urls slot a)).
Proof.
  intros I Hin. revert a I. induction urls as [|url urls IH]; intros a I; simpl; [done|].
  destruct (get_archive _ _ _ _) as [[entries|] fs] eqn:E; [|by apply IH].
  destruct (List.find _ _) as [entry|] eqn:Ef; [|by apply IH].
  apply inv_insert_txset; [done|]. right. destruct (get_archive_decodes _ _ _ _ _ _ E) as [file Hf].
  apply find_entry in Ef as [? ?]. exists aw, file, entries, entry. split_and!; try done.
  destruct (ext entry); auto.
Qed.

Lemma inv_build_proof ev aw slot a :
  CollectorInv ev (collector a) -> Builds aw slot ∈ ev ->
  CollectorInv ev (collector (build_proof slot a).2).
Proof.
  intros I Hin. unfold build_proof. destruct (_ =? 0); [done|].
  assert (CollectorInv ev (collector (get_envelopes slot a).2)) as I1.
  { unfold get_envelopes, _get_envelopes, ask_overlay_for_envelopes.
    repeat case_match; simpl; try done; rewrite ?send_collector; try done; by eapply inv_archive_envelopes. }
  destruct (get_envelopes slot a) as [[envs|] a1]; [|done]. simpl in I1.
  assert (CollectorInv ev (collector (get_txset slot a1).2)) as I2.
  { unfold get_txset, ask_overlay_for_txset.
    repeat case_match; simpl; try done; rewrite ?send_collector; try done; by eapply inv_archive_txset. }
  by destruct (get_txset slot a1) as [[set|] a2].
Qed.

Lemma inv_exec ev e a :
  CollectorInv ev (collector a) -> e ∈ ev -> CollectorInv ev (collector (exec e a)).
Proof.
  intros I Hin. destruct e as [message|aw slot]; simpl; [|by apply inv_build_proof].
  destruct message; simpl; try done; try by apply inv_add_txset.
  pose proof (inv_handle_envelope _ _ _ I Hin). by destruct (handle_envelope env a) as [[| |] ?].
Qed.

Definition initial (public_network : bool) (urls : list string) (fs : Files) : Agent :=
  mkAgent (new public_network urls) fs [] true.

Lemma inv_initial public_network urls fs : CollectorInv [] (collector (initial public_network urls fs)).
Proof. split; simpl; try apply LimitedFifoMap.wf_new; done. Qed.

Lemma inv_run ev events a : CollectorInv ev (collector a) -> events ⊆ ev -> CollectorInv ev (collector (run events a)).
Proof.
  revert a. induction events as [|e events IH]; intros a I Hs; simpl; [done|].
  apply IH; [apply inv_exec; [done|]|]; [apply Hs; left|]. intros x Hx. apply Hs. by right.
Qed.

Lemma inv_reached public_network urls fs events :
  CollectorInv events (collector (run events (initial public_network urls fs))).
Proof. apply inv_run; [|done]. eapply inv_mono; [|apply inv_initial]. intros ? []%not_elem_of_nil. Qed.

End runs.
