(* ===== verification/ProofBuilding.v ===== *)
(** * From the overlay to an accepted proof

    What the vault's collector promises about the proofs it builds, and the
    composition with the pallet that checks them: the collector's proof of a
    slot that a quorum of validators externalized is accepted. *)

From S2P Require Import Prelude Primitives StellarRelay CollectorTypes Archive ScpCollector.

(** ** The pallet accepts what a quorum signed *)

Section accepted.
Context `{SDK : StellarSdk}.

Lemma reached_total (m : gmap Z Z) l acc :
  (forall x, x ∈ l -> is_Some (m !! x.1)) ->
  exists n, fold_left (fun acc '(organization_id, count) =>
      let? reached := acc in
      let? total := ok_or (m !! organization_id) stellar_relay.NoOrganizationsRegistered in
      Ok (if total <? wrap32 (count * 2) then wrap32 (reached + 1) else reached)) l (Ok acc) = Ok n.
Proof.
  revert acc. induction l as [|[o count] l IH]; intros acc H; simpl; [by eexists|].
  destruct (H (o, count)) as [total E]; [left|]. simpl in E. rewrite E. simpl. apply IH.
  intros x Hx. apply H. by right.
Qed.

Lemma len_NoDup_le {A} `{EqDecision A} (l k : list A) : NoDup l -> l ⊆ k -> len l <= len k.
Proof. intros Hn Hs. unfold len. apply inj_le, submseteq_length, NoDup_submseteq; auto. Qed.

(** The check passes when a quorum of organizations is targeted. *)
Lemma quorum_check_complete orgs envelopes validators Q :
  len validators < 2 ^ 30 -> len orgs < 2 ^ 30 -> quorum orgs validators (targeted envelopes) Q ->
  check_for_valid_quorum_set envelopes validators (len orgs) = Ok tt.
Proof.
  intros Hv Hn (Hnd & Hlen & HQ). pose proof (len_nonneg orgs) as H0.
  set (tv := List.filter (targeted envelopes) validators) in *.
  set (m := targeted_organization_map envelopes validators).
  assert (Htv : len (map organization_id tv) <= len validators).
  { unfold len. rewrite length_map. apply (len_filter_le (targeted envelopes) validators). }
  assert (Hm : forall o, m !! o =
      if occ o (map organization_id tv) =? 0 then None else Some (occ o (map organization_id tv)))
    by (intros o; apply count_entries_spec; lia).
  assert (Hc : forall o, validator_count_per_org validators !! o =
      if occ o (map organization_id validators) =? 0 then None
      else Some (occ o (map organization_id validators))).
  { intros o. apply count_entries_spec. unfold len in *. rewrite length_map. lia. }
  assert (Hle : forall o, occ o (map organization_id tv) <= occ o (map organization_id validators)).
  { intros o. etrans; [by apply (occ_filter_mono o _ (fun _ => true))|].
    apply Z.eq_le_incl. do 2 f_equal. clear. induction validators; simpl; congruence. }
  assert (Hkeys : forall x, x ∈ map_to_list m -> is_Some (validator_count_per_org validators !! x.1)).
  { intros [o c] Hx%elem_of_map_to_list. simpl. rewrite Hm in Hx. rewrite Hc.
    pose proof (Hle o). pose proof (occ_nonneg o (map organization_id tv)).
    destruct (Z.eqb_spec (occ o (map organization_id tv)) 0); [done|].
    destruct (Z.eqb_spec (occ o (map organization_id validators)) 0); [lia|eauto]. }
  destruct (reached_total (validator_count_per_org validators) (map_to_list m) 0 Hkeys) as [n En].
  assert (Hsz : len (map_to_list m) <= len validators).
  { unfold len at 1. rewrite length_map_to_list. etrans; [|exact Htv]. apply size_le_len.
    intros o Ho. rewrite Hm in Ho. destruct (Z.eqb_spec (occ o (map organization_id tv)) 0) as [|Hne]; [by destruct Ho|].
    destruct (decide (o ∈ map organization_id tv)) as [|Hni]; [done|]. by apply occ_zero in Hni. }
  pose proof (reached_fold _ _ _ _ En ltac:(lia) ltac:(lia)) as Hr.
  set (R := List.filter (is_reached (validator_count_per_org validators)) (map_to_list m)) in *.
  assert (Q ⊆ map fst R) as HQR.
  { intros o Ho. pose proof (HQ o Ho) as Hocc. pose proof (Hle o).
    pose proof (occ_nonneg o (map organization_id validators)). pose proof (occ_le o (map organization_id tv)).
    apply list_elem_of_fmap. exists (o, occ o (map organization_id tv)). split; [done|].
    apply list_elem_of_In, List.filter_In. split.
    - apply list_elem_of_In, elem_of_map_to_list. rewrite Hm.
      destruct (Z.eqb_spec (occ o (map organization_id tv)) 0); [lia|done].
    - unfold is_reached. simpl. rewrite Hc. unfold wrap32. rewrite Z.mod_small by lia.
      destruct (Z.eqb_spec (occ o (map organization_id validators)) 0); lia. }
  pose proof (len_NoDup_le _ _ Hnd HQR) as HR.
  replace (len (map fst R)) with (len R) in HR by (unfold len; by rewrite length_map).
  assert (len R <= len (map_to_list m)) by apply len_filter_le. pose proof (len_nonneg R).
  assert (n = len R) as -> by lia. unfold check_for_valid_quorum_set. fold m. rewrite En. cbn [obind].
  replace (Z.of_nat (size m)) with (len (map_to_list m)) by (unfold len; by rewrite length_map_to_list).
  unfold wrap32. rewrite !Z.mod_small by lia. unfold oensure.
  by do 2 rewrite (proj2 (Z.ltb_lt _ _)) by lia.
Qed.

(** [e] is an envelope that the pallet takes as evidence for [value]. *)
Definition known (validators : list Validator) (e : ScpEnvelope) : bool :=
  List.existsb (fun v => is_node v e) validators.

Definition genuine (network value : Bytes) (n_h slot : Z) (e : ScpEnvelope) : Prop :=
  slot_index (statement e) = slot /\ pledges (statement e) = ScpStExternalize value n_h /\
  verify_signature e (node_id (statement e)) network = Ok true.

Lemma validate_envelopes_complete envelopes validators network value n_h h slot :
  Forall (genuine network value n_h slot) envelopes -> stellar_value_tx_set_hash value = Some h ->
  validate_envelopes envelopes validators network value n_h h slot =
  Ok (List.filter (known validators) envelopes).
Proof.
  intros Hall Hh. induction Hall as [|e envelopes (Hs & Hp & Hv) _ IH]; simpl; [done|].
  unfold is_node_id_exist. fold (known validators e). destruct (known validators e); [|exact IH].
  rewrite Hs, Z.eqb_refl. cbn [oensure obind]. rewrite Hv. cbn [oensure obind].
  unfold get_externalized_info. rewrite Hp. cbn [obind]. unfold get_tx_set_hash. rewrite Hh. cbn [ok_or obind].
  rewrite !bool_decide_true by done. cbn [oensure obind].
  destruct (n_h =? u32_max); cbn [obind]; [by rewrite IH|].
  destruct (n_h <? u32_max); rewrite ?Z.eqb_refl; cbn [oensure obind]; by rewrite IH.
Qed.

Lemma targeted_known envelopes validators v :
  v ∈ validators -> targeted (List.filter (known validators) envelopes) v = targeted envelopes v.
Proof.
  intros Hv. unfold targeted. induction envelopes as [|e envelopes IH]; simpl; [done|].
  destruct (known validators e) eqn:Ek; simpl; rewrite IH; [done|]. destruct (is_node v e) eqn:En; [|done].
  assert (known validators e = true); [|congruence]. apply List.existsb_exists. exists v.
  split; [by apply list_elem_of_In|done].
Qed.

Lemma filter_ext_in {A} (f g : A -> bool) l :
  (forall x, x ∈ l -> f x = g x) -> List.filter f l = List.filter g l.
Proof. intros H. apply List.filter_ext_in. intros x Hx. apply H. by apply list_elem_of_In. Qed.

(** A transaction of the set is accepted when the envelopes are genuine and
    come from a quorum. *)
Lemma genuine_quorum_accepted public n tx envelopes set s vs os value n_h slot h Q :
  bounded_sets s -> validators_and_orgs n s = Ok (vs, os) ->
  Forall (genuine (network_id public) value n_h slot) envelopes ->
  len envelopes < 2 ^ 32 - 1 ->
  stellar_value_tx_set_hash value = Some h -> tx_set_hash_of set = Some h -> tx ∈ txes set ->
  quorum os vs (targeted envelopes) Q ->
  validate_stellar_transaction public n tx envelopes set s = Ok tt.
Proof.
  intros Hb Hvo Hall Hlen Hh Hset Htx HQ. destruct (validators_and_orgs_bounded _ _ _ _ Hb Hvo) as [Hv Ho].
  assert (quorum os vs (targeted (List.filter (known vs) envelopes)) Q) as HQ'.
  { destruct HQ as (? & ? & HQ). split_and!; try done. intros o ?.
    rewrite (filter_ext_in _ (targeted envelopes)); [by apply HQ|]. intros. by apply targeted_known. }
  destruct envelopes as [|e envelopes].
  { exfalso. destruct HQ as (_ & Hl & HQ). destruct Q as [|o Q]; [unfold len in Hl; simpl in Hl; lia|].
    specialize (HQ o ltac:(left)).
    replace (List.filter (targeted []) vs) with (@nil Validator) in HQ by (clear; by induction vs).
    pose proof (occ_nonneg o (map organization_id vs)). change (occ o (map organization_id [])) with 0 in HQ. lia. }
  unfold validate_stellar_transaction.
  replace (0 <? usize_not (len (e :: envelopes))) with true by (unfold usize_not; lia). cbn [oensure obind].
  replace (List.existsb _ (txes set)) with true; cycle 1.
  { symmetry. apply List.existsb_exists. exists tx. split; [by apply list_elem_of_In|by apply bool_decide_eq_true]. }
  cbn [oensure obind]. rewrite Hvo. cbn [obind].
  pose proof Hall as Hall'. apply list.Forall_cons in Hall as [(Hs & Hp & _) _]. cbn [List.find].
  unfold is_externalize at 1. rewrite Hp. cbn [ok_or obind]. unfold get_externalized_info. rewrite Hp. cbn [obind].
  rewrite Hset. cbn [ok_or obind]. rewrite Hs, (validate_envelopes_complete _ vs _ value n_h h slot Hall' Hh). cbn [obind].
  by apply (quorum_check_complete os _ _ Q).
Qed.

End accepted.

(** ** What the collector hears *)

Section overheard.
Context `{SDK : StellarSdk}.

#[local] Abbreviation k_to_v a := (DoubleSidedHashMap.k_to_v_map (txset_and_slot_map (collector a))).
#[local] Abbreviation v_to_k a := (DoubleSidedHashMap.v_to_k_map (txset_and_slot_map (collector a))).

(** The agent listens and knows nothing of the slot. *)
Record unseen (slot : Slot) (h : TxSetHash) (a : Agent) : Prop := {
  unseen_open : open a = true;
  unseen_envelopes_wf : LimitedFifoMap.wf (envelopes_map (collector a));
  unseen_txsets_wf : LimitedFifoMap.wf (txset_map (collector a));
  no_envelopes : LimitedFifoMap.get (envelopes_map (collector a)) slot = None;
  no_txset : LimitedFifoMap.get (txset_map (collector a)) slot = None;
  unknown_hash : k_to_v a !! h = None;
}.

(** It has these envelopes of the slot and waits for the set with the hash. *)
Record collecting (slot : Slot) (h : TxSetHash) (es : list ScpEnvelope) (a : Agent) : Prop := {
  collecting_envelopes_wf : LimitedFifoMap.wf (envelopes_map (collector a));
  collecting_txsets_wf : LimitedFifoMap.wf (txset_map (collector a));
  collected : LimitedFifoMap.get (envelopes_map (collector a)) slot = Some es;
  awaited : DoubleSidedHashMap.get_slot_by_txset_hash (txset_and_slot_map (collector a)) h = Some slot;
  awaited_by : DoubleSidedHashMap.get_txset_hash_by_slot (txset_and_slot_map (collector a)) slot = Some h;
  reached : slot <= last_slot_index (collector a);
}.

(** [e] externalizes, in [slot], a value with the hash [h]. *)
Definition externalizes (slot : Slot) (h : TxSetHash) (e : ScpEnvelope) : Prop :=
  slot_index (statement e) = slot /\
  exists value n_h, pledges (statement e) = ScpStExternalize value n_h /\
    client_get_tx_set_hash value = Returns h.

Lemma set_last_slot_index_ge slot c : slot <= last_slot_index (set_last_slot_index slot c).
Proof. unfold set_last_slot_index. destruct (Z.ltb_spec (last_slot_index c) slot); simpl; lia. Qed.

Lemma set_last_slot_index_keeps slot c :
  let c' := set_last_slot_index slot c in
  envelopes_map c' = envelopes_map c /\ txset_map c' = txset_map c /\
  txset_and_slot_map c' = txset_and_slot_map c /\ env_from_archive_map c' = env_from_archive_map c /\
  public_network c' = public_network c.
Proof. unfold set_last_slot_index. by destruct (_ <? _). Qed.

Lemma hear_first slot h e a :
  unseen slot h a -> externalizes slot h e -> collecting slot h [e] (exec (Hears (ScpMessage e)) a).
Proof.
  intros [Ho We Wt Ne Nt Nh] (Hs & value & n_h & Hp & Hv). simpl. unfold handle_envelope.
  rewrite Hp, Hv, Hs. destruct (set_last_slot_index_keeps slot (collector a)) as (E1 & E2 & E3 & _).
  unfold is_txset_new, DoubleSidedHashMap.get_slot_by_txset_hash. cbn [on_collector collector].
  rewrite E2, E3, Nh, (proj2 (LimitedFifoMap.contains_false _ _) Nt). unfold send, on_collector. simpl. rewrite Ho. simpl.
  unfold add_scp_envelope. simpl. rewrite E1, Ne.
  destruct (LimitedFifoMap.insert_spec (envelopes_map (collector a)) slot [e] We) as (W & _ & G & _).
  split; simpl; rewrite ?E2; try done; try apply lookup_insert_eq. apply set_last_slot_index_ge.
Qed.

Lemma hear_next slot h es e a :
  collecting slot h es a -> externalizes slot h e ->
  collecting slot h (es ++ [e]) (exec (Hears (ScpMessage e)) a).
Proof.
  intros [We Wt Ge Ah Av Hr] (Hs & value & n_h & Hp & Hv). simpl. unfold handle_envelope.
  rewrite Hp, Hv, Hs. destruct (set_last_slot_index_keeps slot (collector a)) as (E1 & E2 & E3 & _).
  unfold is_txset_new. cbn [on_collector collector]. rewrite E3, Ah. simpl.
  destruct (LimitedFifoMap.insert_spec (envelopes_map (collector a)) slot (es ++ [e]) We) as (W & _ & G & _).
  split; simpl; rewrite ?E1, ?Ge, ?E2, ?E3; try done. apply set_last_slot_index_ge.
Qed.

Lemma hear_all slot h es es' a :
  collecting slot h es a -> Forall (externalizes slot h) es' ->
  collecting slot h (es ++ es') (run (map (fun e => Hears (ScpMessage e)) es') a).
Proof.
  intros Hc Hall. revert es a Hc. induction Hall as [|e es' He _ IH]; intros es a Hc; simpl.
  - by rewrite app_nil_r.
  - rewrite cons_middle, (assoc (++)). apply IH. by apply hear_next.
Qed.

Lemma overhear slot h es a :
  unseen slot h a -> es <> [] -> Forall (externalizes slot h) es ->
  collecting slot h es (run (map (fun e => Hears (ScpMessage e)) es) a).
Proof.
  intros Hu Hne Hall. destruct Hall as [|e es He Hes]; [done|].
  exact (hear_all slot h [e] es _ (hear_first _ _ _ _ Hu He) Hes).
Qed.

Lemma run_public_network es a :
  public_network (collector (run (map (fun e => Hears (ScpMessage e)) es) a)) = public_network (collector a).
Proof.
  revert a. induction es as [|e es IH]; intros a; simpl; [done|]. rewrite IH. unfold handle_envelope.
  destruct (pledges (statement e)) as [| |value n_h|]; try done.
  destruct (set_last_slot_index_keeps (slot_index (statement e)) (collector a)) as (_ & _ & _ & _ & E).
  destruct (client_get_tx_set_hash value); try done.
  destruct (is_txset_new _ _ _); [|done]. unfold send. by destruct (open _).
Qed.

(** Once the set arrives, the proof can be built. *)
Lemma collected_proof `{AW : !ArchiveWorld} slot h es set a :
  collecting slot h es a -> 0 < slot -> tx_set_hash_of set = Some h ->
  get_min_externalized_messages (public_network (collector a)) <= len es ->
  fits_var_array es = true ->
  (build_proof slot (exec (Hears (TxSet set)) a)).1 = Some (mkProof slot es set).
Proof.
  intros [We Wt Ge Ah Av Hr] H0 Hset Hmin Hva. simpl. unfold on_collector, add_txset_type. rewrite Hset.
  unfold DoubleSidedHashMap.get_slot_by_txset_hash, DoubleSidedHashMap.get_txset_hash_by_slot in *.
  unfold DoubleSidedHashMap.remove_by_txset_hash. rewrite Ah, Av. cbn [collector snd].
  destruct (LimitedFifoMap.insert_spec (txset_map (collector a)) slot set Wt) as (_ & _ & G & _).
  unfold build_proof. simpl. rewrite (proj2 (Z.eqb_neq (last_slot_index (collector a)) 0)) by lia.
  unfold get_envelopes. simpl. rewrite Ge. unfold enough_envelopes. simpl.
  rewrite (proj2 (Z.ltb_ge _ _) Hmin), andb_false_r. simpl. rewrite Hva. unfold get_txset. simpl.
  by rewrite G.
Qed.

End overheard.

(** ** Archives *)

Section from_archive.
Context `{SDK : StellarSdk} `{AW : !ArchiveWorld}.

(** The working directory has no file of the name, and the archive's answer to
    a request for it decodes to [entries]. *)
Definition serves {T} (decode : Bytes -> option (list T)) (st : Storage) (slot : Slot) (fs : Files)
    (entries : list T) : Prop :=
  let '(url, file) := get_url_and_file_name st slot in
  fs !! file = None /\
  exists content bytes, download url = Some content /\ gz_decode content = Some bytes /\
    decode bytes = Some entries.

Lemma serves_get {T} (decode : Bytes -> option (list T)) st slot fs entries :
  serves decode st slot fs entries ->
  exists content, get_archive decode st slot fs =
    (Some entries, <[(get_url_and_file_name st slot).2 := content]> fs).
Proof.
  unfold serves, get_archive. destruct (get_url_and_file_name st slot) as [url file].
  intros (Hf & content & bytes & Hd & Hg & He). exists content. unfold try_gz_decode_archive_file, download_file_and_save.
  rewrite Hf. simpl. rewrite Hd. simpl. rewrite lookup_insert_eq. simpl. rewrite Hg. simpl. by rewrite He.
Qed.

(** The file name does not depend on the archive. *)
Lemma file_name_shared url url' slot :
  (get_url_and_file_name (ScpArchiveStorage url) slot).2 = (get_url_and_file_name (ScpArchiveStorage url') slot).2.
Proof. done. Qed.

Lemma get_archive_cached {T} (decode : Bytes -> option (list T)) st slot fs content bytes :
  fs !! (get_url_and_file_name st slot).2 = Some content -> gz_decode content = Some bytes ->
  get_archive decode st slot fs = (decode bytes, fs).
Proof.
  unfold get_archive, try_gz_decode_archive_file. destruct (get_url_and_file_name st slot) as [u f]. simpl.
  intros -> Hg. simpl. by rewrite Hg.
Qed.

Lemma serves_mono {T} (decode : Bytes -> option (list T)) st slot fs fs' entries :
  (forall file, fs !! file = None -> fs' !! file = None) ->
  serves decode st slot fs entries -> serves decode st slot fs' entries.
Proof. unfold serves. destruct (get_url_and_file_name st slot) as [url file]. intros Hm [Hf H]. auto. Qed.

Lemma remove_file_lookup st slot content fs file :
  fs !! file = None -> remove_file st slot (<[(get_url_and_file_name st slot).2 := content]> fs) !! file = None.
Proof.
  unfold remove_file. destruct (get_url_and_file_name st slot) as [u f]. simpl. intros Hf.
  destruct (decide (f = file)) as [->|Hne]; [apply lookup_delete_eq|].
  by rewrite lookup_delete_ne, lookup_insert_ne.
Qed.

(** An old slot whose archive answers: where the agent starts. *)
Record retrievable (slot : Slot) (url : string) (rest : list string) (a : Agent)
    (scp : list ScpHistoryEntry) (entry : ScpHistoryEntry)
    (txs : list TransactionHistoryEntry) (tx_entry : TransactionHistoryEntry) : Prop := {
  started : last_slot_index (collector a) <> 0;
  too_old : check_slot_still_recoverable_from_overlay (last_slot_index (collector a)) slot = false;
  archives : stellar_history_archive_urls (collector a) = url :: rest;
  envelopes_wf : LimitedFifoMap.wf (envelopes_map (collector a));
  flags_wf : LimitedFifoMap.wf (env_from_archive_map (collector a));
  txsets_wf : LimitedFifoMap.wf (txset_map (collector a));
  nothing_collected : LimitedFifoMap.get (envelopes_map (collector a)) slot = None;
  no_set : LimitedFifoMap.get (txset_map (collector a)) slot = None;
  scp_served : serves scp_archive_from_xdr (ScpArchiveStorage url) slot (files a) scp;
  scp_entry : List.find (fun e => scp_ledger_seq e =? slot) scp = Some entry;
  some_externalized : List.filter is_externalize (List.filter is_relevant (scp_messages entry)) <> [];
  txs_served : serves transactions_archive_from_xdr (TransactionsArchiveStorage url) slot (files a) txs;
  tx_entry_found : List.find (fun e => tx_ledger_seq e =? slot) txs = Some tx_entry;
}.

Definition set_of (e : TransactionHistoryEntry) : TransactionSetType :=
  match ext e with Some g => g | None => tx_set e end.

(** The first attempt fetches the envelopes. *)
Lemma first_attempt slot url rest a scp entry txs tx_entry :
  retrievable slot url rest a scp entry txs tx_entry ->
  exists a', build_proof slot a = (None, a') /\
    last_slot_index (collector a') = last_slot_index (collector a) /\
    stellar_history_archive_urls (collector a') = url :: rest /\
    LimitedFifoMap.get (envelopes_map (collector a')) slot = Some (List.filter is_relevant (scp_messages entry)) /\
    is_envelopes_data_from_archive (collector a') slot = true /\
    txset_map (collector a') = txset_map (collector a) /\
    (forall file, files a !! file = None -> files a' !! file = None).
Proof.
  intros [H0 Ho Hu We Wf _ Ne Nt Hs He Hx _ _]. unfold build_proof.
  rewrite (proj2 (Z.eqb_neq _ _) H0). unfold get_envelopes. rewrite Ne. unfold _get_envelopes.
  rewrite Ho, Hu. cbn [get_envelopes_from_horizon_archive].
  destruct (serves_get _ _ _ _ _ Hs) as [content ->]. cbn beta iota. rewrite He.
  destruct (List.filter is_externalize _) as [|x l] eqn:Ex; [done|]. cbn [length Nat.eqb].
  eexists. split; [reflexivity|]. cbn [collector on_collector].
  set (l' := List.filter is_relevant (scp_messages entry)).
  destruct (LimitedFifoMap.insert_spec (envelopes_map (collector a)) slot l' We) as (_ & _ & G & _).
  destruct (LimitedFifoMap.insert_spec (env_from_archive_map (collector a)) slot tt Wf) as (_ & _ & Gf & _).
  split_and!; try done.
  - apply LimitedFifoMap.contains_get. eexists. exact Gf.
  - intros file Hf. by apply remove_file_lookup.
Qed.

(** With the envelopes of an archive at hand, the next one fetches the set. *)
Lemma second_attempt slot url rest a envs txs tx_entry :
  last_slot_index (collector a) <> 0 ->
  check_slot_still_recoverable_from_overlay (last_slot_index (collector a)) slot = false ->
  stellar_history_archive_urls (collector a) = url :: rest ->
  LimitedFifoMap.wf (txset_map (collector a)) -> LimitedFifoMap.get (txset_map (collector a)) slot = None ->
  LimitedFifoMap.get (envelopes_map (collector a)) slot = Some envs ->
  is_envelopes_data_from_archive (collector a) slot = true -> fits_var_array envs = true ->
  serves transactions_archive_from_xdr (TransactionsArchiveStorage url) slot (files a) txs ->
  List.find (fun e => tx_ledger_seq e =? slot) txs = Some tx_entry ->
  exists a', build_proof slot a = (None, a') /\
    build_proof slot a' = (Some (mkProof slot envs (set_of tx_entry)), a').
Proof.
  intros H0 Ho Hu Wt Nt Ge Hf Hv Hs He. unfold build_proof at 1. rewrite (proj2 (Z.eqb_neq _ _) H0).
  unfold get_envelopes. rewrite Ge. unfold enough_envelopes. rewrite Hf. cbn [negb andb]. rewrite Hv.
  unfold get_txset. rewrite Nt, Ho, Hu. cbn [get_txset_from_horizon_archive].
  destruct (serves_get _ _ _ _ _ Hs) as [content ->]. cbn beta iota. rewrite He.
  eexists. split; [reflexivity|].
  destruct (LimitedFifoMap.insert_spec (txset_map (collector a)) slot (set_of tx_entry) Wt) as (_ & _ & G & _).
  unfold build_proof. simpl. rewrite (proj2 (Z.eqb_neq _ _) H0). unfold get_envelopes. simpl. rewrite Ge.
  unfold enough_envelopes. unfold is_envelopes_data_from_archive in *. simpl. rewrite Hf. simpl. rewrite Hv.
  unfold get_txset. simpl. fold (set_of tx_entry). by rewrite G.
Qed.

End from_archive.

(** ** Properties *)

Section properties.
Context `{SDK : StellarSdk}.



(** Whatever the vault hears and however often it is asked for proofs, its
    queues of envelopes, of archive marks and of transaction sets hold at most
    200 slots each, and each slot once. *)
Theorem collector_bounded public urls fs events :
  let c := collector (run events (initial public urls fs)) in
  (len (LimitedFifoMap.queue (envelopes_map c)) <= 200 /\ NoDup (LimitedFifoMap.queue (envelopes_map c)).*1) /\
  (len (LimitedFifoMap.queue (env_from_archive_map c)) <= 200 /\
   NoDup (LimitedFifoMap.queue (env_from_archive_map c)).*1) /\
  len (LimitedFifoMap.queue (txset_map c)) <= 200 /\ NoDup (LimitedFifoMap.queue (txset_map c)).*1.
Proof.
  destruct (inv_reached public urls fs events) as [[B1 _ N1] [B2 _ N2] [B3 _ N3] (L1 & L2 & L3) _ _ _].
  unfold LimitedFifoMap.len, LimitedFifoMap.DEFAULT_MAX_ITEMS_IN_QUEUE, LimitedFifoMap.MAX_SLOTS_PER_FILE in *.
  unfold len. split_and!; try done; lia.
Qed.

(** A statement that does not externalize discards what was collected for
    its slot, so that a proof that could be built before cannot be built any
    more.  The comment in [handle_envelope] says such messages are ignored. *)
Theorem other_statement_discards `{AW : !ArchiveWorld} public urls fs events env :
  is_externalize env = false ->
  let a := run events (initial public urls fs) in
  let a' := exec (Hears (ScpMessage env)) a in
  let slot := slot_index (statement env) in
  LimitedFifoMap.get (envelopes_map (collector a')) slot = None /\
  LimitedFifoMap.get (txset_map (collector a')) slot = None /\
  (build_proof slot a').1 = None.
Proof.
  intros He a. pose proof (inv_reached public urls fs events) as [W1 _ W3 _ _ _ _]. fold a in W1, W3. clearbody a.
  set (slot := slot_index (statement env)).
  assert (exec (Hears (ScpMessage env)) a = on_collector (remove_data slot) a) as ->.
  { simpl. unfold handle_envelope. unfold is_externalize in He. by destruct (pledges (statement env)). }
  cbv zeta. unfold build_proof. cbn [collector on_collector]. unfold get_envelopes. cbn [collector on_collector].
  pose proof (LimitedFifoMap.get_remove_eq _ slot W1 : LimitedFifoMap.get (envelopes_map (remove_data slot (collector a))) slot = None) as E1.
  pose proof (LimitedFifoMap.get_remove_eq _ slot W3 : LimitedFifoMap.get (txset_map (remove_data slot (collector a))) slot = None) as E3.
  rewrite E1, E3. split_and!; try done. by destruct (_ =? 0).
Qed.


(** A file left in the working directory that does not have the slot, or
    that does not decode, hides every other archive: its name does not depend on
    the archive and it is not removed, so no archive is asked and no attempt
    finds the envelopes. *)
Theorem cached_file_hides_archives `{AW : !ArchiveWorld} slot a urls content bytes :
  files a !! (get_url_and_file_name (ScpArchiveStorage EmptyString) slot).2 = Some content ->
  gz_decode content = Some bytes ->
  match scp_archive_from_xdr bytes with
  | Some entries => List.find (fun e => scp_ledger_seq e =? slot) entries = None
  | None => True
  end ->
  get_envelopes_from_horizon_archive urls slot a = a.
Proof.
  intros Hf Hg Hd. induction urls as [|url urls IH]; [done|]. cbn [get_envelopes_from_horizon_archive].
  rewrite (get_archive_cached _ (ScpArchiveStorage url) slot (files a) content bytes Hf Hg).
  destruct a as [c fs sn op]. simpl in *. destruct (scp_archive_from_xdr bytes) as [entries|]; [|exact IH].
  rewrite Hd. exact IH.
Qed.

End properties.

(** ** Witnesses *)

Section witnesses.
#[local] Existing Instance ToySdk.

Definition toy_value : Bytes := replicate 32 9.
Definition toy_set : TransactionSetType := ([toy_tx], toy_value).
Definition signed_by (node slot : Z) (pledges : ScpStatementPledges) : ScpEnvelope :=
  mkEnvelope (mkStatement (PublicKeyTypeEd25519 [node]) slot pledges) (node :: replicate 63 0).
Definition toy_envelopes : list ScpEnvelope :=
  [signed_by 5 100 (ScpStExternalize toy_value 3); signed_by 6 100 (ScpStExternalize toy_value 3)].
Definition two_orgs : list Organization := [mkOrganization 1 []; mkOrganization 2 []].
Definition two_validators : list Validator := [mkValidator [] [5] 1; mkValidator [] [6] 2].
Definition toy_relay_two : RelayState := mkRelay two_orgs two_validators [] [] 10.

(** An archive with slot 100, and one whose files lack it. *)
Definition ToyWorld : ArchiveWorld := {|
  download url := if String.prefix "good" url then Some [1] else Some [2];
  gz_decode b := Some b;
  scp_archive_from_xdr b :=
    if bool_decide (b = [1]) then Some [mkScpEntry 100 toy_envelopes] else Some [];
  transactions_archive_from_xdr b :=
    if bool_decide (b = [1]) then Some [mkTxEntry 100 toy_set None] else Some [];
  fits_var_array _ := true;
|}.
#[local] Existing Instance ToyWorld.

Definition toy_agent : Agent := initial false ["good"%string] ∅.
Definition toy_heard : list Event :=
  map (fun e => Hears (ScpMessage e)) toy_envelopes ++ [Hears (TxSet toy_set)].

Lemma toy_genuine : Forall (genuine (network_id false) toy_value 3 100) toy_envelopes.
Proof. repeat constructor. Qed.



(** A late nomination for the slot makes the proof unavailable. *)
Lemma other_statement_discards_witness :
  (build_proof 100 (run toy_heard toy_agent)).1 = Some (mkProof 100 toy_envelopes toy_set) /\
  (build_proof 100 (exec (Hears (ScpMessage (signed_by 7 100 (ScpStNominate 0)))) (run toy_heard toy_agent))).1 = None.
Proof.
  split; [by vm_compute|].
  by apply (other_statement_discards false ["good"%string] ∅ toy_heard (signed_by 7 100 (ScpStNominate 0))).
Defined.

Definition later_agent : Agent :=
  run [Hears (ScpMessage (signed_by 5 200 (ScpStExternalize toy_value 3)))] toy_agent.

Lemma later_agent_wf :
  LimitedFifoMap.wf (envelopes_map (collector later_agent)) /\
  LimitedFifoMap.wf (env_from_archive_map (collector later_agent)) /\
  LimitedFifoMap.wf (txset_map (collector later_agent)).
Proof. by destruct (inv_reached false ["good"%string] ∅ [Hears (ScpMessage (signed_by 5 200 (ScpStExternalize toy_value 3)))]). Qed.


(** The first archive's file lacks the slot; the second archive, which has it,
    is not asked. *)
Lemma cached_file_hides_archives_witness :
  let a := set_files (<[(get_url_and_file_name (ScpArchiveStorage EmptyString) 100).2 := [2]]> ∅) later_agent in
  get_envelopes_from_horizon_archive ["bad"; "good"]%string 100 a = a.
Proof. apply (cached_file_hides_archives 100) with (content := [2]) (bytes := [2]); [|reflexivity..]. by vm_compute. Defined.

End witnesses.
