(* ===== verification/VaultRequests.v ===== *)
(** * The vault pays redeem and replace requests

    [src/clients/vault/src/requests]: the vault turns open requests of the
    chain into payments with a deadline, looks for payments it already made,
    executes the requests that have one and pays the others.

    Tasks that run concurrently are the results of the functions: which
    requests are executed with which transaction, and which are paid. *)

From S2P Require Import Prelude FixedPoint Primitives Currency Security Oracle Staking.
From S2P Require Import PooledRewards StellarRelay Chain RewardDistribution Fee VaultRegistry.
From S2P Require Import VaultFrames VaultBooks RateLimit Issue Redeem Replace Runtime RequestLife Sample.
From S2P Require Import Payments Horizon Wallet.

(** ** structs.rs *)

Inductive RequestType := RequestRedeem | RequestReplace.

Record Request := mkRequest {
  hash : H256;
  deadline : option BlockNumber;
  request_amount : Balance;
  request_asset : StellarAsset;
  request_currency : CurrencyId;
  stellar_address : StellarPublicKeyRaw;
  request_type : RequestType;
  request_vault_id : VaultId;
  fee_budget : option Balance;
}.

Definition MILLISECS_PER_BLOCK : Z := 6000.

(** A duration is its number of milliseconds. *)
Definition duration_to_parachain_blocks (duration : Z) : option Z :=
  fits 0 u32_max (duration / MILLISECS_PER_BLOCK).

Definition calculate_deadline (opentime period : BlockNumber) (payment_margin : Z)
  : option BlockNumber :=
  margin_parachain_blocks ← duration_to_parachain_blocks payment_margin;
  t ← u32_checked_add opentime period;
  fits 0 u32_max (t - margin_parachain_blocks).

Definition from_redeem_request (h : H256) (r : RedeemRequest) (payment_margin : Z) : option Request :=
  asset ← asset_lookup (redeem_asset r);
  d ← calculate_deadline (redeem_opentime r) (redeem_request_period r) payment_margin;
  Some (mkRequest h (Some d) (redeem_amount_ r) asset (redeem_asset r) (redeem_stellar_address r)
          RequestRedeem (redeem_vault r) (Some (redeem_transfer_fee_ r))).

Definition from_replace_request (h : H256) (r : ReplaceRequest) (payment_margin : Z) : option Request :=
  asset ← asset_lookup (replace_asset r);
  d ← calculate_deadline (accept_time r) (replace_request_period r) payment_margin;
  Some (mkRequest h (Some d) (replace_amount_ r) asset (replace_asset r)
          (replace_stellar_address r) RequestReplace (old_vault r) None).

(** ** helper.rs *)

Definition get_request_for_stellar_tx (tx : TransactionResponse) (hash_map : gmap TextMemo Request)
  : option Request :=
  text ← memo_text tx;
  request ← hash_map !! text;
  envelope ← to_envelope tx;
  let paid_amount :=
    get_payment_amount_for_asset_to envelope (stellar_address request) (request_asset request) in
  if request_amount request <=? paid_amount then Some request else None.

Section requests.
Context (to_base58 : Bytes -> Bytes).

(** The open requests of the vault, by memo. *)
Fixpoint collect (l : list Request) : outcome (gmap TextMemo Request) :=
  match l with
  | [] => Ok ∅
  | x :: l =>
      let? m := collect l in
      let? text := derive_shortened_request_id to_base58 (hash x) in
      Ok (match m !! text with Some _ => m | None => <[text := x]> m end)
  end.

Definition retrieve_open_redeem_replace_requests (redeems : list (H256 * RedeemRequest))
    (replaces : list (H256 * ReplaceRequest)) (payment_margin : Z)
  : outcome (gmap TextMemo Request) :=
  let open_redeems := omap (fun '(h, r) =>
    if bool_decide (redeem_status r = RedeemPending) then from_redeem_request h r payment_margin
    else None) redeems in
  let open_replaces := omap (fun '(h, r) =>
    if bool_decide (replace_status r = ReplacePending) then from_replace_request h r payment_margin
    else None) replaces in
  collect (open_redeems ++ open_replaces).

(** ** execution.rs *)

Context `{HC : HorizonClient}.

(** The loop over the wallet's transactions: the requests to execute, with
    their payments, and the requests without one.  [None] when out of fuel. *)
Fixpoint match_payments (fuel : nat) (tx_iter : TransactionsResponseIter)
    (requests : gmap TextMemo Request) (tasks : list (Request * TransactionResponse))
  : option (list (Request * TransactionResponse) * gmap TextMemo Request) :=
  match fuel with
  | O => None
  | S fuel =>
      match next tx_iter with
      | (None, _) => Some (tasks, requests)
      | (Some transaction, tx_iter) =>
          if bool_decide (requests = ∅) then Some (tasks, requests)
          else
            match get_request_for_stellar_tx transaction requests with
            | None => match_payments fuel tx_iter requests tasks
            | Some request =>
                match derive_shortened_request_id to_base58 (hash request) with
                | Ok hash_as_memo =>
                    match_payments fuel tx_iter (delete hash_as_memo requests)
                      (tasks ++ [(request, transaction)])
                | _ => None
                end
            end
      end
  end.

(** Without the first page of the wallet's transactions the loop is skipped. *)
Definition spawn_tasks_to_execute_open_requests (fuel : nat) (first_page : string)
    (requests : gmap TextMemo Request)
  : option (list (Request * TransactionResponse) * gmap TextMemo Request) :=
  match get_from_url first_page with
  | None => Some ([], requests)
  | Some (recs, next) => match_payments fuel (mkIter recs next) requests []
  end.

(** What is executed and what is paid. *)
Definition execute_open_requests (fuel : nat) (first_page : string)
    (open_requests : gmap TextMemo Request)
  : option (list (Request * TransactionResponse) * list Request) :=
  match spawn_tasks_to_execute_open_requests fuel first_page open_requests with
  | None => None
  | Some (executed, remaining) => Some (executed, (map_to_list remaining).*2)
  end.

End requests.

(** ** Paying *)

Section paying.
Context `{N : Network} (to_base58 : Bytes -> Bytes) (public_key : PublicKey) (fuel : nat).

(** [None] is an error before anything is sent: an amount that is not a whole
    number of stroops, or an expired deadline. *)
Definition transfer_stellar_asset (request : Request) (fee_stat : option Z) (w : Wallet)
  : outcome (option (option (TransactionResponse + WalletError) * Wallet)) :=
  match balance_lookup (request_amount request) with
  | None => Ok None
  | Some stroop_amount =>
      let? r := send_payment_to_address public_key fuel to_base58 fee_stat
                  (PublicKeyTypeEd25519 (stellar_address request)) (request_asset request)
                  stroop_amount (hash request)
                  (match request_type request with RequestRedeem => true | RequestReplace => false end) w in
      Ok (Some r)
  end.

Definition deadline_expired (request : Request) (active_block_number : BlockNumber) : bool :=
  match deadline request with Some d => d <=? active_block_number | None => false end.

(** The payment of [pay_and_execute]; the proof and the call follow it. *)
Definition pay (request : Request) (active_block_number : BlockNumber) (fee_stat : option Z)
    (w : Wallet) : outcome (option (option (TransactionResponse + WalletError) * Wallet)) :=
  if deadline_expired request active_block_number then Ok None
  else transfer_stellar_asset request fee_stat w.

End paying.

(** ** Which requests are paid *)

Section settled.
Context (to_base58 : Bytes -> Bytes) `{HC : HorizonClient}.

(** Requests are stored under their own memos. *)
Definition keyed (requests : gmap TextMemo Request) : Prop :=
  forall text r, requests !! text = Some r -> derive_shortened_request_id to_base58 (hash r) = Ok text.

(** [tx] pays [r]: it carries the memo, and at least the amount goes to the
    address. *)
Definition pays (r : Request) (tx : TransactionResponse) : Prop :=
  exists text env, derive_shortened_request_id to_base58 (hash r) = Ok text /\
    memo_text tx = Some text /\ to_envelope tx = Some env /\
    request_amount r <= get_payment_amount_for_asset_to env (stellar_address r) (request_asset r).

Lemma keyed_collect l m : collect to_base58 l = Ok m -> keyed m.
Proof.
  revert m. induction l as [|x l IH]; simpl; intros m H; [injection H as <-; by intros ? ? ?%lookup_empty_Some|].
  apply obind_ok in H as (m1 & H1 & H). apply obind_ok in H as (text & Ht & [= <-]). specialize (IH _ H1).
  destruct (m1 !! text); [done|]. intros k r. destruct (decide (text = k)) as [->|Hne].
  - rewrite lookup_insert_eq. by intros [= <-].
  - rewrite lookup_insert_ne by done. apply IH.
Qed.

Lemma get_request_pays tx requests r :
  keyed requests -> get_request_for_stellar_tx tx requests = Some r ->
  pays r tx /\ exists text, requests !! text = Some r.
Proof.
  intros Hk. unfold get_request_for_stellar_tx. destruct (memo_text tx) as [text|] eqn:Et; [|done]. simpl.
  destruct (requests !! text) as [r'|] eqn:Er; [|done]. simpl. destruct (to_envelope tx) as [env|] eqn:Ee; [|done]. simpl.
  destruct (Z.leb_spec (request_amount r') (get_payment_amount_for_asset_to env (stellar_address r') (request_asset r'))); [|done].
  intros [= <-]. split; [|by exists text]. exists text, env. split_and!; try done. by apply Hk.
Qed.

Lemma get_request_complete tx requests text r :
  keyed requests -> requests !! text = Some r -> pays r tx -> is_Some (get_request_for_stellar_tx tx requests).
Proof.
  intros Hk Hr (text' & env & Ht & Hm & He & Ha). unfold get_request_for_stellar_tx.
  assert (text' = text) as -> by (rewrite (Hk _ _ Hr) in Ht; congruence).
  rewrite Hm. simpl. rewrite Hr. simpl. rewrite He. simpl. rewrite (proj2 (Z.leb_le _ _) Ha). eauto.
Qed.

Lemma keyed_delete requests k : keyed requests -> keyed (delete k requests).
Proof. intros Hk text r [_ ?]%lookup_delete_Some. by apply Hk. Qed.

(** The transactions of the pages from a URL on, up to the first page that is
    empty or missing, where Horizon's listing ends. *)
Fixpoint listing (n : nat) (url : string) : list TransactionResponse :=
  match n with
  | O => []
  | S n =>
      match get_from_url url with
      | Some ((_ :: _) as recs, next) => recs ++ listing n next
      | _ => []
      end
  end.

Definition seen (it : TransactionsResponseIter) (tx : TransactionResponse) : Prop :=
  tx ∈ records it \/ exists n, tx ∈ listing n (next_page it).

Lemma next_none_seen it it' tx : next it = (None, it') -> ~ seen it tx.
Proof.
  unfold next, get_top_record, jump_to_next_page. destruct it as [[|x recs] np]; simpl; [|done].
  intros H [[]%not_elem_of_nil|[n Hn]]. destruct n as [|n]; [by apply not_elem_of_nil in Hn|]. simpl in Hn.
  destruct (get_from_url np) as [[[|y recs] nxt]|]; try done; by apply not_elem_of_nil in Hn.
Qed.

Lemma next_some_seen it x it' tx : next it = (Some x, it') -> seen it tx -> tx = x \/ seen it' tx.
Proof.
  unfold next, get_top_record, jump_to_next_page. destruct it as [[|y recs] np]; simpl.
  - destruct (get_from_url np) as [[[|y recs] nxt]|] eqn:E; simpl; [done| |done]. intros [= -> <-] [[]%not_elem_of_nil|[n Hn]].
    destruct n as [|n]; simpl in Hn; [by apply not_elem_of_nil in Hn|]. rewrite E in Hn.
    apply elem_of_cons in Hn as [->|[Hn|Hn]%elem_of_app]; [by left|right; by left|right; right; by exists n].
  - intros [= -> <-] [[->|Hn]%elem_of_cons|Hn]; [by left|right; by left|right; by right].
Qed.

(** What the loop leaves to execute and to pay. *)
Record settles (it : TransactionsResponseIter) (requests remaining : gmap TextMemo Request)
    (tasks : list (Request * TransactionResponse)) : Prop := {
  executed_paid : forall r tx, (r, tx) ∈ tasks -> pays r tx /\
    exists text, requests !! text = Some r /\ remaining !! text = None;
  executed_once : NoDup tasks.*1;
  remaining_open : remaining ⊆ requests;
  all_settled : forall text r, requests !! text = Some r ->
    remaining !! text = Some r \/ exists tx, (r, tx) ∈ tasks;
  remaining_unpaid : forall text r tx, remaining !! text = Some r -> seen it tx -> ~ pays r tx;
}.

Lemma match_payments_settles fuel it requests tasks tasks' remaining :
  keyed requests -> match_payments to_base58 fuel it requests tasks = Some (tasks', remaining) ->
  exists new, tasks' = tasks ++ new /\ settles it requests remaining new.
Proof.
  revert it requests tasks. induction fuel as [|fuel IH]; intros it requests tasks Hk; simpl; [done|].
  destruct (next it) as [[tx|] it1] eqn:En; cycle 1.
  { intros [= <- <-]. exists []. split; [by rewrite app_nil_r|]. split; try done.
    - by intros r tx []%not_elem_of_nil.
    - constructor.
    - by left.
    - intros text r tx _ Hs. exfalso. by eapply next_none_seen. }
  case_bool_decide as Hemp.
  { intros [= <- <-]. exists []. split; [by rewrite app_nil_r|]. split; try done.
    - by intros r tx' []%not_elem_of_nil.
    - constructor.
    - by left.
    - intros text r tx' Hr. rewrite Hemp in Hr. by apply lookup_empty_Some in Hr. }
  destruct (get_request_for_stellar_tx tx requests) as [r|] eqn:Eg; cycle 1.
  { intros H. destruct (IH _ _ _ Hk H) as (new & -> & [S1 S2 S3 S4 S5]). exists new. split; [done|]. split; try done.
    intros text q tx' Hq Hs. destruct (next_some_seen _ _ _ _ En Hs) as [->|Hs']; [|by eapply S5].
    intros Hp. assert (requests !! text = Some q) as Hq' by by eapply lookup_weaken.
    destruct (get_request_complete _ _ _ _ Hk Hq' Hp) as [? ?]. congruence. }
  destruct (get_request_pays _ _ _ Hk Eg) as [Hp [text Ht]]. rewrite (Hk _ _ Ht).
  intros H. destruct (IH _ _ _ (keyed_delete _ text Hk) H) as (new & -> & [S1 S2 S3 S4 S5]).
  exists ((r, tx) :: new). split; [by rewrite <- (assoc (++))|].
  assert (Hrem : remaining !! text = None).
  { destruct (remaining !! text) eqn:E; [|done]. eapply lookup_weaken in E; [|exact S3]. by rewrite lookup_delete_eq in E. }
  split.
  - intros q tx' [[= -> ->]|Hin]%elem_of_cons; [by eauto|]. destruct (S1 _ _ Hin) as [? (k & [_ ?]%lookup_delete_Some & ?)]. eauto.
  - simpl. apply list.NoDup_cons. split; [|done]. intros ([q tx'] & -> & Hin)%list_elem_of_fmap. simpl in *.
    destruct (S1 _ _ Hin) as [_ (k & [Hne Hk']%lookup_delete_Some & _)].
    apply Hne. pose proof (Hk _ _ Ht). pose proof (Hk _ _ Hk'). congruence.
  - etrans; [exact S3|]. apply delete_subseteq.
  - intros k q Hq. destruct (decide (k = text)) as [->|Hne].
    + right. exists tx. assert (q = r) as -> by congruence. by left.
    + destruct (S4 k q) as [?|[tx' ?]]; [by rewrite lookup_delete_ne|by left|right; exists tx'; by right].
  - intros k q tx' Hq Hs. destruct (next_some_seen _ _ _ _ En Hs) as [->|Hs']; [|by eapply S5].
    intros Hp'. assert (requests !! k = Some q) as Hq' by (eapply lookup_weaken; [exact Hq|]; etrans; [exact S3|apply delete_subseteq]).
    destruct Hp as (m1 & ? & Hd1 & Hm1 & _), Hp' as (m2 & ? & Hd2 & Hm2 & _).
    assert (k = text) as -> by (pose proof (Hk _ _ Ht); pose proof (Hk _ _ Hq'); congruence). congruence.
Qed.

(** The loop ends once it has gone through every transaction. *)
Lemma match_payments_ends fuel it requests tasks b :
  keyed requests -> at_most (next_page it) b -> (length (records it) + b < fuel)%nat ->
  exists res, match_payments to_base58 fuel it requests tasks = Some res.
Proof.
  revert it requests tasks b. induction fuel as [|fuel IH]; intros it requests tasks b Hk Hb Hf; [lia|]. simpl.
  destruct (next it) as [[tx|] it1] eqn:En; [|by eexists]. case_bool_decide; [by eexists|].
  destruct (next_shrinks _ _ _ _ En Hb) as (_ & _ & b1 & Hb1 & ?).
  destruct (get_request_for_stellar_tx tx requests) as [r|] eqn:Eg; [|by eapply IH; [done|exact Hb1|lia]].
  destruct (get_request_pays _ _ _ Hk Eg) as [_ [text Ht]]. rewrite (Hk _ _ Ht).
  by eapply IH; [apply keyed_delete|exact Hb1|lia].
Qed.

End settled.

(** ** The vault and the chain *)

Section chain.
Context `{RT : Runtime}.

Definition active_blocks (s : Chain) : BlockNumber := ActiveBlockCount (sec (oracle_st s)).

(** An executed redeem was paid, as the runtime counts payments. *)
Lemma execute_redeem_paid o i env envs set s s' :
  execute_redeem o i env envs set s = (Ok tt, s') ->
  exists r tx paid, redeem_store s !! i = Some r /\
    construct_from_raw_encoded_xdr transaction_envelope_from_xdr env = Ok tx /\
    get_amount_from_transaction_envelope tx (redeem_stellar_address r) (redeem_asset r) = Ok paid /\
    redeem_amount_ r <= amount paid.
Proof.
  intros H. unfold execute_redeem in H. apply transactional_ok in H.
  apply bind_ok in H as (q & s0 & [_ ->]%lift_ok & H).
  unfold _execute_redeem in H. apply bind_ok in H as (r & s1 & E & H).
  apply get_open_redeem_ok in E as (-> & Hr & _).
  apply bind_ok in H as (tx & s1 & [Htx ->]%lift_ok & H).
  apply bind_ok in H as (es & s1 & [_ ->]%lift_ok & H).
  apply bind_ok in H as (ts & s1 & [_ ->]%lift_ok & H).
  apply bind_ok in H as ([] & s1 & [_ ->]%lift_ok & H).
  apply bind_ok in H as (? & s1 & [-> _]%relay_validate_ok & H).
  apply bind_ok in H as (paid & s1 & [Hpaid ->]%lift_ok & H).
  apply bind_ok in H as (b & s1 & [[_ ->]%ge_ok ->]%lift_ok & H).
  apply bind_ok in H as (? & s1 & [Hle ->]%ensure_ok & _). cbn in Hle.
  exists r, tx, paid. split_and!; try done. lia.
Qed.

(** A redeem can be cancelled only when the chain has it as expired. *)
Lemma block_expired_ok opentime period s b s' :
  in_security (parachain_block_expired opentime period) s = (Ok b, s') ->
  s' = s /\ b = (opentime + period <? active_blocks s).
Proof.
  unfold in_security, on_oracle, on_security. intros (x & Hx & ->)%zoom_ok. apply zoom_ok in Hx as (y & Hy & ->).
  unfold parachain_block_expired in Hy. apply bind_ok in Hy as (t & s1 & [Ht%ok_or_ok ->]%lift_ok & Hy).
  apply bind_ok in Hy as (n & s1 & [-> ->]%gets_ok & [-> ->]%ret_ok).
  unfold u32_checked_add in Ht. apply fits_Some in Ht as [-> _]. split; [|done]. by destruct s as [? ? [] ? ? ? ? ? ? ? ? ? ?].
Qed.

Lemma running_ok s u s' : in_security ensure_parachain_status_running s = (Ok u, s') -> s' = s.
Proof.
  unfold in_security, on_oracle, on_security. intros (x & Hx & ->)%zoom_ok. apply zoom_ok in Hx as (y & Hy & ->).
  unfold ensure_parachain_status_running in Hy. inv_ok. destruct (decide _); inv_ok. by destruct s as [? ? [] ? ? ? ? ? ? ? ? ? ?].
Qed.

Lemma cancel_redeem_expired o i b s s' :
  cancel_redeem o i b s = (Ok tt, s') ->
  exists r period, redeem_store s !! i = Some r /\ redeem_request_period r <= period /\
    redeem_opentime r + period < active_blocks s.
Proof.
  unfold cancel_redeem. intros H%transactional_ok. apply bind_ok in H as (q & s0 & [_ ->]%lift_ok & H).
  unfold _cancel_redeem in H. apply bind_ok in H as ([] & s1 & E & H).
  apply running_ok in E as ->.
  apply bind_ok in H as (r & s1 & E1 & H). apply get_open_redeem_ok in E1 as (-> & Hr & _).
  apply bind_ok in H as ([] & s1 & [_ ->]%ensure_ok & H).
  apply bind_ok in H as (period & s1 & [_ ->]%gets_ok & H).
  apply bind_ok in H as (ex & s1 & [-> ->]%block_expired_ok & H).
  apply bind_ok in H as ([] & s1 & [Hex ->]%ensure_ok & _).
  exists r, (Z.max period (redeem_request_period r)). split_and!; [done|lia|lia].
Qed.

Lemma deadline_bound h r margin q now :
  from_redeem_request h r margin = Some q -> deadline_expired q now = false ->
  exists m, duration_to_parachain_blocks margin = Some m /\
    now + m < redeem_opentime r + redeem_request_period r.
Proof.
  unfold from_redeem_request, calculate_deadline, deadline_expired. intros H Hd.
  destruct (asset_lookup _); [|done]. simpl in H.
  destruct (duration_to_parachain_blocks margin) as [m|]; [|done]. simpl in H.
  destruct (u32_checked_add _ _) as [t|] eqn:Et; [|done]. simpl in H.
  destruct (fits _ _ _) as [d|] eqn:Ed; [|done]. injection H as <-. simpl in Hd.
  apply fits_Some in Ed as [-> _]. unfold u32_checked_add in Et. apply fits_Some in Et as [-> _].
  exists m. split; [done|lia].
Qed.

End chain.

(** ** Properties *)

Section properties.

(** C11: when the vault starts, each of its open requests is either executed
    with one payment found among the wallet's transactions or paid, never both
    and never twice, and a request that is paid has no payment among the
    transactions Horizon lists. *)
Theorem open_requests_settled_once (to_base58 : Bytes -> Bytes) `{HC : HorizonClient} fuel first_page l requests b :
  collect to_base58 l = Ok requests -> at_most first_page b -> (b < fuel)%nat ->
  exists executed paid,
    execute_open_requests to_base58 fuel first_page requests = Some (executed, paid) /\
    (forall text r, requests !! text = Some r -> r ∈ executed.*1 \/ r ∈ paid) /\
    NoDup (executed.*1 ++ paid) /\
    (forall r tx, (r, tx) ∈ executed -> pays to_base58 r tx) /\
    (forall r tx n, r ∈ paid -> tx ∈ listing n first_page -> ~ pays to_base58 r tx).
Proof.
  intros Hc Hb Hf. pose proof (keyed_collect _ _ _ Hc) as Hk. unfold execute_open_requests, spawn_tasks_to_execute_open_requests.
  assert (exists it executed remaining,
    match get_from_url first_page with
    | Some (recs, nxt) => match_payments to_base58 fuel (mkIter recs nxt) requests []
    | None => Some ([], requests)
    end = Some (executed, remaining) /\ settles to_base58 it requests remaining executed /\
    forall n tx, tx ∈ listing n first_page -> seen it tx) as (it & executed & remaining & -> & [S1 S2 S3 S4 S5] & Hseen).
  { destruct (get_from_url first_page) as [[recs nxt]|] eqn:E.
    - assert (at_most nxt (b - length recs)) as Hb'.
      { intros n. specialize (Hb (S n)). simpl in Hb. rewrite E, length_app in Hb. lia. }
      assert (length recs <= b)%nat by (specialize (Hb 1%nat); simpl in Hb; rewrite E, length_app in Hb; lia).
      destruct (match_payments_ends to_base58 fuel (mkIter recs nxt) requests [] _ Hk Hb') as [[ex rem] Hm]; [simpl; lia|].
      destruct (match_payments_settles _ _ _ _ _ _ _ Hk Hm) as (new & -> & Hset). exists (mkIter recs nxt), new, rem.
      split_and!; try done. intros [|n] tx; simpl; [by intros []%not_elem_of_nil|]. rewrite E.
      destruct recs as [|x recs]; [by intros []%not_elem_of_nil|]. intros [Hin|Hin]%elem_of_app; [by left|right; eauto].
    - exists (mkIter [] first_page), [], requests. split_and!; [done| |intros n tx Hin; by right; exists n].
      split; try done; [by intros ? ? []%not_elem_of_nil|constructor|by left|].
      intros text r tx _ [[]%not_elem_of_nil|[[|n] Hin]]; simpl in Hin; [|rewrite E in Hin]; by apply not_elem_of_nil in Hin. }
  assert (Hin : forall r, r ∈ (map_to_list remaining).*2 <-> exists text, remaining !! text = Some r).
  { intros r. rewrite list_elem_of_fmap. split.
    - intros ([k r'] & -> & H%elem_of_map_to_list). eauto.
    - intros (k & H). exists (k, r). split; [done|by apply elem_of_map_to_list]. }
  exists executed, (map_to_list remaining).*2. split_and!; [done|..].
  - intros text r Hr. destruct (S4 _ _ Hr) as [?|[tx ?]]; [right; apply Hin; eauto|left].
    apply list_elem_of_fmap. by exists (r, tx).
  - apply list.NoDup_app. split_and!; [done| |].
    + intros r ([r' tx] & -> & Hr)%list_elem_of_fmap. simpl. rewrite Hin. intros [k Hkr].
      destruct (S1 _ _ Hr) as [_ (k' & Hk1 & Hk2)].
      pose proof (Hk _ _ Hk1). pose proof (Hk _ _ (lookup_weaken _ _ _ _ Hkr S3)). congruence.
    + apply NoDup_fmap_2_strong; [|apply NoDup_map_to_list].
      intros [k1 r1] [k2 r2] H1%elem_of_map_to_list H2%elem_of_map_to_list. simpl. intros ->. f_equal.
      pose proof (Hk _ _ (lookup_weaken _ _ _ _ H1 S3)). pose proof (Hk _ _ (lookup_weaken _ _ _ _ H2 S3)). congruence.
  - intros r tx Hr. by destruct (S1 _ _ Hr).
  - intros r tx n [k Hkr]%Hin Htx. eapply S5; [exact Hkr|]. by eapply Hseen.
Qed.

(** C29: a vault that pays a redeem request in time cannot be punished for it
    before its payment margin is over: while no more active blocks have passed
    than the margin has, every attempt to cancel the request fails. *)
Theorem paid_redeem_not_cancelled `{RT : Runtime} h r margin q now m o b s s' :
  from_redeem_request h r margin = Some q -> deadline_expired q now = false ->
  duration_to_parachain_blocks margin = Some m ->
  redeem_store s !! h = Some r -> active_blocks s <= now + m ->
  cancel_redeem o h b s <> (Ok tt, s').
Proof.
  intros Hq Hd Hm Hr Ha H. destruct (cancel_redeem_expired _ _ _ _ _ H) as (r' & period & Hr' & Hp & He).
  assert (r' = r) as -> by congruence. destruct (deadline_bound _ _ _ _ _ Hq Hd) as (m' & Hm' & Hlt).
  assert (m' = m) as -> by congruence. lia.
Qed.

(** A redeem of at least one XLM to an account that does not exist can never
    be completed: the wallet pays it by creating the account, and the chain
    refuses every execution with such a transaction. *)
Theorem inactive_account_redeem_stuck `{RT : Runtime} `{N : Network} {L : NetworkLaws N} source h r margin q stroops op tx o env envs set s s' :
  from_redeem_request h r margin = Some q -> balance_lookup (redeem_amount_ r) = Some stroops ->
  0 < redeem_amount_ r ->
  creates_account (PublicKeyTypeEd25519 (stellar_address q)) (request_asset q) stroops ->
  create_payment_op_for_redeem_request source (PublicKeyTypeEd25519 (stellar_address q)) (request_asset q) stroops = inl op ->
  operations tx = [op] ->
  construct_from_raw_encoded_xdr transaction_envelope_from_xdr env = Ok (EnvelopeTypeTx tx) ->
  redeem_store s !! h = Some r ->
  execute_redeem o h env envs set s <> (Ok tt, s').
Proof.
  intros Hq Hs H0 Hc Hop Htx Henv Hr H. destruct (execute_redeem_paid _ _ _ _ _ _ _ H) as (r' & tx' & paid & Hr' & Htx' & Hp & Hle).
  assert (r' = r) as -> by congruence. rewrite Henv in Htx'. injection Htx' as <-.
  unfold from_redeem_request in Hq. destruct (asset_lookup (redeem_asset r)) as [asset|] eqn:Ea; [|done]. simpl in Hq.
  destruct (calculate_deadline _ _ _); [|done]. injection Hq as <-. simpl in *.
  rewrite payment_amount_counted in Hp. rewrite Ea in Hp. injection Hp as <-. simpl in Hle.
  rewrite (counted_single _ _ _ _ Htx), (creates_account_op _ _ _ _ _ Hc Hop) in Hle. simpl in Hle.
  unfold balance_unlookup in Hle. rewrite (stroops_nonneg 0) in Hle by (unfold i64_max; lia). lia.
Qed.

End properties.

(** ** Witnesses *)

Section witnesses.
#[local] Existing Instance SampleRuntime.

(** Request number 3, made as the third payment of the wallet; request number 9
    has no payment. *)
Definition open_request (n : Z) : Request :=
  mkRequest (replicate 28 n) (Some 100) (10 ^ 12) AssetTypeNative XLM [2] RequestRedeem sample_vault None.
Definition paid_record (n : Z) : TransactionResponse :=
  mkResponse n n (Some own_key) (Some n) (Some (EnvelopeTypeTx (payment_tx n))) "text" (Some (replicate 28 n)).
Definition paid_page : HorizonClient :=
  {| get_from_url url := if bool_decide (url = "first"%string) then Some (map paid_record [5; 4; 3], "end"%string)
                         else Some ([], "end"%string) |}.

Lemma paid_page_at_most : at_most (HC := paid_page) "first" 3.
Proof.
  assert (Hend : forall n, pages (HC := paid_page) n "end" = []) by (intros n; induction n as [|n IH]; simpl; [done|exact IH]).
  intros [|n]; simpl; [lia|]. rewrite Hend. simpl. lia.
Qed.

Lemma open_requests_settled_once_witness :
  exists executed paid,
    execute_open_requests (fun b => b) (HC := paid_page) 10 "first"
      (<[replicate 28 3 := open_request 3]> {[replicate 28 9 := open_request 9]}) = Some (executed, paid) /\
    NoDup (executed.*1 ++ paid).
Proof.
  destruct (open_requests_settled_once (fun b => b) (HC := paid_page) 10 "first" [open_request 3; open_request 9]
    (<[replicate 28 3 := open_request 3]> {[replicate 28 9 := open_request 9]}) 3) as (ex & pd & H & _ & Hnd & _).
  - reflexivity.
  - exact paid_page_at_most.
  - lia.
  - exists ex, pd. by split.
Defined.

(** A request of block 1 with a period of 100, paid in block 90 with a margin of
    two blocks. *)
Definition small_request : RedeemRequest :=
  mkRedeemRequest sample_vault 1 100 0 0 (10 ^ 6) XLM 0 2%N [88] RedeemPending.
Definition small_chain : Chain :=
  set_redeem (mkRedeemStorage {[ [9] := small_request ]} 100 0 no_limit ∅) sample_genesis.
Definition small_payment : Request :=
  mkRequest [9] (Some 99) (10 ^ 6) AssetTypeNative XLM [88] RequestRedeem sample_vault (Some 0).

Lemma paid_redeem_not_cancelled_witness : cancel_redeem (Ok 2%N) [9] true small_chain <> (Ok tt, small_chain).
Proof.
  apply (paid_redeem_not_cancelled (RT := SampleRuntime) [9] small_request 12000 small_payment 90 2);
    vm_compute; try reflexivity; discriminate.
Defined.

(** Ten XLM to an account that does not exist. *)
Definition stuck_request : RedeemRequest :=
  mkRedeemRequest sample_vault 1 100 0 0 (10 ^ 13) XLM 0 2%N [3] RedeemPending.
Definition stuck_chain : Chain :=
  set_redeem (mkRedeemStorage {[ [9] := stuck_request ]} 100 0 no_limit ∅) sample_genesis.

Definition stuck_payment : Request :=
  mkRequest [9] (Some 101) (10 ^ 13) AssetTypeNative XLM [3] RequestRedeem sample_vault (Some 0).

Lemma inactive_account_redeem_stuck_witness :
  execute_redeem (Ok 1%N) [9] [0; 3; 100000000; 9] [] [] stuck_chain <> (Ok tt, stuck_chain).
Proof.
  apply (inactive_account_redeem_stuck (RT := SampleRuntime) (N := ToyNetwork []) (L := ToyNetwork_laws []) own_key [9]
    stuck_request 0 stuck_payment 100000000 (CreateAccount (PublicKeyTypeEd25519 [3]) 100000000)
    (mkTransaction [CreateAccount (PublicKeyTypeEd25519 [3]) 100000000] (MemoText [9]) 0 0));
    [vm_compute; reflexivity|vm_compute; reflexivity|reflexivity| |vm_compute; reflexivity|reflexivity
    |vm_compute; reflexivity|vm_compute; reflexivity].
  split_and!; [by do 2 eexists|reflexivity|vm_compute; discriminate].
Defined.

End witnesses.
