(* ===== verification/VaultIssues.v ===== *)
(** * The vault executes issue requests

    [src/clients/vault/src/issue.rs], [src/clients/wallet/src/task.rs] and the
    fetching of transactions in [src/clients/wallet/src/horizon/horizon.rs]: the
    vault keeps the open issue requests, collects from Horizon the transactions
    that pay one of them, and runs one task per ledger that proves and executes
    the issue. *)

From S2P Require Import Prelude FixedPoint Primitives Currency Security Oracle Staking.
From S2P Require Import PooledRewards StellarRelay Chain Sample Horizon VaultRequests.

(** ** Open issue requests *)

Record IssueSet := mkIssueSet {
  issues : gmap H256 IssueRequest;
  memos_to_issue_ids : gmap TextMemo H256;
}.

Section issue_set.
Context (to_base58 : Bytes -> Bytes).

(** [initialize_issue_set] and the handler of [RequestIssueEvent]. *)
Definition add_issue (issue_id : H256) (request : IssueRequest) (s : IssueSet) : outcome IssueSet :=
  let? shortened_request_id := derive_shortened_request_id to_base58 issue_id in
  Ok (mkIssueSet (<[issue_id := request]> (issues s))
        (<[shortened_request_id := issue_id]> (memos_to_issue_ids s))).

Fixpoint initialize_issue_set (requests : list (H256 * IssueRequest)) (s : IssueSet)
  : outcome IssueSet :=
  match requests with
  | [] => Ok s
  | (issue_id, request) :: rest =>
      let? s := add_issue issue_id request s in initialize_issue_set rest s
  end.

Definition is_vault (p1 : PublicKey) (p2_raw : StellarPublicKeyRaw) : bool :=
  bool_decide (into_binary p1 = p2_raw).

(** The event's issue, as the chain has it, if it is directed at the vault. *)
Definition on_request_issue (vault_public_key : PublicKey) (issue_id : H256)
    (vault_stellar_public_key : StellarPublicKeyRaw) (issue_request : option IssueRequest)
    (s : IssueSet) : outcome IssueSet :=
  if is_vault vault_public_key vault_stellar_public_key then
    match issue_request with
    | Some issue_request => add_issue issue_id issue_request s
    | None => Ok s
    end
  else Ok s.

(** The handlers of [CancelIssueEvent] and [ExecuteIssueEvent]. *)
Definition on_issue_closed (issue_id : H256) (s : IssueSet) : outcome IssueSet :=
  let? shortened_request_id := derive_shortened_request_id to_base58 issue_id in
  Ok (mkIssueSet (delete issue_id (issues s)) (delete shortened_request_id (memos_to_issue_ids s))).

End issue_set.

(** ** Transactions that pay an issue *)

Definition is_relevant (vault_address : StellarPublicKeyRaw) (tx : TransactionResponse)
    (s : IssueSet) : bool :=
  match memo_text tx with
  | None => false
  | Some text =>
      match memos_to_issue_ids s !! text with
      | None => false
      | Some issue_id =>
          match issues s !! issue_id with
          | None => false
          | Some request =>
              match to_envelope tx with
              | None => false
              | Some tx_env =>
                  match asset_lookup (issue_asset request) with
                  | None => false
                  | Some asset => 0 <? get_payment_amount_for_asset_to tx_env vault_address asset
                  end
              end
          end
      end
  end.

Abbreviation LedgerTxEnvMap := (gmap Z TransactionEnvelope) (only parsing).

Section fetch.
Context `{HC : HorizonClient} (vault_address : StellarPublicKeyRaw) (s : IssueSet).

(** The loop over the transactions: one envelope per ledger is kept, and the
    cursor moves to the last transaction of a page.  [None] when out of fuel. *)
Fixpoint process_transactions (fuel : nat) (txs_iter : TransactionsResponseIter)
    (ledger_env_map : LedgerTxEnvMap) (last_cursor : PagingToken)
  : option (LedgerTxEnvMap * PagingToken) :=
  match fuel with
  | O => None
  | S fuel =>
      match next txs_iter with
      | (None, _) => Some (ledger_env_map, last_cursor)
      | (Some tx, txs_iter) =>
          let ledger_env_map :=
            if is_relevant vault_address tx s then
              match to_envelope tx with
              | Some tx_env => <[ledger tx := tx_env]> ledger_env_map
              | None => ledger_env_map
              end
            else ledger_env_map in
          let last_cursor := match records txs_iter with [] => paging_token tx | _ => last_cursor end in
          process_transactions fuel txs_iter ledger_env_map last_cursor
      end
  end.

(** [first_page] is the page after the cursor; [Some None] is its error. *)
Definition fetch_horizon_and_process_new_transactions (fuel : nat) (first_page : PagingToken -> string)
    (ledger_env_map : LedgerTxEnvMap) (last_cursor : PagingToken)
  : option (option (LedgerTxEnvMap * PagingToken)) :=
  if bool_decide (issues s = ∅) || bool_decide (memos_to_issue_ids s = ∅)
  then Some (Some (ledger_env_map, last_cursor))
  else
    match get_from_url (first_page last_cursor) with
    | None => Some None
    | Some (recs, next) =>
        option_map Some (process_transactions fuel (mkIter recs next) ledger_env_map last_cursor)
    end.

End fetch.

(** ** Tasks: [task.rs] *)

Inductive SlotTaskStatus := Ready | Success | RecoverableError | Failed (message : string).

#[export] Instance SlotTaskStatus_eq_dec : EqDecision SlotTaskStatus.
Proof. solve_decision. Defined.

(** The receiving end of a oneshot channel: nothing yet, a status, or the sender
    is gone.  A status can be received once. *)
Inductive Receiver := Waiting | Sent (status : SlotTaskStatus) | Closed.

Definition try_recv (r : Receiver) : (SlotTaskStatus + bool) * Receiver :=
  match r with
  | Waiting => (inr true, Waiting)          (* TryRecvError::Empty *)
  | Sent status => (inl status, Closed)
  | Closed => (inr false, Closed)           (* TryRecvError::Closed *)
  end.

Record SlotTask := mkSlotTask { receiver : Receiver; latest_status : SlotTaskStatus }.

Definition new_task : SlotTask := mkSlotTask Waiting Ready.

Definition update_status (self : SlotTask) : SlotTaskStatus * SlotTask :=
  match latest_status self with
  | Success | Failed _ => (latest_status self, self)
  | _ =>
      let '(received, r) := try_recv (receiver self) in
      let status :=
        match received with
        | inl Ready => latest_status self
        | inl new_status => new_status
        | inr true => Ready
        | inr false => RecoverableError
        end in
      (status, mkSlotTask r status)
  end.

Definition set_receiver (r : Receiver) (self : SlotTask) : bool * SlotTask :=
  match latest_status self with
  | Ready | RecoverableError => (true, mkSlotTask r (latest_status self))
  | _ => (false, self)
  end.

(** Whether a new sender is returned. *)
Definition recover_with_new_sender (self : SlotTask) : bool * SlotTask :=
  let '(status, self) := update_status self in
  if bool_decide (status = RecoverableError) then
    let '(set, self) := set_receiver Waiting self in
    if set then (true, mkSlotTask (receiver self) Ready) else (false, self)
  else (false, self).

Definition create_task_status_sender (processed_map : gmap Z SlotTask) (slot : Z)
  : bool * gmap Z SlotTask :=
  match processed_map !! slot with
  | Some existing =>
      let '(sender, task) := recover_with_new_sender existing in
      (sender, <[slot := task]> processed_map)
  | None => (true, <[slot := new_task]> processed_map)
  end.

Definition is_over (status : SlotTaskStatus) : bool :=
  match status with Success | Failed _ => true | _ => false end.

(** Tasks that are over leave both maps. *)
Definition over_at (processed_map : gmap Z SlotTask) (slot : Z) : bool :=
  match processed_map !! slot with
  | Some task => is_over (update_status task).1
  | None => false
  end.

Definition cleanup_ledger_env_map (processed_map : gmap Z SlotTask) (ledger_map : LedgerTxEnvMap)
  : gmap Z SlotTask * LedgerTxEnvMap :=
  (snd <$> filter (fun e => is_over e.2.1 = false) (update_status <$> processed_map),
   filter (fun e => over_at processed_map e.1 = false) ledger_map).

(** ** Executing an issue *)

(** What the call to the chain returns; [is_issue_completed] tells the second
    from other errors. *)
Inductive RpcResult := RpcOk | RpcIssueCompleted | RpcError (message : string).

Section execution.
Context {Proof_ : Type}.

(** The status that is sent, and the sets afterwards.  [proof] is the answer of
    the oracle agent, [rpc] the call to the chain; the number of the ledger is
    left out of the message of a failure. *)
Definition execute_issue (tx_env : TransactionEnvelope) (proof : option Proof_)
    (rpc : H256 -> TransactionEnvelope -> Proof_ -> RpcResult) (s : IssueSet)
  : SlotTaskStatus * IssueSet :=
  match proof with
  | None => (RecoverableError, s)
  | Some proof =>
      match get_text_memo_from_tx_env tx_env with
      | None => (Failed "Cannot find issue memo", s)
      | Some text_memo =>
          match memos_to_issue_ids s !! text_memo with
          | None => (Failed "Cannot find issue memo", s)
          | Some issue_id =>
              match rpc issue_id tx_env proof with
              | RpcOk => (Success, mkIssueSet (delete issue_id (issues s))
                                     (delete text_memo (memos_to_issue_ids s)))
              | RpcIssueCompleted => (Success, s)
              | RpcError e => (Failed e, s)
              end
          end
      end
  end.

End execution.

(** ** Fetching finds the payments *)

Section collected.
Context `{HC : HorizonClient} (vault_address : StellarPublicKeyRaw) (s : IssueSet).

Lemma next_seen it x it' :
  next it = (Some x, it') -> seen it x /\ forall tx, seen it' tx -> seen it tx.
Proof.
  unfold next, get_top_record, jump_to_next_page. destruct it as [[|y recs] np]; simpl.
  - destruct (get_from_url np) as [[[|y recs] nxt]|] eqn:E; simpl; [done| |done]. intros [= -> <-]. split.
    + right. exists 1%nat. simpl. rewrite E. by left.
    + intros tx [Htx|[n Hn]]; right; [exists 1%nat|exists (S n)]; simpl; rewrite E; right; apply elem_of_app; auto.
  - intros [= -> <-]. split; [left; by left|]. intros tx [Htx|Hn]; [left; by right|by right].
Qed.

(** A listed transaction that pays an open issue, and its envelope. *)
Definition payment (it : TransactionsResponseIter) (tx : TransactionResponse)
    (env : TransactionEnvelope) : Prop :=
  seen it tx /\ is_relevant vault_address tx s = true /\ to_envelope tx = Some env.

(** Each payment's ledger is in the map, with a payment of that ledger, and
    nothing else was added. *)
Definition collects (it : TransactionsResponseIter) (m m' : LedgerTxEnvMap) : Prop :=
  (forall tx env, payment it tx env ->
     exists tx' env', payment it tx' env' /\ ledger tx' = ledger tx /\ m' !! ledger tx = Some env') /\
  (forall slot env, m' !! slot = Some env ->
     m !! slot = Some env \/ exists tx, payment it tx env /\ ledger tx = slot).

Lemma payment_next it x it' tx env :
  next it = (Some x, it') -> payment it tx env -> tx = x \/ payment it' tx env.
Proof. intros En (Hs & Hr & He). destruct (next_some_seen _ _ _ _ En Hs); [by left|by right]. Qed.

Lemma payment_step it x it' tx env :
  next it = (Some x, it') -> payment it' tx env -> payment it tx env.
Proof. intros [_ Hs]%next_seen (? & ? & ?). split; [by apply Hs|done]. Qed.

Lemma collects_step it x it' m m1 m' :
  next it = (Some x, it') ->
  m1 = (if is_relevant vault_address x s then
          match to_envelope x with Some e => <[ledger x := e]> m | None => m end else m) ->
  collects it' m1 m' ->
  (forall slot env, m1 !! slot = Some env -> is_Some (m' !! slot)) -> collects it m m'.
Proof.
  intros En Hm1 [C1 C2] Hkeep.
  assert (Hx : forall slot env, m1 !! slot = Some env ->
    m !! slot = Some env \/ payment it x env /\ ledger x = slot).
  { intros slot env. rewrite Hm1. destruct (is_relevant vault_address x s) eqn:Er; [|by left].
    destruct (to_envelope x) as [e|] eqn:Ee; [|by left].
    intros [[<- <-]|[_ ?]]%lookup_insert_Some; [right|by left].
    split; [|done]. split; [exact (proj1 (next_seen _ _ _ En))|done]. }
  split.
  - intros tx env Hp. destruct (payment_next _ _ _ _ _ En Hp) as [->|Hp'].
    + assert (m1 !! ledger x = Some env) as H1.
      { destruct Hp as (_ & Hr & He). rewrite Hm1, Hr, He. apply lookup_insert_eq. }
      destruct (Hkeep _ _ H1) as [env' H']. destruct (C2 _ _ H') as [H2|(tx' & Hp' & Hl)].
      * assert (env' = env) as -> by congruence. by exists x, env.
      * exists tx', env'. split; [by eapply payment_step|done].
    + destruct (C1 _ _ Hp') as (tx' & env' & ? & ? & ?). exists tx', env'.
      split; [by eapply payment_step|done].
  - intros slot env H. destruct (C2 _ _ H) as [H1|(tx & Hp & Hl)].
    + destruct (Hx _ _ H1) as [?|[? ?]]; [by left|right; by exists x].
    + right. exists tx. split; [by eapply payment_step|done].
Qed.

Lemma added_keeps x (m : LedgerTxEnvMap) slot env :
  m !! slot = Some env ->
  is_Some ((if is_relevant vault_address x s then
              match to_envelope x with Some e => <[ledger x := e]> m | None => m end else m) !! slot).
Proof.
  intros Hs. destruct (is_relevant vault_address x s); [|by eauto]. destruct (to_envelope x); [|by eauto].
  destruct (decide (ledger x = slot)) as [<-|Hne]; [rewrite lookup_insert_eq|rewrite lookup_insert_ne by done]; eauto.
Qed.

Lemma process_transactions_collects fuel it m c m' c' :
  process_transactions vault_address s fuel it m c = Some (m', c') ->
  collects it m m' /\ forall slot env, m !! slot = Some env -> is_Some (m' !! slot).
Proof.
  revert it m c. induction fuel as [|fuel IH]; intros it m c; simpl; [done|].
  destruct (next it) as [[x|] it1] eqn:En.
  - intros H. apply IH in H as [Hc Hk]. split; [by eapply collects_step|].
    intros slot env Hs. destruct (added_keeps x m slot env Hs) as [e He]. by eapply Hk.
  - intros [= <- <-]. split; [|by eauto]. split; [|by left].
    intros tx env (Hs & _). by eapply next_none_seen in Hs.
Qed.

Lemma process_transactions_ends fuel it m c b :
  at_most (next_page it) b -> (length (records it) + b < fuel)%nat ->
  exists res, process_transactions vault_address s fuel it m c = Some res.
Proof.
  revert it m c b. induction fuel as [|fuel IH]; intros it m c b Hb Hf; [lia|]. simpl.
  destruct (next it) as [[tx|] it1] eqn:En; [|by eexists].
  destruct (next_shrinks _ _ _ _ En Hb) as (_ & _ & b1 & Hb1 & ?).
  eapply IH; [exact Hb1|lia].
Qed.

End collected.

(** ** One task per ledger *)

(** The loop of [process_issues_requests] beside the fetcher and the tasks it
    spawned; [running] lists the ledgers of the tasks that hold a sender. *)
Record Executor := mkExecutor {
  processed : gmap Z SlotTask;
  pending : LedgerTxEnvMap;
  running : list Z;
}.

(** A task that sends its status, or is dropped without sending one. *)
Definition answer (r : Receiver) (slot : Z) (p : gmap Z SlotTask) : gmap Z SlotTask :=
  alter (fun t => match receiver t with Waiting => mkSlotTask r (latest_status t) | _ => t end) slot p.

Inductive step : Executor -> Executor -> Prop :=
| step_fetched slot env e :
    step e (mkExecutor (processed e) (<[slot := env]> (pending e)) (running e))
| step_spawned slot p e :
    is_Some (pending e !! slot) -> create_task_status_sender (processed e) slot = (true, p) ->
    step e (mkExecutor p (pending e) (slot :: running e))
| step_ongoing slot p e :
    is_Some (pending e !! slot) -> create_task_status_sender (processed e) slot = (false, p) ->
    step e (mkExecutor p (pending e) (running e))
| step_answered l1 slot l2 status e :
    running e = l1 ++ slot :: l2 -> status <> Ready ->
    step e (mkExecutor (answer (Sent status) slot (processed e)) (pending e) (l1 ++ l2))
| step_dropped l1 slot l2 e :
    running e = l1 ++ slot :: l2 ->
    step e (mkExecutor (answer Closed slot (processed e)) (pending e) (l1 ++ l2))
| step_cleaned p m e :
    cleanup_ledger_env_map (processed e) (pending e) = (p, m) ->
    step e (mkExecutor p m (running e)).

Definition started : Executor := mkExecutor ∅ ∅ [].

(** Running tasks are the ones the loop waits for. *)
Record ExecutorInv (e : Executor) : Prop := {
  running_once : NoDup (running e);
  running_awaited : forall slot, slot ∈ running e -> processed e !! slot = Some new_task;
}.

Lemma recover_new : recover_with_new_sender new_task = (false, new_task).
Proof. reflexivity. Qed.

Lemma create_not_running p slot p' :
  create_task_status_sender p slot = (true, p') -> p !! slot <> Some new_task /\ p' = <[slot := new_task]> p.
Proof.
  unfold create_task_status_sender. destruct (p !! slot) as [t|] eqn:E; [|by intros [= <-]].
  destruct (recover_with_new_sender t) as [b t'] eqn:Er. intros [= -> <-]. split.
  - intros [= ->]. by rewrite recover_new in Er.
  - f_equal. revert Er. unfold recover_with_new_sender. destruct t as [[|[]|] []]; simpl; intros H; by simplify_eq/=.
Qed.

Lemma create_keeps p slot b p' k :
  create_task_status_sender p slot = (b, p') -> p !! k = Some new_task -> p' !! k = Some new_task.
Proof.
  unfold create_task_status_sender. intros H Hk. destruct (decide (slot = k)) as [->|Hne].
  - rewrite Hk, recover_new in H. injection H as _ <-. apply lookup_insert_eq.
  - destruct (p !! slot); [destruct (recover_with_new_sender _)|]; injection H as _ <-; by rewrite lookup_insert_ne.
Qed.

Lemma ended_keeps r l1 slot l2 e m :
  ExecutorInv e -> running e = l1 ++ slot :: l2 ->
  ExecutorInv (mkExecutor (answer r slot (processed e)) m (l1 ++ l2)).
Proof.
  intros [I1 I2] E. rewrite E in I1. apply list.NoDup_app in I1 as (N1 & N2 & N3). apply list.NoDup_cons in N3 as [N3 N4].
  split; simpl.
  - apply list.NoDup_app. split_and!; [done| |done]. intros x Hx Hx'. apply (N2 x Hx). by right.
  - intros k Hk. unfold answer. rewrite lookup_alter_ne.
    + apply I2. rewrite E. apply elem_of_app. apply elem_of_app in Hk as [?|?]; [by left|right; by right].
    + intros ->. apply elem_of_app in Hk as [Hk|Hk]; [|done]. apply (N2 k Hk). by left.
Qed.

Lemma cleanup_keeps p m k :
  p !! k = Some new_task -> (cleanup_ledger_env_map p m).1 !! k = Some new_task.
Proof.
  intros Hk. simpl. rewrite lookup_fmap_Some. exists (Ready, new_task). split; [done|].
  apply map_lookup_filter_Some. split; [|done]. by rewrite lookup_fmap, Hk.
Qed.

Lemma executor_step_inv e e' : ExecutorInv e -> step e e' -> ExecutorInv e'.
Proof.
  intros HI Hs. pose proof HI as [I1 I2]. destruct Hs as [slot env e|slot p e _ Hc|slot p e _ Hc|l1 slot l2 st e E _|l1 slot l2 e E|p m e E].
  - by split.
  - pose proof (create_not_running _ _ _ Hc) as [Hn ->]. split; simpl.
    + apply list.NoDup_cons. split; [|done]. intros H%I2. done.
    + intros k [->|Hk]%elem_of_cons; [apply lookup_insert_eq|]. by eapply create_keeps; [|apply I2].
  - split; simpl; [done|]. intros k Hk. by eapply create_keeps; [|apply I2].
  - by eapply ended_keeps.
  - by eapply ended_keeps.
  - split; simpl; [done|].
    intros k Hk. pose proof (cleanup_keeps _ (pending e) _ (I2 _ Hk)) as H. by rewrite E in H.
Qed.

Lemma started_inv : ExecutorInv started.
Proof. split; [constructor|]. by intros slot []%not_elem_of_nil. Qed.

Lemma executor_reached_inv e : rtc step started e -> ExecutorInv e.
Proof.
  intros H. remember started as e0 eqn:E. assert (ExecutorInv e0) as HI by (subst; apply started_inv). clear E.
  induction H; eauto using executor_step_inv.
Qed.

(** ** Properties *)

Section properties.

(** C12: whatever the order in which transactions arrive, tasks are spawned,
    answer or die and the maps are cleaned, at most one task executes the issue
    of a ledger at any time, and its transaction stays in the map until it has
    ended: cleaning removes no running task. *)
Theorem one_issue_task_per_ledger e :
  rtc step started e ->
  NoDup (running e) /\
  forall slot p m env, slot ∈ running e -> pending e !! slot = Some env ->
    cleanup_ledger_env_map (processed e) (pending e) = (p, m) ->
    p !! slot = Some new_task /\ m !! slot = Some env.
Proof.
  intros [I1 I2]%executor_reached_inv. split; [done|]. intros slot p m env Hs%I2 He Hc. split.
  - pose proof (cleanup_keeps _ (pending e) _ Hs) as H. by rewrite Hc in H.
  - injection Hc as _ <-. apply map_lookup_filter_Some. split; [done|]. simpl. unfold over_at. by rewrite Hs.
Qed.

(** C30: one pass of the fetcher ends, keeps a payment of every ledger in which
    Horizon lists one for an open issue, keeps the payment itself when it is the
    only one of its ledger, and adds nothing else. *)
Theorem issue_payments_collected `{HC : HorizonClient} vault_address s fuel it m c b :
  at_most (next_page it) b -> (length (records it) + b < fuel)%nat ->
  exists m' c', process_transactions vault_address s fuel it m c = Some (m', c') /\
    collects vault_address s it m m' /\
    forall tx env, payment vault_address s it tx env ->
      (forall tx' env', payment vault_address s it tx' env' -> ledger tx' = ledger tx -> env' = env) ->
      m' !! ledger tx = Some env.
Proof.
  intros Hb Hf. destruct (process_transactions_ends vault_address s _ _ m c _ Hb Hf) as [[m' c'] E].
  exists m', c'. split; [done|]. apply process_transactions_collects in E as [[C1 C2] _]. split; [by split|].
  intros tx env Hp Hu. destruct (C1 _ _ Hp) as (tx' & env' & Hp' & Hl & ->). f_equal. by eapply Hu.
Qed.

(** Of two payments for open issues in one ledger the vault keeps the later
    one only; the cursor moves past both, so the earlier payment is not fetched
    again and its issue is not executed. *)
Theorem same_ledger_payment_lost `{HC : HorizonClient} vault_address s fuel tx1 tx2 env1 env2 url m c :
  is_relevant vault_address tx1 s = true -> is_relevant vault_address tx2 s = true ->
  to_envelope tx1 = Some env1 -> to_envelope tx2 = Some env2 -> ledger tx1 = ledger tx2 ->
  env1 <> env2 -> (forall slot, m !! slot <> Some env1) -> get_from_url url = None ->
  exists m', process_transactions vault_address s (S (S (S fuel))) (mkIter [tx1; tx2] url) m c =
      Some (m', paging_token tx2) /\ m' !! ledger tx2 = Some env2 /\ forall slot, m' !! slot <> Some env1.
Proof.
  intros R1 R2 E1 E2 Hl Hne Hm Hu. eexists. split.
  - simpl. rewrite R1, R2, E1, E2. unfold next, get_top_record, jump_to_next_page. simpl. by rewrite Hu.
  - rewrite Hl. split; [apply lookup_insert_eq|]. intros slot H.
    apply lookup_insert_Some in H as [[_ ?]|[? [[? _]|[_ ?]]%lookup_insert_Some]]; naive_solver.
Qed.

(** A payment is executed again as long as no proof can be built: the task
    then reports a recoverable error, the executor gets a new sender for its
    ledger and the set of open issues is unchanged. *)
Theorem unproven_issue_retried {Proof_ : Type} tx_env (rpc : H256 -> TransactionEnvelope -> Proof_ -> RpcResult) s p m slot env :
  p !! slot = Some new_task -> m !! slot = Some env ->
  let '(status, s') := execute_issue tx_env None rpc s in
  let '(p', m') := cleanup_ledger_env_map (answer (Sent status) slot p) m in
  s' = s /\ m' !! slot = Some env /\ create_task_status_sender p' slot = (true, <[slot := new_task]> p').
Proof.
  intros Hp Hm. simpl. split; [done|].
  assert (answer (Sent RecoverableError) slot p !! slot = Some (mkSlotTask (Sent RecoverableError) Ready)) as Ha
    by (unfold answer; by rewrite lookup_alter_eq, Hp).
  split.
  - apply map_lookup_filter_Some. split; [done|]. simpl. unfold over_at. by rewrite Ha.
  - unfold create_task_status_sender.
    assert ((snd <$> filter (fun e : Z * (SlotTaskStatus * SlotTask) => is_over e.2.1 = false)
      (update_status <$> answer (Sent RecoverableError) slot p)) !! slot = Some (mkSlotTask Closed RecoverableError)) as ->; [|done].
    rewrite lookup_fmap_Some. exists (RecoverableError, mkSlotTask Closed RecoverableError). split; [done|].
    apply map_lookup_filter_Some. split; [|done]. by rewrite lookup_fmap, Ha.
Qed.

End properties.

(** ** Witnesses *)

Section witnesses.

(** Two open issues, each paid by the transaction with its number; both
    transactions are in ledger 7. *)
Definition open_issue : IssueRequest :=
  mkIssueRequest sample_vault 1 100 0 (10 ^ 12) XLM 0 5%N [2] IssuePending.
Definition two_issues : IssueSet :=
  mkIssueSet {[ [3] := open_issue; [4] := open_issue ]}
    {[ replicate 28 3 := [3]; replicate 28 4 := [4] ]}.
Definition issue_record (n slot : Z) : TransactionResponse :=
  mkResponse n slot (Some own_key) (Some n) (Some (EnvelopeTypeTx (payment_tx n))) "text" (Some (replicate 28 n)).
Definition no_more_pages : HorizonClient := {| get_from_url _ := None |}.

Lemma one_issue_task_per_ledger_witness :
  exists e, rtc step started e /\ running e = [7] /\ NoDup (running e).
Proof.
  assert (rtc step started (mkExecutor {[7 := new_task]} {[7 := EnvelopeTypeTx (payment_tx 3)]} [7])) as H.
  { eapply rtc_l; [exact (step_fetched 7 (EnvelopeTypeTx (payment_tx 3)) started)|].
    eapply rtc_l; [|apply rtc_refl]. eapply (step_spawned 7); [by eexists|reflexivity]. }
  eexists. split; [exact H|]. split; [reflexivity|]. exact (proj1 (one_issue_task_per_ledger _ H)).
Defined.

Lemma issue_payments_collected_witness :
  exists m' c', process_transactions (HC := no_more_pages) [2] two_issues 3
      (mkIter [issue_record 3 7; issue_record 4 8] "end") ∅ 0 = Some (m', c') /\
    collects (HC := no_more_pages) [2] two_issues (mkIter [issue_record 3 7; issue_record 4 8] "end") ∅ m'.
Proof.
  destruct (issue_payments_collected (HC := no_more_pages) [2] two_issues 3
    (mkIter [issue_record 3 7; issue_record 4 8] "end") ∅ 0 0) as (m' & c' & E & C & _).
  - intros [|n]; simpl; lia.
  - simpl. lia.
  - exists m', c'. by split.
Defined.

Lemma same_ledger_payment_lost_witness :
  exists m', process_transactions (HC := no_more_pages) [2] two_issues 3
      (mkIter [issue_record 3 7; issue_record 4 7] "end") ∅ 0 = Some (m', 4) /\
    m' !! 7 = Some (EnvelopeTypeTx (payment_tx 4)) /\ forall slot, m' !! slot <> Some (EnvelopeTypeTx (payment_tx 3)).
Proof.
  apply (same_ledger_payment_lost (HC := no_more_pages) [2] two_issues 0 (issue_record 3 7) (issue_record 4 7)
    (EnvelopeTypeTx (payment_tx 3)) (EnvelopeTypeTx (payment_tx 4)) "end" ∅ 0);
    [vm_compute; reflexivity|vm_compute; reflexivity|reflexivity|reflexivity|reflexivity
    |by vm_compute|intros slot; by rewrite lookup_empty|reflexivity].
Defined.

Lemma unproven_issue_retried_witness :
  let '(status, s') := execute_issue (Proof_ := unit) (EnvelopeTypeTx (payment_tx 3)) None (fun _ _ _ => RpcOk) two_issues in
  let '(p', m') := cleanup_ledger_env_map (answer (Sent status) 7 {[7 := new_task]}) {[7 := EnvelopeTypeTx (payment_tx 3)]} in
  s' = two_issues /\ m' !! 7 = Some (EnvelopeTypeTx (payment_tx 3)) /\
  create_task_status_sender p' 7 = (true, <[7 := new_task]> p').
Proof.
  apply (unproven_issue_retried (Proof_ := unit) (EnvelopeTypeTx (payment_tx 3)) (fun _ _ _ => RpcOk) two_issues
    {[7 := new_task]} {[7 := EnvelopeTypeTx (payment_tx 3)]} 7 (EnvelopeTypeTx (payment_tx 3))); reflexivity.
Defined.

End witnesses.
