(* ===== verification/VaultCancellation.v ===== *)
(** * The vault cancels overdue requests

    [src/clients/vault/src/cancellation.rs]: the scheduler keeps the issue and
    replace requests that are open with the vault and cancels those whose period
    is over, to receive the griefing collateral.

    The chain is an interface, [Canceller], with the laws the scheduler relies
    on; the issue and replace pallets are its instances. *)

From S2P Require Import Prelude FixedPoint Primitives Currency Security Oracle Staking.
From S2P Require Import PooledRewards StellarRelay Chain RewardDistribution Fee VaultRegistry.
From S2P Require Import VaultFrames VaultBooks RateLimit Issue Redeem Nomination Replace.
From S2P Require Import Runtime RequestLife Sample Reachable.

Record UnconvertedOpenTime := mkUnconverted {
  open_id : H256;
  parachain_open_height : BlockNumber;
  open_period : BlockNumber;
}.

Record ActiveRequest := mkActive {
  active_id : H256;
  parachain_deadline_height : BlockNumber;
}.

Inductive ListState := Valid | Invalid.

Inductive Event := Opened | Executed (id : H256) | ParachainBlock (height : BlockNumber).

(** A request whose deadline does not fit in a [u32] is an error. *)
Definition convert (global_period : BlockNumber) (r : UnconvertedOpenTime) : option ActiveRequest :=
  d ← u32_checked_add (parachain_open_height r) (Z.max global_period (open_period r));
  Some (mkActive (open_id r) d).

(** The trait [Canceller]: [W] is the chain, and [cancel_request] tells whether
    the call succeeded. *)
Class Canceller (W : Type) := {
  get_open_requests : AccountId -> W -> list UnconvertedOpenTime;
  get_period : W -> BlockNumber;
  cancel_request : AccountId -> H256 -> W -> bool * W;
}.

(** What happens to a call on the way: it is answered, it never arrives, or its
    answer is lost. *)
Inductive Delivery := Answered | Lost | Unanswered.

(** How the connection to the chain behaves while an event is handled. *)
Record Connection := mkConnection {
  requests_answered : bool;
  period_answered : bool;
  delivery : H256 -> Delivery;
}.

Record CancellationScheduler := mkScheduler {
  vault_id : AccountId;
  parachain_height : BlockNumber;
  active_requests : list ActiveRequest;
  list_state : ListState;
}.

Definition scheduler_new (height : BlockNumber) (vault : AccountId) : CancellationScheduler :=
  mkScheduler vault height [] Invalid.

(** Those that stay and those that are expired. *)
Definition drain_expired (requests : list ActiveRequest) (current_height : BlockNumber)
  : list ActiveRequest * list ActiveRequest :=
  (List.filter (fun r => negb (parachain_deadline_height r <? current_height)) requests,
   List.filter (fun r => parachain_deadline_height r <? current_height) requests).

Section scheduler.
Context `{CW : Canceller W}.

(** The scheduler's own [get_open_requests]; [None] is an error. *)
Definition query_open_requests (net : Connection) (vault : AccountId) (w : W)
  : option (list ActiveRequest) :=
  if requests_answered net then
    match get_open_requests vault w with
    | [] => Some []
    | open_requests =>
        if period_answered net then mapM (convert (get_period w)) open_requests else None
    end
  else None.

Definition send_cancel (net : Connection) (vault : AccountId) (id : H256) (w : W) : bool * W :=
  match delivery net id with
  | Answered => cancel_request vault id w
  | Lost => (false, w)
  | Unanswered => (false, (cancel_request vault id w).2)
  end.

(** The loop of [cancel_requests] stops at the first error. *)
Fixpoint cancel_all (net : Connection) (vault : AccountId) (requests : list ActiveRequest) (w : W)
  : ListState * W :=
  match requests with
  | [] => (Valid, w)
  | r :: requests =>
      match send_cancel net vault (active_id r) w with
      | (true, w) => cancel_all net vault requests w
      | (false, w) => (Invalid, w)
      end
  end.

Definition cancel_requests (net : Connection) (s : CancellationScheduler) (w : W)
  : CancellationScheduler * W :=
  let '(requests, expired) := drain_expired (active_requests s) (parachain_height s) in
  let '(state, w) := cancel_all net (vault_id s) expired w in
  (mkScheduler (vault_id s) (parachain_height s) requests state, w).

Definition process_event (net : Connection) (event : Event) (s : CancellationScheduler) (w : W)
  : CancellationScheduler * W :=
  let requests :=
    match list_state s with
    | Valid => active_requests s
    | Invalid => default [] (query_open_requests net (vault_id s) w)
    end in
  match event with
  | ParachainBlock height => cancel_requests net (mkScheduler (vault_id s) height requests Valid) w
  | Executed id =>
      (mkScheduler (vault_id s) (parachain_height s)
         (List.filter (fun r => negb (bool_decide (active_id r = id))) requests) Valid, w)
  | Opened => (mkScheduler (vault_id s) (parachain_height s) requests Invalid, w)
  end.

(** [handle_cancellation] on the events it receives. *)
Fixpoint handle_cancellation (events : list (Connection * Event)) (s : CancellationScheduler) (w : W)
  : CancellationScheduler * W :=
  match events with
  | [] => (s, w)
  | (net, event) :: events =>
      let '(s, w) := process_event net event s w in
      handle_cancellation events s w
  end.

End scheduler.

(** ** What the scheduler relies on *)

(** [moves] is what the chain may do between two events. *)
Class CancellerLaws (W : Type) (CW : Canceller W) (moves : W -> W -> Prop) := {
  (** all requests, open or closed *)
  recorded : W -> H256 -> option UnconvertedOpenTime;
  open_recorded v w r : r ∈ get_open_requests v w -> recorded w (open_id r) = Some r;
  moves_recorded w w' i r : moves w w' -> recorded w i = Some r -> recorded w' i = Some r;
  moves_period w w' : moves w w' -> get_period w' = get_period w;
  cancel_fails v i w w' : cancel_request v i w = (false, w') -> w' = w;
  cancel_moves v i w w' : cancel_request v i w = (true, w') -> moves w w';
  cancel_closes v v' i w w' r : cancel_request v i w = (true, w') ->
    r ∈ get_open_requests v' w' <-> r ∈ get_open_requests v' w /\ open_id r <> i;
}.

Section system.
Context `{CW : Canceller W} {moves : W -> W -> Prop} {L : CancellerLaws W CW moves}.

Definition deadline_of (w : W) (r : UnconvertedOpenTime) : Z :=
  parachain_open_height r + Z.max (get_period w) (open_period r).

(** An entry of the list has the deadline of a request of the chain. *)
Definition entry_ok (w : W) (a : ActiveRequest) : Prop :=
  exists r, recorded w (active_id a) = Some r /\ parachain_deadline_height a = deadline_of w r.

Definition covers (v : AccountId) (w : W) (l : list ActiveRequest) : Prop :=
  forall r, r ∈ get_open_requests v w -> mkActive (open_id r) (deadline_of w r) ∈ l.

(** The scheduler, the chain, and whether a request was opened whose [Opened]
    event has not been handled. *)
Record System := mkSystem {
  scheduler : CancellationScheduler;
  chain : W;
  unannounced : bool;
}.

Definition query_works (net : Connection) (s : System) : Prop :=
  list_state (scheduler s) = Invalid -> query_open_requests net (vault_id (scheduler s)) (chain s) <> None.

Definition event_ok (event : Event) (s : System) : Prop :=
  match event with
  | Executed i => forall r, r ∈ get_open_requests (vault_id (scheduler s)) (chain s) -> open_id r <> i
  | _ => True
  end.

Definition handle (net : Connection) (event : Event) (s : System) : System :=
  let '(sch, w) := process_event net event (scheduler s) (chain s) in
  mkSystem sch w (match event with Opened => false | _ => unannounced s end).

Inductive system_step : System -> System -> Prop :=
| chain_moves s w' u' :
    moves (chain s) w' ->
    (u' = false -> unannounced s = false /\
       forall r, r ∈ get_open_requests (vault_id (scheduler s)) w' ->
         r ∈ get_open_requests (vault_id (scheduler s)) (chain s)) ->
    system_step s (mkSystem (scheduler s) w' u')
| event_handled net event s :
    query_works net s -> event_ok event s -> system_step s (handle net event s).

(** ** Invariant *)

Record tracked (s : System) : Prop := {
  entries_ok : Forall (entry_ok (chain s)) (active_requests (scheduler s));
  all_covered : list_state (scheduler s) = Valid -> unannounced s = false ->
    covers (vault_id (scheduler s)) (chain s) (active_requests (scheduler s));
}.

Lemma entry_moves w w' a : moves w w' -> entry_ok w a -> entry_ok w' a.
Proof.
  intros Hm (r & Hr & Hd). exists r. split; [by eapply moves_recorded|].
  unfold deadline_of in *. by rewrite (moves_period _ _ Hm).
Qed.

Lemma send_cancel_moves net v i w b w' : send_cancel net v i w = (b, w') ->
  (w' = w \/ moves w w') /\ (b = true -> cancel_request v i w = (true, w')).
Proof.
  unfold send_cancel. destruct (delivery net i).
  - destruct (cancel_request v i w) as [[] w1] eqn:E; intros [= <- <-]; split; try done.
    + right. by eapply cancel_moves.
    + left. by eapply cancel_fails.
  - intros [= <- <-]. by split; [left|].
  - destruct (cancel_request v i w) as [[] w1] eqn:E; intros [= <- <-]; (split; [|done]).
    + right. by eapply cancel_moves.
    + left. by eapply cancel_fails.
Qed.

Lemma cancel_all_entries net v l w st w' a :
  cancel_all net v l w = (st, w') -> entry_ok w a -> entry_ok w' a.
Proof.
  revert w. induction l as [|x l IH]; intros w; cbn [cancel_all]; [by intros [= _ <-]|].
  destruct (send_cancel net v (active_id x) w) as [b w1] eqn:E. apply send_cancel_moves in E as [Hm _].
  intros H Ha. assert (entry_ok w1 a) by (destruct Hm as [->|Hm]; [done|by eapply entry_moves]).
  destruct b; [by eapply IH|]. by injection H as _ <-.
Qed.

Lemma cancel_all_period net v l w st w' : cancel_all net v l w = (st, w') -> get_period w' = get_period w.
Proof.
  revert w. induction l as [|x l IH]; intros w; cbn [cancel_all]; [by intros [= _ <-]|].
  destruct (send_cancel net v (active_id x) w) as [b w1] eqn:E. apply send_cancel_moves in E as [Hm _].
  assert (get_period w1 = get_period w) as Hp by (destruct Hm as [->|Hm]; [done|by apply moves_period]).
  destruct b; [intros ->%IH; done|]. by intros [= _ <-].
Qed.

(** When no call fails, exactly the requests of the list are closed. *)
Lemma cancel_all_closes net v l w w' r :
  cancel_all net v l w = (Valid, w') ->
  r ∈ get_open_requests v w' <-> r ∈ get_open_requests v w /\ open_id r ∉ map active_id l.
Proof.
  revert w. induction l as [|x l IH]; intros w; cbn [cancel_all map].
  - intros [= <-]. split; [intros Hr; split; [done|apply not_elem_of_nil]|by intros [? _]].
  - destruct (send_cancel net v (active_id x) w) as [[] w1] eqn:E; [|done].
    apply send_cancel_moves in E as [_ E]. specialize (E eq_refl).
    intros H%IH. rewrite H, (cancel_closes _ _ _ _ _ _ E), not_elem_of_cons. tauto.
Qed.

Lemma convert_ok p r a : convert p r = Some a ->
  active_id a = open_id r /\ parachain_deadline_height a = parachain_open_height r + Z.max p (open_period r).
Proof.
  unfold convert. destruct (u32_checked_add _ _) as [d|] eqn:E; simpl; [|done]. intros [= <-].
  unfold u32_checked_add in E. apply fits_Some in E as [-> _]. done.
Qed.

Lemma query_ok net v w l : query_open_requests net v w = Some l ->
  Forall (entry_ok w) l /\ covers v w l.
Proof.
  unfold query_open_requests. destruct (requests_answered net); [|done].
  assert (forall open, Forall (fun r => recorded w (open_id r) = Some r) open ->
    mapM (convert (get_period w)) open = Some l ->
    Forall (entry_ok w) l /\ forall r, r ∈ open -> mkActive (open_id r) (deadline_of w r) ∈ l) as Hgen.
  { intros open Hopen H. apply mapM_Some in H.
    revert Hopen. induction H as [|r a open l Ha _ IH]; intros Hopen; [set_solver|].
    apply list.Forall_cons in Hopen as [Hr Hopen]. destruct (IH Hopen) as [IH1 IH2].
    apply convert_ok in Ha as [Hid Hd]. split.
    - apply list.Forall_cons. split; [|done]. exists r. rewrite Hid. split; [done|]. exact Hd.
    - intros r' Hr'. apply elem_of_cons in Hr' as [->|Hr']; [|by right; apply IH2].
      destruct a as [ai ad]. simpl in *. subst. left. }
  assert (Forall (fun r => recorded w (open_id r) = Some r) (get_open_requests v w)) as Hrec.
  { apply list.Forall_forall. intros r Hr. by eapply open_recorded. }
  unfold covers. destruct (get_open_requests v w) as [|x open] eqn:E.
  - intros [= <-]. split; [done|]. set_solver.
  - destruct (period_answered net); [|done]. intros H. by apply Hgen.
Qed.

(** The list an event is handled with. *)
Definition current (net : Connection) (s : System) : list ActiveRequest :=
  match list_state (scheduler s) with
  | Valid => active_requests (scheduler s)
  | Invalid => default [] (query_open_requests net (vault_id (scheduler s)) (chain s))
  end.

Lemma current_ok net s : tracked s -> query_works net s ->
  Forall (entry_ok (chain s)) (current net s) /\
  (unannounced s = false \/ list_state (scheduler s) = Invalid ->
   covers (vault_id (scheduler s)) (chain s) (current net s)).
Proof.
  intros [H1 H2] Hq. unfold current, query_works in *. destruct (list_state (scheduler s)) eqn:E.
  - split; [done|]. intros [|]; [by apply H2|done].
  - destruct (query_open_requests _ _ _) as [l|] eqn:El; [|by destruct (Hq eq_refl)].
    destruct (query_ok _ _ _ _ El). by split.
Qed.

Lemma filter_In {A} (f : A -> bool) l x : x ∈ List.filter f l <-> x ∈ l /\ f x = true.
Proof. rewrite !list_elem_of_In. apply filter_In. Qed.

Lemma Forall_filtered {A} (P : A -> Prop) f l : Forall P l -> Forall P (List.filter f l).
Proof. rewrite !list.Forall_forall. intros H x [Hx _]%filter_In. by apply H. Qed.

(** A block: the overdue entries are closed, or an error leaves the list to be
    queried again. *)
Lemma block_handled net h s :
  tracked s -> query_works net s ->
  let s' := handle net (ParachainBlock h) s in
  Forall (entry_ok (chain s')) (active_requests (scheduler s')) /\
  (list_state (scheduler s') = Valid -> unannounced s = false \/ list_state (scheduler s) = Invalid ->
   forall r, r ∈ get_open_requests (vault_id (scheduler s')) (chain s') ->
     h <= deadline_of (chain s') r /\
     mkActive (open_id r) (deadline_of (chain s') r) ∈ active_requests (scheduler s')).
Proof.
  intros Ht Hq. destruct (current_ok net s Ht Hq) as [C1 C2]. unfold handle, process_event, cancel_requests.
  fold (current net s). cbn [active_requests parachain_height vault_id]. unfold drain_expired.
  destruct (cancel_all net (vault_id (scheduler s)) _ (chain s)) as [st w'] eqn:E.
  cbn [scheduler chain active_requests list_state vault_id]. split.
  - apply Forall_filtered. eapply list.Forall_impl; [exact C1|]. intros a. by eapply cancel_all_entries.
  - intros -> Hu r Hr. apply (cancel_all_closes _ _ _ _ _ _ E) in Hr as [Hr Hni].
    assert (deadline_of w' r = deadline_of (chain s) r) as Hd
      by (unfold deadline_of; by rewrite (cancel_all_period _ _ _ _ _ _ E)).
    rewrite Hd. pose proof (C2 Hu r Hr) as Hin.
    destruct (Z.ltb_spec (deadline_of (chain s) r) h) as [Hlt|Hge].
    + destruct Hni. apply list_elem_of_In, (in_map active_id _ (mkActive (open_id r) (deadline_of (chain s) r))).
      apply list_elem_of_In, filter_In. split; [done|]. simpl. lia.
    + split; [done|]. apply filter_In. split; [done|]. simpl. lia.
Qed.

Lemma tracked_step s s' : system_step s s' -> tracked s -> tracked s'.
Proof.
  intros Hs Ht. destruct Hs as [s w' u' Hm Hu|net event s Hq He].
  - destruct Ht as [H1 H2]. split; cbn [scheduler chain unannounced].
    + eapply list.Forall_impl; [exact H1|]. intros a. by apply entry_moves.
    + intros Hv ->. destruct (Hu eq_refl) as [Hu0 Hopen]. intros r Hr.
      unfold deadline_of. rewrite (moves_period _ _ Hm). by apply H2, Hopen.
  - pose proof (current_ok net s Ht Hq) as [C1 C2]. destruct event as [|i|h].
    + split; [|done]. unfold handle, process_event. by fold (current net s).
    + split; unfold handle, process_event; fold (current net s); cbn [scheduler chain unannounced active_requests vault_id].
      * by apply Forall_filtered.
      * intros _ Hu r Hr. apply filter_In. split; [by apply C2; [left|]|]. simpl.
        rewrite bool_decide_eq_false_2; [done|]. by apply He.
    + destruct (block_handled net h s Ht Hq) as [B1 B2]. split; [done|]. intros Hv Hu r Hr. apply B2; [done|left|done].
      revert Hu. unfold handle. by destruct (process_event _ _ _ _).
Qed.

Lemma tracked_start h v w u : tracked (mkSystem (scheduler_new h v) w u).
Proof. by split. Qed.

Lemma tracked_run s s' : rtc system_step s s' -> tracked s -> tracked s'.
Proof. induction 1 as [|s1 s2 s3 H _ IH]; [done|]. intros Ht. by apply IH, (tracked_step _ _ H). Qed.

End system.

(** ** The pallets *)

Section pallets.
Context `{RT : Runtime}.

(** [IssueCanceller] *)
Definition issue_open_time (i : H256) (r : IssueRequest) : UnconvertedOpenTime :=
  mkUnconverted i (issue_opentime r) (issue_request_period r).

Definition issue_get_open_requests (v : AccountId) (s : Chain) : list UnconvertedOpenTime :=
  match get_issue_requests_for_vault v s with
  | (Ok ids, _) =>
      omap (fun i => r ← issue_store s !! i;
                     if bool_decide (issue_status r = IssuePending) then Some (issue_open_time i r) else None) ids
  | _ => []
  end.

Definition issue_cancel_request (v : AccountId) (i : H256) (s : Chain) : bool * Chain :=
  match cancel_issue (Ok v) i s with (Ok _, s') => (true, s') | _ => (false, s) end.

Definition IssueCanceller : Canceller Chain := {|
  get_open_requests := issue_get_open_requests;
  get_period s := IssuePeriod (issue_st s);
  cancel_request := issue_cancel_request;
|}.

(** [ReplaceCanceller] *)
Definition replace_open_time (i : H256) (r : ReplaceRequest) : UnconvertedOpenTime :=
  mkUnconverted i (accept_time r) (replace_request_period r).

Definition replace_get_open_requests (v : AccountId) (s : Chain) : list UnconvertedOpenTime :=
  match get_replace_requests_for_new_vault v s with
  | (Ok ids, _) =>
      omap (fun i => r ← replace_store s !! i;
                     if bool_decide (replace_status r = ReplacePending) then Some (replace_open_time i r) else None) ids
  | _ => []
  end.

Definition replace_cancel_request (v : AccountId) (i : H256) (s : Chain) : bool * Chain :=
  match cancel_replace (Ok v) i s with (Ok _, s') => (true, s') | _ => (false, s) end.

Definition ReplaceCanceller : Canceller Chain := {|
  get_open_requests := replace_get_open_requests;
  get_period s := ReplacePeriod (replace_st s);
  cancel_request := replace_cancel_request;
|}.

(** Requests are added and take steps of their life, as every call does, and the
    period is not changed. *)
Definition issue_moves (s s' : Chain) : Prop :=
  evolves issue_transition (issue_store s) (issue_store s') /\
  IssuePeriod (issue_st s') = IssuePeriod (issue_st s).

Definition replace_moves (s s' : Chain) : Prop :=
  evolves replace_transition (replace_store s) (replace_store s') /\
  ReplacePeriod (replace_st s') = ReplacePeriod (replace_st s).

Lemma step_issue_moves s s' :
  fresh_step s s' -> IssuePeriod (issue_st s') = IssuePeriod (issue_st s) -> issue_moves s s'.
Proof. intros H Hp. split; [|done]. by apply fresh_step_evolves in H as (? & _ & _). Qed.

Lemma step_replace_moves s s' :
  fresh_step s s' -> ReplacePeriod (replace_st s') = ReplacePeriod (replace_st s) -> replace_moves s s'.
Proof. intros H Hp. split; [|done]. by apply fresh_step_evolves in H as (_ & _ & ?). Qed.

Lemma stored_filter {R} (m : gmap H256 R) (f : R -> bool) i :
  i ∈ map fst (List.filter (fun '(_, r) => f r) (map_to_list m)) <-> exists r, m !! i = Some r /\ f r = true.
Proof.
  rewrite list_elem_of_In, in_map_iff. split.
  - intros ([j r] & <- & Hin). apply list_elem_of_In, filter_In in Hin as [Hin Hf].
    apply elem_of_map_to_list in Hin. by exists r.
  - intros (r & Hr & Hf). exists (i, r). split; [done|]. apply list_elem_of_In, filter_In.
    by rewrite elem_of_map_to_list.
Qed.

Lemma issue_open_iff v s x :
  x ∈ issue_get_open_requests v s <->
  exists r, issue_store s !! open_id x = Some r /\ account_id (issue_vault r) = v /\
    issue_status r = IssuePending /\ x = issue_open_time (open_id x) r.
Proof.
  unfold issue_get_open_requests, get_issue_requests_for_vault, bind, gets, ret. rewrite list_elem_of_omap. split.
  - intros (i & (r & Hr & Hv%bool_decide_eq_true)%(stored_filter _ (fun r => bool_decide (account_id (issue_vault r) = v))) & Hx).
    unfold issue_store in Hx. rewrite Hr in Hx. simpl in Hx. case_bool_decide; [|done]. injection Hx as <-. by exists r.
  - intros (r & Hr & Hv & Hs & Hx). exists (open_id x). split.
    + apply (stored_filter _ (fun r => bool_decide (account_id (issue_vault r) = v))). exists r.
      by rewrite bool_decide_eq_true.
    + rewrite Hr. simpl. rewrite bool_decide_eq_true_2 by done. by rewrite <- Hx.
Qed.

Lemma replace_open_iff v s x :
  x ∈ replace_get_open_requests v s <->
  exists r, replace_store s !! open_id x = Some r /\ account_id (new_vault r) = v /\
    replace_status r = ReplacePending /\ x = replace_open_time (open_id x) r.
Proof.
  unfold replace_get_open_requests, get_replace_requests_for_new_vault, bind, gets, ret. rewrite list_elem_of_omap. split.
  - intros (i & (r & Hr & Hv%bool_decide_eq_true)%(stored_filter _ (fun r => bool_decide (account_id (new_vault r) = v))) & Hx).
    unfold replace_store in Hx. rewrite Hr in Hx. simpl in Hx. case_bool_decide; [|done]. injection Hx as <-. by exists r.
  - intros (r & Hr & Hv & Hs & Hx). exists (open_id x). split.
    + apply (stored_filter _ (fun r => bool_decide (account_id (new_vault r) = v))). exists r.
      by rewrite bool_decide_eq_true.
    + rewrite Hr. simpl. rewrite bool_decide_eq_true_2 by done. by rewrite <- Hx.
Qed.

Definition issue_period_of (s : Chain) : BlockNumber := IssuePeriod (issue_st s).
Definition replace_period_of (s : Chain) : BlockNumber := ReplacePeriod (replace_st s).

#[local] Instance issue_period_frame : BaseFrame issue_period_of.
Proof. by repeat split. Qed.
#[local] Instance replace_period_frame : BaseFrame replace_period_of.
Proof. by repeat split. Qed.

Lemma cancel_issue_period q i s u s' :
  _cancel_issue q i s = (Ok u, s') -> issue_period_of s' = issue_period_of s.
Proof.
  assert (forall k g, preserves issue_period_of (put_issue_request k g)) as Hput.
  { intros k g. unfold put_issue_request, on_issue. intros s1. by destruct s1 as [? ? ? ? ? ? ? ? ? ? ? ? ?]. }
  apply preserves_ok. unfold _cancel_issue, get_pending_issue, get_issue_request, set_issue_status, issue_period. cbv zeta.
  pose proof (_ : OuterFrame issue_period_of) as F. outer.
Qed.

Lemma cancel_replace_period i s u s' :
  _cancel_replace i s = (Ok u, s') -> replace_period_of s' = replace_period_of s.
Proof.
  assert (forall k g, preserves replace_period_of (put_replace_request k g)) as Hput.
  { intros k g. unfold put_replace_request, on_replace. intros s1. by destruct s1 as [? ? ? ? ? ? ? ? ? ? ? ? ?]. }
  apply preserves_ok. unfold _cancel_replace, get_open_replace_request, get_replace_request, set_replace_status, replace_period. cbv zeta.
  pose proof (_ : OuterFrame replace_period_of) as F. outer.
Qed.

(** A transition changes neither the opening time nor the period nor the vault. *)
Lemma issue_transition_open i r r' :
  issue_transition r r' -> issue_open_time i r' = issue_open_time i r /\ issue_vault r' = issue_vault r.
Proof. by intros []. Qed.

Lemma replace_transition_open i r r' :
  replace_transition r r' -> replace_open_time i r' = replace_open_time i r /\ new_vault r' = new_vault r.
Proof. by intros []. Qed.

Lemma issue_cancelled v i s s' :
  issue_cancel_request v i s = (true, s') ->
  exists r, issue_store s !! i = Some r /\ issue_status r = IssuePending /\
    issue_store s' = <[i := with_issue_status IssueCancelled r]> (issue_store s) /\
    issue_period_of s' = issue_period_of s.
Proof.
  unfold issue_cancel_request, cancel_issue. destruct (transactional _ s) as [[u|e|] s1] eqn:E; [|done..].
  intros [= <-]. open_call E. pose proof (cancel_issue_period _ _ _ _ _ E).
  apply cancel_issue_store in E as (r & Hr & Hs & Hst). by exists r.
Qed.

Lemma replace_cancelled v i s s' :
  replace_cancel_request v i s = (true, s') ->
  exists r, replace_store s !! i = Some r /\ replace_status r = ReplacePending /\
    replace_store s' = <[i := with_replace_status ReplaceCancelled r]> (replace_store s) /\
    replace_period_of s' = replace_period_of s.
Proof.
  unfold replace_cancel_request, cancel_replace. destruct (transactional _ s) as [[u|e|] s1] eqn:E; [|done..].
  intros [= <-]. open_call E. pose proof (cancel_replace_period _ _ _ _ E).
  apply cancel_replace_store in E as (r & Hr & Hs & Hst). by exists r.
Qed.

#[export] Instance IssueCanceller_laws : CancellerLaws Chain IssueCanceller issue_moves.
Proof.
  refine {| recorded s i := issue_open_time i <$> issue_store s !! i |}.
  - intros v s x (r & -> & _ & _ & Hx)%issue_open_iff. simpl. by rewrite <- Hx.
  - intros s s' i x [He _] H. apply fmap_Some in H as (r & Hr & ->).
    destruct (He _ _ Hr) as (r' & -> & Ht). simpl. by destruct (issue_transition_open i _ _ Ht) as [-> _].
  - by intros s s' [_ Hp].
  - intros v i s s'. unfold cancel_request, IssueCanceller, issue_cancel_request.
    by destruct (cancel_issue _ _ s) as [[]]; intros [=].
  - intros v i s s' (r & Hr & Hs & Hst & Hp)%issue_cancelled. split; [|done].
    eapply updated_evolves; [apply issue_keeps|done|done|by constructor].
  - intros v v' i s s' x (r & Hr & Hs & Hst & _)%issue_cancelled. cbn [get_open_requests IssueCanceller].
    rewrite !issue_open_iff, Hst. destruct (decide (open_id x = i)) as [->|Hne].
    + split; [|by intros [_ []]]. rewrite lookup_insert_eq. by intros (r' & [= <-] & _ & ? & _).
    + rewrite lookup_insert_ne by done. split; [done|by intros [? _]].
Defined.

#[export] Instance ReplaceCanceller_laws : CancellerLaws Chain ReplaceCanceller replace_moves.
Proof.
  refine {| recorded s i := replace_open_time i <$> replace_store s !! i |}.
  - intros v s x (r & -> & _ & _ & Hx)%replace_open_iff. simpl. by rewrite <- Hx.
  - intros s s' i x [He _] H. apply fmap_Some in H as (r & Hr & ->).
    destruct (He _ _ Hr) as (r' & -> & Ht). simpl. by destruct (replace_transition_open i _ _ Ht) as [-> _].
  - by intros s s' [_ Hp].
  - intros v i s s'. unfold cancel_request, ReplaceCanceller, replace_cancel_request.
    by destruct (cancel_replace _ _ s) as [[]]; intros [=].
  - intros v i s s' (r & Hr & Hs & Hst & Hp)%replace_cancelled. split; [|done].
    eapply updated_evolves; [apply replace_keeps|done|done|by constructor].
  - intros v v' i s s' x (r & Hr & Hs & Hst & _)%replace_cancelled. cbn [get_open_requests ReplaceCanceller].
    rewrite !replace_open_iff, Hst. destruct (decide (open_id x = i)) as [->|Hne].
    + split; [|by intros [_ []]]. rewrite lookup_insert_eq. by intros (r' & [= <-] & _ & ? & _).
    + rewrite lookup_insert_ne by done. split; [done|by intros [? _]].
Defined.

End pallets.

(** ** Properties *)

Section properties.

Lemma cancel_all_invalid `{CW : Canceller W} net v l w w' :
  cancel_all net v l w = (Invalid, w') -> exists a w1, a ∈ l /\ (send_cancel net v (active_id a) w1).1 = false.
Proof.
  revert w. induction l as [|x l IH]; intros w; cbn [cancel_all]; [done|].
  destruct (send_cancel net v (active_id x) w) as [[] w1] eqn:E.
  - intros (a & w2 & Ha & H)%IH. exists a, w2. split; [by right|done].
  - intros _. exists x, w. split; [by left|]. by rewrite E.
Qed.

Lemma process_vault `{CW : Canceller W} net e s w : vault_id (process_event net e s w).1 = vault_id s.
Proof.
  unfold process_event, cancel_requests. destruct e; [done..|]. destruct (drain_expired _ _).
  by destruct (cancel_all _ _ _ _).
Qed.

Lemma run_vault `{CW : Canceller W} {moves} s s' :
  rtc (system_step (moves := moves)) s s' -> vault_id (scheduler s') = vault_id (scheduler s).
Proof.
  induction 1 as [|s1 s2 s3 H _ IH]; [done|]. rewrite IH. destruct H as [|net e s1 _ _]; [done|].
  unfold handle. pose proof (process_vault net e (scheduler s1) (chain s1)) as Hp.
  by destruct (process_event _ _ _ _).
Qed.


(** When the open requests cannot be queried, the scheduler forgets them: it
    takes the empty list as valid, and as long as no new request is announced it
    never cancels anything again, however well the connection works. *)
Theorem failed_query_forgets_requests `{CW : Canceller W} net event s w events :
  list_state s = Invalid -> query_open_requests net (vault_id s) w = None -> event <> Opened ->
  Forall (fun e => e.2 <> Opened) events ->
  let '(s', w') := handle_cancellation ((net, event) :: events) s w in
  w' = w /\ active_requests s' = [] /\ list_state s' = Valid.
Proof.
  intros Hi Hq He Hes. cbn [handle_cancellation].
  assert (forall e s1 net1, (list_state s1 = Valid /\ active_requests s1 = [] \/
      list_state s1 = Invalid /\ query_open_requests net1 (vault_id s1) w = None) -> e <> Opened ->
    exists s2, process_event net1 e s1 w = (s2, w) /\ list_state s2 = Valid /\ active_requests s2 = []) as Hstep.
  { intros e s1 net1 H1 He1. unfold process_event.
    assert (match list_state s1 with Valid => active_requests s1
      | Invalid => default [] (query_open_requests net1 (vault_id s1) w) end = []) as ->.
    { destruct H1 as [[-> ->]|[-> ->]]; done. }
    destruct e as [|i|h]; [done|by eexists|]. unfold cancel_requests. simpl. by eexists. }
  destruct (Hstep event s net (or_intror (conj Hi Hq)) He) as (s1 & -> & Hv & Ha). clear Hi Hq He.
  revert s1 Hv Ha. induction Hes as [|[n e] es He _ IH]; intros s1 Hv Ha; cbn [handle_cancellation]; [done|].
  destruct (Hstep e s1 n (or_introl (conj Hv Ha)) He) as (s2 & -> & Hv2 & Ha2). by apply IH.
Qed.

End properties.

(** ** Witnesses *)

Section witnesses.

(** An issue request of block 1 with a period of 100 and nothing at stake. *)
Definition overdue_issue : IssueRequest :=
  mkIssueRequest sample_vault 1 100 0 0 XLM 0 5%N [2] IssuePending.
Definition overdue_chain : Chain :=
  set_issue (mkIssueStorage {[ [9] := overdue_issue ]} 100 0 no_limit) sample_genesis.

Definition connected : Connection := mkConnection true true (fun _ => Answered).
Definition disconnected : Connection := mkConnection false true (fun _ => Answered).


(** The request is never cancelled although the connection is back. *)
Lemma failed_query_forgets_requests_witness :
  let '(s', w') := handle_cancellation (CW := IssueCanceller (RT := SampleRuntime))
    [(disconnected, ParachainBlock 150); (connected, ParachainBlock 200); (connected, ParachainBlock 10000)]
    (scheduler_new 0 (account_id sample_vault)) overdue_chain in
  w' = overdue_chain /\ active_requests s' = [] /\ list_state s' = Valid.
Proof.
  apply (failed_query_forgets_requests (CW := IssueCanceller (RT := SampleRuntime)) disconnected (ParachainBlock 150));
    [reflexivity|reflexivity|discriminate|]. repeat constructor; discriminate.
Defined.

End witnesses.
