(* ===== verification/ParachainClient.v ===== *)
(** * The client of the parachain

    [src/clients/runtime/src]: which errors of a call are answered by sending it
    again ([error.rs], [retry.rs]), and the queries the vault works with
    ([rpc.rs]).

    The connection is the list of what happens to the calls that are sent; the
    waits are the number of times the backoff lets the client try again. *)

From S2P Require Import Prelude FixedPoint Primitives Currency Security Oracle Staking.
From S2P Require Import PooledRewards StellarRelay Chain RewardDistribution Fee VaultRegistry.
From S2P Require Import RateLimit Issue Redeem Nomination Replace Runtime RequestLife Sample Reachable.
From S2P Require Import VaultFrames VaultRequests.

(** ** error.rs *)

Inductive JsonRpseeError :=
| Call (code : Z) (data : option string)
| RequestTimeout
| RestartNeeded
| Transport (invalid_url : bool)
| JsonOther.

(** [None]: an error of another type. *)
Inductive RpcError := ClientError (e : option JsonRpseeError) | SubscriptionDropped | RpcOther.

(** [None]: a module error without details. *)
Inductive SubxtError :=
| Rpc (e : RpcError)
| TransactionBlockNotFound
| ModuleError (details : option DispatchError)
| SubxtOther.

Inductive RuntimeError :=
| ExchangeRateInfo | FeedingEmptyList
| RequestIssueIDNotFound | RequestRedeemIDNotFound | RequestReplaceIDNotFound
| BlockNotFound | VaultNotFound | VaultLiquidated | VaultCommittedTheft
| ChannelClosed | PoolTooLowPriority | BlockHashNotFound
| InvalidTransaction (data : string)
| Timeout | BlockNotInRelayMainChain | InvalidCurrency
| KeyringArgumentError | KeyringAccountParsingError | StorageItemNotFound | InsufficientFunds
| InvalidSpecVersion (from to actual : Z)
| ParachainMetadataMismatch (expected actual : string)
| KeyLoadingFailure | Serialize | Convert
| SubxtRuntimeError (e : SubxtError)
| CodecError | SerdeJsonError
| JsonError (e : JsonRpseeError)
| TimeElapsed | UrlParseError
| ConstantNotFound (name : string)
| CurrencyNotFound | PrometheusError.

Inductive Recoverability := Recoverable (data : string) | Unrecoverable (data : string).

Definition BASE_ERROR : Z := 1000.
Definition POOL_INVALID_TX : Z := BASE_ERROR + 10.
Definition POOL_TOO_LOW_PRIORITY : Z := POOL_INVALID_TX + 4.

(** [str::contains] *)
Definition contains (s pattern : string) : bool :=
  match String.index 0 pattern s with Some _ => true | None => false end.

Definition is_recoverable (error_message : string) : bool :=
  existsb (contains error_message) ["Inability to pay some fees"; "Transaction is outdated"]%string.

Definition is_module_err (e : RuntimeError) (expected : DispatchError -> bool) : bool :=
  match e with
  | SubxtRuntimeError (ModuleError (Some details)) => expected details
  | _ => false
  end.

Definition is_issue_completed (e : RuntimeError) : bool :=
  is_module_err e (fun d => match d with Prelude.Issue issue.IssueCompleted => true | _ => false end).

Definition is_parachain_shutdown_error (e : RuntimeError) : bool :=
  is_module_err e (fun d => match d with Prelude.Security security.ParachainNotRunning => true | _ => false end).

Definition map_custom_error {T} (e : RuntimeError) (call : Z -> option string -> option T) : option T :=
  match e with
  | SubxtRuntimeError (Rpc (ClientError (Some (Call code data)))) => call code data
  | _ => None
  end.

Definition is_invalid_transaction (e : RuntimeError) : option Recoverability :=
  map_custom_error e (fun code data =>
    if code =? POOL_INVALID_TX then
      let data_string := default EmptyString data in
      if is_recoverable data_string then Some (Recoverable data_string)
      else Some (Unrecoverable data_string)
    else None).

Definition is_pool_too_low_priority (e : RuntimeError) : bool :=
  match map_custom_error e (fun code _ => if code =? POOL_TOO_LOW_PRIORITY then Some tt else None) with
  | Some _ => true
  | None => false
  end.

Definition is_rpc_disconnect_error (e : RuntimeError) : bool :=
  match e with
  | SubxtRuntimeError (Rpc (ClientError (Some RestartNeeded))) => true
  | SubxtRuntimeError (Rpc SubscriptionDropped) => true
  | _ => false
  end.

Definition is_rpc_error (e : RuntimeError) : bool :=
  match e with SubxtRuntimeError (Rpc _) => true | _ => false end.

Definition is_block_hash_not_found_error (e : RuntimeError) : bool :=
  match e with SubxtRuntimeError TransactionBlockNotFound => true | _ => false end.

Definition is_ws_invalid_url_error (e : RuntimeError) : bool :=
  match e with JsonError (Transport true) => true | _ => false end.

Definition is_timeout_error (e : RuntimeError) : bool :=
  match e with SubxtRuntimeError (Rpc (ClientError (Some RequestTimeout))) => true | _ => false end.

(** ** retry.rs *)

Inductive RetryPolicy := Skip (e : RuntimeError) | Throw (e : RuntimeError).

(** [call] is sent in state [w]; the backoff allows [waits] further attempts. *)
Fixpoint notify_retry {W T : Type} (waits : nat) (call : W -> (RuntimeError + T) * W)
    (verify : RuntimeError + T -> RetryPolicy + T) (w : W) : (RuntimeError + T) * W :=
  let '(result, w) := call w in
  match verify result with
  | inr ok => (inr ok, w)
  | inl (Throw err) => (inl err, w)
  | inl (Skip _) =>
      match waits with
      | O => (inl Timeout, w)
      | S waits => notify_retry waits call verify w
      end
  end.

(** ** rpc.rs: sending calls *)

Definition verify_submission {T} (result : RuntimeError + T) : RetryPolicy + T :=
  match result with
  | inr ok => inr ok
  | inl err =>
      inl match is_invalid_transaction err with
          | Some (Recoverable data) => Skip (InvalidTransaction data)
          | Some (Unrecoverable data) => Throw (InvalidTransaction data)
          | None =>
              if is_pool_too_low_priority err then Skip PoolTooLowPriority
              else if is_block_hash_not_found_error err then Skip BlockHashNotFound
              else if is_timeout_error err then Skip Timeout
              else Throw err
          end
  end.

(** What happens to a call that is sent: it is finalized and the client is told;
    it is refused; it is finalized but the client sees an error; or the time
    limit of the transaction passes, whether or not it is finalized. *)
Inductive Attempt :=
| Finalized
| Refused (e : RuntimeError)
| FinalizedUnseen (e : RuntimeError)
| Late (finalized : bool).

Section sending.
Context `{RT : Runtime}.

Record Link := mkLink {
  attempts : list Attempt;
  node : Chain;
  shutdown_sent : bool;
}.

(** A call in a block; only its success changes the pallets. *)
Definition included (call : RuntimeCall) (s : Chain) : (RuntimeError + unit) * Chain :=
  match dispatch call s with
  | (Ok _, s') => (inr tt, s')
  | (Err e, _) => (inl (SubxtRuntimeError (ModuleError (Some e))), s)
  | (Panic, _) => (inl (SubxtRuntimeError SubxtOther), s)
  end.

(** [sign_and_submit_then_watch_default], [wait_for_finalized_success] and the
    time limit. *)
Definition submit (call : RuntimeCall) (l : Link) : (RuntimeError + unit) * Link :=
  match attempts l with
  | [] => (inl ChannelClosed, l)
  | a :: rest =>
      let run := included call (node l) in
      match a with
      | Finalized => (run.1, mkLink rest run.2 (shutdown_sent l))
      | Refused e => (inl e, mkLink rest (node l) (shutdown_sent l))
      | FinalizedUnseen e => (inl e, mkLink rest run.2 (shutdown_sent l))
      | Late finalized => (inl Timeout, mkLink rest (if finalized then run.2 else node l) true)
      end
  end.

Definition with_retry (waits : nat) (call : RuntimeCall) (l : Link) : (RuntimeError + unit) * Link :=
  notify_retry waits (submit call) verify_submission l.

(** ** rpc.rs: calls and queries of the vault *)

Definition client_register_vault (waits : nat) (who : AccountId) (k : VaultId) (x : Balance) (l : Link)
  : (RuntimeError + unit) * Link :=
  if x =? 0 then (inl InsufficientFunds, l)
  else with_retry waits (RegisterVault (Ok who) (currencies k) x) l.

Definition client_get_vault (k : VaultId) (s : Chain) : RuntimeError + Vault :=
  match Vaults (registry s) !! k with
  | Some v =>
      match status v with
      | Liquidated => inl VaultLiquidated
      | Active _ => if bool_decide (id v = k) then inr v else inl VaultNotFound
      end
  | None => inl VaultNotFound
  end.

(** The entries of a storage map as they are read; [None] is a read that fails. *)
Fixpoint read_active_vaults (entries : list (option Vault)) (vaults : list Vault)
  : RuntimeError + list Vault :=
  match entries with
  | [] => inl VaultNotFound
  | None :: _ => inr vaults
  | Some v :: entries =>
      read_active_vaults entries (match status v with Active _ => vaults ++ [v] | Liquidated => vaults end)
  end.

Definition get_all_vaults (entries : list (option Vault)) : RuntimeError + list Vault :=
  read_active_vaults entries [].

(** [u32] addition without a check wraps around in a release build. *)
Definition is_active_issue (issue_period current_height : BlockNumber) (r : IssueRequest) : bool :=
  bool_decide (issue_status r = IssuePending) &&
  (current_height <? (issue_opentime r + issue_period) mod 2 ^ 32).

Definition get_all_active_issues (s : Chain) : list (H256 * IssueRequest) :=
  List.filter (fun '(_, r) => is_active_issue (IssuePeriod (issue_st s)) (active_blocks s) r)
    (map_to_list (issue_store s)).

End sending.

(** ** Properties *)

Section properties.
Context `{RT : Runtime}.

Lemma verify_throws_module (d : option DispatchError) :
  verify_submission (inl (SubxtRuntimeError (ModuleError d)) : RuntimeError + unit) =
  inl (Throw (SubxtRuntimeError (ModuleError d))).
Proof. done. Qed.

(** The chain after a call of which the client was told the outcome. *)
Lemma included_told call s :
  (exists s', dispatch call s = (Ok tt, s') /\ included call s = (inr tt, s')) \/
  (exists e, included call s = (inl e, s) /\ verify_submission (inl e : RuntimeError + unit) = inl (Throw e)).
Proof.
  unfold included. destruct (dispatch call s) as [[[]|e|] s'] eqn:E; [left|right..]; by eexists.
Qed.

(** The client is told of every call that is finalized. *)
Definition told (a : Attempt) : Prop :=
  match a with Finalized | Refused _ | Late false => True | _ => False end.

(** One attempt: it succeeds, the client gives up, or the chain is as before. *)
Lemma submit_told call l r l1 :
  submit call l = (r, l1) -> Forall told (attempts l) ->
  Forall told (attempts l1) /\
  match verify_submission r with
  | inr _ => dispatch call (node l) = (Ok tt, node l1)
  | inl _ => node l1 = node l
  end.
Proof.
  unfold submit. destruct (attempts l) as [|x rest] eqn:Ea; [intros [= <- <-] Ht; by rewrite Ea|].
  intros H [Hx Ht]%list.Forall_cons. destruct x as [|e|e|[]]; try done; injection H as <- <-; (split; [done|]).
  - destruct (included_told call (node l)) as [(s' & E & ->)|(e & -> & Ev)]; [done|]. cbn [fst snd]. by rewrite Ev.
  - unfold verify_submission. by destruct (is_invalid_transaction e) as [[]|].
  - done.
Qed.

(** Retrying a call that changes the chain only when it is verified to have
    succeeded. *)
Lemma notify_retry_told {T} waits (call : Link -> (RuntimeError + T) * Link) verify (applied : Chain -> Chain -> Prop) l r l' :
  (forall l r l1, call l = (r, l1) -> Forall told (attempts l) ->
     Forall told (attempts l1) /\
     match verify r with inr _ => applied (node l) (node l1) | inl _ => node l1 = node l end) ->
  notify_retry waits call verify l = (r, l') -> Forall told (attempts l) ->
  Forall told (attempts l') /\
  match r with inr _ => applied (node l) (node l') | inl _ => node l' = node l end.
Proof.
  intros Hc. revert l. induction waits as [|waits IH]; intros l; cbn [notify_retry]; intros H Ht;
    destruct (call l) as [a l1] eqn:Es; destruct (Hc _ _ _ Es Ht) as [Ht1 Hs];
    destruct (verify a) as [[e|e]|x]; try (by injection H as <- <-).
  apply IH in H; [|done]. by rewrite Hs in H.
Qed.

Lemma with_retry_told waits call l r l' :
  with_retry waits call l = (r, l') -> Forall told (attempts l) ->
  Forall told (attempts l') /\
  match r with
  | inr _ => dispatch call (node l) = (Ok tt, node l')
  | inl _ => node l' = node l
  end.
Proof.
  apply (notify_retry_told waits (submit call) verify_submission (fun s s' => dispatch call s = (Ok tt, s'))).
  intros. by apply submit_told.
Qed.

Lemma with_retry_once waits call l r l' :
  with_retry waits call l = (r, l') -> Forall told (attempts l) ->
  match r with
  | inr _ => dispatch call (node l) = (Ok tt, node l')
  | inl _ => node l' = node l
  end.
Proof. apply with_retry_told. Qed.

Definition retryable (e : RuntimeError) : Prop :=
  exists e', verify_submission (inl e : RuntimeError + unit) = inl (Skip e').

Lemma with_retry_reaches waits call errs rest l s' :
  attempts l = map Refused errs ++ Finalized :: rest -> (length errs <= waits)%nat -> Forall retryable errs ->
  dispatch call (node l) = (Ok tt, s') ->
  with_retry waits call l = (inr tt, mkLink rest s' (shutdown_sent l)).
Proof.
  unfold with_retry. revert waits l. induction errs as [|e errs IH]; intros waits l Ha Hl He Hd.
  - assert (submit call l = (inr tt, mkLink rest s' (shutdown_sent l))) as Hs.
    { unfold submit. rewrite Ha. simpl. unfold included. by rewrite Hd. }
    destruct waits; cbn [notify_retry]; by rewrite Hs.
  - destruct waits as [|waits]; [simpl in Hl; lia|]. apply list.Forall_cons in He as [(e' & He) Hes].
    cbn [notify_retry]. unfold submit at 1. rewrite Ha. cbn [map app]. rewrite He.
    rewrite (IH waits (mkLink (map Refused errs ++ Finalized :: rest) (node l) (shutdown_sent l))); [done|done| |done|done].
    simpl in Hl. lia.
Qed.


(** A call that is finalized while the request for it times out is sent again
    and applied a second time, and the client reports one success. *)
Theorem unseen_call_applied_twice waits call l e rest s1 s2 :
  attempts l = FinalizedUnseen e :: Finalized :: rest -> is_timeout_error e = true ->
  dispatch call (node l) = (Ok tt, s1) -> dispatch call s1 = (Ok tt, s2) ->
  with_retry (S waits) call l = (inr tt, mkLink rest s2 (shutdown_sent l)).
Proof.
  intros Ha He H1 H2. unfold with_retry. cbn [notify_retry]. unfold submit at 1. rewrite Ha.
  assert (verify_submission (inl e : RuntimeError + unit) = inl (Skip Timeout)) as ->.
  { destruct e as [ | | | | | | | | | | | | | | | | | | | | | | | | |[[[[]|]| |]| | |]| | | | | | | |]; done. }
  unfold included. rewrite H1.
  apply (with_retry_reaches waits call [] rest (mkLink (Finalized :: rest) s1 (shutdown_sent l)) s2); [done|simpl; lia|done|done].
Qed.

(** The list of all vaults is an error unless the storage cannot be read to its
    end. *)
Lemma get_all_vaults_fails vaults : get_all_vaults (map Some vaults) = inl VaultNotFound.
Proof.
  unfold get_all_vaults. generalize (@nil Vault). induction vaults as [|v vs IH]; intros l; [done|]. simpl. apply IH.
Qed.

Lemma active_issues_iff s i r :
  (i, r) ∈ get_all_active_issues s <->
  issue_store s !! i = Some r /\ is_active_issue (IssuePeriod (issue_st s)) (active_blocks s) r = true.
Proof.
  unfold get_all_active_issues. rewrite list_elem_of_In, List.filter_In, <- list_elem_of_In. by rewrite elem_of_map_to_list.
Qed.

(** The issue requests with which the vault starts are not expired on the
    chain; but a pending request that is kept open by its own period, or is in
    its last block, is left out although it can still be executed. *)
Theorem active_issues_incomplete s i r :
  issue_store s !! i = Some r -> issue_status r = IssuePending ->
  0 <= issue_opentime r -> 0 <= IssuePeriod (issue_st s) -> issue_opentime r + IssuePeriod (issue_st s) < 2 ^ 32 ->
  let chain_period := Z.max (IssuePeriod (issue_st s)) (issue_request_period r) in
  ((i, r) ∈ get_all_active_issues s -> active_blocks s < issue_opentime r + chain_period) /\
  (issue_opentime r + IssuePeriod (issue_st s) <= active_blocks s <= issue_opentime r + chain_period ->
   issue_opentime r + chain_period <= u32_max ->
   ~ ((i, r) ∈ get_all_active_issues s) /\
   in_security (parachain_block_expired (issue_opentime r) chain_period) s = (Ok false, s)).
Proof.
  intros Hr Hs H0 Hp Hf chain_period. unfold is_active_issue in *.
  assert ((issue_opentime r + IssuePeriod (issue_st s)) mod 2 ^ 32 = issue_opentime r + IssuePeriod (issue_st s)) as Hm
    by (apply Z.mod_small; lia).
  split.
  - intros [_ H]%active_issues_iff. unfold is_active_issue in H. rewrite Hm in H. lia.
  - intros Hb Hmax. split.
    + intros [_ H]%active_issues_iff. unfold is_active_issue in H. rewrite Hm in H. lia.
    + assert (u32_checked_add (issue_opentime r) chain_period = Some (issue_opentime r + chain_period)) as Ha.
      { unfold u32_checked_add, fits. destruct (Z.leb_spec 0 (issue_opentime r + chain_period)); [|lia].
        destruct (Z.leb_spec (issue_opentime r + chain_period) u32_max); [done|lia]. }
      unfold in_security, on_oracle, on_security, zoom, parachain_block_expired, bind, lift. rewrite Ha.
      unfold ok_or, active_block_number, gets, ret. unfold active_blocks in Hb.
      destruct (Z.ltb_spec (issue_opentime r + chain_period) (ActiveBlockCount (sec (oracle_st s)))); [lia|].
      by destruct s as [? ? [] ? ? ? ? ? ? ? ? ? ?].
Qed.

End properties.

(** ** Witnesses *)

Section witnesses.

#[local] Existing Instance SampleRuntime.

Definition low_fees : RuntimeError :=
  SubxtRuntimeError (Rpc (ClientError (Some (Call 1010 (Some "Inability to pay some fees (e.g. account balance too low)"%string))))).
Definition lost_answer : RuntimeError := SubxtRuntimeError (Rpc (ClientError (Some RequestTimeout))).
Definition deposit : RuntimeCall := DepositCollateral (Ok 1%N) sample_pair 500.

Definition refused_once : Link := mkLink [Refused low_fees; Finalized] with_vault false.
Definition timed_out_once : Link := mkLink [FinalizedUnseen lost_answer; Finalized] with_vault false.


(** A deposit of 500 locks 1000. *)
Lemma unseen_call_applied_twice_witness :
  with_retry 1 deposit timed_out_once =
  (inr tt, mkLink [] (snd (dispatch deposit (snd (dispatch deposit (node timed_out_once))))) (shutdown_sent timed_out_once)).
Proof.
  apply (unseen_call_applied_twice 0 deposit timed_out_once lost_answer []
    (snd (dispatch deposit (node timed_out_once)))); [reflexivity|reflexivity|apply run_ok; vm_compute; reflexivity..].
Defined.

(** A request of block 1 with its own period of 100, after the period was set to
    50, in block 60. *)
Definition long_issue : IssueRequest := mkIssueRequest sample_vault 1 100 0 0 XLM 0 5%N [2] IssuePending.
Definition block_60 : Chain :=
  set_issue (mkIssueStorage {[ [9] := long_issue ]} 50 0 no_limit)
    (snd (in_security (modify (fun st => mkSecurity (ParachainStatus st) (Errors st) (Security.Nonce st) 60)) sample_genesis)).

Lemma active_issues_incomplete_witness :
  ~ (([9], long_issue) ∈ get_all_active_issues block_60) /\
  in_security (parachain_block_expired 1 100) block_60 = (Ok false, block_60).
Proof.
  apply (active_issues_incomplete block_60 [9] long_issue);
    [reflexivity|reflexivity|discriminate|discriminate|reflexivity|split; discriminate|discriminate].
Defined.

End witnesses.
