(* ===== verification/VaultService.v ===== *)
(** * The vault service

    [src/clients/vault/src/system.rs]: the vaults of the account, registration at
    the start, and the tasks of the service with the precheck some of them wait
    for; [replace.rs]: accepting replace requests of other vaults;
    [src/clients/service/src/lib.rs]: when a task runs and when the service is
    started again. *)

From S2P Require Import Prelude FixedPoint Primitives Currency Security Oracle Staking.
From S2P Require Import PooledRewards StellarRelay Chain RewardDistribution Fee VaultRegistry.
From S2P Require Import RateLimit Issue Redeem Nomination Replace Runtime RequestLife Sample Reachable.
From S2P Require Import VaultFrames VaultCancellation ParachainClient.

(** ** The vaults of the account *)

Record VaultData := mkVaultData {
  data_vault_id : VaultId;
  liquidated : bool;
}.

Abbreviation VaultIdManager := (gmap VaultId VaultData) (only parsing).

Definition add_vault_id (k : VaultId) (is_liquidated : bool) (m : VaultIdManager) : VaultIdManager :=
  <[k := mkVaultData k is_liquidated]> m.

Definition get_vault (k : VaultId) (m : VaultIdManager) : option VaultData := m !! k.

Definition get_active_vault (k : VaultId) (m : VaultIdManager) : option VaultData :=
  v ← m !! k;
  if liquidated v then None else Some v.

Definition get_entries (m : VaultIdManager) : list VaultData :=
  List.filter (fun v => negb (liquidated v)) (map snd (map_to_list m)).

Definition get_vault_ids (m : VaultIdManager) : list VaultId :=
  map fst (List.filter (fun '(_, v) => negb (liquidated v)) (map_to_list m)).

Section service.
Context `{RT : Runtime}.

(** An error ends the loop; the vaults added before it stay. *)
Fixpoint fetch_loop (ids : list VaultId) (s : Chain) (m : VaultIdManager)
  : option RuntimeError * VaultIdManager :=
  match ids with
  | [] => (None, m)
  | k :: ids =>
      match client_get_vault k s with
      | inr _ => fetch_loop ids s (add_vault_id k false m)
      | inl VaultLiquidated => fetch_loop ids s (add_vault_id k true m)
      | inl e => (Some e, m)
      end
  end.

Definition fetch_vault_ids (who : AccountId) (s : Chain) (m : VaultIdManager)
  : option RuntimeError * VaultIdManager :=
  match get_vaults_by_account_id who s with
  | (Ok ids, _) => fetch_loop ids s m
  | _ => (Some (SubxtRuntimeError SubxtOther), m)
  end.

(** The handler of [RegisterVaultEvent]. *)
Definition on_register_vault (who : AccountId) (k : VaultId) (m : VaultIdManager) : VaultIdManager :=
  if bool_decide (account_id k = who) then add_vault_id k false m else m.

(** ** Registration *)

Definition register_vault_with_collateral (waits : nat) (who : AccountId) (k : VaultId)
    (collateral_amount : Balance) (l : Link) : (RuntimeError + unit) * Link :=
  let free := free_balance (collateral_currency k) who (ledger (node l)) in
  client_register_vault waits who k (if free <? collateral_amount then free else collateral_amount) l.

Definition register_vault_if_not_present (waits : nat) (who : AccountId) (k : VaultId)
    (collateral_amount : Balance) (l : Link) : (RuntimeError + unit) * Link :=
  match client_get_vault k (node l) with
  | inr _ | inl VaultLiquidated => (inr tt, l)
  | inl VaultNotFound => register_vault_with_collateral waits who k collateral_amount l
  | inl e => (inl e, l)
  end.

(** ** Replace requests of other vaults *)

(** The amount in an answer of the chain. *)
Definition answer (m : M Chain Amount) (s : Chain) : option Balance :=
  match m s with (Ok a, _) => Some (amount a) | _ => None end.

Definition handle_replace_request (waits : nat) (who : AccountId) (own_key : StellarPublicKeyRaw)
    (old_vault_id : VaultId) (event_amount : Balance) (k : VaultId) (l : Link)
  : (RuntimeError + unit) * Link :=
  match answer (get_required_collateral_for_wrapped (Amount.new event_amount (wrapped_currency k))
                  (collateral_currency k)) (node l),
        answer (get_backing_collateral k) (node l),
        answer (get_required_collateral_for_vault k) (node l) with
  | Some required_replace_collateral, Some current_collateral, Some used_collateral =>
      let total_required_collateral := Z.min u128_max (required_replace_collateral + used_collateral) in
      if current_collateral <? total_required_collateral then (inl InsufficientFunds, l)
      else with_retry waits (AcceptReplace (Ok who) (currencies k) old_vault_id event_amount 0 own_key) l
  | _, _, _ => (inl (SubxtRuntimeError SubxtOther), l)
  end.

(** The loop over the vaults: whether one has accepted. *)
Fixpoint try_vaults (waits : nat) (who : AccountId) (own_key : StellarPublicKeyRaw)
    (old_vault_id : VaultId) (event_amount : Balance) (vaults : list VaultId) (l : Link) : bool * Link :=
  match vaults with
  | [] => (false, l)
  | k :: vaults =>
      match handle_replace_request waits who own_key old_vault_id event_amount k l with
      | (inr _, l) => (true, l)
      | (inl _, l) => try_vaults waits who own_key old_vault_id event_amount vaults l
      end
  end.

(** The handler of [RequestReplaceEvent]: the event it sends to the scheduler of
    cancellations.  [vaults] are the active vaults in the order in which the map
    gives them. *)
Definition on_request_replace (waits : nat) (who : AccountId) (own_key : StellarPublicKeyRaw)
    (accept_replace_requests : bool) (vaults : list VaultId) (old_vault_id : VaultId)
    (event_amount : Balance) (l : Link) : option Event * Link :=
  if bool_decide (account_id old_vault_id = who) then (None, l)
  else if accept_replace_requests then
    let '(accepted, l) := try_vaults waits who own_key old_vault_id event_amount vaults l in
    (if accepted then Some Opened else None, l)
  else (None, l).

(** The handler of [ExecuteReplaceEvent]. *)
Definition on_execute_replace (who : AccountId) (new_vault_id : VaultId) (replace_id : H256) : option Event :=
  if bool_decide (account_id new_vault_id = who) then Some (Executed replace_id) else None.

End service.

(** ** The tasks *)

Inductive ServiceTask := Optional (should_run : bool) | Essential | PrecheckRequired.

Record ServiceConfig := mkServiceConfig {
  no_auto_replace : bool;
  no_issue_execution : bool;
  no_prometheus : bool;
}.

Definition create_issue_tasks (c : ServiceConfig) : list (string * ServiceTask) := [
  ("Issue Request Listener", PrecheckRequired);
  ("Issue Cancel Listener", PrecheckRequired);
  ("Issue Execute Listener", PrecheckRequired);
  ("Issue Executor", Optional (negb (no_issue_execution c)));
  ("Issue Cancel Scheduler", PrecheckRequired)]%string.

Definition create_replace_tasks (c : ServiceConfig) : list (string * ServiceTask) := [
  ("Request Replace Listener", PrecheckRequired);
  ("Accept Replace Listener", PrecheckRequired);
  ("Execute Replace Listener", Essential);
  ("Replace Cancellation Scheduler", PrecheckRequired)]%string.

Definition create_bridge_metrics_tasks (c : ServiceConfig) : list (string * ServiceTask) := [
  ("Bridge Metrics Listener", Optional (negb (no_prometheus c)));
  ("Bridge Metrics Poller", Optional (negb (no_prometheus c)))]%string.

Definition create_initial_tasks (c : ServiceConfig) : list (string * ServiceTask) := [
  ("VaultId Registration Listener", Essential);
  ("Restart Timer", Essential);
  ("Stellar Transaction Listener", Essential);
  ("Parachain Block Listener", PrecheckRequired)]%string.

Definition create_tasks (c : ServiceConfig) : list (string * ServiceTask) :=
  create_initial_tasks c ++ create_issue_tasks c ++ create_replace_tasks c ++
  [("Redeem Request Listener", Essential)]%string ++ create_bridge_metrics_tasks c.

(** The tasks of [run_service]. *)
Definition service_tasks (c : ServiceConfig) : list (string * ServiceTask) :=
  ("Stellar Messages Listener", Essential)%string :: create_tasks c.

(** The receivers of the signal, by number. *)
Definition precheck_signals (num_of_signals_required : nat) : list nat :=
  seq 0 (Nat.max 1 num_of_signals_required).

Definition run_service_signals : list nat := precheck_signals 8.

(** [run_and_monitor_tasks]: the tasks that are spawned, each with the receiver it
    waits for.  [Vec::pop] takes the last. *)
Fixpoint run_and_monitor_tasks (items : list (string * ServiceTask)) (signals : list nat)
  : list (string * option nat) :=
  match items with
  | [] => []
  | (name, Optional true) :: items | (name, Essential) :: items =>
      (name, None) :: run_and_monitor_tasks items signals
  | (name, PrecheckRequired) :: items =>
      (name, list.last signals) :: run_and_monitor_tasks items (removelast signals)
  | (_, Optional false) :: items => run_and_monitor_tasks items signals
  end.

(** The channel of the precheck: it is open, the signal was sent, or the sender is
    gone. *)
Inductive Precheck := Waiting | Sent | Dropped.

(** [wait_or_shutdown] until the task runs: it has to wait, it runs, or it ends
    without having run. *)
Inductive TaskState := Waits | Runs | EndsUnrun.

Definition wait_for_precheck (precheck_signal : option nat) (p : Precheck) : TaskState :=
  match precheck_signal, p with
  | None, _ | Some _, Sent => Runs
  | Some _, Waiting => Waits
  | Some _, Dropped => EndsUnrun
  end.

(** ** Starting again *)

Definition RESET_RESTART_TIME_IN_SECS : Z := 1800.
Definition DEFAULT_RESTART_TIME_IN_SECS : Z := 20.
Definition RESTART_BACKOFF_DELAY : Z := 10.

Record RestartState := mkRestart {
  restart_in_secs : Z;
  last_start_timestamp : Z;
}.

(** The head of the loop of [ConnectionManager::start], at [time_now]. *)
Definition restart_time (time_now : Z) (r : RestartState) : RestartState :=
  if time_now <? last_start_timestamp r then r
  else if RESET_RESTART_TIME_IN_SECS <? time_now - last_start_timestamp r then
    mkRestart DEFAULT_RESTART_TIME_IN_SECS (last_start_timestamp r)
  else mkRestart (restart_in_secs r + RESTART_BACKOFF_DELAY) time_now.

Definition restart_init (time_now : Z) : RestartState := mkRestart DEFAULT_RESTART_TIME_IN_SECS time_now.

(** The delay before each of the restarts that begin at the given times. *)
Fixpoint restart_delays (times : list Z) (r : RestartState) : list Z :=
  match times with
  | [] => []
  | t :: times => let r := restart_time t r in restart_in_secs r :: restart_delays times r
  end.

(** ** Start-up *)

(** The signal a task of the service waits for. *)
Definition signal_of (name : string) (c : ServiceConfig) : option (option nat) :=
  snd <$> List.find (fun e => bool_decide (e.1 = name))
    (run_and_monitor_tasks (service_tasks c) run_service_signals).

(** One kind of request at the vault while the service starts: the requests on the
    chain, the snapshot that [execute_open_requests] takes of them, whether the
    listener of their events has subscribed, and the requests that were given to
    payment. *)
Record Startup := mkStartup {
  finalized : list H256;
  snapshot : option (list H256);
  precheck : Precheck;
  subscribed : bool;
  given_to_payment : list H256;
}.

Definition startup_init (requests : list H256) : Startup := mkStartup requests None Waiting false [].

Inductive startup_step (signal : option nat) : Startup -> Startup -> Prop :=
| request_finalized i s :
    i ∉ finalized s ->
    startup_step signal s (mkStartup (finalized s ++ [i]) (snapshot s) (precheck s) (subscribed s)
      (given_to_payment s ++ if subscribed s then [i] else []))
| open_requests_retrieved s :
    snapshot s = None -> precheck s = Waiting ->
    startup_step signal s (mkStartup (finalized s) (Some (finalized s)) Waiting (subscribed s) (given_to_payment s))
| open_requests_failed s :
    snapshot s = None -> precheck s = Waiting ->
    startup_step signal s (mkStartup (finalized s) None Dropped (subscribed s) (given_to_payment s))
| open_requests_paid l s :
    snapshot s = Some l -> precheck s = Waiting ->
    startup_step signal s (mkStartup (finalized s) (Some l) Sent (subscribed s) (given_to_payment s ++ l))
| listener_subscribes s :
    subscribed s = false -> wait_for_precheck signal (precheck s) = Runs ->
    startup_step signal s (mkStartup (finalized s) (snapshot s) (precheck s) true (given_to_payment s)).

(** With a listener that waits for the precheck. *)
Record startup_inv (s : Startup) : Prop := {
  inv_requests : NoDup (finalized s);
  inv_given : NoDup (given_to_payment s);
  inv_from : forall i, i ∈ given_to_payment s -> i ∈ finalized s;
  inv_snapshot : forall l, snapshot s = Some l -> NoDup l /\ forall i, i ∈ l -> i ∈ finalized s;
  inv_waiting : precheck s <> Sent -> subscribed s = false /\ given_to_payment s = [];
}.

Lemma startup_inv_step n s s' : startup_step (Some n) s s' -> startup_inv s -> startup_inv s'.
Proof.
  intros Hs [I1 I2 I3 I4 I5]. destruct Hs as [i s Hi|s Hn Hp|s Hn Hp|l s Hl Hp|s Hf Hr]; split; cbn; try done.
  - apply list.NoDup_app. split_and!; [done| |apply NoDup_singleton]. intros j Hj Hj'%list_elem_of_singleton. by subst.
  - destruct (subscribed s); [|by rewrite app_nil_r]. apply list.NoDup_app. split_and!; [done| |apply NoDup_singleton].
    intros j Hj ->%list_elem_of_singleton. by apply Hi, I3.
  - intros j. rewrite !elem_of_app. intros [Hj|Hj]; [left; by apply I3|]. destruct (subscribed s); [by right|by apply not_elem_of_nil in Hj].
  - intros l Hl. destruct (I4 l Hl) as [H1 H2]. split; [done|]. intros j Hj. apply elem_of_app. left. by apply H2.
  - intros Hw. destruct (I5 Hw) as [-> ->]. done.
  - intros l [= <-]. by split.
  - intros _. by apply I5; rewrite Hp.
  - intros _. by apply I5; rewrite Hp.
  - destruct (I5 ltac:(by rewrite Hp)) as [_ ->]. by destruct (I4 l Hl).
  - destruct (I5 ltac:(by rewrite Hp)) as [_ ->]. by destruct (I4 l Hl).
  - intros l' [= <-]. by apply I4.
  - intros Hw. destruct (precheck s); try done.
Qed.

(** ** Lists of the vault *)

Section fetched.
Context `{RT : Runtime}.

Lemma fetch_loop_spec ids s m :
  (forall k, k ∈ ids -> exists v, Vaults (registry s) !! k = Some v /\ id v = k) ->
  exists m', fetch_loop ids s m = (None, m') /\
    forall k, m' !! k = if decide (k ∈ ids) then v ← Vaults (registry s) !! k; Some (mkVaultData k (is_liquidated v)) else m !! k.
Proof.
  revert m. induction ids as [|k ids IH]; intros m Hids; cbn [fetch_loop].
  - exists m. split; [done|]. intros k. destruct (decide _) as [H|]; [by apply not_elem_of_nil in H|done].
  - destruct (Hids k ltac:(by left)) as (v & Hv & Hid).
    assert (exists b, b = is_liquidated v /\ match client_get_vault k s with
      | inr _ => fetch_loop ids s (add_vault_id k false m)
      | inl VaultLiquidated => fetch_loop ids s (add_vault_id k true m)
      | inl e => (Some e, m) end = fetch_loop ids s (add_vault_id k b m)) as (b & Hb & ->).
    { unfold client_get_vault, is_liquidated. rewrite Hv. destruct (status v).
      - exists false. split; [done|]. by rewrite (bool_decide_eq_true_2 (id v = k)).
      - exists true. split; [done|]. done. }
    destruct (IH (add_vault_id k b m)) as (m' & E & Hm').
    { intros k' Hk'. apply Hids. by right. }
    exists m'. split; [done|]. intros k'. rewrite Hm'. unfold add_vault_id.
    destruct (decide (k' ∈ ids)) as [Hin|Hnin]; destruct (decide (k' ∈ k :: ids)) as [Hin'|Hnin']; try done.
    + destruct Hnin'. by right.
    + apply elem_of_cons in Hin' as [->|]; [|done]. by rewrite lookup_insert_eq, Hv, Hb.
    + rewrite lookup_insert_ne; [done|]. intros ->. apply Hnin'. by left.
Qed.

Lemma vaults_by_account who s k :
  k ∈ map fst (List.filter (fun '(k, _) => bool_decide (account_id k = who)) (map_to_list (Vaults (registry s)))) <->
  exists v, Vaults (registry s) !! k = Some v /\ account_id k = who.
Proof.
  rewrite list_elem_of_In, in_map_iff. split.
  - intros ([j v] & <- & Hin). apply List.filter_In in Hin as [Hin Hf]. apply list_elem_of_In, elem_of_map_to_list in Hin.
    exists v. split; [done|]. by apply bool_decide_eq_true in Hf.
  - intros (v & Hv & Ha). exists (k, v). split; [done|]. apply List.filter_In. split; [|by apply bool_decide_eq_true].
    by apply list_elem_of_In, elem_of_map_to_list.
Qed.

End fetched.

(** ** Properties *)

Section properties.

(** In every state the chain reaches, the vaults the service starts with are
    exactly the vaults of its account, and the ones it is active for are exactly
    those that are not liquidated. *)
Theorem own_vaults_fetched `{RT : Runtime} who (s : Chain) :
  (forall k v, Vaults (registry s) !! k = Some v -> id v = k) ->
  exists m, fetch_vault_ids who s ∅ = (None, m) /\
    (forall k, is_Some (get_vault k m) <-> is_Some (Vaults (registry s) !! k) /\ account_id k = who) /\
    (forall k, is_Some (get_active_vault k m) <->
       exists v, Vaults (registry s) !! k = Some v /\ account_id k = who /\ status v <> Liquidated).
Proof.
  intros Hid. unfold fetch_vault_ids, get_vaults_by_account_id, bind, gets, ret.
  set (ids := map fst _). assert (forall k, k ∈ ids <-> exists v, Vaults (registry s) !! k = Some v /\ account_id k = who) as Hin
    by (intros k; apply vaults_by_account).
  destruct (fetch_loop_spec ids s ∅) as (m & E & Hm).
  { intros k (v & Hv & _)%Hin. exists v. split; [done|]. by apply Hid. }
  exists m. split; [done|]. unfold get_active_vault, get_vault. split; intros k; rewrite Hm.
  - destruct (decide (k ∈ ids)) as [Hk|Hk].
    + apply Hin in Hk as (v & Hv & Ha). rewrite Hv. simpl. split; [intros _; split; [by eexists|done]|by eexists].
    + rewrite lookup_empty. split; [by intros [? ?]|]. intros [[v Hv] Ha]. destruct Hk. apply Hin. by exists v.
  - destruct (decide (k ∈ ids)) as [Hk|Hk].
    + apply Hin in Hk as (v & Hv & Ha). rewrite Hv. simpl. unfold is_liquidated. case_bool_decide as Hs; split.
      * by intros [? ?].
      * intros (v' & [= <-] & _ & ?). done.
      * intros _. by exists v.
      * intros _. by eexists.
    + rewrite lookup_empty. split; [by intros [? ?]|]. intros (v & Hv & Ha & _). destruct Hk. apply Hin. by exists v.
Qed.

(** The vault has the collateral for its own tokens and the ones it takes over. *)
Definition can_take_over `{RT : Runtime} (k : VaultId) (x : Balance) (s : Chain) : Prop :=
  exists required current used,
    answer (get_required_collateral_for_wrapped (Amount.new x (wrapped_currency k)) (collateral_currency k)) s = Some required /\
    answer (get_backing_collateral k) s = Some current /\
    answer (get_required_collateral_for_vault k) s = Some used /\
    Z.min u128_max (required + used) <= current.

Lemma handle_replace_told `{RT : Runtime} waits who key old x k l r l' :
  handle_replace_request waits who key old x k l = (r, l') -> Forall told (attempts l) ->
  match r with
  | inr _ => can_take_over k x (node l) /\
      dispatch (AcceptReplace (Ok who) (currencies k) old x 0 key) (node l) = (Ok tt, node l')
  | inl _ => node l' = node l
  end.
Proof.
  unfold handle_replace_request. intros H Ht.
  destruct (answer _ _) as [required|] eqn:E1; [|by injection H as <- <-].
  destruct (answer (get_backing_collateral k) _) as [current|] eqn:E2; [|by injection H as <- <-].
  destruct (answer (get_required_collateral_for_vault k) _) as [used|] eqn:E3; [|by injection H as <- <-].
  destruct (Z.ltb_spec current (Z.min u128_max (required + used))); [by injection H as <- <-|].
  pose proof (with_retry_once _ _ _ _ _ H Ht) as Hr. destruct r; [done|]. split; [|done]. by exists required, current, used.
Qed.

Lemma with_retry_attempts `{RT : Runtime} waits call l r l' :
  with_retry waits call l = (r, l') -> Forall told (attempts l) -> Forall told (attempts l').
Proof.
  unfold with_retry. revert l. induction waits as [|waits IH]; intros l; cbn [notify_retry]; intros H Ht;
    destruct (submit call l) as [a l1] eqn:Es; destruct (submit_told _ _ _ _ Es Ht) as [Ht1 _];
    destruct (verify_submission a) as [[e|e]|[]]; try (by injection H as _ <-). by apply IH in H.
Qed.

Lemma handle_replace_attempts `{RT : Runtime} waits who key old x k l r l' :
  handle_replace_request waits who key old x k l = (r, l') -> Forall told (attempts l) -> Forall told (attempts l').
Proof.
  unfold handle_replace_request. intros H Ht.
  destruct (answer _ _); [|by injection H as _ <-]. destruct (answer (get_backing_collateral k) _); [|by injection H as _ <-].
  destruct (answer (get_required_collateral_for_vault k) _); [|by injection H as _ <-].
  destruct (_ <? _); [by injection H as _ <-|]. by eapply with_retry_attempts.
Qed.

Lemma try_vaults_told `{RT : Runtime} waits who key old x vaults l b l' :
  try_vaults waits who key old x vaults l = (b, l') -> Forall told (attempts l) ->
  if b then exists k, k ∈ vaults /\ can_take_over k x (node l) /\
         dispatch (AcceptReplace (Ok who) (currencies k) old x 0 key) (node l) = (Ok tt, node l')
  else node l' = node l.
Proof.
  revert l. induction vaults as [|k vaults IH]; intros l; cbn [try_vaults]; [by intros [= <- <-]|]. intros H Ht.
  destruct (handle_replace_request waits who key old x k l) as [[e|u] l1] eqn:E; pose proof (handle_replace_told _ _ _ _ _ _ _ _ _ E Ht) as Hh.
  - apply IH in H; [|by eapply handle_replace_attempts]. rewrite Hh in H. destruct b; [|done].
    destruct H as (k' & Hk & H). exists k'. split; [by right|done].
  - injection H as <- <-. destruct Hh. exists k. split; [by left|done].
Qed.

(** When another vault asks to be replaced, at most one of the vaults of the
    account takes over, one with enough collateral for its own tokens and the
    new ones, and the scheduler of cancellations is told exactly then; requests
    of the own account are left alone. *)
Theorem replace_accepted_at_most_once `{RT : Runtime} waits who key accept vaults old x l event l' :
  on_request_replace waits who key accept vaults old x l = (event, l') -> Forall told (attempts l) ->
  (event = None /\ node l' = node l) \/
  (event = Some Opened /\ accept = true /\ account_id old <> who /\
   exists k, k ∈ vaults /\ can_take_over k x (node l) /\
     dispatch (AcceptReplace (Ok who) (currencies k) old x 0 key) (node l) = (Ok tt, node l')).
Proof.
  unfold on_request_replace. intros H Ht. case_bool_decide as Hw; [left; by injection H as <- <-|].
  destruct accept; [|left; by injection H as <- <-].
  destruct (try_vaults _ _ _ _ _ _ l) as [b l1] eqn:E. injection H as <- <-. apply try_vaults_told in E; [|done].
  destruct b; [right|left]; done.
Qed.

(** Whatever the configuration, exactly the tasks that require the precheck
    wait for it: each has a signal of its own.  When the open requests cannot be
    retrieved the sender is dropped, and these tasks end without having run. *)
Theorem precheck_gates_tasks c name t :
  (name, t) ∈ service_tasks c -> t <> Optional false ->
  exists signal, signal_of name c = Some signal /\
    (t = PrecheckRequired -> forall p, wait_for_precheck signal p = match p with Waiting => Waits | Sent => Runs | Dropped => EndsUnrun end) /\
    (t <> PrecheckRequired -> forall p, wait_for_precheck signal p = Runs).
Proof.
  destruct c as [c1 c2 c3]. unfold service_tasks, create_tasks, create_initial_tasks, create_issue_tasks, create_replace_tasks,
    create_bridge_metrics_tasks. cbn [app no_issue_execution no_prometheus].
  intros H Ht. repeat (apply elem_of_cons in H as [[= -> ->]|H]; [
    destruct c2, c3; cbn [negb] in *; try done; eexists; (split; [vm_compute; reflexivity|]); split; (by intros; destruct p) || done|]).
  by apply not_elem_of_nil in H.
Qed.


(** C40: a redeem request that arrives while the service starts can be given to
    payment twice: its listener does not wait for the precheck, so the request is
    seen as an event and found among the open requests. *)
Theorem startup_redeem_paid_twice c signal i :
  signal_of "Redeem Request Listener"%string c = Some signal ->
  exists s, rtc (startup_step signal) (startup_init []) s /\ given_to_payment s = [i; i].
Proof.
  intros Hs. assert (signal = None) as -> by (destruct c as [? [] []]; vm_compute in Hs; by injection Hs as <-).
  exists (mkStartup [i] (Some [i]) Sent true [i; i]). split; [|done].
  eapply rtc_l; [by apply listener_subscribes|]. eapply rtc_l; [apply (request_finalized _ i); apply not_elem_of_nil|].
  eapply rtc_l; [by apply open_requests_retrieved|]. eapply rtc_l; [by apply (open_requests_paid _ [i])|]. apply rtc_refl.
Qed.

(** Each restart comes within half an hour of the one before. *)
Fixpoint frequent (last : Z) (times : list Z) : Prop :=
  match times with
  | [] => True
  | t :: times => last <= t <= last + RESET_RESTART_TIME_IN_SECS /\ frequent t times
  end.

Lemma restart_delays_grow times r :
  frequent (last_start_timestamp r) times ->
  restart_delays times r =
  map (fun n => restart_in_secs r + RESTART_BACKOFF_DELAY * (Z.of_nat n + 1)) (seq 0 (length times)).
Proof.
  revert r. induction times as [|t times IH]; intros r; [done|]. intros [Ht Hf]. cbn [restart_delays length].
  assert (restart_time t r = mkRestart (restart_in_secs r + RESTART_BACKOFF_DELAY) t) as Hr.
  { unfold restart_time. destruct (Z.ltb_spec t (last_start_timestamp r)); [lia|].
    destruct (Z.ltb_spec RESET_RESTART_TIME_IN_SECS (t - last_start_timestamp r)); [lia|done]. }
  rewrite Hr, IH by done. cbn [seq map restart_in_secs]. apply (f_equal2 cons); [lia|].
  rewrite <- seq_shift, map_map. apply map_ext. intros n. lia.
Qed.

Lemma restart_delays_reset times r :
  Forall (fun x => last_start_timestamp r + RESET_RESTART_TIME_IN_SECS < x) times ->
  restart_delays times r = replicate (length times) DEFAULT_RESTART_TIME_IN_SECS.
Proof.
  intros H. revert r H. induction times as [|t times IH]; intros r; [done|]. intros [Ht Hts]%list.Forall_cons.
  cbn [restart_delays length replicate].
  assert (restart_time t r = mkRestart DEFAULT_RESTART_TIME_IN_SECS (last_start_timestamp r)) as ->.
  { unfold restart_time, RESET_RESTART_TIME_IN_SECS in *. destruct (Z.ltb_spec t (last_start_timestamp r)); [lia|].
    destruct (Z.ltb_spec 1800 (t - last_start_timestamp r)); [done|lia]. }
  cbn [restart_in_secs]. f_equal. by apply IH.
Qed.

(** The delay before a restart grows by ten seconds with each early restart;
    but after a run of more than half an hour it stays at twenty seconds for
    good, however soon the service is restarted after that. *)
Theorem restart_delay_stops_growing early t later r :
  frequent (last_start_timestamp r) early ->
  last_start_timestamp r + RESET_RESTART_TIME_IN_SECS < t -> Forall (fun x => t <= x) later ->
  restart_delays early r =
    map (fun n => restart_in_secs r + RESTART_BACKOFF_DELAY * (Z.of_nat n + 1)) (seq 0 (length early)) /\
  restart_delays (t :: later) r = replicate (S (length later)) DEFAULT_RESTART_TIME_IN_SECS.
Proof.
  intros He Ht Hl. split; [by apply restart_delays_grow|]. apply (restart_delays_reset (t :: later)).
  apply list.Forall_cons. split; [done|]. eapply list.Forall_impl; [exact Hl|]. simpl. intros x Hx. lia.
Qed.

End properties.

(** ** Witnesses *)

Section witnesses.

#[local] Existing Instance SampleRuntime.

Lemma own_vaults_fetched_witness :
  exists m, fetch_vault_ids 1%N overdue_chain ∅ = (None, m) /\
    (forall k, is_Some (get_vault k m) <-> is_Some (Vaults (registry overdue_chain) !! k) /\ account_id k = 1%N) /\
    (forall k, is_Some (get_active_vault k m) <->
       exists v, Vaults (registry overdue_chain) !! k = Some v /\ account_id k = 1%N /\ status v <> Liquidated).
Proof. apply (own_vaults_fetched (RT := SampleRuntime) 1%N overdue_chain). intros k v. vm_compute. discriminate. Defined.

Definition calm_link : Link := mkLink [Finalized] with_vault false.

(** Nothing is up for replacement, so the chain refuses. *)
Lemma replace_accepted_at_most_once_witness :
  exists event l', on_request_replace 0 1%N [77] true [sample_vault] (new_vault_id 5%N DOT XLM) 100 calm_link = (event, l') /\
    ((event = None /\ node l' = node calm_link) \/
     (event = Some Opened /\ true = true /\ account_id (new_vault_id 5%N DOT XLM) <> 1%N /\
      exists k, k ∈ [sample_vault] /\ can_take_over k 100 (node calm_link) /\
        dispatch (AcceptReplace (Ok 1%N) (currencies k) (new_vault_id 5%N DOT XLM) 100 0 [77]) (node calm_link) = (Ok tt, node l'))).
Proof.
  exists (on_request_replace 0 1%N [77] true [sample_vault] (new_vault_id 5%N DOT XLM) 100 calm_link).1,
    (on_request_replace 0 1%N [77] true [sample_vault] (new_vault_id 5%N DOT XLM) 100 calm_link).2.
  split; [apply surjective_pairing|].
  apply (replace_accepted_at_most_once (RT := SampleRuntime) 0 1%N [77] true [sample_vault] (new_vault_id 5%N DOT XLM) 100 calm_link);
    [apply surjective_pairing|repeat constructor].
Defined.

Definition usual : ServiceConfig := mkServiceConfig false false true.

Lemma precheck_gates_tasks_witness :
  exists signal, signal_of "Issue Cancel Scheduler"%string usual = Some signal /\
    (PrecheckRequired = PrecheckRequired -> forall p, wait_for_precheck signal p = match p with Waiting => Waits | Sent => Runs | Dropped => EndsUnrun end) /\
    (PrecheckRequired <> PrecheckRequired -> forall p, wait_for_precheck signal p = Runs).
Proof.
  apply (precheck_gates_tasks usual "Issue Cancel Scheduler"%string PrecheckRequired); [|discriminate].
  vm_compute. do 9 right. left.
Defined.


Lemma startup_redeem_paid_twice_witness :
  exists s, rtc (startup_step None) (startup_init []) s /\ given_to_payment s = [[1]; [1]].
Proof. apply (startup_redeem_paid_twice usual None [1]). vm_compute. reflexivity. Defined.

Lemma restart_delay_stops_growing_witness :
  restart_delays [0; 60; 120] (restart_init 0) = [30; 40; 50] /\
  restart_delays [2000; 2010; 2020] (restart_init 0) = [20; 20; 20].
Proof.
  apply (restart_delay_stops_growing [0; 60; 120] 2000 [2010; 2020] (restart_init 0));
    [repeat split; discriminate|reflexivity|repeat constructor; discriminate].
Defined.

End witnesses.
