(* ===== verification/Runner.v ===== *)
(** * The runner of the client

    [src/clients/runner/src/runner.rs]: the runner keeps the client binary at the
    release that is set on the chain, and keeps it running; and the lock of the
    client, [src/clients/vault/src/process.rs].

    The host is explicit: its files and processes, and the answers of the web
    server, the spawns, the waits and the chain in the order in which they are
    asked for.  The digest and the last segment of a URI are parameters. *)

From S2P Require Import Prelude Primitives.

Record ClientRelease := mkRelease {
  uri : string;
  checksum : H256;
}.

Record DownloadedRelease := mkDownloaded {
  downloaded_checksum : H256;
  path : string;
  bin_name : string;
}.

Inductive RunnerError :=
| IoError | HttpError | SubxtError | UrlParseError | NoDownloadedRelease | ChildProcessExists
| ClientNameDerivationError | IncorrectChecksum.

(** [None] is a request that fails; beyond the listed answers requests and spawns
    fail and waits succeed.  [spawned] is what was run: the content of the
    executable at that time. *)
Record Host := mkHost {
  files : gmap string Bytes;
  processes : gset Z;
  web_answers : list (option Bytes);
  spawn_answers : list (option Z);
  wait_answers : list bool;
  spawned : list (option Bytes);
}.

Record Runner := mkRunner {
  child_proc : option Z;
  downloaded_release : option DownloadedRelease;
  host : Host;
}.

(** ** Computations of the runner *)

Definition R (A : Type) : Type := Runner -> (RunnerError + A) * Runner.

Definition rret {A} (a : A) : R A := fun r => (inr a, r).
Definition rfail {A} (e : RunnerError) : R A := fun r => (inl e, r).
Definition rget {A} (f : Runner -> A) : R A := fun r => (inr (f r), r).
Definition rput (f : Runner -> Runner) : R unit := fun r => (inr tt, f r).
Definition rtry {A B} (m : R A) (k : A -> R B) : R B := fun r =>
  match m r with
  | (inr a, r) => k a r
  | (inl e, r) => (inl e, r)
  end.

Declare Scope runner_scope.
Delimit Scope runner_scope with runner.
Notation "'do!' x ':=' m 'in' k" := (rtry m (fun x => k))
  (at level 10, x pattern, m at level 100, k at level 200) : runner_scope.
Notation "m ';!' k" := (rtry m (fun _ => k))
  (at level 100, k at level 200, right associativity) : runner_scope.
Open Scope runner_scope.

Definition set_child_proc (p : option Z) : R unit :=
  rput (fun r => mkRunner p (downloaded_release r) (host r)).
Definition set_downloaded_release (d : option DownloadedRelease) : R unit :=
  rput (fun r => mkRunner (child_proc r) d (host r)).

(** The host is asked for something. *)
Definition on_host {A} (f : Host -> A * Host) : R A := fun r =>
  let '(a, h) := f (host r) in (inr a, mkRunner (child_proc r) (downloaded_release r) h).

Definition write_file (p : string) (content : Bytes) : R unit :=
  on_host (fun h => (tt, mkHost (<[p := content]> (files h)) (processes h) (web_answers h)
    (spawn_answers h) (wait_answers h) (spawned h))).

Definition read_file (p : string) : R (option Bytes) := rget (fun r => files (host r) !! p).

Definition remove_file (p : string) : R unit :=
  do! content := read_file p in
  match content with
  | None => rfail IoError
  | Some _ =>
      on_host (fun h => (tt, mkHost (delete p (files h)) (processes h) (web_answers h)
        (spawn_answers h) (wait_answers h) (spawned h)))
  end.

Definition http_get : R Bytes :=
  do! answer := on_host (fun h => (hd None (web_answers h), mkHost (files h) (processes h)
    (tl (web_answers h)) (spawn_answers h) (wait_answers h) (spawned h))) in
  match answer with Some b => rret b | None => rfail HttpError end.

Definition spawn (p : string) : R Z :=
  do! answer := on_host (fun h => (hd None (spawn_answers h), mkHost (files h) (processes h)
    (web_answers h) (tl (spawn_answers h)) (wait_answers h) (spawned h))) in
  match answer with
  | None => rfail IoError
  | Some pid =>
      on_host (fun h => (pid, mkHost (files h) ({[ pid ]} ∪ processes h) (web_answers h)
        (spawn_answers h) (wait_answers h) (spawned h ++ [files h !! p])))
  end.

(** [Child::wait]: the process has ended, or the call fails. *)
Definition wait (pid : Z) : R unit :=
  on_host (fun h => (tt, mkHost (files h)
    (if hd true (wait_answers h) then processes h ∖ {[ pid ]} else processes h)
    (web_answers h) (spawn_answers h) (tl (wait_answers h)) (spawned h))).

(** ** Retrying *)

Definition RETRY_TIMEOUT : nat := 60.
Definition RETRY_INTERVAL : nat := 1.

(** Without a retry there is no error to return, which the source excludes. *)
Fixpoint retry_loop {A} (retries : nat) (error : option RunnerError) (f : R A) : R A :=
  match retries with
  | O => match error with Some e => rfail e | None => rfail IoError end
  | S retries => fun r =>
      match f r with
      | (inr a, r) => (inr a, r)
      | (inl e, r) => retry_loop retries (Some e) f r
      end
  end.

Definition retry_with_log {A} (f : R A) : R A :=
  retry_loop (RETRY_TIMEOUT / RETRY_INTERVAL) None f.

Section runner.
Context (sha256sum : Bytes -> H256) (last_segment : string -> option (option string)) (download_path : string).

(** ** The operations *)

Definition checksum_matches (c : H256) (release : ClientRelease) : R unit :=
  if bool_decide (c = checksum release) then rret tt else rfail IncorrectChecksum.

(** [last_segment] is [None] when the URI does not parse. *)
Definition get_bin_path (u : string) : R (string * string) :=
  match last_segment u with
  | None => rfail UrlParseError
  | Some None => rfail ClientNameDerivationError
  | Some (Some name) => rret (name, download_path +:+ "/" +:+ name)%string
  end.

Definition try_load_downloaded_binary (release : ClientRelease) : R unit :=
  do! (name, p) := get_bin_path (uri release) in
  do! file_content := read_file p in
  match file_content with
  | None => rfail NoDownloadedRelease
  | Some content =>
      let c := sha256sum content in
      checksum_matches c release ;!
      set_downloaded_release (Some (mkDownloaded c p name))
  end.

Definition get_request_bytes (url : string) : R Bytes := http_get.

Definition do_download_binary (p : string) (release : ClientRelease) : R H256 :=
  write_file p [] ;!
  do! bytes := retry_with_log (get_request_bytes (uri release)) in
  write_file p bytes ;!
  rret (sha256sum bytes).

Definition download_binary (release : ClientRelease) : R unit :=
  do! d := rget downloaded_release in
  if match d with Some d => bool_decide (downloaded_checksum d = checksum release) | None => false end
  then rret tt
  else
    do! (name, p) := get_bin_path (uri release) in
    do! c := retry_with_log (do_download_binary p release) in
    checksum_matches c release ;!
    set_downloaded_release (Some (mkDownloaded (checksum release) p name)).

Definition delete_downloaded_release : R unit :=
  do! d := rget downloaded_release in
  match d with
  | None => rfail NoDownloadedRelease
  | Some d => retry_with_log (remove_file (path d)) ;! set_downloaded_release None
  end.

(** The outcome of the signal is dropped. *)
Definition terminate_proc_and_wait : R unit :=
  do! child := rget child_proc in
  match child with
  | None => rret tt
  | Some pid => wait pid ;! set_child_proc None
  end.

Definition run_binary : R unit :=
  do! child := rget child_proc in
  match child with
  | Some _ => rfail ChildProcessExists
  | None =>
      do! d := rget downloaded_release in
      match d with
      | None => rfail NoDownloadedRelease
      | Some d =>
          do! pid := retry_with_log (spawn (path d)) in
          set_child_proc (Some pid)
      end
  end.

Definition check_child_proc_alive : R bool :=
  do! child := rget child_proc in
  match child with
  | None => rret false
  | Some pid =>
      do! alive := rget (fun r => bool_decide (pid ∈ processes (host r))) in
      if alive then rret true else set_child_proc None ;! rret false
  end.

Definition maybe_restart_client : R unit :=
  do! alive := check_child_proc_alive in
  if alive then rret tt else run_binary.

(** Before the loop of [auto_update]. *)
Definition auto_update_start (release : ClientRelease) : R unit := fun r =>
  match try_load_downloaded_binary release r with
  | (inr _, r) => run_binary r
  | (inl _, r) => (download_binary release ;! run_binary) r
  end.

(** One round of the loop.  [read] is what the chain answers: an error, no
    release, or a release. *)
Definition auto_update_round (read : RunnerError + option ClientRelease) : R unit :=
  maybe_restart_client ;!
  match read with
  | inl _ => rret tt
  | inr None => rret tt
  | inr (Some new_release) =>
      do! d := rget downloaded_release in
      match d with
      | None => rfail NoDownloadedRelease
      | Some d =>
          if bool_decide (checksum new_release = downloaded_checksum d) then rret tt
          else
            terminate_proc_and_wait ;!
            delete_downloaded_release ;!
            download_binary new_release ;!
            run_binary
      end
  end.

(** Processes that end by themselves before a round. *)
Definition processes_end (pids : gset Z) : R unit :=
  on_host (fun h => (tt, mkHost (files h) (processes h ∖ pids) (web_answers h)
    (spawn_answers h) (wait_answers h) (spawned h))).

Fixpoint auto_update_loop (rounds : list (gset Z * (RunnerError + option ClientRelease))) : R unit :=
  match rounds with
  | [] => rret tt
  | (ended, read) :: rounds => processes_end ended ;! auto_update_round read ;! auto_update_loop rounds
  end.

Definition auto_update (release : ClientRelease)
    (rounds : list (gset Z * (RunnerError + option ClientRelease))) : R unit :=
  auto_update_start release ;! auto_update_loop rounds.

End runner.

(** ** Reasoning about the runner *)

(** From [P], [m] ends with a value and [Q], or with an error and [E]. *)
Definition triple {A} (P : Runner -> Prop) (m : R A) (Q : A -> Runner -> Prop) (E : Runner -> Prop) : Prop :=
  forall r, P r -> match m r with (inr a, r') => Q a r' | (inl _, r') => E r' end.

Section triples.
Context {A B : Type}.

Lemma triple_ret (a : A) Q E : triple (Q a) (rret a) Q E.
Proof. by intros r. Qed.
Lemma triple_fail e (Q : A -> Runner -> Prop) E : triple E (rfail e) Q E.
Proof. by intros r. Qed.
Lemma triple_bind P (m : R A) (k : A -> R B) Q S E :
  triple P m Q E -> (forall a, triple (Q a) (k a) S E) -> triple P (rtry m k) S E.
Proof.
  intros Hm Hk r Hr. specialize (Hm r Hr). unfold rtry. destruct (m r) as [[e|a] r']; [done|]. by apply Hk.
Qed.
Lemma triple_weaken (P P' : Runner -> Prop) (m : R A) (Q Q' : A -> Runner -> Prop) (E E' : Runner -> Prop) :
  triple P' m Q' E' -> (forall r, P r -> P' r) -> (forall a r, Q' a r -> Q a r) -> (forall r, E' r -> E r) -> triple P m Q E.
Proof. intros H HP HQ HE r Hr. specialize (H r (HP r Hr)). destruct (m r) as [[e|a] r']; auto. Qed.
Lemma triple_pre (P P' : Runner -> Prop) (m : R A) (Q : A -> Runner -> Prop) (E : Runner -> Prop) :
  (forall r, P r -> P' r) -> triple P' m Q E -> triple P m Q E.
Proof. intros HP H r Hr. by apply H, HP. Qed.
Lemma triple_retry P (m : R A) Q : triple P m Q P -> triple P (retry_with_log m) Q P.
Proof.
  intros Hm. unfold retry_with_log. generalize (@None RunnerError). induction (RETRY_TIMEOUT / RETRY_INTERVAL)%nat as [|n IH].
  - intros [e|] r Hr; done.
  - intros o r Hr. cbn [retry_loop]. specialize (Hm r Hr). destruct (m r) as [[e|a] r']; [by apply IH|done].
Qed.

Lemma triple_get P (f : Runner -> A) (k : A -> R B) S E :
  (forall a, triple (fun r => P r /\ f r = a) (k a) S E) -> triple P (rtry (rget f) k) S E.
Proof. intros H r Hr. by apply (H (f r)). Qed.

End triples.

Section safety.
Context (sha256sum : Bytes -> H256) (last_segment : string -> option (option string)) (download_path : string).
Context (released : H256 -> Prop).

(** What was run is a release. *)
Definition spawns_ok (r : Runner) : Prop :=
  Forall (fun x => exists c, x = Some c /\ released (sha256sum c)) (spawned (host r)).

(** The executable on disk is the release the runner has downloaded. *)
Definition release_ok (r : Runner) : Prop :=
  forall d, downloaded_release r = Some d -> released (downloaded_checksum d) /\
    exists c, files (host r) !! path d = Some c /\ sha256sum c = downloaded_checksum d.

Definition runner_ok (r : Runner) : Prop := spawns_ok r /\ release_ok r.
Definition nothing_loaded (r : Runner) : Prop := spawns_ok r /\ downloaded_release r = None.

Lemma nothing_loaded_ok r : nothing_loaded r -> runner_ok r.
Proof. intros [H1 H2]. split; [done|]. intros d. by rewrite H2. Qed.

Lemma run_binary_safe : triple runner_ok run_binary (fun _ => runner_ok) spawns_ok.
Proof.
  unfold run_binary. apply triple_get. intros [pid|]; [by intros r [[H _] _]|].
  apply triple_get. intros [d|]; [|by intros r [[[H _] _] _]].
  eapply triple_bind; [|intros pid r Hr; exact Hr].
  eapply triple_weaken; [apply (triple_retry (fun r => runner_ok r /\ downloaded_release r = Some d) _ (fun _ => runner_ok))
    |by intros r [[? _] ?]|done|by intros r [[? _] _]].
  intros r [[H1 H2] Hd]. unfold spawn, rtry, on_host. cbn. destruct (hd None (spawn_answers (host r))) as [pid|]; cbn; [|done].
  split; [|exact H2]. unfold spawns_ok. cbn. apply list.Forall_app. split; [done|]. apply list.Forall_singleton.
  destruct (H2 d Hd) as (Hrel & c & Hc & Hs). exists c. split; [done|]. by rewrite Hs.
Qed.

Lemma bin_path_safe P u :
  triple P (get_bin_path last_segment download_path u) (fun _ => P) P.
Proof. intros r Hr. unfold get_bin_path. by destruct (last_segment u) as [[name|]|]. Qed.

Lemma try_load_safe release :
  released (checksum release) ->
  triple nothing_loaded (try_load_downloaded_binary sha256sum last_segment download_path release) (fun _ => runner_ok) nothing_loaded.
Proof.
  intros Hrel. unfold try_load_downloaded_binary. eapply triple_bind; [apply bin_path_safe|]. intros [name p].
  apply triple_get. intros [content|]; [|by intros r [? _]]. cbv zeta. unfold checksum_matches.
  case_bool_decide as Hc; [|by intros r [? _]].
  intros r [[H1 H2] Hf]. split; [exact H1|]. intros d [= <-]. cbn. rewrite Hc. split; [done|]. by exists content.
Qed.

Lemma nothing_loaded_frame r h :
  nothing_loaded r -> spawned h = spawned (host r) -> nothing_loaded (mkRunner (child_proc r) (downloaded_release r) h).
Proof. intros [H1 H2] Hs. split; [|done]. unfold spawns_ok. cbn. by rewrite Hs. Qed.

(** The digest is the one of the file that was written. *)
Lemma do_download_safe p release :
  triple nothing_loaded (do_download_binary sha256sum p release)
    (fun c r => nothing_loaded r /\ exists b, files (host r) !! p = Some b /\ sha256sum b = c) nothing_loaded.
Proof.
  unfold do_download_binary. eapply triple_bind with (Q := fun _ => nothing_loaded).
  { intros r Hr. by apply nothing_loaded_frame. }
  intros _. eapply triple_bind with (Q := fun _ => nothing_loaded).
  { apply triple_retry. intros r Hr. unfold get_request_bytes, http_get, rtry, on_host. cbn.
    destruct (hd None _); cbn; by apply nothing_loaded_frame. }
  intros b r Hr. cbn. split; [by apply nothing_loaded_frame|]. exists b. by rewrite lookup_insert_eq.
Qed.

Lemma download_safe release :
  released (checksum release) ->
  triple nothing_loaded (download_binary sha256sum last_segment download_path release) (fun _ => runner_ok) spawns_ok.
Proof.
  intros Hrel. unfold download_binary. apply triple_get. intros d.
  destruct d as [d|]; [by intros r [[_ ->] [=]]|]. apply (triple_pre _ nothing_loaded); [by intros r [? _]|].
  eapply triple_bind; [eapply triple_weaken; [apply (bin_path_safe nothing_loaded)|done|done|by intros r [? _]]|]. intros [name p].
  eapply triple_bind; [eapply triple_weaken; [apply triple_retry, do_download_safe|done|intros a r H; exact H|by intros r [? _]]|].
  intros c. cbn beta. unfold checksum_matches. case_bool_decide as Hc; [|by intros r [[? _] _]].
  intros r [[H1 H2] (b & Hb & Hs)]. split; [exact H1|]. intros d [= <-]. cbn. split; [done|]. exists b. by rewrite Hs.
Qed.

Lemma delete_safe : triple runner_ok delete_downloaded_release (fun _ => nothing_loaded) spawns_ok.
Proof.
  unfold delete_downloaded_release. apply triple_get. intros [d|]; [|by intros r [[? _] _]].
  eapply triple_bind with (Q := fun _ => spawns_ok); [|by intros _ r Hr; split].
  eapply triple_weaken; [apply (triple_retry spawns_ok _ (fun _ => spawns_ok))|by intros r [[? _] _]|done|done].
  unfold remove_file. apply triple_get. by intros [c|] r [Hr _].
Qed.

Lemma terminate_safe : triple runner_ok terminate_proc_and_wait (fun _ => runner_ok) spawns_ok.
Proof. unfold terminate_proc_and_wait. apply triple_get. by intros [pid|] r [Hr Hc]. Qed.

Lemma restart_safe : triple runner_ok maybe_restart_client (fun _ => runner_ok) spawns_ok.
Proof.
  unfold maybe_restart_client. eapply triple_bind with (Q := fun _ => runner_ok).
  - unfold check_child_proc_alive. apply triple_get. intros [pid|]; [|by intros r [? _]].
    apply triple_get. by intros [] r [[Hr _] _].
  - intros []; [by intros r|]. apply run_binary_safe.
Qed.

Definition released_read (read : RunnerError + option ClientRelease) : Prop :=
  match read with inr (Some x) => released (checksum x) | _ => True end.

Lemma round_safe read :
  released_read read ->
  triple runner_ok (auto_update_round sha256sum last_segment download_path read) (fun _ => runner_ok) spawns_ok.
Proof.
  intros Hread. unfold auto_update_round. eapply triple_bind; [apply restart_safe|]. intros [].
  destruct read as [e|[x|]]; [by intros r|..|by intros r].
  apply triple_get. intros [d|]; [|by intros r [[? _] _]]. case_bool_decide; [by intros r [? _]|].
  apply (triple_pre _ runner_ok); [by intros r [? _]|].
  eapply triple_bind; [apply terminate_safe|]. intros []. eapply triple_bind; [apply delete_safe|]. intros [].
  eapply triple_bind; [by apply download_safe|]. intros []. apply run_binary_safe.
Qed.

Lemma loop_safe rounds :
  Forall (fun x => released_read x.2) rounds ->
  triple runner_ok (auto_update_loop sha256sum last_segment download_path rounds) (fun _ => runner_ok) spawns_ok.
Proof.
  induction 1 as [|[ended read] rounds Hread _ IH]; [by intros r|]. cbn [auto_update_loop].
  eapply triple_bind with (Q := fun _ => runner_ok); [by intros r|]. intros [].
  eapply triple_bind; [by apply round_safe|]. intros []. exact IH.
Qed.

End safety.

(** ** One client at a time *)

Section single.
Context (sha256sum : Bytes -> H256) (last_segment : string -> option (option string)) (download_path : string).

(** The child is the only client, and waiting for it does not fail. *)
Definition single (r : Runner) : Prop :=
  (forall pid, pid ∈ processes (host r) -> child_proc r = Some pid) /\ Forall (eq true) (wait_answers (host r)).

Lemma single_frame r d h :
  single r -> processes h = processes (host r) -> wait_answers h = wait_answers (host r) ->
  single (mkRunner (child_proc r) d h).
Proof. unfold single. cbn. by intros H -> ->. Qed.

Lemma run_binary_single : triple single run_binary (fun _ => single) single.
Proof.
  unfold run_binary. apply triple_get. intros [pid|]; [by intros r [H _]|].
  apply triple_get. intros [d|]; [|by intros r [[H _] _]].
  eapply triple_bind with (Q := fun pid r => processes (host r) = {[ pid ]} /\ Forall (eq true) (wait_answers (host r))).
  - eapply triple_weaken; [apply (triple_retry (fun r => single r /\ child_proc r = None) _
      (fun pid r => processes (host r) = {[ pid ]} /\ Forall (eq true) (wait_answers (host r))))
      |by intros r [[? ?] ?]|done|by intros r [? _]].
    intros r [[H1 H2] Hn]. unfold spawn, rtry, on_host. cbn. destruct (hd None (spawn_answers (host r))) as [pid|]; cbn; [|done].
    split; [|done]. apply set_eq. intros x. rewrite elem_of_union, elem_of_singleton. split; [|by left].
    intros [|Hx]; [done|]. apply H1 in Hx. by rewrite Hn in Hx.
  - intros pid r [H1 H2]. split; [|done]. cbn. rewrite H1. by intros x ->%elem_of_singleton.
Qed.

Lemma terminate_single : triple single terminate_proc_and_wait (fun _ => single) single.
Proof.
  unfold terminate_proc_and_wait. apply triple_get. intros [pid|]; [|by intros r [? _]].
  intros r [[H1 H2] Hc]. unfold wait, rtry, on_host, set_child_proc, rput, single. cbn.
  destruct (wait_answers (host r)) as [|b l] eqn:El; cbn.
  - split; [|done]. intros x [Hx Hn]%elem_of_difference. apply H1 in Hx. rewrite Hc in Hx. injection Hx as ->. by destruct Hn; apply elem_of_singleton.
  - apply list.Forall_cons in H2 as [<- H2]. split; [|done]. intros x [Hx Hn]%elem_of_difference. apply H1 in Hx. rewrite Hc in Hx.
    injection Hx as ->. by destruct Hn; apply elem_of_singleton.
Qed.

Lemma restart_single : triple single maybe_restart_client (fun _ => single) single.
Proof.
  unfold maybe_restart_client. eapply triple_bind with (Q := fun _ => single).
  - unfold check_child_proc_alive. apply triple_get. intros [pid|]; [|by intros r [? _]].
    apply triple_get. intros [] r [[[H1 H2] Hc] Ha]; [done|]. apply bool_decide_eq_false in Ha.
    split; [|done]. cbn. intros x Hx. pose proof (H1 x Hx) as Hp. rewrite Hc in Hp. by injection Hp as ->.
  - intros []; [by intros r|]. apply run_binary_single.
Qed.

Lemma load_single release :
  triple single (try_load_downloaded_binary sha256sum last_segment download_path release) (fun _ => single) single.
Proof.
  unfold try_load_downloaded_binary. eapply triple_bind; [apply bin_path_safe|]. intros [name p].
  apply triple_get. intros [content|]; [|by intros r [? _]]. cbv zeta. unfold checksum_matches.
  case_bool_decide; [|by intros r [? _]]. intros r [Hr _]. by apply single_frame.
Qed.

Lemma download_single release :
  triple single (download_binary sha256sum last_segment download_path release) (fun _ => single) single.
Proof.
  unfold download_binary. apply triple_get. intros d. apply (triple_pre _ single); [by intros r [? _]|].
  destruct (match d with Some d => _ | None => _ end); [by intros r|].
  eapply triple_bind; [apply bin_path_safe|]. intros [name p].
  eapply triple_bind with (Q := fun _ => single).
  - apply triple_retry. unfold do_download_binary. eapply triple_bind with (Q := fun _ => single).
    { intros r Hr. by apply (single_frame r (downloaded_release r)). }
    intros []. eapply triple_bind with (Q := fun _ => single).
    { apply triple_retry. intros r Hr. unfold get_request_bytes, http_get, rtry, on_host. cbn.
      destruct (hd None _); cbn; by apply (single_frame r (downloaded_release r)). }
    intros b r Hr. cbn. by apply (single_frame r (downloaded_release r)).
  - intros c. unfold checksum_matches. case_bool_decide; [|by intros r]. intros r Hr. by apply single_frame.
Qed.

Lemma delete_single : triple single delete_downloaded_release (fun _ => single) single.
Proof.
  unfold delete_downloaded_release. apply triple_get. intros [d|]; [|by intros r [? _]].
  eapply triple_bind with (Q := fun _ => single).
  - eapply triple_weaken; [apply (triple_retry single _ (fun _ => single))|by intros r [? _]|done|done].
    unfold remove_file. apply triple_get. intros [c|] r [Hr _]; [|done]. by apply (single_frame r (downloaded_release r)).
  - intros [] r Hr. by apply single_frame.
Qed.

Lemma round_single read :
  triple single (auto_update_round sha256sum last_segment download_path read) (fun _ => single) single.
Proof.
  unfold auto_update_round. eapply triple_bind; [apply restart_single|]. intros [].
  destruct read as [e|[x|]]; [by intros r|..|by intros r].
  apply triple_get. intros [d|]; [|by intros r [? _]]. case_bool_decide; [by intros r [? _]|].
  apply (triple_pre _ single); [by intros r [? _]|].
  eapply triple_bind; [apply terminate_single|]. intros []. eapply triple_bind; [apply delete_single|]. intros [].
  eapply triple_bind; [apply download_single|]. intros []. apply run_binary_single.
Qed.

Lemma loop_single rounds :
  triple single (auto_update_loop sha256sum last_segment download_path rounds) (fun _ => single) single.
Proof.
  induction rounds as [|[ended read] rounds IH]; [by intros r|]. cbn [auto_update_loop].
  eapply triple_bind with (Q := fun _ => single).
  { intros r [H1 H2]. split; [|done]. cbn. intros x [Hx _]%elem_of_difference. by apply H1. }
  intros []. eapply triple_bind; [apply round_single|]. intros []. exact IH.
Qed.

End single.

(** ** The lock of a client *)

(** The text of a PID file. *)
Inductive PidText := PidNumber (pid : Z) | NoNumber.

Inductive LockError := ServiceAlreadyRunning (pid : Z) | PidParseError | ProcessNotFound | LockIoError.

Record Machine := mkMachine {
  pid_files : gmap string PidText;
  running : gmap Z string;
}.

Record PidFile := mkPidFile {
  pid_path : string;
  created_pidfile : bool;
}.

Definition process_name (pid : Z) (w : Machine) : LockError + string :=
  match running w !! pid with Some name => inr name | None => inl ProcessNotFound end.

Definition pid_name_matches_existing_client (own pidfile_value : Z) (w : Machine) : LockError + bool :=
  match process_name own w, process_name pidfile_value w with
  | inr a, inr b => inr (bool_decide (a = b))
  | _, _ => inl ProcessNotFound
  end.

Definition pidfile_pid (p : string) (w : Machine) : LockError + Z :=
  match pid_files w !! p with
  | None => inl LockIoError
  | Some NoNumber => inl PidParseError
  | Some (PidNumber pid) => inr pid
  end.

Definition set_pid (p : string) (own : Z) (w : Machine) : PidFile * Machine :=
  (mkPidFile p true, mkMachine (<[p := PidNumber own]> (pid_files w)) (running w)).

(** [own] is the identifier of the calling process. *)
Definition pidfile_create (p : string) (own : Z) (w : Machine) : (LockError + PidFile) * Machine :=
  let take := let '(f, w) := set_pid p own w in (inr f, w) in
  match pid_files w !! p with
  | None => take
  | Some _ =>
      match pidfile_pid p w with
      | inl e => (inl e, w)
      | inr pid =>
          match running w !! pid with
          | None => take
          | Some _ =>
              match pid_name_matches_existing_client own pid w with
              | inr true => (inl (ServiceAlreadyRunning pid), w)
              | inr false => take
              | inl ProcessNotFound => take
              | inl e => (inl e, w)
              end
          end
      end
  end.

(** [remove], which [drop] calls. *)
Definition pidfile_remove (f : PidFile) (w : Machine) : (LockError + PidFile) * Machine :=
  if created_pidfile f then
    match pid_files w !! pid_path f with
    | None => (inl LockIoError, w)
    | Some _ => (inr (mkPidFile EmptyString (created_pidfile f)), mkMachine (delete (pid_path f) (pid_files w)) (running w))
    end
  else (inr f, w).

(** ** When everything succeeds *)

Section success.
Context (sha256sum : Bytes -> H256) (last_segment : string -> option (option string)) (download_path : string).

Lemma rtry_run {A B} (m : R A) (k : A -> R B) r a r1 : m r = (inr a, r1) -> rtry m k r = k a r1.
Proof. unfold rtry. by intros ->. Qed.

Lemma retry_first {A} (m : R A) r a r1 : m r = (inr a, r1) -> retry_with_log m r = (inr a, r1).
Proof. intros H. unfold retry_with_log. change (RETRY_TIMEOUT / RETRY_INTERVAL)%nat with 60%nat. cbn [retry_loop]. by rewrite H. Qed.

Lemma client_alive pid d h :
  pid ∈ processes h -> maybe_restart_client (mkRunner (Some pid) d h) = (inr tt, mkRunner (Some pid) d h).
Proof.
  intros Hp. unfold maybe_restart_client, check_child_proc_alive, rget, rtry. cbn. by rewrite bool_decide_eq_true_2.
Qed.

Lemma delete_succeeds c d content fs ps ws ss wts sp :
  fs !! path d = Some content ->
  delete_downloaded_release (mkRunner c (Some d) (mkHost fs ps ws ss wts sp)) =
  (inr tt, mkRunner c None (mkHost (delete (path d) fs) ps ws ss wts sp)).
Proof.
  intros Hf. unfold delete_downloaded_release. unfold rtry at 1, rget. cbn [downloaded_release].
  rewrite (rtry_run _ _ _ tt (mkRunner c (Some d) (mkHost (delete (path d) fs) ps ws ss wts sp))); [done|].
  apply retry_first. unfold remove_file, read_file, rget, rtry. cbn. by rewrite Hf.
Qed.

Lemma download_succeeds c new name bytes fs ps ws ss wts sp :
  last_segment (uri new) = Some (Some name) -> sha256sum bytes = checksum new ->
  exists p, download_binary sha256sum last_segment download_path new (mkRunner c None (mkHost fs ps (Some bytes :: ws) ss wts sp)) =
    (inr tt, mkRunner c (Some (mkDownloaded (checksum new) p name)) (mkHost (<[p := bytes]> fs) ps ws ss wts sp)).
Proof.
  intros Hl Hs. unfold download_binary. unfold rtry at 1, rget. cbn [downloaded_release].
  unfold get_bin_path. rewrite Hl. unfold rtry at 1, rret at 1. set (p := (download_path +:+ _)%string). exists p.
  erewrite rtry_run; [|apply retry_first; unfold do_download_binary; erewrite rtry_run by reflexivity;
    erewrite rtry_run by (apply retry_first; reflexivity); reflexivity].
  unfold checksum_matches. rewrite Hs, bool_decide_eq_true_2 by done. cbn. by rewrite insert_insert_eq.
Qed.

Lemma run_succeeds d pid fs ps ws ss wts sp :
  run_binary (mkRunner None (Some d) (mkHost fs ps ws (Some pid :: ss) wts sp)) =
  (inr tt, mkRunner (Some pid) (Some d) (mkHost fs ({[ pid ]} ∪ ps) ws ss wts (sp ++ [fs !! path d]))).
Proof.
  unfold run_binary. unfold rtry at 1, rget at 1. cbn [child_proc]. unfold rtry at 1, rget. cbn [downloaded_release].
  rewrite (rtry_run _ _ _ pid (mkRunner None (Some d) (mkHost fs ({[ pid ]} ∪ ps) ws ss wts (sp ++ [fs !! path d])))); [done|].
  by apply retry_first.
Qed.

End success.

(** ** Properties *)

Section properties.



(** A round in which the chain has a new release, and in which the download,
    the removal of the old file and the start succeed, ends with the new release
    as the only client. *)
Theorem new_release_replaces_client sha256sum last_segment download_path new name bytes pid pid' d content web spawns waits h :
  processes h = {[ pid ]} -> web_answers h = Some bytes :: web -> spawn_answers h = Some pid' :: spawns -> wait_answers h = true :: waits ->
  files h !! path d = Some content -> checksum new <> downloaded_checksum d ->
  last_segment (uri new) = Some (Some name) -> sha256sum bytes = checksum new ->
  let '(res, r) := auto_update_round sha256sum last_segment download_path (inr (Some new)) (mkRunner (Some pid) (Some d) h) in
  res = inr tt /\ child_proc r = Some pid' /\ processes (host r) = {[ pid' ]} /\ spawned (host r) = spawned h ++ [Some bytes] /\
  exists d', downloaded_release r = Some d' /\ downloaded_checksum d' = checksum new.
Proof.
  destruct h as [fs ps ws ss wts sp]. cbn [processes web_answers spawn_answers wait_answers files spawned]. intros -> -> -> -> Hf Hc Hl Hs.
  unfold auto_update_round. erewrite rtry_run; [|apply client_alive; cbn [processes]; set_solver].
  unfold rtry at 1, rget at 1. cbn [downloaded_release]. rewrite bool_decide_eq_false_2 by done.
  erewrite rtry_run by reflexivity. cbn [hd tl files processes web_answers spawn_answers wait_answers spawned host].
  erewrite rtry_run by (by apply (delete_succeeds None d content)).
  destruct (download_succeeds sha256sum last_segment download_path None new name bytes (delete (path d) fs) ({[pid]} ∖ {[pid]}) web (Some pid' :: spawns) waits sp Hl Hs) as (p & E).
  erewrite rtry_run by exact E. rewrite run_succeeds. cbn. split_and!; try done.
  - by rewrite difference_diag_L, union_empty_r_L.
  - by rewrite lookup_insert_eq.
  - by eexists.
Qed.

(** A second client is refused while the first one runs under the same name,
    and leaves its lock alone; once the first one has ended, with or without
    removing its file, the lock can be taken. *)
Theorem pid_lock_exclusive p own other name w f w1 :
  pidfile_create p own w = (inr f, w1) -> running w !! own = Some name -> own <> other ->
  (forall w2, pid_files w2 !! p = pid_files w1 !! p -> running w2 !! own = Some name -> running w2 !! other = Some name ->
     pidfile_create p other w2 = (inl (ServiceAlreadyRunning own), w2)) /\
  (forall w2, (pid_files w2 !! p = pid_files w1 !! p \/ pid_files w2 = pid_files (pidfile_remove f w1).2) -> running w2 !! own = None ->
     exists f2 w3, pidfile_create p other w2 = (inr f2, w3) /\ pid_files w3 !! p = Some (PidNumber other)).
Proof.
  intros Hc Hown Hne. assert (f = mkPidFile p true /\ pid_files w1 = <[p := PidNumber own]> (pid_files w)) as [-> Hw1].
  { revert Hc. unfold pidfile_create, set_pid. destruct (pid_files w !! p); [|by intros [= <- <-]].
    destruct (pidfile_pid p w) as [|pid]; [done|]. destruct (running w !! pid); [|by intros [= <- <-]].
    destruct (pid_name_matches_existing_client own pid w) as [[]|[]]; try done; by intros [= <- <-]. }
  rewrite Hw1, lookup_insert_eq. split.
  - intros w2 Hp Ho Hother. unfold pidfile_create, pidfile_pid, pid_name_matches_existing_client, process_name.
    rewrite Hp, Ho, Hother. by rewrite bool_decide_eq_true_2.
  - intros w2 Hp Ho. unfold pidfile_create. destruct Hp as [Hp|Hp].
    + unfold pidfile_pid. rewrite Hp, Ho. do 2 eexists. split; [reflexivity|]. cbn. by rewrite lookup_insert_eq.
    + assert (pid_files w2 !! p = None) as ->.
      { rewrite Hp. unfold pidfile_remove. cbn. rewrite Hw1, lookup_insert_eq. cbn. by rewrite lookup_delete_eq. }
      do 2 eexists. split; [reflexivity|]. cbn. by rewrite lookup_insert_eq.
Qed.

(** The web server fails [n] times. *)
Definition failing (n : nat) (r : Runner) (rest : list (option Bytes)) : Prop :=
  web_answers (host r) = replicate n None ++ rest.

Lemma http_fails n r rest :
  failing (S n) r rest -> exists r', http_get r = (inl HttpError, r') /\ failing n r' rest.
Proof. unfold failing, http_get, rtry, on_host. intros H. rewrite H. cbn. by eexists. Qed.

(** [f] takes [k] failures of the web server and fails; [n] attempts take all. *)
Lemma retry_fails {A} (f : R A) k rest :
  (forall n r, failing (k + n) r rest -> exists r', f r = (inl HttpError, r') /\ failing n r' rest) ->
  forall n r e, failing (n * k) r rest ->
  exists r', retry_loop n e f r = (inl (if (n =? 0)%nat then default IoError e else HttpError), r') /\ failing 0 r' rest.
Proof.
  intros Hf n. induction n as [|n IH]; intros r e Hr; cbn [retry_loop].
  - exists r. split; [by destruct e|done].
  - destruct (Hf (n * k)%nat r) as (r1 & E1 & H1); [exact Hr|]. rewrite E1.
    destruct (IH r1 (Some HttpError) H1) as (r' & -> & H'). exists r'. split; [|done]. by destruct n.
Qed.

(** While the web server fails, a download is given up only after three
    thousand six hundred requests: both the request and the download around it
    are retried sixty times. *)
Theorem download_retries_multiply sha256sum last_segment download_path release name r rest :
  downloaded_release r = None -> last_segment (uri release) = Some (Some name) ->
  web_answers (host r) = replicate 3600 None ++ rest ->
  exists r', download_binary sha256sum last_segment download_path release r = (inl HttpError, r') /\
    web_answers (host r') = rest.
Proof.
  intros Hd Hl Hw. unfold download_binary. unfold rtry at 1, rget. rewrite Hd.
  unfold get_bin_path. rewrite Hl. unfold rtry at 1, rret at 1. unfold rtry at 1.
  assert (forall n r0, failing (60 + n) r0 rest -> exists r1, retry_with_log http_get r0 = (inl HttpError, r1) /\ failing n r1 rest) as Hin.
  { intros n r0 H0. destruct (retry_fails http_get 1 (replicate n None ++ rest)) with (n := 60%nat) (r := r0) (e := @None RunnerError) as (r1 & E & H1).
    - intros m r2 H2. by apply http_fails.
    - unfold failing in *. rewrite H0, replicate_add, <- app_assoc. done.
    - exists r1. split; [exact E|exact H1]. }
  destruct (retry_fails (do_download_binary sha256sum (download_path +:+ "/" +:+ name)%string release) 60 rest) with (n := 60%nat) (r := r) (e := @None RunnerError)
    as (r' & E & H').
  - intros n r0 H0. unfold do_download_binary. erewrite rtry_run by reflexivity.
    destruct (Hin n (mkRunner (child_proc r0) (downloaded_release r0) (mkHost (<[(download_path +:+ "/" +:+ name)%string := []]> (files (host r0)))
      (processes (host r0)) (web_answers (host r0)) (spawn_answers (host r0)) (wait_answers (host r0)) (spawned (host r0))))) as (r1 & E & H1); [exact H0|].
    exists r1. split; [|done]. unfold get_request_bytes, rtry. by rewrite E.
  - exact Hw.
  - exists r'. split; [|exact H']. unfold retry_with_log. change (RETRY_TIMEOUT / RETRY_INTERVAL)%nat with 60%nat. by rewrite E.
Qed.

End properties.

(** ** Witnesses *)

Section witnesses.

Definition toy_sum (b : Bytes) : H256 := b.
Definition toy_segment (u : string) : option (option string) := Some (Some u).
Definition old_release : ClientRelease := mkRelease "vault-1" [1].
Definition next_release : ClientRelease := mkRelease "vault-2" [2].
Definition fresh_host : Host := mkHost ∅ ∅ [Some [1]; Some [2]] [Some 100; Some 200] [] [].



Definition old_downloaded : DownloadedRelease := mkDownloaded [1] "./vault-1" "vault-1".
Definition running_host : Host :=
  mkHost {[ "./vault-1"%string := [1] ]} {[ 100 ]} [Some [2]] [Some 200] [true] [Some [1]].

Lemma new_release_replaces_client_witness :
  let '(res, r) := auto_update_round toy_sum toy_segment "." (inr (Some next_release)) (mkRunner (Some 100) (Some old_downloaded) running_host) in
  res = inr tt /\ child_proc r = Some 200 /\ processes (host r) = {[ 200 ]} /\ spawned (host r) = spawned running_host ++ [Some [2]] /\
  exists d', downloaded_release r = Some d' /\ downloaded_checksum d' = checksum next_release.
Proof.
  apply (new_release_replaces_client toy_sum toy_segment "." next_release "vault-2" [2] 100 200 old_downloaded [1] [] [] [] running_host);
    [reflexivity..|discriminate|reflexivity|reflexivity].
Defined.

Definition toy_machine : Machine := mkMachine ∅ (<[7 := "vault"%string]> {[ 8 := "vault"%string ]}).

Lemma pid_lock_exclusive_witness :
  let w1 := mkMachine {[ "lock"%string := PidNumber 7 ]} (running toy_machine) in
  pidfile_create "lock" 8 w1 = (inl (ServiceAlreadyRunning 7), w1).
Proof.
  cbv zeta.
  apply (pid_lock_exclusive "lock" 7 8 "vault" toy_machine (mkPidFile "lock" true) (mkMachine {[ "lock"%string := PidNumber 7 ]} (running toy_machine)));
    [reflexivity|reflexivity|discriminate|reflexivity|reflexivity|reflexivity].
Defined.

Definition silent_host : Host := mkHost ∅ ∅ (replicate 3600 None) [] [] [].

Lemma download_retries_multiply_witness :
  exists r', download_binary toy_sum toy_segment "." old_release (mkRunner None None silent_host) = (inl HttpError, r') /\
    web_answers (host r') = [].
Proof.
  apply (download_retries_multiply toy_sum toy_segment "." old_release "vault-1" (mkRunner None None silent_host) []);
    [reflexivity|reflexivity|]. cbn [host web_answers silent_host]. symmetry. apply app_nil_r.
Defined.

End witnesses.
