(* ===== verification/RedeemFlow.v ===== *)
(** * Redeeming and replacing from end to end

    What the runtime records for a redeem or a replace request, what the vault's
    listeners ([src/clients/vault/src/redeem.rs] and [replace.rs]) make of the
    event, what the wallet posts for it, and what the runtime says to that
    payment. *)

From S2P Require Import Prelude FixedPoint Primitives Currency Security Oracle Staking.
From S2P Require Import PooledRewards StellarRelay Chain RewardDistribution Fee VaultRegistry.
From S2P Require Import VaultFrames VaultBooks RateLimit Issue Redeem Nomination Replace Peg.
From S2P Require Import Runtime RequestLife Sample Reachable Payments Horizon Wallet VaultRequests.
From S2P Require Import VaultCancellation ParachainClient VaultService.

(** ** The listeners *)

Section listeners.
Context `{RT : Runtime}.

(** The request that [listen_for_redeem_requests] gives to payment for an event:
    [None] when the event is for another vault or the request cannot be read. *)
Definition on_request_redeem (m : VaultIdManager) (event_vault_id : VaultId) (redeem_id : H256)
    (payment_margin : Z) (s : Chain) : option Request :=
  match get_vault event_vault_id m with
  | None => None
  | Some _ => r ← redeem_store s !! redeem_id; from_redeem_request redeem_id r payment_margin
  end.

(** The same for [listen_for_accept_replace]: the old vault pays. *)
Definition on_accept_replace (m : VaultIdManager) (old_vault_id : VaultId) (replace_id : H256)
    (payment_margin : Z) (s : Chain) : option Request :=
  match get_vault old_vault_id m with
  | None => None
  | Some _ => r ← replace_store s !! replace_id; from_replace_request replace_id r payment_margin
  end.

End listeners.

(** ** Recorded amounts *)

Section amounts.
Context `{RT : Runtime}.

(** An amount that Stellar can express, within a balance. *)
Definition payable (x : Balance) : Prop :=
  0 <= x <= u128_max /\ is_compatible_with_target x = true.

Lemma rounded_compatible a b :
  Amount.round_to_target_chain a = Ok b -> is_compatible_with_target (amount b) = true.
Proof.
  unfold Amount.round_to_target_chain, round_to_compatible_with_target.
  destruct (fu_checked_div _ _); [|done]. destruct (fu_checked_mul _ _) as [x|]; [|done].
  destruct (is_compatible_with_target x) eqn:E; [|done]. simpl. by intros [= <-].
Qed.

Lemma compatible_sub a b c :
  Amount.checked_sub a b = Ok c -> is_compatible_with_target (amount a) = true ->
  is_compatible_with_target (amount b) = true -> payable (amount c).
Proof.
  intros (_ & _ & -> & Hr)%checked_sub_ok Ha Hb. split; [done|]. unfold is_compatible_with_target in *.
  rewrite rate_value in *. apply Z.eqb_eq in Ha, Hb. apply Z.eqb_eq. rewrite Zminus_mod, Ha, Hb. done.
Qed.

Lemma request_redeem_payable q x a k s i s' :
  _request_redeem q x a k s = (Ok i, s') ->
  exists r, redeem_store s' !! i = Some r /\ payable (redeem_amount_ r).
Proof.
  unfold _request_redeem. cbv zeta. intros H.
  apply bind_ok in H as (? & s1 & [Hc _]%lift_ok & H).
  assert (is_compatible_with_target x = true) as Hx.
  { unfold Amount.ensure_is_compatible_with_target_chain in Hc. simpl in Hc.
    by destruct (is_compatible_with_target x). }
  do 4 (apply bind_ok in H as (? & ? & _ & H)).
  apply bind_ok in H as (? & ? & _ & H). apply bind_ok in H as (fee & ? & _ & H).
  apply bind_ok in H as (incl & ? & [[= <-] _]%lift_ok & H).
  apply bind_ok in H as (fee' & ? & [Hfee%rounded_compatible _]%lift_ok & H).
  apply bind_ok in H as (burned & ? & [Hb _]%lift_ok & H).
  apply bind_ok in H as (received & ? & [Hr _]%map_err_ok%lift_ok & H).
  eapply compatible_sub in Hb as [_ Hb]; [|done..]. eapply compatible_sub in Hr; [|done..].
  do 12 (apply bind_ok in H as (? & ? & _ & H)).
  apply bind_ok in H as (? & s2 & E & [-> ->]%ret_ok). apply put_redeem_ok in E.
  eexists. rewrite E, lookup_partial_alter_eq. done.
Qed.

Lemma step_redeems_payable s s' :
  step s s' -> map_Forall (fun _ r => payable (redeem_amount_ r)) (redeem_store s) ->
  map_Forall (fun _ r => payable (redeem_amount_ r)) (redeem_store s').
Proof.
  intros [call s1 s2 _ H|call e s1 s2 _ H] Hs; [|by apply dispatch_reverts in H as ->].
  destruct (decide (pallet_of call = Some RedeemPallet)) as [Hp|Hp].
  - destruct (redeem_call_cases _ _ _ Hp H) as [->|[(i & r & r' & Hr & Ht & ->)|(q & x & a & k & r & Hq & E)]]; [done| |].
    + apply map_Forall_insert_2; [|done]. specialize (Hs _ _ Hr). simpl in Hs. by destruct Ht.
    + apply request_redeem_payable in Hq as (r' & Hr & Hx). rewrite E in *.
      rewrite lookup_insert_eq in Hr. injection Hr as <-. by apply map_Forall_insert_2.
  - apply stores_frames in H as (_ & Hf & _). by rewrite (Hf Hp).
Qed.

(** On every chain that started without redeem requests. *)
Lemma redeems_payable s s' :
  redeem_store s = ∅ -> rtc step s s' ->
  forall i r, redeem_store s' !! i = Some r -> payable (redeem_amount_ r).
Proof.
  intros H0 H. assert (map_Forall (fun _ r => payable (redeem_amount_ r)) (redeem_store s)) as Hs.
  { rewrite H0. apply map_Forall_empty. }
  clear H0. induction H; [done|]. eauto using step_redeems_payable.
Qed.

End amounts.

(** ** What the wallet posts *)

Section posting.
Context `{N : Network} {L : NetworkLaws N} (to_base58 : Bytes -> Bytes) (public_key : PublicKey) (fuel : nat).

(** The transaction posted for a request: one operation, under its memo. *)
Record posted_for (q : Request) (tx : Transaction) (op : OperationBody) (stroops : Z) (text : TextMemo)
  : Prop := {
  posted_amount : balance_lookup (request_amount q) = Some stroops;
  posted_operation : operations tx = [op];
  posted_text : derive_shortened_request_id to_base58 (hash q) = Ok text;
  posted_under : memo tx = MemoText text;
  posted_built :
    match request_type q with
    | RequestRedeem => create_payment_op_for_redeem_request public_key
        (PublicKeyTypeEd25519 (stellar_address q)) (request_asset q) stroops
    | RequestReplace => create_payment_operation
        (PublicKeyTypeEd25519 (stellar_address q)) (request_asset q) stroops public_key
    end = inl op;
}.

Lemma created_envelope request_id f seq op env :
  create_envelope public_key to_base58 request_id f seq [op] = Ok (inl env) ->
  exists tx text, env = EnvelopeTypeTx tx /\ operations tx = [op] /\ memo tx = MemoText text /\
    derive_shortened_request_id to_base58 request_id = Ok text.
Proof.
  unfold create_envelope. destruct (derive_shortened_request_id _ _) as [text|e|]; simpl; [|done..].
  destruct (new_transaction _ _ _ _) as [t|] eqn:E1; simpl; [|done]. apply new_transaction_fields in E1 as (Ho & Hm & _).
  destruct (append_operation _ _) as [t'|] eqn:E2; simpl; [|done]. apply append_operation_fields in E2 as (Ho' & Hm' & _).
  unfold create_and_sign_envelope. destruct (sign _); [|done]. intros [= <-].
  exists t', text. split_and!; [done|by rewrite Ho', Ho|by rewrite Hm'|done].
Qed.

Lemma pay_posts q now fee w r w' :
  pay to_base58 public_key fuel q now fee w = Ok (Some (r, w')) ->
  deadline_expired q now = false /\
  (posted w' = posted w /\ (exists e, r = Some (inr e)) \/
   exists tx op stroops text, posted w' = posted w ++ [EnvelopeTypeTx tx] /\
     posted_for q tx op stroops text).
Proof.
  unfold pay. destruct (deadline_expired q now); [done|]. unfold transfer_stellar_asset.
  destruct (balance_lookup _) as [stroops|] eqn:Eb; [|done]. unfold send_payment_to_address.
  destruct (bool_decide _); [simpl; intros [= <- <-]; eauto 6|].
  match goal with |- context [match ?b with inl _ => _ | inr _ => _ end] => destruct b as [op|e] eqn:Eo end;
    [|simpl; intros [= <- <-]; eauto 6].
  unfold send_to_address. destruct (get_account public_key); [|simpl; intros [= <- <-]; eauto 6].
  destruct (create_envelope _ _ _ _ _ _) as [[env|e]|e|] eqn:Ec; simpl; [|intros [= <- <-]; eauto 6|done..].
  destruct (submit_transaction fuel env w) as [r' w1] eqn:Es. intros [= <- <-]. split; [done|]. right.
  apply created_envelope in Ec as (tx & text & -> & Ho & Hm & Ht).
  exists tx, op, stroops, text.
  pose proof (submit_posts fuel (EnvelopeTypeTx tx) w) as Hp. rewrite Es in Hp. split; [done|].
  split; try done. by destruct (request_type q).
Qed.

End posting.

(** ** The payment and the record *)

Section accepted.
Context `{RT : Runtime} `{N : Network} {L : NetworkLaws N}.

(** A stored redeem request only changes its status. *)
Lemma redeem_record_kept s s' i r :
  rtc fresh_step s s' -> redeem_store s !! i = Some r ->
  exists st, redeem_store s' !! i = Some (with_redeem_status st r).
Proof.
  intros H. revert r. induction H as [s|s s1 s' Hs _ IH]; intros r Hr.
  - exists (redeem_status r). rewrite Hr. by destruct r.
  - apply fresh_step_evolves in Hs as (_ & Hs & _). destruct (Hs _ _ Hr) as (r1 & Hr1 & Ht).
    destruct (IH _ Hr1) as [st Hst]. exists st. rewrite Hst. by destruct Ht.
Qed.

Lemma lookup_range x stroops : 0 <= x -> balance_lookup x = Some stroops -> 0 <= stroops <= i64_max.
Proof.
  unfold balance_lookup. rewrite rate_value. destruct (Z.ltb_spec i64_max (x / 100000)); [done|].
  intros H0 [= <-]. split; [apply Z.div_pos; lia|done].
Qed.

Lemma payable_exact x stroops : payable x -> balance_lookup x = Some stroops -> balance_unlookup stroops = x.
Proof. intros [[H0 _] Hc] Hb. destruct (balance_lookup_exact_iff_compatible _ _ H0 Hb) as [_ He]. by apply He. Qed.

Lemma memo_matches q tx op stroops text public_key :
  posted_for to_base58 public_key q tx op stroops text ->
  ensure_transaction_memo_matches_hash (EnvelopeTypeTx tx) (hash q) = Ok tt.
Proof.
  intros [_ _ Ht Hm _]. unfold ensure_transaction_memo_matches_hash, ensure_transaction_memo_matches. rewrite Ht. simpl.
  rewrite Hm, bool_decide_true by done. done.
Qed.

(** A redeem that does not create an account, and every replace. *)
Lemma payment_counts q tx op stroops text public_key :
  posted_for to_base58 public_key q tx op stroops text -> 0 <= stroops <= i64_max ->
  (request_type q = RequestRedeem ->
   ~ creates_account (PublicKeyTypeEd25519 (stellar_address q)) (request_asset q) stroops) ->
  get_payment_amount_for_asset_to (EnvelopeTypeTx tx) (stellar_address q) (request_asset q) =
    balance_unlookup stroops.
Proof.
  intros [_ Ho _ _ Hb] Hs Hn. rewrite (counted_single _ _ _ _ Ho).
  destruct (request_type q); [destruct (redeem_op_cases _ _ _ _ _ Hb) as [->|[->|[_ ?]]]; [..|by destruct (Hn eq_refl)]
    |apply payment_op_inv in Hb as ->]; simpl; rewrite !bool_decide_true by done; simpl; by rewrite saturating_id.
Qed.

Lemma from_redeem_fields h r margin q :
  from_redeem_request h r margin = Some q ->
  hash q = h /\ request_amount q = redeem_amount_ r /\ stellar_address q = redeem_stellar_address r /\
  request_type q = RequestRedeem /\ asset_lookup (redeem_asset r) = Some (request_asset q).
Proof.
  unfold from_redeem_request. destruct (asset_lookup _) as [asset|] eqn:Ea; [|done]. simpl.
  destruct (calculate_deadline _ _ _); [|done]. by intros [= <-].
Qed.

Lemma from_replace_fields h r margin q :
  from_replace_request h r margin = Some q ->
  hash q = h /\ request_amount q = replace_amount_ r /\ stellar_address q = replace_stellar_address r /\
  request_type q = RequestReplace /\ asset_lookup (replace_asset r) = Some (request_asset q).
Proof.
  unfold from_replace_request. destruct (asset_lookup _) as [asset|] eqn:Ea; [|done]. simpl.
  destruct (calculate_deadline _ _ _); [|done]. by intros [= <-].
Qed.

Lemma on_request_redeem_ok m k i margin s q :
  on_request_redeem m k i margin s = Some q ->
  exists r, redeem_store s !! i = Some r /\ from_redeem_request i r margin = Some q.
Proof.
  unfold on_request_redeem. destruct (get_vault k m); [|done]. destruct (redeem_store s !! i) as [r|]; [|done]. eauto.
Qed.

Lemma on_accept_replace_ok m k i margin s q :
  on_accept_replace m k i margin s = Some q ->
  exists r, replace_store s !! i = Some r /\ from_replace_request i r margin = Some q.
Proof.
  unfold on_accept_replace. destruct (get_vault k m); [|done]. destruct (replace_store s !! i) as [r|]; [|done]. eauto.
Qed.

(** The envelope a payment added to what was posted. *)
Lemma pay_posted public_key fuel q now fee w res w' env :
  pay to_base58 public_key fuel q now fee w = Ok (Some (res, w')) -> posted w' = posted w ++ [env] ->
  deadline_expired q now = false /\
  exists tx op stroops text, env = EnvelopeTypeTx tx /\ posted_for to_base58 public_key q tx op stroops text.
Proof.
  intros [Hd [[Hp _]|(tx & op & stroops & text & Hp & Hq)]]%pay_posts Hw; rewrite Hp in Hw.
  - apply (f_equal length) in Hw. rewrite length_app in Hw. simpl in Hw. lia.
  - apply app_inj_tail in Hw as [_ <-]. split; [done|]. by exists tx, op, stroops, text.
Qed.


(** An executed replace was paid, as the runtime counts payments. *)
Lemma execute_replace_paid o i env envs set s s' :
  execute_replace o i env envs set s = (Ok tt, s') ->
  exists r tx paid, replace_store s !! i = Some r /\
    construct_from_raw_encoded_xdr transaction_envelope_from_xdr env = Ok tx /\
    get_amount_from_transaction_envelope tx (replace_stellar_address r) (replace_asset r) = Ok paid /\
    replace_amount_ r <= amount paid.
Proof.
  intros H. unfold execute_replace in H. open_call H. unfold _execute_replace in H.
  apply bind_ok in H as (r & s1 & E & H). pose proof (get_replace_ok _ _ _ _ (or_intror E)) as [-> Hr].
  apply bind_ok in H as (tx & s1 & [Htx ->]%lift_ok & H).
  apply bind_ok in H as (es & s1 & [_ ->]%lift_ok & H).
  apply bind_ok in H as (ts & s1 & [_ ->]%lift_ok & H).
  apply bind_ok in H as ([] & s1 & [_ ->]%lift_ok & H).
  apply bind_ok in H as (? & s1 & [-> _]%relay_validate_ok & H).
  apply bind_ok in H as (paid & s1 & [Hpaid ->]%lift_ok & H).
  apply bind_ok in H as (b & s1 & [[_ ->]%ge_ok ->]%lift_ok & H).
  apply bind_ok in H as (? & s1 & [Hle ->]%ensure_ok & _). cbn in Hle.
  exists r, tx, paid. split_and!; try done. lia.
Qed.

(** A new vault can accept a replace of an amount that is not a whole number
    of stroops.  The old vault's payment is rounded down, and the runtime
    refuses it: the request cannot be executed with what the vault posts, and
    the old vault loses its griefing collateral. *)
Theorem fractional_replace_unpayable public_key fuel m k i margin q now fee w res w' env r o bytes envs set s s' :
  replace_store s !! i = Some r -> 0 <= replace_amount_ r ->
  is_compatible_with_target (replace_amount_ r) = false ->
  on_accept_replace m k i margin s = Some q ->
  pay to_base58 public_key fuel q now fee w = Ok (Some (res, w')) -> posted w' = posted w ++ [env] ->
  construct_from_raw_encoded_xdr transaction_envelope_from_xdr bytes = Ok env ->
  execute_replace o i bytes envs set s <> (Ok tt, s').
Proof.
  intros Hr H0 Hc (r' & Hr' & Hq)%on_accept_replace_ok Hpay Hw He H. assert (r' = r) as -> by congruence.
  destruct (pay_posted _ _ _ _ _ _ _ _ _ Hpay Hw) as (_ & tx & op & stroops & text & -> & Hp).
  apply execute_replace_paid in H as (r2 & tx2 & paid & Hr2 & He2 & Hpaid & Hle).
  assert (r2 = r) as -> by congruence. rewrite He in He2. injection He2 as <-.
  apply from_replace_fields in Hq as (_ & Hx & Ha & Ht & Hl). rewrite payment_amount_counted, Hl in Hpaid.
  injection Hpaid as <-. simpl in Hle. pose proof (posted_amount _ _ _ _ _ _ _ Hp) as Hb. rewrite Hx in Hb.
  destruct (balance_lookup_exact_iff_compatible _ _ H0 Hb) as [Hlt Hiff].
  rewrite <- Ha, (payment_counts _ _ _ _ _ _ Hp (lookup_range _ _ H0 Hb)) in Hle by congruence.
  assert (balance_unlookup stroops = replace_amount_ r) as E by lia. apply Hiff in E. congruence.
Qed.

End accepted.

(** ** Witnesses *)

Section witnesses.
#[local] Existing Instance SampleRuntime.

Definition managed : VaultIdManager := add_vault_id sample_vault false ∅.

(** The user has asked for half of the tokens. *)
Definition announced_id : H256 := id_of_next with_tokens.
Definition announced : Chain := run (set_up ++ issue_calls ++ take 1 redeem_calls) sample_genesis.
Definition announced_request : Request :=
  mkRequest announced_id (Some 98) 5000000 AssetTypeNative XLM [88] RequestRedeem sample_vault (Some 0).
Definition payment_of (destination stroops : Z) (text : TextMemo) : TransactionEnvelope :=
  EnvelopeTypeTx (mkTransaction [Payment (KeyTypeEd25519 [destination]) AssetTypeNative stroops] (MemoText text) 2 100000).


(** A second vault takes over 1234567 of the first one's tokens: twelve stroops
    and a fraction. *)
Definition native_pair : VaultCurrencyPair := mkPair Native XLM.
Definition replace_calls : list RuntimeCall := [
  SetMinimumCollateral (Ok tt) Native 1000;
  SetSystemCollateralCeiling (Ok tt) native_pair (10 ^ 18);
  SetSecureCollateralThreshold (Ok tt) native_pair 1500000000000000000;
  SetPremiumRedeemThreshold (Ok tt) native_pair 1300000000000000000;
  SetLiquidationCollateralThreshold (Ok tt) native_pair 1100000000000000000;
  RegisterPublicKey (Ok 2%N) [78];
  RegisterVault (Ok 2%N) native_pair (10 ^ 15);
  Runtime.RequestReplace (Ok 1%N) sample_pair 5000000;
  AcceptReplace (Ok 2%N) native_pair sample_vault 1234567 (10 ^ 10) [78] ].

Definition accepted_fraction : Chain := run replace_calls with_tokens.
Definition fraction_request : ReplaceRequest :=
  mkReplaceRequest sample_vault (new_vault_id 2 Native XLM) 1234567 XLM 123456 (10 ^ 10) 0 100 [78] ReplacePending.
Definition fraction_payment : Request :=
  mkRequest announced_id (Some 98) 1234567 AssetTypeNative XLM [78] RequestReplace sample_vault None.

Lemma fraction_accepted :
  succeeds replace_calls with_tokens = true /\
  replace_store accepted_fraction !! announced_id = Some fraction_request.
Proof. split; vm_compute; reflexivity. Qed.

Lemma fractional_replace_unpayable_witness :
  execute_replace (Ok 1%N) announced_id (78 :: 12 :: take 28 announced_id) [] [] accepted_fraction
    <> (Ok tt, accepted_fraction).
Proof.
  eapply (fractional_replace_unpayable (RT := SampleRuntime) (N := ToyNetwork [-1]) (L := ToyNetwork_laws [-1])
    own_key 10 managed sample_vault announced_id 12000 fraction_payment 90 (Some 0) (mkWallet ∅ [])) with (r := fraction_request).
  - apply fraction_accepted.
  - vm_compute. discriminate.
  - vm_compute. reflexivity.
  - vm_compute. reflexivity.
  - vm_compute. reflexivity.
  - reflexivity.
  - vm_compute. reflexivity.
Defined.

End witnesses.
