(* ===== verification/RequestExecution.v ===== *)
(** * Paying and executing a request

    [src/clients/vault/src/requests/structs.rs] and [execution.rs]: a request is
    paid on Stellar, the payment is proven with the oracle agent, and the proof is
    sent to the chain, with retries around the retries of the parachain client.

    The encoders of the Stellar SDK and what the oracle agent answers are
    arguments. *)

From S2P Require Import Prelude FixedPoint Primitives Currency Security Oracle Staking.
From S2P Require Import PooledRewards StellarRelay Chain RewardDistribution Fee VaultRegistry.
From S2P Require Import VaultFrames VaultBooks RateLimit Issue Redeem Nomination Replace Peg.
From S2P Require Import Runtime RequestLife Sample Reachable Payments Horizon Wallet VaultRequests.
From S2P Require Import ScpCollector VaultCancellation ParachainClient VaultService RedeemFlow.

Definition MAX_EXECUTION_RETRIES : nat := 3.

(** The verification of [execute]: a lost connection is not retried. *)
Definition verify_execution {T} (result : RuntimeError + T) : RetryPolicy + T :=
  match result with
  | inr ok => inr ok
  | inl err =>
      inl match is_invalid_transaction err with
          | Some (Recoverable data) => Skip (InvalidTransaction data)
          | Some (Unrecoverable data) => Throw (InvalidTransaction data)
          | None =>
              if is_pool_too_low_priority err then Skip PoolTooLowPriority
              else if is_rpc_disconnect_error err then Throw err
              else if is_block_hash_not_found_error err then Skip BlockHashNotFound
              else if is_timeout_error err then Skip Timeout
              else Throw err
          end
  end.

Section execution.
Context `{RT : Runtime}.
Context (to_base64_xdr : TransactionEnvelope -> Bytes).
Context (encode : Proof -> Bytes * Bytes).
Context (who : AccountId) (outer_waits inner_waits : nat).

Definition execute_call (q : Request) (tx_env : TransactionEnvelope) (proof : Proof) : RuntimeCall :=
  let '(scp_envelopes_encoded, tx_set_encoded) := encode proof in
  match request_type q with
  | RequestRedeem => ExecuteRedeem (Ok who) (hash q) (to_base64_xdr tx_env) scp_envelopes_encoded tx_set_encoded
  | RequestReplace => ExecuteReplace (Ok who) (hash q) (to_base64_xdr tx_env) scp_envelopes_encoded tx_set_encoded
  end.

Definition execute (q : Request) (tx_env : TransactionEnvelope) (proof : Proof) (l : Link)
  : (RuntimeError + unit) * Link :=
  notify_retry outer_waits (with_retry inner_waits (execute_call q tx_env proof)) verify_execution l.

(** [execute_open_request_async], with what [get_proof] answers each time; the
    number of proofs it asked for comes with the result, which is [None] when it
    gives up. *)
Fixpoint execute_open_request (retries : nat) (q : Request) (tx_env : TransactionEnvelope)
    (proofs : list (option Proof)) (l : Link) : option (RuntimeError + unit) * nat * Link :=
  match retries with
  | O => (None, O, l)
  | S retries =>
      match proofs with
      | [] => (None, O, l)
      | Some proof :: _ => let '(r, l) := execute q tx_env proof l in (Some r, 1%nat, l)
      | None :: proofs =>
          let '(r, asked, l) := execute_open_request retries q tx_env proofs l in (r, S asked, l)
      end
  end.

Definition execute_open_request_async := execute_open_request MAX_EXECUTION_RETRIES.

(** How [pay_and_execute] ends. *)
Inductive Settlement :=
| Executed
| NotPaid
| PaymentPending
| PaymentFailed (e : WalletError)
| EnvelopeUnreadable
| NoProof
| NotExecuted (e : RuntimeError).

Context `{N : Network} (public_key : PublicKey) (fuel : nat).
Context (get_proof : Z -> option Proof).

Definition pay_and_execute (q : Request) (active_block_number : BlockNumber) (fee_stat : option Z)
    (w : Wallet) (l : Link) : outcome (Settlement * Wallet * Link) :=
  let? paid := pay to_base58 public_key fuel q active_block_number fee_stat w in
  Ok match paid with
     | None => (NotPaid, w, l)
     | Some (None, w) => (PaymentPending, w, l)
     | Some (Some (inr e), w) => (PaymentFailed e, w, l)
     | Some (Some (inl response), w) =>
         match to_envelope response with
         | None => (EnvelopeUnreadable, w, l)
         | Some tx_env =>
             match get_proof (ledger response) with
             | None => (NoProof, w, l)
             | Some proof =>
                 match execute q tx_env proof l with
                 | (inr _, l) => (Executed, w, l)
                 | (inl e, l) => (NotExecuted e, w, l)
                 end
             end
         end
     end.

End execution.

(** ** Properties *)

(** The request is completed on the chain. *)
Definition completed `{RT : Runtime} (q : Request) (s : Chain) : Prop :=
  match request_type q with
  | RequestRedeem => exists r, redeem_store s !! hash q = Some r /\ redeem_status r = RedeemCompleted
  | RequestReplace => exists r, replace_store s !! hash q = Some r /\ replace_status r = ReplaceCompleted
  end.

Lemma notify_retry_done {W T} waits (call : W -> (RuntimeError + T) * W) verify w x w' :
  notify_retry waits call verify w = (inr x, w') -> exists w1 r, call w1 = (r, w') /\ verify r = inr x.
Proof.
  revert w. induction waits as [|waits IH]; intros w; cbn [notify_retry]; destruct (call w) as [r w1] eqn:Ec;
    destruct (verify r) as [[e|e]|y] eqn:Ev; intros H; try discriminate; try (by apply IH in H);
    injection H as <- <-; eauto.
Qed.

Section properties.
Context `{RT : Runtime}.
Context (to_base64_xdr : TransactionEnvelope -> Bytes).
Context (encode : Proof -> Bytes * Bytes).
Context (who : AccountId) (outer_waits inner_waits : nat).

Lemma executed_call_completes q tx_env proof s s' :
  dispatch (execute_call to_base64_xdr encode who q tx_env proof) s = (Ok tt, s') -> completed q s'.
Proof.
  unfold execute_call, completed. destruct (encode proof) as [x y]. destruct (request_type q); cbn [dispatch]; intros H.
  - unfold execute_redeem in H. open_call H. apply execute_redeem_store in H as (r & _ & _ & ->).
    eexists. rewrite lookup_insert_eq. split; [done|]. by destruct r.
  - unfold execute_replace in H. open_call H. apply execute_replace_store in H as (r & _ & _ & ->).
    eexists. rewrite lookup_insert_eq. split; [done|]. by destruct r.
Qed.

Lemma execute_done q tx_env proof l u l' :
  execute to_base64_xdr encode who outer_waits inner_waits q tx_env proof l = (inr u, l') -> completed q (node l').
Proof.
  unfold execute. intros H. apply notify_retry_done in H as (l1 & [e|[]] & H & Hv); [done|].
  unfold with_retry in H. apply notify_retry_done in H as (l2 & [e|[]] & H & Hv2); [done|].
  unfold submit in H. destruct (attempts l2) as [|[|e|e|[]] rest]; try discriminate.
  destruct (included_told (execute_call to_base64_xdr encode who q tx_env proof) (node l2)) as [(s' & Hd & Hi)|(e & Hi & _)];
    rewrite Hi in H; [|discriminate]. injection H as <-. by eapply executed_call_completes.
Qed.

Lemma execute_told q tx_env proof l r l' :
  execute to_base64_xdr encode who outer_waits inner_waits q tx_env proof l = (r, l') -> Forall told (attempts l) ->
  Forall told (attempts l') /\
  match r with
  | inr _ => dispatch (execute_call to_base64_xdr encode who q tx_env proof) (node l) = (Ok tt, node l')
  | inl _ => node l' = node l
  end.
Proof.
  unfold execute. set (call := execute_call to_base64_xdr encode who q tx_env proof).
  apply (notify_retry_told outer_waits (with_retry inner_waits call) verify_execution (fun s s' => dispatch call s = (Ok tt, s'))).
  intros l0 [e|[]] l1 H Ht; by apply with_retry_told in H as [Ht1 Hn].
Qed.

(** C16: a request that the vault reports as settled was paid with exactly one
    transaction, built for it and posted before its deadline, and is completed on
    the chain, whatever the connection did to the calls in between.  When it is
    not settled and the client learns the fate of its calls, the chain is as it
    was, and at most one transaction was posted. *)
Theorem paid_request_settled_once `{N : Network} {L : NetworkLaws N} public_key fuel get_proof q now fee w l res w' l' :
  pay_and_execute to_base64_xdr encode who outer_waits inner_waits public_key fuel get_proof q now fee w l = Ok (res, w', l') ->
  (res = Executed ->
   deadline_expired q now = false /\
   (exists tx op stroops text, posted w' = posted w ++ [EnvelopeTypeTx tx] /\
      posted_for to_base58 public_key q tx op stroops text) /\
   completed q (node l')) /\
  (res <> Executed -> Forall told (attempts l) ->
   node l' = node l /\ (posted w' = posted w \/ exists env, posted w' = posted w ++ [env])).
Proof.
  unfold pay_and_execute. destruct (pay _ _ _ _ _ _ _) as [[[r w1]|]|e|] eqn:Ep; simpl; try discriminate.
  2: { intros [= <- <- <-]. split; [done|]. auto. }
  apply pay_posts in Ep as [Hd Hp].
  assert (posted w1 = posted w \/ exists env, posted w1 = posted w ++ [env]) as Hone.
  { destruct Hp as [[-> _]|(tx & op & stroops & text & -> & _)]; eauto. }
  intros H. destruct r as [[response|e]|]; [|by injection H as <- <- <-..].
  destruct (to_envelope response) as [tx_env|]; [|by injection H as <- <- <-].
  destruct (get_proof (ledger response)) as [proof|]; [|by injection H as <- <- <-].
  destruct (execute _ _ _ _ _ _ _ _ _) as [[e|u] l1] eqn:Ee; injection H as <- <- <-; (split; [try done|]).
  - intros _ Ht. apply execute_told in Ee as [_ Hn]; [|done]. auto.
  - intros _. split_and!; [done| |by eapply execute_done].
    destruct Hp as [[_ (e & ?)]|Hp]; [discriminate|done].
  - done.
Qed.

(** The proof is asked for at most three times, and the request is sent at most
    once. *)
Lemma open_request_bounded q tx_env proofs l r asked l' :
  execute_open_request_async to_base64_xdr encode who outer_waits inner_waits q tx_env proofs l = (r, asked, l') ->
  (asked <= MAX_EXECUTION_RETRIES)%nat /\
  (r = None -> l' = l /\ Forall (eq None) (take MAX_EXECUTION_RETRIES proofs)) /\
  (r = Some (inr tt) -> completed q (node l')).
Proof.
  unfold execute_open_request_async. generalize MAX_EXECUTION_RETRIES as n. intros n.
  revert proofs r asked. induction n as [|n IH]; intros proofs r asked; simpl; [by intros [= <- <- <-]|].
  destruct proofs as [|[proof|] proofs]; [intros [= <- <- <-]; split_and!; [lia|done|done]| |].
  - destruct (execute _ _ _ _ _ _ _ _ _) as [x l1] eqn:Ee. intros [= <- <- <-]. split_and!; [lia|done|].
    intros [= ->]. by eapply execute_done.
  - destruct (execute_open_request _ _ _ _ _ n q tx_env proofs l) as [[x asked'] l1] eqn:Er. intros [= <- <- <-].
    destruct (IH _ _ _ Er) as (Ha & Hn & Hc). split_and!; [lia| |done]. intros Hx. destruct (Hn Hx) as [-> Hf].
    split; [done|]. by constructor.
Qed.

End properties.

(** ** Witness: the announced redeem of [RedeemFlow] *)

Section witnesses.
#[local] Existing Instance SampleRuntime.

(** The encoding of the payment the runtime reads. *)
Definition announced_bytes : Bytes := 88 :: 50 :: take 28 announced_id.
Definition any_proof : Proof := mkProof 100 [] ([], []).

Definition sample_encode (_ : TransactionEnvelope) : Bytes := announced_bytes.
Definition sample_encode_proof (_ : Proof) : Bytes * Bytes := ([], announced_bytes).
Definition sample_wallet : Wallet := mkWallet ∅ [].
Definition sample_link : Link := mkLink [Refused low_fees; Finalized] announced false.
Definition sample_archive (_ : Z) : option Proof := Some any_proof.

Definition settled : outcome (Settlement * Wallet * Link) :=
  pay_and_execute sample_encode sample_encode_proof 1%N 2 2 (N := ToyNetwork [1]) own_key 10
    sample_archive announced_request 90 None sample_wallet sample_link.

Definition settlement_of (o : outcome (Settlement * Wallet * Link)) : option Settlement :=
  match o with Ok (res, _, _) => Some res | _ => None end.

Lemma settlement_of_ok o res : settlement_of o = Some res -> exists w l, o = Ok (res, w, l).
Proof. destruct o as [[[res' w] l]|e|]; simpl; [|done|done]. intros [= ->]. eauto. Qed.

Lemma settled_executed : exists w' l', settled = Ok (Executed, w', l').
Proof. apply settlement_of_ok. vm_compute. reflexivity. Qed.

Lemma paid_request_settled_once_witness :
  exists w' l', settled = Ok (Executed, w', l') /\ deadline_expired announced_request 90 = false /\
    (exists tx op stroops text, posted w' = posted sample_wallet ++ [EnvelopeTypeTx tx] /\
       posted_for (N := ToyNetwork [1]) to_base58 own_key announced_request tx op stroops text) /\
    completed announced_request (node l').
Proof.
  destruct settled_executed as (w' & l' & E). exists w', l'.
  destruct (paid_request_settled_once (RT := SampleRuntime) sample_encode sample_encode_proof 1%N 2 2 (N := ToyNetwork [1])
    (L := ToyNetwork_laws [1]) own_key 10 sample_archive announced_request 90 None sample_wallet sample_link
    Executed w' l' E) as [H _].
  exact (conj E (H eq_refl)).
Defined.

End witnesses.
