(* ===== verification/OverlayFrames.v ===== *)
(** * Frames of the Stellar overlay

    [src/clients/stellar-relay-lib/src/connection/xdr_converter.rs] and
    [connector/message_reader.rs]: messages travel as frames, four bytes with
    the length followed by the authenticated message.

    A slice out of range panics.  XDR belongs to the Stellar SDK: the class
    [OverlayCodec] has the encoders and decoders the code calls, and
    [OverlayCodecLaws] says that they are inverse to each other and big-endian.
    The connector looks into the messages of the handshake, of flow control and
    into errors; the content of other messages is their encoding. *)

From S2P Require Import Prelude Primitives.

(** ** Results *)

Inductive XdrError := UsizeToU32ExceedMax | UnsupportedMessageVersion | SdkError | DecodeError (source : string).

Inductive StellarErrorCode := ErrMisc | ErrData | ErrConf | ErrAuth | ErrLoad.

#[export] Instance OverlayErrorCode_eq_dec : EqDecision StellarErrorCode.
Proof. solve_decision. Defined.

(** [connection/error.rs] *)
Inductive OverlayError :=
| AuthCertExpired | AuthCertNotFound | AuthCertInvalid | AuthSignatureFailed | AuthFailed
| WriteFailed | ReadFailed | NoRemoteInfo | InvalidSequenceNumber | HmacError | MissingHmacKeys
| HmacInvalidLength | XDRConversionError (e : XdrError) | Disconnected | ConfigError
| OverlayErrorCode (code : StellarErrorCode) | Timeout | VersionStrTooLong.

Inductive res (A : Type) := Done (a : A) | Error (e : OverlayError) | Crash.
#[global] Arguments Done {A} a.
#[global] Arguments Error {A} e.
#[global] Arguments Crash {A}.

Definition rbind {A B} (r : res A) (k : A -> res B) : res B :=
  match r with Done a => k a | Error e => Error e | Crash => Crash end.

Declare Scope overlay_scope.
Delimit Scope overlay_scope with overlay.
#[global] Open Scope overlay_scope.
Notation "'let!' x ':=' r 'in' k" := (rbind r (fun x => k))
  (at level 10, x pattern, r at level 100, k at level 200) : overlay_scope.

Lemma rbind_done {A B} (r : res A) (k : A -> res B) b :
  rbind r k = Done b -> exists a, r = Done a /\ k a = Done b.
Proof. destruct r; simpl; [eauto|done..]. Qed.

#[export] Instance Done_inj {A} : Inj (=) (=) (@Done A).
Proof. congruence. Qed.

(** ** Bytes *)

(** [to_be_bytes] of an [n]-byte integer. *)
Fixpoint to_be_bytes (n : nat) (x : Z) : Bytes :=
  match n with
  | O => []
  | S n => to_be_bytes n (x / 256) ++ [x mod 256]
  end.

Definition from_be_bytes (l : Bytes) : Z := fold_left (fun x b => x * 256 + b) l 0.

Lemma to_be_bytes_length n x : length (to_be_bytes n x) = n.
Proof. revert x. induction n as [|n IH]; intros x; simpl; [done|]. rewrite length_app, IH. simpl. lia. Qed.

Lemma from_to_be_bytes n x : 0 <= x < 256 ^ Z.of_nat n -> from_be_bytes (to_be_bytes n x) = x.
Proof.
  revert x. induction n as [|n IH]; intros x Hx; [change (256 ^ Z.of_nat 0) with 1 in Hx; simpl; unfold from_be_bytes; simpl; lia|].
  simpl. unfold from_be_bytes in *. rewrite fold_left_app. simpl. rewrite IH.
  - pose proof (Z.div_mod x 256). lia.
  - rewrite Nat2Z.inj_succ, Z.pow_succ_r in Hx by lia. split; [apply Z.div_pos; lia|].
    apply Z.div_lt_upper_bound; lia.
Qed.

(** [data[a..b]] *)
Definition slice (a b : Z) (data : Bytes) : res Bytes :=
  if (0 <=? a) && (a <=? b) && (b <=? Z.of_nat (length data))
  then Done (take (Z.to_nat (b - a)) (drop (Z.to_nat a) data)) else Crash.

(** ** Messages *)

Inductive MessageType :=
  TypeError | TypeAuth | TypeTransaction | TypeScpMessage | TypeHello | TypeSendMore
| TypeSendMoreExtended | TypeFloodAdvert | TypeFloodDemand | TypeOther (tag : Z).

Record AuthCert := mkAuthCert { cert_pubkey : Bytes; expiration : Z; sig : Bytes }.

Record HelloMessage := mkHello {
  hello_ledger_version : Z;
  hello_overlay_version : Z;
  hello_overlay_min_version : Z;
  hello_network_id : Bytes;
  hello_version_str : Bytes;
  listening_port : Z;
  peer_id : PublicKey;
  cert : AuthCert;
  hello_nonce : Bytes;
}.

Inductive StellarMessage :=
| ErrorMsg (code : StellarErrorCode) (msg : Bytes)
| Hello (hello : HelloMessage)
| Auth (flags : Z)
| SendMore (num_messages : Z)
| SendMoreExtended (num_messages num_bytes : Z)
| Transaction (content : Bytes)
| FloodAdvert (content : Bytes)
| FloodDemand (content : Bytes)
| ScpMessage (content : Bytes)
| OtherMessage (tag : Z) (content : Bytes).

Definition message_type (m : StellarMessage) : MessageType :=
  match m with
  | ErrorMsg _ _ => TypeError
  | Hello _ => TypeHello
  | Auth _ => TypeAuth
  | SendMore _ => TypeSendMore
  | SendMoreExtended _ _ => TypeSendMoreExtended
  | Transaction _ => TypeTransaction
  | FloodAdvert _ => TypeFloodAdvert
  | FloodDemand _ => TypeFloodDemand
  | ScpMessage _ => TypeScpMessage
  | OtherMessage tag _ => TypeOther tag
  end.

Record AuthenticatedMessageV0 := mkAuthenticated {
  sequence : Z;
  message : StellarMessage;
  mac : Bytes;
}.

Class OverlayCodec := {
  message_to_xdr : StellarMessage -> Bytes;
  message_from_xdr : Bytes -> option StellarMessage;
  message_type_from_xdr : Bytes -> option MessageType;
  hmac_from_xdr : Bytes -> option Bytes;
  u32_from_xdr : Bytes -> option Z;
  u64_from_xdr : Bytes -> option Z;
  (** of [AuthenticatedMessage::V0] *)
  authenticated_to_xdr : AuthenticatedMessageV0 -> Bytes;
}.

Class OverlayCodecLaws (OC : OverlayCodec) : Prop := {
  message_roundtrip m : message_from_xdr (message_to_xdr m) = Some m;
  message_type_first m : message_type_from_xdr (take 4 (message_to_xdr m)) = Some (message_type m);
  message_has_type m : (4 <= length (message_to_xdr m))%nat;
  hmac_decodes l : length l = 32%nat -> hmac_from_xdr l = Some l;
  u32_decodes x : 0 <= x < 2 ^ 32 -> u32_from_xdr (to_be_bytes 4 x) = Some x;
  u64_decodes x : 0 <= x < 2 ^ 64 -> u64_from_xdr (to_be_bytes 8 x) = Some x;
  authenticated_encodes a :
    authenticated_to_xdr a =
    to_be_bytes 4 0 ++ to_be_bytes 8 (sequence a) ++ message_to_xdr (message a) ++ mac a;
  (** the messages of fixed size are small *)
  control_message_size m :
    match m with
    | Auth _ | SendMore _ | SendMoreExtended _ _ => Z.of_nat (length (message_to_xdr m)) + 44 <= u32_max
    | _ => True
    end;
}.

(** What the socket has for the reader: segments as they arrive, or an error.
    A read takes from the first segment only, and waits when there is none. *)
Inductive Segment := Arrives (data : Bytes) | Breaks.
Abbreviation Stream := (list Segment) (only parsing).

Section frames.
Context `{OC : OverlayCodec}.

(** ** xdr_converter.rs *)

Definition get_xdr_message_length (data : Bytes) : Z :=
  match data with
  | b0 :: b1 :: b2 :: b3 :: _ => from_be_bytes [Z.land b0 127; b1; b2; b3]
  | _ => 0
  end.

Definition message_to_bytes (message_xdr : Bytes) : res Bytes :=
  if Z.of_nat (length message_xdr) <=? u32_max
  then Done (to_be_bytes 4 (Z.of_nat (length message_xdr)) ++ message_xdr)
  else Error (XDRConversionError UsizeToU32ExceedMax).

Definition from_authenticated_message (m : AuthenticatedMessageV0) : res Bytes :=
  message_to_bytes (authenticated_to_xdr m).

Definition decoded {A} (o : option A) (e : XdrError) : res A :=
  match o with Some a => Done a | None => Error (XDRConversionError e) end.

(** [xdr_msg_len - 32] wraps around below 32, and the slice that ends there is
    out of range either way. *)
Definition parse_authenticated_message (xdr_message : Bytes)
  : res (AuthenticatedMessageV0 * MessageType) :=
  let xdr_msg_len := Z.of_nat (length xdr_message) in
  let! bytes := slice 0 4 xdr_message in
  let! msg_vers := decoded (u32_from_xdr bytes) (DecodeError "Message Version") in
  if negb (msg_vers =? 0) then Error (XDRConversionError UnsupportedMessageVersion)
  else
    let! bytes := slice 12 16 xdr_message in
    let! msg_type := decoded (message_type_from_xdr bytes) SdkError in
    let! bytes := slice 4 12 xdr_message in
    let! seq := decoded (u64_from_xdr bytes) (DecodeError "Sequence") in
    let! bytes := slice 12 (xdr_msg_len - 32) xdr_message in
    let! m := decoded (message_from_xdr bytes) SdkError in
    let! bytes := slice (xdr_msg_len - 32) xdr_msg_len xdr_message in
    let! h := decoded (hmac_from_xdr bytes) SdkError in
    Done (mkAuthenticated seq m h, msg_type).

(** ** message_reader.rs *)

Inductive Read := ReadOk (data : Bytes) (s : Stream) | ReadErr | ReadPending.

Definition read (n : nat) (s : Stream) : Read :=
  match n, s with
  | O, _ => ReadOk [] s
  | _, [] => ReadPending
  | _, Breaks :: _ => ReadErr
  | _, Arrives data :: s' =>
      ReadOk (take n data) (match drop n data with [] => s' | rest => Arrives rest :: s' end)
  end.

(** The buffer after [read] wrote into it. *)
Definition overwrite (buf data : Bytes) : Bytes := data ++ drop (length data) buf.

(** A message, an error, or nothing until the reader's timeout. *)
Inductive Received := Message (xdr : Bytes) (s : Stream) | Failure | TimedOut.

(** [is_reading_complete]: the message, or what is still missing of it. *)
Definition is_reading_complete (s : Stream) (xpect_msg_len : nat)
  : option (option (bool * nat * Bytes * Stream)) :=
  match read xpect_msg_len s with
  | ReadPending => None
  | ReadErr => Some None
  | ReadOk data s =>
      Some (Some ((length data =? xpect_msg_len)%nat, (xpect_msg_len - length data)%nat, data, s))
  end.

Definition is_reading_unfinished_message_complete (s : Stream) (lack_bytes_from_prev : nat)
    (readbuf : Bytes) : option (option (bool * nat * Bytes * Stream)) :=
  match read lack_bytes_from_prev s with
  | ReadPending => None
  | ReadErr => Some None
  | ReadOk data s =>
      Some (Some ((length data =? lack_bytes_from_prev)%nat, (lack_bytes_from_prev - length data)%nat,
                  readbuf ++ data, s))
  end.

(** The loop of [read_message_from_stellar].  Each round takes bytes or a
    segment off the stream, so [fuel] above their number is never used up. *)
Fixpoint read_loop (fuel : nat) (s : Stream) (lack_bytes_from_prev : nat) (readbuf buff_for_reading : Bytes)
  : Received :=
  match fuel with
  | O => TimedOut
  | S fuel =>
      match read 4 s with
      | ReadPending => TimedOut
      | ReadErr => Failure
      | ReadOk [] s => read_loop fuel s lack_bytes_from_prev readbuf buff_for_reading
      | ReadOk data s =>
          let buff_for_reading := overwrite buff_for_reading data in
          if (lack_bytes_from_prev =? 0)%nat then
            let expect_msg_len := Z.to_nat (get_xdr_message_length buff_for_reading) in
            if (expect_msg_len =? 0)%nat then
              read_loop fuel s lack_bytes_from_prev readbuf buff_for_reading
            else
              match is_reading_complete s expect_msg_len with
              | None => TimedOut
              | Some None => Failure
              | Some (Some (true, _, readbuf, s)) => Message readbuf s
              | Some (Some (false, lack, readbuf, s)) => read_loop fuel s lack readbuf buff_for_reading
              end
          else
            let lack_bytes_from_prev := (lack_bytes_from_prev - length data)%nat in
            let readbuf := readbuf ++ buff_for_reading in
            match is_reading_unfinished_message_complete s lack_bytes_from_prev readbuf with
            | None => TimedOut
            | Some None => Failure
            | Some (Some (true, _, readbuf, s)) => Message readbuf s
            | Some (Some (false, lack, readbuf, s)) => read_loop fuel s lack readbuf (replicate 4 0)
            end
      end
  end.

Definition weight (s : Stream) : nat :=
  sum_list_with (fun seg => match seg with Arrives data => S (length data) | Breaks => 1%nat end) s.

Definition read_message_from_stellar (s : Stream) : Received :=
  read_loop (S (weight s)) s 0 [] (replicate 4 0).

End frames.

(** ** Reading frames *)

Section reading.
Context `{OC : OverlayCodec}.

(** What is left of a segment. *)
Definition push (rest : Bytes) (s : Stream) : Stream :=
  match rest with [] => s | _ => Arrives rest :: s end.

Lemma read_take n a rest s :
  length a = n -> (0 < n)%nat -> read n (Arrives (a ++ rest) :: s) = ReadOk a (push rest s).
Proof.
  intros Ha Hn. unfold read. destruct n as [|n]; [lia|]. rewrite take_app_length' by done. rewrite drop_app_length' by done. by destruct rest.
Qed.

Lemma read_all n a s : (length a < n)%nat -> read n (Arrives a :: s) = ReadOk a s.
Proof. intros Hn. destruct n as [|n]; [lia|]. unfold read. rewrite take_ge, drop_ge by lia. done. Qed.

Lemma read_weight n s data s' :
  read n s = ReadOk data s' -> (0 < n)%nat -> (weight s' < weight s)%nat.
Proof.
  destruct n as [|n]; [lia|]. unfold read. destruct s as [|[l|] s]; [done| |done]. intros [= <- <-] _.
  pose proof (length_drop l (S n)) as Hd. destruct (drop (S n) l) as [|x r] eqn:E; unfold weight; simpl; [lia|].
  simpl in Hd. destruct l; simpl in *; lia.
Qed.

Lemma read_weight_le n s data s' : read n s = ReadOk data s' -> (weight s' <= weight s)%nat.
Proof.
  intros H. destruct n as [|n]; [by injection H as _ <-|]. apply Nat.lt_le_incl. eapply read_weight; [exact H|lia].
Qed.

(** More fuel than the weight of the stream changes nothing. *)
Lemma read_loop_fuel f1 f2 s lack readbuf buff :
  (weight s < f1)%nat -> (weight s < f2)%nat ->
  read_loop f1 s lack readbuf buff = read_loop f2 s lack readbuf buff.
Proof.
  revert f2 s lack readbuf buff. induction f1 as [|f1 IH]; intros f2 s lack readbuf buff H1 H2; [lia|].
  destruct f2 as [|f2]; [lia|]. cbn [read_loop]. destruct (read 4 s) as [data s1| |] eqn:E; [|done..].
  apply read_weight in E as Hw; [|lia].
  destruct data as [|x data]; [apply IH; lia|].
  destruct (lack =? 0)%nat.
  - destruct (_ =? 0)%nat; [apply IH; lia|]. unfold is_reading_complete.
    destruct (read _ s1) as [d s2| |] eqn:E2; [|done..]. apply read_weight_le in E2.
    destruct (_ =? _)%nat; [done|apply IH; lia].
  - unfold is_reading_unfinished_message_complete.
    destruct (read _ s1) as [d s2| |] eqn:E2; [|done..]. apply read_weight_le in E2.
    destruct (_ =? _)%nat; [done|apply IH; lia].
Qed.

Lemma overwrite_full buf data : length buf = length data -> overwrite buf data = data.
Proof. intros H. unfold overwrite. rewrite <- H, drop_all. apply app_nil_r. Qed.

(** A segment of at least five bytes that continues a message. *)
Lemma read_continued fuel p lst rest s lack acc buff :
  p = lst ++ rest -> (5 <= length lst <= lack)%nat -> length buff = 4%nat ->
  (rest = [] \/ length lst = lack) ->
  read_loop (S fuel) (Arrives p :: s) lack acc buff =
    if (length lst =? lack)%nat then Message (acc ++ lst) (push rest s)
    else read_loop fuel s (lack - length lst) (acc ++ lst) (replicate 4 0).
Proof.
  intros -> Hl Hb Hr. rewrite <- (take_drop 4 lst) at 1. rewrite <- (assoc (++)).
  assert (length (take 4 lst) = 4%nat) as H4 by (rewrite length_take; lia).
  assert (length (drop 4 lst) = (length lst - 4)%nat) as H5 by apply length_drop.
  cbn [read_loop]. rewrite (read_take 4) by (done || lia).
  assert (push (drop 4 lst ++ rest) s = Arrives (drop 4 lst ++ rest) :: s) as ->
    by (destruct (drop 4 lst) eqn:E; [simpl in H5; lia|done]).
  destruct (take 4 lst) as [|x d] eqn:Ed; [done|]. rewrite <- Ed in *.
  destruct (Nat.eqb_spec lack 0); [lia|]. rewrite overwrite_full by lia. rewrite H4.
  unfold is_reading_unfinished_message_complete.
  destruct (Nat.eqb_spec (length lst) lack) as [He|Hne].
  - rewrite read_take by lia. destruct (Nat.eqb_spec (length (drop 4 lst)) (lack - 4)); [|lia].
    by rewrite <- (assoc (++)), take_drop.
  - destruct Hr as [->|?]; [|lia]. rewrite app_nil_r, read_all by lia.
    destruct (Nat.eqb_spec (length (drop 4 lst)) (lack - 4)); [lia|].
    rewrite <- (assoc (++)), take_drop. f_equal. lia.
Qed.

Lemma read_rest ps lst rest s :
  Forall (fun p => 5 <= length p)%nat ps -> (5 <= length lst)%nat ->
  forall fuel acc buff, (length ps < fuel)%nat -> length buff = 4%nat ->
  read_loop fuel (map Arrives ps ++ Arrives (lst ++ rest) :: s) (length (concat ps ++ lst)) acc buff =
    Message (acc ++ concat ps ++ lst) (push rest s).
Proof.
  intros Hps Hl. induction Hps as [|p ps Hp Hps IH]; intros fuel acc buff Hf Hb; (destruct fuel as [|fuel]; [simpl in Hf; lia|]).
  - simpl map. simpl app. simpl concat. rewrite (read_continued _ _ lst rest) by (simpl; auto; lia).
    destruct (Nat.eqb_spec (length lst) (length lst)); [done|lia].
  - simpl map. simpl app. rewrite !length_app in *. simpl in Hf.
    rewrite (read_continued _ _ p []) by (rewrite ?app_nil_r; auto; simpl; rewrite ?length_app; lia).
    destruct (Nat.eqb_spec (length p) (length p + length (concat ps) + length lst)); [lia|].
    replace (length p + length (concat ps) + length lst - length p)%nat with (length (concat ps) + length lst)%nat by lia.
    rewrite IH by (try done; lia). simpl concat. by rewrite <- !(assoc (++)).
Qed.

(** The segments of a frame: the first has the header, the last may go on. *)
Definition segments (header p0 : Bytes) (ps : list Bytes) (lst rest : Bytes) (s : Stream) : Stream :=
  Arrives (header ++ p0) :: map Arrives ps ++ Arrives (lst ++ rest) :: s.

Lemma read_header fuel header p s acc buff :
  length header = 4%nat -> length buff = 4%nat -> 0 < get_xdr_message_length header ->
  read_loop (S fuel) (Arrives (header ++ p) :: s) 0 acc buff =
    match is_reading_complete (push p s) (Z.to_nat (get_xdr_message_length header)) with
    | None => TimedOut
    | Some None => Failure
    | Some (Some (true, _, readbuf, s)) => Message readbuf s
    | Some (Some (false, lack, readbuf, s)) => read_loop fuel s lack readbuf header
    end.
Proof.
  intros Hh Hb Hl. cbn [read_loop]. rewrite (read_take 4) by (done || lia). destruct header as [|x h]; [done|].
  rewrite overwrite_full by lia. simpl (0 =? 0)%nat. cbv iota.
  destruct (Nat.eqb_spec (Z.to_nat (get_xdr_message_length (x :: h))) 0); [lia|done].
Qed.

(** A whole frame in one segment. *)
Lemma read_whole header body rest s :
  length header = 4%nat -> (0 < length body)%nat ->
  get_xdr_message_length header = Z.of_nat (length body) ->
  read_message_from_stellar (Arrives (header ++ body ++ rest) :: s) = Message body (push rest s).
Proof.
  intros Hh Hb Hl. unfold read_message_from_stellar. rewrite read_header by (done || lia).
  assert (push (body ++ rest) s = Arrives (body ++ rest) :: s) as -> by (destruct body; [simpl in Hb; lia|done]).
  unfold is_reading_complete. rewrite Hl, Nat2Z.id, read_take by done.
  by destruct (Nat.eqb_spec (length body) (length body)).
Qed.

Lemma weight_cons seg s : weight (seg :: s) = (weight [seg] + weight s)%nat.
Proof. unfold weight. simpl. lia. Qed.

Lemma weight_map ps : (length ps <= weight (map Arrives ps))%nat.
Proof. induction ps as [|p ps IH]; [done|]. simpl map. rewrite weight_cons. unfold weight at 1. simpl. lia. Qed.

Lemma weight_app s1 s2 : weight (s1 ++ s2) = (weight s1 + weight s2)%nat.
Proof. induction s1 as [|x s1 IH]; [done|]. simpl app. rewrite (weight_cons x (s1 ++ s2)), (weight_cons x s1). lia. Qed.

Lemma read_segmented header p0 ps lst rest s :
  length header = 4%nat -> p0 <> [] -> Forall (fun p => 5 <= length p)%nat ps -> (5 <= length lst)%nat ->
  get_xdr_message_length header = Z.of_nat (length (p0 ++ concat ps ++ lst)) ->
  read_message_from_stellar (segments header p0 ps lst rest s) =
    Message (p0 ++ concat ps ++ lst) (push rest s).
Proof.
  intros Hh H0 Hps Hlst Hl. unfold read_message_from_stellar, segments. rewrite length_app in Hl.
  rewrite read_header; [|done|done|rewrite Hl, length_app; lia].
  set (s1 := map Arrives ps ++ Arrives (lst ++ rest) :: s).
  assert (push p0 s1 = Arrives p0 :: s1) as -> by (by destruct p0).
  unfold is_reading_complete. rewrite Hl, Nat2Z.id, read_all by (rewrite length_app; lia).
  destruct (Nat.eqb_spec (length p0) (length p0 + length (concat ps ++ lst))) as [He|_]; [rewrite length_app in He; lia|].
  replace (length p0 + length (concat ps ++ lst) - length p0)%nat with (length (concat ps ++ lst)) by lia.
  apply read_rest; try done. subst s1. rewrite weight_cons, weight_app, (weight_cons (Arrives (lst ++ rest))).
  pose proof (weight_map ps). unfold weight at 3. simpl. lia.
Qed.

End reading.

(** ** Decoding *)

Lemma slice_mid (a b : Z) x y z :
  Z.of_nat (length x) = a -> Z.of_nat (length y) = b - a -> slice a b (x ++ y ++ z) = Done y.
Proof.
  intros Ha Hb. unfold slice. rewrite !length_app.
  rewrite (proj2 (Z.leb_le 0 a)), (proj2 (Z.leb_le a b)), (proj2 (Z.leb_le b _)) by lia. simpl.
  by rewrite drop_app_length', take_app_length' by lia.
Qed.

Section decoding.
Context `{OC : OverlayCodec} {L : OverlayCodecLaws OC}.

Lemma parse_encoded a :
  0 <= sequence a < 2 ^ 64 -> length (mac a) = 32%nat ->
  parse_authenticated_message (authenticated_to_xdr a) = Done (a, message_type (message a)).
Proof.
  intros Hs Hm. rewrite authenticated_encodes. destruct a as [seq m h]. cbn [sequence message mac] in *.
  pose proof (message_has_type m) as H4. set (mx := message_to_xdr m) in *.
  set (v := to_be_bytes 4 0). set (q := to_be_bytes 8 seq).
  assert (length v = 4%nat /\ length q = 8%nat) as [Hv Hq] by (split; apply to_be_bytes_length).
  unfold parse_authenticated_message. rewrite !length_app, Hv, Hq, Hm.
  assert (slice 0 4 (v ++ q ++ mx ++ h) = Done v) as -> by (apply (slice_mid 0 4 [] v); simpl; lia). cbn [rbind].
  unfold v at 1. rewrite u32_decodes by lia. cbn [rbind decoded]. simpl (negb _). cbv iota.
  assert (slice 12 16 (v ++ q ++ mx ++ h) = Done (take 4 mx)) as ->.
  { rewrite <- (take_drop 4 mx) at 1. rewrite <- (assoc (++)), (assoc (++)). apply slice_mid; rewrite ?length_app, ?length_take; lia. }
  cbn [rbind]. unfold mx at 1. rewrite message_type_first. cbn [rbind decoded].
  rewrite (slice_mid 4 12 v q (mx ++ h)) by lia. cbn [rbind]. unfold q at 1. rewrite u64_decodes by lia. cbn [rbind decoded].
  assert (slice 12 (Z.of_nat (4 + (8 + (length mx + 32))) - 32) (v ++ q ++ mx ++ h) = Done mx) as ->.
  { rewrite (assoc (++) v q). apply slice_mid; rewrite ?length_app; lia. }
  cbn [rbind]. unfold mx at 1. rewrite message_roundtrip. cbn [rbind decoded].
  assert (slice (Z.of_nat (4 + (8 + (length mx + 32))) - 32) (Z.of_nat (4 + (8 + (length mx + 32)))) (v ++ q ++ mx ++ h) = Done h) as ->.
  { rewrite (assoc (++) v q), (assoc (++) (v ++ q) mx). rewrite <- (app_nil_r h) at 1. apply slice_mid; rewrite ?length_app; simpl; lia. }
  cbn [rbind]. by rewrite hmac_decodes.
Qed.

Lemma parse_short data :
  (length data < 4)%nat \/ u32_from_xdr (take 4 data) = Some 0 /\ (length data < 16)%nat ->
  parse_authenticated_message data = Crash.
Proof.
  intros H. unfold parse_authenticated_message, slice at 1.
  destruct (Z.leb_spec 4 (Z.of_nat (length data))); [|done]. destruct H as [H|[Hz H]]; [lia|]. simpl.
  change (take (Z.to_nat (4 - 0)) (drop (Z.to_nat 0) data)) with (take 4 data). rewrite Hz. simpl. unfold slice.
  by destruct (Z.leb_spec 16 (Z.of_nat (length data))); [lia|].
Qed.

End decoding.

Lemma header_length n : 0 <= n < 2 ^ 31 -> get_xdr_message_length (to_be_bytes 4 n) = n.
Proof.
  intros Hn. pose proof (from_to_be_bytes 4 n ltac:(change (256 ^ Z.of_nat 4) with (2 ^ 32); lia)) as Hf.
  simpl in *. unfold from_be_bytes in *. simpl in *.
  assert (Z.land ((n / 256 / 256 / 256) mod 256) 127 = (n / 256 / 256 / 256) mod 256) as ->; [|done].
  change 127 with (Z.ones 7). rewrite Z.land_ones by lia. rewrite !Z.div_div by lia.
  rewrite (Z.mod_small (n / _) 256); [apply Z.mod_small|]; (split; [apply Z.div_pos; lia|apply Z.div_lt_upper_bound; lia]).
Qed.

(** ** Properties *)

Section properties.


(** A segment boundary one to three bytes before the end of a frame
    desynchronizes the reader: the message it returns has bytes of the next
    frame at its end, and the next frame has lost its first bytes. *)
Theorem short_tail_desynchronizes header p0 tail next rest s :
  length header = 4%nat -> p0 <> [] -> (1 <= length tail <= 3)%nat ->
  get_xdr_message_length header = Z.of_nat (length (p0 ++ tail)) ->
  length (tail ++ next) = 4%nat ->
  read_message_from_stellar (segments header p0 [] tail (next ++ rest) s) =
    Message (p0 ++ tail ++ next) (push rest s).
Proof.
  intros Hh H0 Ht Hl Hn. unfold read_message_from_stellar, segments. rewrite length_app in *.
  rewrite read_header by (done || lia). simpl app.
  assert (push p0 (Arrives (tail ++ next ++ rest) :: s) = Arrives p0 :: Arrives (tail ++ next ++ rest) :: s) as -> by (by destruct p0).
  unfold is_reading_complete. rewrite Hl, Nat2Z.id, read_all by lia.
  destruct (Nat.eqb_spec (length p0) (length p0 + length tail)); [lia|].
  replace (length p0 + length tail - length p0)%nat with (length tail) by lia.
  assert (weight (Arrives (header ++ p0) :: Arrives (tail ++ next ++ rest) :: s) <> 0)%nat as Hw by (rewrite weight_cons; unfold weight; simpl; lia).
  destruct (weight _) as [|w]; [done|]. cbn [read_loop]. rewrite (assoc (++) tail), (read_take 4) by (rewrite ?length_app; lia).
  rewrite overwrite_full by (rewrite length_app; lia). rewrite length_app, Hn.
  destruct (tail ++ next) eqn:E; [by apply (f_equal length) in E; rewrite length_app in E; simpl in E; lia|].
  destruct (Nat.eqb_spec (length tail) 0); [lia|]. replace (length tail - 4)%nat with 0%nat by lia.
  unfold is_reading_unfinished_message_complete. simpl. by rewrite app_nil_r.
Qed.

(** A frame of fewer than sixteen bytes makes the reader's task panic: the
    slices of the header are taken without looking at the length. *)
Theorem short_frame_crashes `{OC : OverlayCodec} body rest s :
  (0 < length body)%nat ->
  (length body < 4)%nat \/ u32_from_xdr (take 4 body) = Some 0 /\ (length body < 16)%nat ->
  exists xdr, read_message_from_stellar (Arrives (to_be_bytes 4 (Z.of_nat (length body)) ++ body ++ rest) :: s) =
      Message xdr (push rest s) /\ parse_authenticated_message xdr = Crash.
Proof.
  intros Hb H. exists body. split; [|by apply parse_short].
  apply read_whole; [apply to_be_bytes_length|done|]. apply header_length. destruct H as [|[_ ?]]; lia.
Qed.

End properties.

(** ** Witnesses *)

Section witnesses.

#[local] Instance AuthCert_eq_dec : EqDecision AuthCert.
Proof. solve_decision. Defined.
#[local] Instance HelloMessage_eq_dec : EqDecision HelloMessage.
Proof. solve_decision. Defined.
#[local] Instance StellarMessage_eq_dec : EqDecision StellarMessage.
Proof. solve_decision. Defined.

Definition toy_fields (m : StellarMessage) : list (list Z) :=
  match m with
  | ErrorMsg c t => [[0; match c with ErrMisc => 0 | ErrData => 1 | ErrConf => 2 | ErrAuth => 3 | ErrLoad => 4 end]; t]
  | Hello h =>
      [[1; hello_ledger_version h; hello_overlay_version h; hello_overlay_min_version h; listening_port h;
        expiration (cert h)];
       hello_network_id h; hello_version_str h; into_binary (peer_id h); cert_pubkey (cert h); sig (cert h); hello_nonce h]
  | Auth f => [[2; f]]
  | SendMore n => [[3; n]]
  | SendMoreExtended n b => [[4; n; b]]
  | Transaction c => [[5]; c]
  | FloodAdvert c => [[6]; c]
  | FloodDemand c => [[7]; c]
  | ScpMessage c => [[8]; c]
  | OtherMessage t c => [[9; t]; c]
  end.

Definition toy_of_fields (l : list (list Z)) : option StellarMessage :=
  match l with
  | [[0; c]; t] => Some (ErrorMsg (match c with 0 => ErrMisc | 1 => ErrData | 2 => ErrConf | 3 => ErrAuth | _ => ErrLoad end) t)
  | [[1; a; b; c; f; x]; d; e; g; k; y; n] =>
      Some (Hello (mkHello a b c d e f (PublicKeyTypeEd25519 g) (mkAuthCert k x y) n))
  | [[2; f]] => Some (Auth f)
  | [[3; n]] => Some (SendMore n)
  | [[4; n; b]] => Some (SendMoreExtended n b)
  | [[5]; c] => Some (Transaction c)
  | [[6]; c] => Some (FloodAdvert c)
  | [[7]; c] => Some (FloodDemand c)
  | [[8]; c] => Some (ScpMessage c)
  | [[9; t]; c] => Some (OtherMessage t c)
  | _ => None
  end.

#[local] Instance StellarMessage_countable : Countable StellarMessage.
Proof.
  refine (inj_countable toy_fields toy_of_fields _).
  intros [[] ?|[? ? ? ? ? ? [?] [? ? ?] ?]| | | | | | | |]; reflexivity.
Defined.

(** A codec that satisfies the laws: four digits for a message, the number of
    the message being the last. *)
Definition toy_message_from (l : Bytes) : option StellarMessage :=
  match l with [0; 0; 0; Zpos p] => decode p | _ => None end.

#[export] Instance ToyCodec : OverlayCodec := {|
  message_to_xdr m := [0; 0; 0; Zpos (encode m)];
  message_from_xdr := toy_message_from;
  message_type_from_xdr l := option_map message_type (toy_message_from l);
  hmac_from_xdr l := if (length l =? 32)%nat then Some l else None;
  u32_from_xdr l := if (length l =? 4)%nat then Some (from_be_bytes l) else None;
  u64_from_xdr l := if (length l =? 8)%nat then Some (from_be_bytes l) else None;
  authenticated_to_xdr a :=
    to_be_bytes 4 0 ++ to_be_bytes 8 (sequence a) ++ [0; 0; 0; Zpos (encode (message a))] ++ mac a;
|}.

#[export] Instance ToyCodec_laws : OverlayCodecLaws ToyCodec.
Proof.
  split.
  - intros m. apply (decode_encode m).
  - intros m. change (option_map message_type (decode (encode m)) = Some (message_type m)). by rewrite decode_encode.
  - done.
  - intros l Hl. simpl. by rewrite Hl.
  - intros x Hx. change ((if (length (to_be_bytes 4 x) =? 4)%nat then Some (from_be_bytes (to_be_bytes 4 x)) else None) = Some x).
    rewrite to_be_bytes_length, from_to_be_bytes; [done|]. change (256 ^ Z.of_nat 4) with (2 ^ 32). lia.
  - intros x Hx. change ((if (length (to_be_bytes 8 x) =? 8)%nat then Some (from_be_bytes (to_be_bytes 8 x)) else None) = Some x).
    rewrite to_be_bytes_length, from_to_be_bytes; [done|]. change (256 ^ Z.of_nat 8) with (2 ^ 64). lia.
  - done.
  - by intros [].
Qed.

Definition toy_message : AuthenticatedMessageV0 := mkAuthenticated 7 (SendMore 40) (replicate 32 9).


(** A message of six bytes of which the last arrives with the next frame. *)
Lemma short_tail_desynchronizes_witness :
  read_message_from_stellar (segments [0; 0; 0; 6] [1; 2; 3; 4; 5] [] [6] ([0; 0; 0] ++ [48; 0; 0]) []) =
    Message ([1; 2; 3; 4; 5] ++ [6] ++ [0; 0; 0]) [Arrives [48; 0; 0]].
Proof.
  apply (short_tail_desynchronizes [0; 0; 0; 6] [1; 2; 3; 4; 5] [6] [0; 0; 0] [48; 0; 0] []);
    [reflexivity|discriminate|simpl; lia|reflexivity|reflexivity].
Defined.

Lemma short_frame_crashes_witness :
  exists xdr, read_message_from_stellar (Arrives (to_be_bytes 4 2 ++ [1; 2] ++ []) :: []) =
      Message xdr [] /\ parse_authenticated_message xdr = Crash.
Proof. apply (short_frame_crashes (OC := ToyCodec) [1; 2] [] []); simpl; lia. Defined.

End witnesses.
