(* ===== verification/OverlayConnector.v ===== *)
(** * The connection to a Stellar node

    [src/clients/stellar-relay-lib/src/connection]: certificates and keys
    ([authentication], [hmac.rs]), the handshake ([handshake.rs]), flow control
    ([flow_controller.rs]) and the connector that authenticates, checks and
    answers messages ([connector]).

    Cryptography is the class [OverlayCrypto].  The random secret and nonce and
    the time are arguments; what is written to the socket is kept in [written],
    and [broken] is the error of every write once the socket has failed. *)

From S2P Require Import Prelude Primitives OverlayFrames.

Class OverlayCrypto := {
  (** [None] when the key is not accepted *)
  hmac_sha256 : Bytes -> Bytes -> option Bytes;
  hmac_verify : Bytes -> Bytes -> Bytes -> option bool;
  sha256 : Bytes -> Bytes;
  scalarmult_base : Bytes -> Bytes;
  scalarmult : Bytes -> Bytes -> Bytes;
  SecretKey : Type;
  get_public : SecretKey -> PublicKey;
  create_signature : SecretKey -> Bytes -> Bytes;
  verify_signature : PublicKey -> Bytes -> Bytes -> bool;
  envelope_type_auth_xdr : Bytes;
  u64_to_xdr : Z -> Bytes;
}.

Class OverlayCryptoLaws (CR : OverlayCrypto) : Prop := {
  hmac_accepts key data : length key = 32%nat -> exists m, hmac_sha256 key data = Some m /\ length m = 32%nat;
  hmac_compares key data m :
    hmac_verify key data m = option_map (fun m' => bool_decide (m' = m)) (hmac_sha256 key data);
  scalarmult_agrees a b : scalarmult a (scalarmult_base b) = scalarmult b (scalarmult_base a);
  signature_length k data : length (create_signature k data) = 64%nat;
  signature_verifies k data : verify_signature (get_public k) data (create_signature k data) = true;
}.

(** ** Nodes *)

Record NodeInfo := mkNodeInfo {
  ledger_version : Z;
  overlay_version : Z;
  overlay_min_version : Z;
  version_str : Bytes;
  network_id : Bytes;
}.

Record LocalInfo := mkLocalInfo {
  local_sequence : Z;
  local_nonce : Bytes;
  local_node : NodeInfo;
  local_port : Z;
}.

Record RemoteInfo := mkRemoteInfo {
  remote_sequence : Z;
  remote_pub_key_ecdh : Bytes;
  remote_pub_key : PublicKey;
  remote_nonce : Bytes;
  remote_node : NodeInfo;
}.

Definition remote_info_new (hello : HelloMessage) : RemoteInfo :=
  mkRemoteInfo 0 (cert_pubkey (cert hello)) (peer_id hello) (hello_nonce hello)
    (mkNodeInfo (hello_ledger_version hello) (hello_overlay_version hello)
       (hello_overlay_min_version hello) (hello_version_str hello) (hello_network_id hello)).

(** [sequence += 1] on a [u64] *)
Definition next_sequence (x : Z) : Z := (x + 1) mod 2 ^ 64.

(** ** Flow control *)

Definition PER_FLOOD_READING_CAPACITY : Z := 200.
Definition FLOW_CONTROL_SEND_MORE_BATCH_SIZE : Z := 40.
Definition PER_FLOOD_READING_CAPACITY_BYTES : Z := 300000.
Definition FLOW_CONTROL_SEND_MORE_BATCH_SIZE_BYTES : Z := 100000.

Record FlowController := mkFlowController {
  flow_control_bytes_enabled : bool;
  messages_received_in_current_batch : Z;
  bytes_received_in_current_batch : Z;
}.

Definition flow_controller_default : FlowController := mkFlowController false 0 0.

Definition enable_bytes (local_overlay_version remote_overlay_version : Z) (f : FlowController)
  : FlowController :=
  mkFlowController ((28 <=? remote_overlay_version) && (28 <=? local_overlay_version))
    (messages_received_in_current_batch f) (bytes_received_in_current_batch f).

Definition flow_start (local_overlay_version remote_overlay_version : Z) (f : FlowController)
  : StellarMessage * FlowController :=
  let f := enable_bytes local_overlay_version remote_overlay_version f in
  (if flow_control_bytes_enabled f
   then SendMoreExtended PER_FLOOD_READING_CAPACITY PER_FLOOD_READING_CAPACITY_BYTES
   else SendMore PER_FLOOD_READING_CAPACITY, f).

Definition reset_batch_counters (f : FlowController) : FlowController :=
  mkFlowController (flow_control_bytes_enabled f) 0 0.

Definition is_flood_message (t : MessageType) : bool :=
  match t with
  | TypeTransaction | TypeScpMessage | TypeFloodAdvert | TypeFloodDemand => true
  | _ => false
  end.

(** Counters are [u32] and wrap around; a length beyond [u32] panics. *)
Definition create_reclaim_capacity_message (t : MessageType) (data_len : Z) (f : FlowController)
  : res (option StellarMessage * FlowController) :=
  if u32_max <? data_len then Crash
  else
    let actual_message_size := (data_len - 32 - 12) mod 2 ^ 32 in
    let f :=
      if is_flood_message t then
        mkFlowController (flow_control_bytes_enabled f)
          ((messages_received_in_current_batch f + 1) mod 2 ^ 32)
          ((bytes_received_in_current_batch f + actual_message_size) mod 2 ^ 32)
      else f in
    let should_send_more :=
      (messages_received_in_current_batch f =? FLOW_CONTROL_SEND_MORE_BATCH_SIZE) ||
      (flow_control_bytes_enabled f &&
       (FLOW_CONTROL_SEND_MORE_BATCH_SIZE_BYTES <=? bytes_received_in_current_batch f)) in
    if should_send_more then
      if flow_control_bytes_enabled f then
        Done (Some (SendMoreExtended (messages_received_in_current_batch f)
                      (bytes_received_in_current_batch f)), reset_batch_counters f)
      else Done (Some (SendMore (messages_received_in_current_batch f)), reset_batch_counters f)
    else Done (None, f).

Section connection.
Context `{OC : OverlayCodec} `{CR : OverlayCrypto}.

(** ** Message authentication: [hmac.rs] *)

Record HMacKeys := mkHMacKeys { sending : Bytes; receiving : Bytes }.

Definition create_sha256_hmac (data_buffer mac_key_buffer : Bytes) : option Bytes :=
  match hmac_sha256 mac_key_buffer data_buffer with
  | Some hmac_vec => if (length hmac_vec =? 32)%nat then Some hmac_vec else None
  | None => None
  end.

Definition empty_mac : Bytes := replicate 32 0.

Definition create_sending_mac_key (shared_key local_nonce remote_nonce : Bytes)
    (we_called_remote : bool) : Bytes :=
  let buf := [if we_called_remote then 0 else 1] ++ local_nonce ++ remote_nonce ++ [1] in
  default empty_mac (create_sha256_hmac buf shared_key).

Definition create_receiving_mac_key (shared_key local_nonce remote_nonce : Bytes)
    (we_called_remote : bool) : Bytes :=
  let buf := [if we_called_remote then 1 else 0] ++ remote_nonce ++ local_nonce ++ [1] in
  default empty_mac (create_sha256_hmac buf shared_key).

Definition hmac_keys_new (shared_key local_nonce remote_nonce : Bytes) (remote_called_us : bool)
  : HMacKeys :=
  mkHMacKeys (create_sending_mac_key shared_key local_nonce remote_nonce (negb remote_called_us))
    (create_receiving_mac_key shared_key local_nonce remote_nonce (negb remote_called_us)).

Definition verify_hmac (data_buffer mac_key_buffer m : Bytes) : res unit :=
  match hmac_verify mac_key_buffer data_buffer m with
  | None => Error HmacInvalidLength
  | Some true => Done tt
  | Some false => Error HmacError
  end.

(** ** Keys and certificates: [authentication] *)

Definition AUTH_CERT_EXPIRATION_LIMIT : Z := 360000.

Record ConnectionAuth := mkConnectionAuth {
  keypair : SecretKey;
  secret_key_ecdh : Bytes;
  pub_key_ecdh : Bytes;
  network_hash : Bytes;
  we_called_remote_shared_keys : gmap Bytes Bytes;
  remote_called_us_shared_keys : gmap Bytes Bytes;
  saved_auth_cert : option AuthCert;
  auth_cert_expiration : Z;
}.

Definition connection_auth_new (network : Bytes) (k : SecretKey) (cert_expiration : Z)
    (random_secret : Bytes) : ConnectionAuth :=
  mkConnectionAuth k random_secret (scalarmult_base random_secret) network ∅ ∅ None cert_expiration.

Definition shared_key (a : ConnectionAuth) (remote_key : Bytes) (we_called_remote : bool) : option Bytes :=
  (if we_called_remote then we_called_remote_shared_keys a else remote_called_us_shared_keys a) !! remote_key.

Definition set_shared_key (a : ConnectionAuth) (remote_key key : Bytes) (we_called_remote : bool)
  : ConnectionAuth :=
  if we_called_remote then
    mkConnectionAuth (keypair a) (secret_key_ecdh a) (pub_key_ecdh a) (network_hash a)
      (<[remote_key := key]> (we_called_remote_shared_keys a)) (remote_called_us_shared_keys a)
      (saved_auth_cert a) (auth_cert_expiration a)
  else
    mkConnectionAuth (keypair a) (secret_key_ecdh a) (pub_key_ecdh a) (network_hash a)
      (we_called_remote_shared_keys a) (<[remote_key := key]> (remote_called_us_shared_keys a))
      (saved_auth_cert a) (auth_cert_expiration a).

Definition gen_shared_key (remote_key secret own_key : Bytes) (we_called_remote : bool) : Bytes :=
  let buffer := scalarmult secret remote_key in
  let final_buffer :=
    buffer ++ (if we_called_remote then own_key ++ remote_key else remote_key ++ own_key) in
  default empty_mac (create_sha256_hmac final_buffer empty_mac).

Definition auth_cert (a : ConnectionAuth) (valid_at : Z) : res AuthCert :=
  match saved_auth_cert a with
  | None => Error AuthCertNotFound
  | Some c =>
      if auth_cert_expiration a <? (valid_at + AUTH_CERT_EXPIRATION_LIMIT / 2) mod 2 ^ 64
      then Error AuthCertExpired else Done c
  end.

Definition set_auth_cert (c : AuthCert) (a : ConnectionAuth) : ConnectionAuth :=
  mkConnectionAuth (keypair a) (secret_key_ecdh a) (pub_key_ecdh a) (network_hash a)
    (we_called_remote_shared_keys a) (remote_called_us_shared_keys a) (Some c) (expiration c).

(** What a certificate signs; [network] is the encoded network id. *)
Definition cert_data (network : Bytes) (exp : Z) (key : Bytes) : Bytes :=
  sha256 (network ++ envelope_type_auth_xdr ++ u64_to_xdr exp ++ key).

(** [Signature::new] takes at most 64 bytes. *)
Definition create_auth_cert (network : Bytes) (k : SecretKey) (valid_at : Z) (key : Bytes) : res AuthCert :=
  let exp := (valid_at + AUTH_CERT_EXPIRATION_LIMIT) mod 2 ^ 64 in
  let signature := create_signature k (cert_data network exp key) in
  if (length signature <=? 64)%nat then Done (mkAuthCert key exp signature) else Error AuthSignatureFailed.

Definition verify_remote_auth_cert (time_in_millisecs : Z) (remote_key : PublicKey) (c : AuthCert)
    (network : Bytes) : bool :=
  if expiration c <=? time_in_millisecs / 1000 then false
  else
    let raw_data := cert_data network (expiration c) (cert_pubkey c) in
    if (length (sig c) =? 64)%nat then verify_signature remote_key raw_data (sig c) else false.

(** ** The connector *)

Inductive HandshakeState := Connecting | GotHello | Completed.

Record Connector := mkConnector {
  local : LocalInfo;
  remote_info : option RemoteInfo;
  hmac_keys : option HMacKeys;
  connection_auth : ConnectionAuth;
  remote_called_us : bool;
  receive_tx_messages : bool;
  receive_scp_messages : bool;
  handshake_state : HandshakeState;
  flow_controller : FlowController;
  written : list Bytes;
  broken : option OverlayError;
}.

Definition set_local (l : LocalInfo) (c : Connector) : Connector :=
  mkConnector l (remote_info c) (hmac_keys c) (connection_auth c) (remote_called_us c)
    (receive_tx_messages c) (receive_scp_messages c) (handshake_state c) (flow_controller c)
    (written c) (broken c).
Definition set_remote (r : RemoteInfo) (c : Connector) : Connector :=
  mkConnector (local c) (Some r) (hmac_keys c) (connection_auth c) (remote_called_us c)
    (receive_tx_messages c) (receive_scp_messages c) (handshake_state c) (flow_controller c)
    (written c) (broken c).
Definition set_hmac_keys (k : HMacKeys) (c : Connector) : Connector :=
  mkConnector (local c) (remote_info c) (Some k) (connection_auth c) (remote_called_us c)
    (receive_tx_messages c) (receive_scp_messages c) (handshake_state c) (flow_controller c)
    (written c) (broken c).
Definition set_connection_auth (a : ConnectionAuth) (c : Connector) : Connector :=
  mkConnector (local c) (remote_info c) (hmac_keys c) a (remote_called_us c)
    (receive_tx_messages c) (receive_scp_messages c) (handshake_state c) (flow_controller c)
    (written c) (broken c).
Definition set_handshake_state (h : HandshakeState) (c : Connector) : Connector :=
  mkConnector (local c) (remote_info c) (hmac_keys c) (connection_auth c) (remote_called_us c)
    (receive_tx_messages c) (receive_scp_messages c) h (flow_controller c) (written c) (broken c).
Definition set_flow_controller (f : FlowController) (c : Connector) : Connector :=
  mkConnector (local c) (remote_info c) (hmac_keys c) (connection_auth c) (remote_called_us c)
    (receive_tx_messages c) (receive_scp_messages c) (handshake_state c) f (written c) (broken c).
Definition set_written (w : list Bytes) (c : Connector) : Connector :=
  mkConnector (local c) (remote_info c) (hmac_keys c) (connection_auth c) (remote_called_us c)
    (receive_tx_messages c) (receive_scp_messages c) (handshake_state c) (flow_controller c)
    w (broken c).

Definition C (A : Type) : Type := Connector -> res A * Connector.

Definition cret {A} (a : A) : C A := fun c => (Done a, c).
Definition craise {A} (e : OverlayError) : C A := fun c => (Error e, c).
Definition clift {A} (r : res A) : C A := fun c => (r, c).
Definition cget {A} (f : Connector -> A) : C A := fun c => (Done (f c), c).
Definition cput (f : Connector -> Connector) : C unit := fun c => (Done tt, f c).
Definition cbind {A B} (m : C A) (k : A -> C B) : C B := fun c =>
  match m c with
  | (Done a, c) => k a c
  | (Error e, c) => (Error e, c)
  | (Crash, c) => (Crash, c)
  end.

Notation "'let~' x ':=' m 'in' k" := (cbind m (fun x => k))
  (at level 10, x pattern, m at level 100, k at level 200) : overlay_scope.
Notation "m ';~' k" := (cbind m (fun _ => k))
  (at level 100, k at level 200, right associativity) : overlay_scope.

Definition is_handshake_created (c : Connector) : bool :=
  match handshake_state c with Connecting => false | _ => true end.

Definition increment_local_sequence : C unit :=
  cput (fun c => set_local (mkLocalInfo (next_sequence (local_sequence (local c))) (local_nonce (local c))
                              (local_node (local c)) (local_port (local c))) c).

Definition increment_remote_sequence : C unit := fun c =>
  match remote_info c with
  | Some r => (Done tt, set_remote (mkRemoteInfo (next_sequence (remote_sequence r)) (remote_pub_key_ecdh r)
                                      (remote_pub_key r) (remote_nonce r) (remote_node r)) c)
  | None => (Error NoRemoteInfo, c)
  end.

Definition verify_auth (auth_msg : AuthenticatedMessageV0) (body : Bytes) : C unit := fun c =>
  match remote_info c with
  | None => (Error NoRemoteInfo, c)
  | Some r =>
      if negb (remote_sequence r =? sequence auth_msg) then (Error InvalidSequenceNumber, c)
      else
        match hmac_keys c with
        | None => (Error MissingHmacKeys, c)
        | Some keys => (verify_hmac body (receiving keys) (mac auth_msg), c)
        end
  end.

Definition get_shared_key (remote_key : Bytes) : C Bytes := fun c =>
  let a := connection_auth c in
  let we_called_remote := negb (remote_called_us c) in
  match shared_key a remote_key we_called_remote with
  | Some k => (Done k, c)
  | None =>
      let new_shared_key := gen_shared_key remote_key (secret_key_ecdh a) (pub_key_ecdh a) we_called_remote in
      (Done new_shared_key, set_connection_auth (set_shared_key a remote_key new_shared_key we_called_remote) c)
  end.

(** ** message_creation.rs *)

Definition mac_for_auth_message (m : StellarMessage) (c : Connector) : Bytes :=
  match remote_info c, hmac_keys c with
  | Some _, Some keys =>
      let buffer := to_be_bytes 8 (local_sequence (local c)) ++ message_to_xdr m in
      default empty_mac (create_sha256_hmac buffer (sending keys))
  | _, _ => empty_mac
  end.

Definition authenticate_message (m : StellarMessage) : C AuthenticatedMessageV0 :=
  let~ h := cget (mac_for_auth_message m) in
  let~ seq := cget (fun c => local_sequence (local c)) in
  match m with ErrorMsg _ _ | Hello _ => cret tt | _ => increment_local_sequence end ;~
  cret (mkAuthenticated seq m h).

Definition create_xdr_message (m : StellarMessage) : C Bytes :=
  let~ auth_msg := authenticate_message m in
  clift (from_authenticated_message auth_msg).

Definition create_hello_message (id : PublicKey) (nonce : Bytes) (c : AuthCert) (port : Z) (node : NodeInfo)
  : res StellarMessage :=
  if (length (version_str node) <=? 100)%nat then
    Done (Hello (mkHello (ledger_version node) (overlay_version node) (overlay_min_version node)
                   (network_id node) (version_str node) (if port <? 2 ^ 31 then port else 11625) id c nonce))
  else Error VersionStrTooLong.

Definition create_hello (valid_at : Z) : C StellarMessage := fun c =>
  let a := connection_auth c in
  let with_cert crt c :=
    (create_hello_message (get_public (keypair a)) (local_nonce (local c)) crt (local_port (local c))
       (local_node (local c)), c) in
  match auth_cert a valid_at with
  | Done crt => with_cert crt c
  | _ =>
      match create_auth_cert (network_hash a) (keypair a) valid_at (pub_key_ecdh a) with
      | Done crt => with_cert crt (set_connection_auth (set_auth_cert crt a) c)
      | Error e => (Error e, c)
      | Crash => (Crash, c)
      end
  end.

(** ** message_sender.rs *)

Definition write_all (xdr_msg : Bytes) : C unit := fun c =>
  match broken c with
  | Some e => (Error e, c)
  | None => (Done tt, set_written (written c ++ [xdr_msg]) c)
  end.

Definition send_to_node (m : StellarMessage) : C unit :=
  let~ xdr_msg := create_xdr_message m in
  write_all xdr_msg.

Definition send_hello_message (time_now : Z) : C unit :=
  let~ m := create_hello time_now in
  send_to_node m.

Definition AUTH_FLAG_BYTES_CONTROL : Z := 200.
Definition AUTH_FLAG_CONTROL : Z := 100.

Definition create_auth_message (local_overlay_version : Z) : StellarMessage :=
  Auth (if 28 <=? local_overlay_version then AUTH_FLAG_BYTES_CONTROL else AUTH_FLAG_CONTROL).

Definition send_auth_message : C unit :=
  let~ version := cget (fun c => overlay_version (local_node (local c))) in
  send_to_node (create_auth_message version).

Definition maybe_reclaim_capacity (t : MessageType) (data_len : Z) : C unit :=
  let~ f := cget flow_controller in
  let~ (m, f) := clift (create_reclaim_capacity_message t data_len f) in
  cput (set_flow_controller f) ;~
  match m with Some inner_msg => send_to_node inner_msg | None => cret tt end.

(** ** message_handler.rs *)

Definition process_hello_message (time_now : Z) (hello : HelloMessage) : C unit :=
  let~ network := cget (fun c => network_hash (connection_auth c)) in
  if negb (verify_remote_auth_cert time_now (peer_id hello) (cert hello) network)
  then craise AuthCertInvalid
  else
    let r := remote_info_new hello in
    let~ k := get_shared_key (remote_pub_key_ecdh r) in
    cput (fun c => set_hmac_keys (hmac_keys_new k (local_nonce (local c)) (remote_nonce r) (remote_called_us c)) c) ;~
    cput (set_remote r).

Definition process_auth_message : C unit :=
  let~ called := cget remote_called_us in
  (if called then send_auth_message else cret tt) ;~
  cput (set_handshake_state Completed) ;~
  let~ r := cget remote_info in
  match r with
  | Some r =>
      let~ c := cget (fun c => c) in
      let '(m, f) := flow_start (overlay_version (local_node (local c))) (overlay_version (remote_node r))
                       (flow_controller c) in
      cput (set_flow_controller f) ;~
      send_to_node m
  | None => cret tt
  end.

Definition error_of_code (code : StellarErrorCode) : OverlayError :=
  match code with
  | ErrConf => ConfigError
  | ErrAuth => AuthFailed
  | other => OverlayErrorCode other
  end.

Definition process_stellar_message (time_now : Z) (m : StellarMessage) (t : MessageType) (data_len : Z)
  : C (option StellarMessage) :=
  match m with
  | Hello hello =>
      process_hello_message time_now hello ;~
      cput (set_handshake_state GotHello) ;~
      let~ called := cget remote_called_us in
      (if called then send_hello_message time_now else send_auth_message) ;~
      cret (Some (Hello hello))
  | Auth _ => process_auth_message ;~ cret None
  | ErrorMsg code msg =>
      match code with
      | ErrConf | ErrAuth => craise (error_of_code code)
      | _ => cret (Some (ErrorMsg code msg))
      end
  | SendMore _ | SendMoreExtended _ _ => cret None
  | other => maybe_reclaim_capacity t data_len ;~ cret (Some other)
  end.

Definition process_raw_message (time_now : Z) (data : Bytes) : C (option StellarMessage) :=
  let data_len := Z.of_nat (length data) in
  let~ (auth_msg, msg_type) := clift (parse_authenticated_message data) in
  let~ tx := cget receive_tx_messages in
  let~ scp := cget receive_scp_messages in
  match msg_type, tx, scp with
  | TypeTransaction, false, _ | TypeFloodAdvert, false, _ =>
      increment_remote_sequence ;~
      maybe_reclaim_capacity TypeTransaction data_len ;~
      cret None
  | TypeScpMessage, _, false => increment_remote_sequence ;~ cret None
  | TypeError, _, _ =>
      match message auth_msg with
      | ErrorMsg code _ => craise (error_of_code code)
      | _ => cret None
      end
  | _, _, _ =>
      let~ created := cget is_handshake_created in
      (if created then
         let~ body := clift (slice 4 (data_len - 32) data) in
         verify_auth auth_msg body ;~
         increment_remote_sequence
       else cret tt) ;~
      process_stellar_message time_now (message auth_msg) msg_type data_len
  end.

(** ** Starting and polling *)

Record ConnectionInfo := mkConnectionInfo {
  secret_key : SecretKey;
  info_auth_cert_expiration : Z;
  recv_tx_msgs : bool;
  recv_scp_msgs : bool;
  info_remote_called_us : bool;
}.

(** [start], once the socket is connected. *)
Definition connector_start (time_now : Z) (random_secret random_nonce : Bytes) (node : NodeInfo)
    (conn_info : ConnectionInfo) : res unit * Connector :=
  send_hello_message time_now
    (mkConnector (mkLocalInfo 0 random_nonce node 11625) None None
       (connection_auth_new (network_id node) (secret_key conn_info)
          (info_auth_cert_expiration conn_info) random_secret)
       (info_remote_called_us conn_info) (recv_tx_msgs conn_info) (recv_scp_msgs conn_info)
       Connecting flow_controller_default [] None).

Definition crate_specific_error : StellarMessage :=
  ErrorMsg ErrMisc (map (fun a => Z.of_nat (Ascii.nat_of_ascii a)) (String.list_ascii_of_string "Stellar Relay Error")).

(** What the user does before a round of the loop: nothing, send a message, drop
    the sender, or close the receiver. *)
Inductive UserAction := Idle | Sends (m : StellarMessage) | DropsSender | ClosesReceiver.

(** [poll_messages_from_stellar]: the messages handed to the user.  The loop ends
    with an error message when reading or processing fails; [None] is a panic of
    the task.  The list of actions bounds the rounds. *)
Fixpoint poll_messages_from_stellar (time_now : Z) (actions : list UserAction) (s : Stream) (c : Connector)
  : option (list StellarMessage) * Connector :=
  match actions with
  | [] => (Some [], c)
  | ClosesReceiver :: _ => (Some [], c)
  | DropsSender :: _ => (Some [crate_specific_error], c)
  | action :: actions =>
      let '(sent, c) := match action with Sends m => send_to_node m c | _ => (Done tt, c) end in
      match read_message_from_stellar s with
      | TimedOut | Failure => (Some [crate_specific_error], c)
      | Message xdr s =>
          match process_raw_message time_now xdr c with
          | (Done (Some m), c) =>
              let '(rest, c) := poll_messages_from_stellar time_now actions s c in
              (option_map (cons m) rest, c)
          | (Done None, c) => poll_messages_from_stellar time_now actions s c
          | (Error _, c) => (Some [crate_specific_error], c)
          | (Crash, c) => (None, c)
          end
      end
  end.

End connection.

(** ** Sequences of steps *)

Lemma cbind_done `{CR : OverlayCrypto} {A B} (m : C A) (k : A -> C B) c b c' :
  cbind m k c = (Done b, c') -> exists a c1, m c = (Done a, c1) /\ k a c1 = (Done b, c').
Proof. unfold cbind. destruct (m c) as [[a|e|] c1]; [eauto|done..]. Qed.

Lemma cbind_run `{CR : OverlayCrypto} {A B} (m : C A) (k : A -> C B) c a c1 :
  m c = (Done a, c1) -> cbind m k c = k a c1.
Proof. unfold cbind. by intros ->. Qed.

(** ** Flow control *)

Section flow.

Definition granted (m : StellarMessage) : Z :=
  match m with SendMore n => n | SendMoreExtended n _ => n | _ => 0 end.

(** The answers to a list of received messages, given by type and length. *)
Fixpoint reclaims (l : list (MessageType * Z)) (f : FlowController) : res (list StellarMessage * FlowController) :=
  match l with
  | [] => Done ([], f)
  | (t, data_len) :: l =>
      let! (m, f) := create_reclaim_capacity_message t data_len f in
      let! (ms, f) := reclaims l f in
      Done (option_list m ++ ms, f)
  end.

Definition floods (l : list (MessageType * Z)) : Z :=
  Z.of_nat (length (filter (fun e => is_flood_message e.1 = true) l)).

Record flow_ok (f : FlowController) : Prop := {
  batch_open : 0 <= messages_received_in_current_batch f < FLOW_CONTROL_SEND_MORE_BATCH_SIZE;
  bytes_open : flow_control_bytes_enabled f = true ->
    0 <= bytes_received_in_current_batch f < FLOW_CONTROL_SEND_MORE_BATCH_SIZE_BYTES;
}.

Ltac flow_done :=
  eexists _, _; split; [reflexivity|]; split; [|simpl; lia];
  split; simpl; unfold FLOW_CONTROL_SEND_MORE_BATCH_SIZE, FLOW_CONTROL_SEND_MORE_BATCH_SIZE_BYTES;
  first [done|lia].

Lemma reclaim_step t data_len f :
  flow_ok f -> 44 <= data_len < 2 ^ 31 ->
  exists m f', create_reclaim_capacity_message t data_len f = Done (m, f') /\ flow_ok f' /\
    default 0 (granted <$> m) + messages_received_in_current_batch f' =
    messages_received_in_current_batch f + (if is_flood_message t then 1 else 0).
Proof.
  intros [Hm Hb] Hd. unfold create_reclaim_capacity_message, FLOW_CONTROL_SEND_MORE_BATCH_SIZE, FLOW_CONTROL_SEND_MORE_BATCH_SIZE_BYTES in *.
  destruct (Z.ltb_spec u32_max data_len); [unfold u32_max in *; lia|].
  rewrite (Z.mod_small (data_len - 32 - 12)) by lia.
  destruct f as [en n b]; simpl in *. destruct (is_flood_message t); simpl.
  - rewrite (Z.mod_small (n + 1)) by lia.
    destruct (Z.eqb_spec (n + 1) 40) as [E|E]; simpl; [destruct en; flow_done|].
    destruct en; simpl; [|flow_done]. specialize (Hb eq_refl). rewrite (Z.mod_small (b + _)) by lia.
    destruct (Z.leb_spec 100000 (b + (data_len - 32 - 12))); flow_done.
  - destruct (Z.eqb_spec n 40); [lia|]. simpl. destruct en; simpl; [|flow_done].
    specialize (Hb eq_refl). destruct (Z.leb_spec 100000 b); [lia|]. flow_done.
Qed.

Lemma reclaims_ok l f :
  flow_ok f -> Forall (fun e => 44 <= e.2 < 2 ^ 31) l ->
  exists ms f', reclaims l f = Done (ms, f') /\ flow_ok f' /\
    fold_right Z.add 0 (map granted ms) + messages_received_in_current_batch f' =
    messages_received_in_current_batch f + floods l.
Proof.
  intros Hf Hl. revert f Hf. induction Hl as [|[t d] l Hd Hl IH]; intros f Hf; simpl.
  - exists [], f. split; [done|]. split; [done|]. unfold floods. simpl. lia.
  - destruct (reclaim_step t d f Hf Hd) as (m & f1 & -> & Hf1 & E1). simpl.
    destruct (IH f1 Hf1) as (ms & f2 & -> & Hf2 & E2). exists (option_list m ++ ms), f2. split; [done|]. split; [done|].
    unfold floods in *. simpl. rewrite map_app, foldr_app.
    assert (forall l x, fold_right Z.add x l = fold_right Z.add 0 l + x) as Hsum.
    { intros l0 x. induction l0 as [|y l0 IH0]; simpl; lia. }
    rewrite Hsum. rewrite filter_cons. simpl. destruct (is_flood_message t); simpl in *; destruct m; simpl in *; lia.
Qed.

End flow.
