(* ===== verification/OverlaySession.v ===== *)
(** * A session with a Stellar node

    What the connector promises: the keys of both sides agree, an honest node's
    messages are delivered in order, and nothing else is delivered once the node
    has said hello. *)

From S2P Require Import Prelude Primitives OverlayFrames OverlayConnector.

Section session.
Context `{OC : OverlayCodec} {L : OverlayCodecLaws OC} `{CR : OverlayCrypto} {CL : OverlayCryptoLaws CR}.

(** ** Keys *)

Lemma mac_length data key : length (default empty_mac (create_sha256_hmac data key)) = 32%nat.
Proof.
  unfold create_sha256_hmac. destruct (hmac_sha256 key data) as [v|]; [|done].
  by destruct (Nat.eqb_spec (length v) 32).
Qed.

Lemma shared_keys_agree a b :
  gen_shared_key (scalarmult_base b) a (scalarmult_base a) true =
  gen_shared_key (scalarmult_base a) b (scalarmult_base b) false.
Proof. unfold gen_shared_key. by rewrite scalarmult_agrees. Qed.

Lemma mac_keys_agree k n1 n2 called :
  sending (hmac_keys_new k n1 n2 called) = receiving (hmac_keys_new k n2 n1 (negb called)).
Proof. unfold hmac_keys_new, create_sending_mac_key, create_receiving_mac_key. simpl. by destruct called. Qed.

(** ** Certificates *)

Lemma created_cert_verifies network k valid_at key c time :
  create_auth_cert network k valid_at key = Done c ->
  time / 1000 < (valid_at + AUTH_CERT_EXPIRATION_LIMIT) mod 2 ^ 64 ->
  verify_remote_auth_cert time (get_public k) c network = true /\ cert_pubkey c = key.
Proof.
  unfold create_auth_cert. rewrite signature_length. simpl. intros [= <-] Ht. unfold verify_remote_auth_cert. simpl.
  destruct (Z.leb_spec ((valid_at + AUTH_CERT_EXPIRATION_LIMIT) mod 2 ^ 64) (time / 1000)); [lia|].
  by rewrite signature_length, signature_verifies.
Qed.

(** ** Sending *)

(** What sending does not change. *)
Record same_peer (c c' : Connector) : Prop := {
  same_remote : remote_info c' = remote_info c;
  same_keys : hmac_keys c' = hmac_keys c;
  same_auth : connection_auth c' = connection_auth c;
  same_called : remote_called_us c' = remote_called_us c;
  same_tx : receive_tx_messages c' = receive_tx_messages c;
  same_scp : receive_scp_messages c' = receive_scp_messages c;
  same_state : handshake_state c' = handshake_state c;
  same_flow : flow_controller c' = flow_controller c;
  same_broken : broken c' = broken c;
}.

Definition is_control (m : StellarMessage) : Prop :=
  match m with Auth _ | SendMore _ | SendMoreExtended _ _ => True | _ => False end.

Lemma mac_for_length m c : length (mac_for_auth_message m c) = 32%nat.
Proof.
  unfold mac_for_auth_message. destruct (remote_info c); [|done]. destruct (hmac_keys c); [|done]. apply mac_length.
Qed.

Lemma send_control m c :
  is_control m -> broken c = None -> exists c', send_to_node m c = (Done tt, c') /\ same_peer c c'.
Proof.
  intros Hm Hb. unfold send_to_node, create_xdr_message, authenticate_message.
  assert (Hf : from_authenticated_message (mkAuthenticated (local_sequence (local c)) m (mac_for_auth_message m c)) =
    Done (to_be_bytes 4 (Z.of_nat (length (authenticated_to_xdr (mkAuthenticated (local_sequence (local c)) m (mac_for_auth_message m c)))))
      ++ authenticated_to_xdr (mkAuthenticated (local_sequence (local c)) m (mac_for_auth_message m c)))).
  { unfold from_authenticated_message, message_to_bytes.
    destruct (Z.leb_spec (Z.of_nat (length (authenticated_to_xdr (mkAuthenticated (local_sequence (local c)) m (mac_for_auth_message m c))))) u32_max) as [_|Hlt]; [done|].
    rewrite authenticated_encodes, !length_app, !to_be_bytes_length in Hlt. cbn [mac message sequence] in Hlt. rewrite mac_for_length in Hlt.
    pose proof (control_message_size m). destruct m; try done; lia. }
  destruct m; try done; unfold increment_local_sequence, cbind, cget, cret, cput, clift; cbv beta iota; rewrite Hf; unfold write_all;
    simpl broken; rewrite Hb; eexists; (split; [reflexivity|by split]).
Qed.

(** ** Receiving *)

(** What a node sends that authenticates [m] with the key [k] under [seq]. *)
Definition peer_message (k : Bytes) (seq : Z) (m : StellarMessage) : AuthenticatedMessageV0 :=
  mkAuthenticated seq m (default empty_mac (create_sha256_hmac (to_be_bytes 8 seq ++ message_to_xdr m) k)).

Lemma peer_parses k seq m :
  0 <= seq < 2 ^ 64 ->
  parse_authenticated_message (authenticated_to_xdr (peer_message k seq m)) = Done (peer_message k seq m, message_type m).
Proof. intros Hs. apply (parse_encoded (peer_message k seq m)); [done|]. apply mac_length. Qed.

Lemma peer_body k seq m :
  let data := authenticated_to_xdr (peer_message k seq m) in
  slice 4 (Z.of_nat (length data) - 32) data = Done (to_be_bytes 8 seq ++ message_to_xdr m).
Proof.
  cbv zeta. rewrite authenticated_encodes. cbn [sequence message mac peer_message].
  rewrite (assoc (++) (to_be_bytes 8 seq)). apply slice_mid; rewrite ?length_app, ?to_be_bytes_length, ?mac_length; lia.
Qed.

Lemma peer_verifies k seq m data :
  length k = 32%nat -> data = to_be_bytes 8 seq ++ message_to_xdr m ->
  verify_hmac data k (mac (peer_message k seq m)) = Done tt.
Proof.
  intros Hk ->. unfold verify_hmac. rewrite hmac_compares. cbn [mac peer_message]. unfold create_sha256_hmac.
  destruct (hmac_accepts k (to_be_bytes 8 seq ++ message_to_xdr m) Hk) as (h & -> & Hh). rewrite Hh. simpl.
  by rewrite bool_decide_eq_true_2.
Qed.

(** The state of a session in which [n] messages were received. *)
Record in_session (k : Bytes) (n : Z) (c : Connector) : Prop := {
  session_created : is_handshake_created c = true;
  session_remote : exists r, remote_info c = Some r /\ remote_sequence r = n;
  session_keys : exists keys, hmac_keys c = Some keys /\ receiving keys = k;
  session_flow : flow_ok (flow_controller c);
  session_writes : broken c = None;
}.

(** What the user asked for. *)
Definition wanted (c : Connector) (m : StellarMessage) : bool :=
  match m with
  | Transaction _ | FloodAdvert _ => receive_tx_messages c
  | ScpMessage _ => receive_scp_messages c
  | SendMore _ | SendMoreExtended _ _ => false
  | _ => true
  end.

(** Messages of a node after the handshake. *)
Definition is_content (m : StellarMessage) : Prop :=
  match m with Hello _ | Auth _ | ErrorMsg _ _ => False | _ => True end.

Record kept (c c' : Connector) : Prop := {
  kept_tx : receive_tx_messages c' = receive_tx_messages c;
  kept_scp : receive_scp_messages c' = receive_scp_messages c;
  kept_called : remote_called_us c' = remote_called_us c;
}.

Lemma increment_remote k n c :
  in_session k n c -> 0 <= n < 2 ^ 64 - 1 ->
  exists c', increment_remote_sequence c = (Done tt, c') /\ in_session k (n + 1) c' /\ kept c c' /\
    flow_controller c' = flow_controller c.
Proof.
  intros [H1 (r & Hr & Hn) H3 H4 H5] Hb. unfold increment_remote_sequence. rewrite Hr. eexists. split; [reflexivity|].
  split; [|done]. split; try done. eexists. split; [reflexivity|]. simpl. unfold next_sequence. rewrite Hn. apply Z.mod_small. lia.
Qed.

Lemma in_session_peer k n c c' : in_session k n c -> same_peer c c' -> in_session k n c'.
Proof.
  intros [H1 H2 H3 H4 H5] [S1 S2 S3 S4 S5 S6 S7 S8 S9].
  split; unfold is_handshake_created in *; rewrite ?S1, ?S2, ?S7, ?S8, ?S9; done.
Qed.

Lemma reclaimed k n t data_len c :
  in_session k n c -> 44 <= data_len < 2 ^ 31 ->
  exists c', maybe_reclaim_capacity t data_len c = (Done tt, c') /\ in_session k n c' /\ kept c c'.
Proof.
  intros HI Hd. pose proof HI as [H1 H2 H3 H4 H5]. destruct (reclaim_step t data_len _ H4 Hd) as (m & f & E & Hf & _).
  unfold maybe_reclaim_capacity. unfold cbind, cget, clift, cput, cret. cbv beta iota. rewrite E. cbv beta iota.
  assert (in_session k n (set_flow_controller f c)) as HI1 by (split; done).
  destruct m as [m|]; [|by eexists].
  assert (is_control m) as Hm.
  { revert E. unfold create_reclaim_capacity_message. destruct (_ <? _); [done|]. destruct (_ || _); [|done].
    destruct (flow_control_bytes_enabled _); by intros [= <- _]. }
  destruct (send_control m (set_flow_controller f c) Hm H5) as (c' & -> & Hs). exists c'. split; [done|].
  split; [by eapply in_session_peer|]. destruct Hs. by split.
Qed.

Definition outcome_of (c : Connector) (m : StellarMessage) : option StellarMessage :=
  if wanted c m then Some m else None.

(** A message that is checked and then handled. *)
Lemma process_checked t k n c m :
  in_session k n c -> 0 <= n < 2 ^ 64 - 1 -> length k = 32%nat -> message_type m <> TypeError ->
  (forall b, m = Transaction b -> receive_tx_messages c = true) ->
  (forall b, m = FloodAdvert b -> receive_tx_messages c = true) ->
  (forall b, m = ScpMessage b -> receive_scp_messages c = true) ->
  exists c1, in_session k (n + 1) c1 /\ kept c c1 /\ flow_controller c1 = flow_controller c /\
    process_raw_message t (authenticated_to_xdr (peer_message k n m)) c =
    process_stellar_message t m (message_type m)
      (Z.of_nat (length (authenticated_to_xdr (peer_message k n m)))) c1.
Proof.
  intros HI Hn Hk Ht H1 H2 H3. destruct (increment_remote k n c HI Hn) as (c1 & E1 & HI1 & K1 & F1).
  exists c1. split; [done|]. split; [done|]. split; [done|]. unfold process_raw_message.
  rewrite peer_parses by lia. pose proof HI as [I1 (r & Ir & In) (keys & Ik & Ikk) _ _].
  assert (Hv : verify_auth (peer_message k n m) (to_be_bytes 8 n ++ message_to_xdr m) c = (Done tt, c)).
  { unfold verify_auth. rewrite Ir, In, Ik. cbn [sequence peer_message]. rewrite Z.eqb_refl. simpl. rewrite Ikk.
    by rewrite (peer_verifies k n m) by done. }
  destruct m; try done; unfold cbind, cget, clift, cret; cbv beta iota; cbn [message_type];
    try (rewrite (H1 _ eq_refl)); try (rewrite (H2 _ eq_refl)); try (rewrite (H3 _ eq_refl)); cbv beta iota;
    rewrite I1, peer_body, Hv, E1; done.
Qed.

Lemma process_content t k n c m :
  in_session k n c -> 0 <= n < 2 ^ 64 - 1 -> length k = 32%nat -> is_content m ->
  Z.of_nat (length (authenticated_to_xdr (peer_message k n m))) < 2 ^ 31 ->
  exists c', process_raw_message t (authenticated_to_xdr (peer_message k n m)) c = (Done (outcome_of c m), c') /\
    in_session k (n + 1) c' /\ kept c c'.
Proof.
  intros HI Hn Hk Hm Hlen.
  assert (Hlen44 : 44 <= Z.of_nat (length (authenticated_to_xdr (peer_message k n m)))).
  { rewrite authenticated_encodes, !length_app, !to_be_bytes_length. cbn [mac peer_message]. rewrite mac_length. lia. }
  destruct (increment_remote k n c HI Hn) as (c1 & E1 & HI1 & K1 & _).
  unfold outcome_of. destruct (wanted c m) eqn:Hw.
  - destruct (process_checked t k n c m HI Hn Hk) as (c2 & HI2 & K2 & _ & ->); try (by intros ? ->); [by destruct m|].
    destruct (reclaimed k (n + 1) (message_type m) _ c2 HI2 (conj Hlen44 Hlen)) as (c3 & E3 & HI3 & K3).
    exists c3. split; [|split; [done|destruct K2, K3; split; congruence]].
    destruct m; try done; unfold process_stellar_message; by rewrite (cbind_run _ _ _ _ _ E3).
  - destruct (reclaimed k (n + 1) TypeTransaction _ c1 HI1 (conj Hlen44 Hlen)) as (c3 & E3 & HI3 & K3).
    assert (kept c c3) as K by (destruct K1, K3; split; congruence).
    destruct m as [| | |x|x y|b|b|b|b|x b]; try done; simpl in Hw.
    + destruct (process_checked t k n c (SendMore x) HI Hn Hk) as (c2 & HI2 & K2 & _ & ->); [done..|]. by exists c2.
    + destruct (process_checked t k n c (SendMoreExtended x y) HI Hn Hk) as (c2 & HI2 & K2 & _ & ->); [done..|]. by exists c2.
    + exists c3. split; [|done]. unfold process_raw_message. rewrite peer_parses by lia.
      unfold cbind, cget, clift, cret. cbv beta iota. cbn [message_type]. rewrite Hw. cbv beta iota. by rewrite E1, E3.
    + exists c3. split; [|done]. unfold process_raw_message. rewrite peer_parses by lia.
      unfold cbind, cget, clift, cret. cbv beta iota. cbn [message_type]. rewrite Hw. cbv beta iota. by rewrite E1, E3.
    + exists c1. split; [|done]. unfold process_raw_message. rewrite peer_parses by lia.
      unfold cbind, cget, clift, cret. cbv beta iota. cbn [message_type]. rewrite Hw.
      destruct (receive_tx_messages c); cbv beta iota; by rewrite E1.
Qed.

(** ** The handshake *)

(** A connector that has called a node and said hello. *)
Record fresh (c : Connector) : Prop := {
  fresh_state : handshake_state c = Connecting;
  fresh_flow : flow_controller c = flow_controller_default;
  fresh_broken : broken c = None;
  fresh_called : remote_called_us c = false;
  fresh_keys : we_called_remote_shared_keys (connection_auth c) = ∅;
  fresh_ecdh : pub_key_ecdh (connection_auth c) = scalarmult_base (secret_key_ecdh (connection_auth c));
}.

Lemma start_fresh t secret nonce node info c :
  connector_start t secret nonce node info = (Done tt, c) -> info_remote_called_us info = false ->
  fresh c /\ receive_tx_messages c = recv_tx_msgs info /\ receive_scp_messages c = recv_scp_msgs info.
Proof.
  unfold connector_start, send_hello_message. intros H Hi. apply cbind_done in H as (m & c1 & E1 & H).
  unfold create_hello in E1. cbn [auth_cert connection_auth connection_auth_new saved_auth_cert] in E1. simpl in E1.
  destruct (create_auth_cert _ _ _ _) as [crt| |]; [|done..]. injection E1 as E1 <-.
  unfold create_hello_message in E1. simpl in E1. destruct (length (version_str node) <=? 100)%nat; [|done]. apply (inj Done) in E1 as <-.
  unfold send_to_node, create_xdr_message, authenticate_message in H. unfold cbind, cget, cret, clift in H. cbv beta iota in H.
  destruct (from_authenticated_message _) as [f| |]; [|done..]. unfold write_all in H. simpl in H. injection H as <-. by repeat split.
Qed.

(** The key with which the node of secret [b] authenticates what it sends. *)
Definition node_key (c : Connector) (b : Bytes) (hello : HelloMessage) : Bytes :=
  sending (hmac_keys_new (gen_shared_key (pub_key_ecdh (connection_auth c)) b (scalarmult_base b) false)
             (hello_nonce hello) (local_nonce (local c)) true).

Lemma process_hello t c hello b h0 :
  fresh c -> cert_pubkey (cert hello) = scalarmult_base b -> length h0 = 32%nat ->
  verify_remote_auth_cert t (peer_id hello) (cert hello) (network_hash (connection_auth c)) = true ->
  exists c', process_raw_message t (authenticated_to_xdr (mkAuthenticated 0 (Hello hello) h0)) c =
      (Done (Some (Hello hello)), c') /\
    in_session (node_key c b hello) 0 c' /\ kept c c' /\ flow_controller c' = flow_controller_default.
Proof.
  intros [F1 F2 F3 F4 F5 F6] Hp Hh Hv. unfold process_raw_message. rewrite parse_encoded by (simpl; (lia || done)).
  unfold cbind, cget, clift, cret, is_handshake_created. cbv beta iota. cbn [message_type message]. rewrite F1. cbv beta iota.
  unfold process_stellar_message, process_hello_message, get_shared_key, cput. unfold cbind, cget, cret. cbv beta iota. rewrite Hv.
  cbn [negb]. cbv beta iota. unfold shared_key. cbn [remote_info_new remote_pub_key_ecdh remote_nonce]. rewrite F4. cbn [negb]. rewrite F5, lookup_empty.
  cbv beta iota.
  match goal with |- context [remote_called_us ?x] => change (remote_called_us x) with (remote_called_us c) end.
  rewrite F4. cbv beta iota.
  match goal with |- context [send_auth_message ?x] => set (c1 := x) end.
  destruct (send_control (create_auth_message (overlay_version (local_node (local c1)))) c1) as (c' & E & Hs); [done|done|].
  unfold send_auth_message, cbind, cget. cbv beta iota. rewrite E. exists c'. split; [done|].
  assert (in_session (node_key c b hello) 0 c1) as HI.
  { split; [done|by eexists|..|by rewrite (eq_refl : flow_controller c1 = flow_controller c), F2|done].
    eexists. split; [reflexivity|]. unfold node_key. rewrite (mac_keys_agree _ _ _ true). simpl. rewrite Hp, F6, shared_keys_agree.
    match goal with |- context [remote_called_us ?x] => change (remote_called_us x) with (remote_called_us c) end. by rewrite F4. }
  split; [by eapply in_session_peer|]. destruct Hs as [? ? ? S4 S5 S6 ? S8 ?].
  split; [split; [by rewrite S5|by rewrite S6|by rewrite S4]|]. by rewrite S8.
Qed.

Lemma process_auth t k n c flags :
  in_session k n c -> 0 <= n < 2 ^ 64 - 1 -> length k = 32%nat -> remote_called_us c = false ->
  flow_controller c = flow_controller_default ->
  exists c', process_raw_message t (authenticated_to_xdr (peer_message k n (Auth flags))) c = (Done None, c') /\
    in_session k (n + 1) c' /\ kept c c'.
Proof.
  intros HI Hn Hk Hc Hf. destruct (process_checked t k n c (Auth flags) HI Hn Hk) as (c1 & HI1 & K1 & F1 & ->); [done..|].
  rewrite Hf in F1. pose proof HI1 as [I1 (r & Ir & In) I3 I4 I5]. pose proof K1 as [K2 K3 K4].
  unfold process_stellar_message, process_auth_message, cput, cret, cget. unfold cbind. cbv beta iota. rewrite K4, Hc. cbv beta iota.
  cbn [remote_info set_handshake_state]. rewrite Ir. unfold flow_start.
  match goal with |- context [send_to_node ?m ?x] => set (c2 := x); set (m2 := m) end.
  assert (in_session k (n + 1) c2) as HI2.
  { split; [done|by exists r|done|..|done]. simpl. rewrite F1. unfold enable_bytes. simpl. by split. }
  destruct (send_control m2 c2) as (c3 & E & Hs); [unfold m2; by destruct (flow_control_bytes_enabled _)|done|].
  rewrite E. exists c3. split; [done|]. split; [by eapply in_session_peer|].
  destruct Hs as [? ? ? S4 S5 S6 ? ? ?]. split; [rewrite S5|rewrite S6|rewrite S4]; done.
Qed.

(** ** Polling *)

Definition frame (xdr : Bytes) : Segment := Arrives (to_be_bytes 4 (Z.of_nat (length xdr)) ++ xdr).

Lemma read_frame xdr s :
  (0 < length xdr)%nat -> Z.of_nat (length xdr) < 2 ^ 31 -> read_message_from_stellar (frame xdr :: s) = Message xdr s.
Proof.
  intros H0 Hl. unfold frame. rewrite <- (app_nil_r xdr) at 2. rewrite read_whole; [done|apply to_be_bytes_length|done|].
  apply header_length. lia.
Qed.

Lemma encoded_nonempty a : (0 < length (authenticated_to_xdr a))%nat.
Proof. rewrite authenticated_encodes, length_app, to_be_bytes_length. lia. Qed.

(** The frames of [ms], numbered from [n]. *)
Fixpoint frames (k : Bytes) (n : Z) (ms : list StellarMessage) : list Segment :=
  match ms with
  | [] => []
  | m :: ms => frame (authenticated_to_xdr (peer_message k n m)) :: frames k (n + 1) ms
  end.

Definition small (m : StellarMessage) : Prop := Z.of_nat (length (message_to_xdr m)) + 44 < 2 ^ 31.

Lemma peer_size k n m : small m -> Z.of_nat (length (authenticated_to_xdr (peer_message k n m))) < 2 ^ 31.
Proof.
  intros Hs. rewrite authenticated_encodes, !length_app, !to_be_bytes_length. cbn [mac message peer_message].
  rewrite mac_length. unfold small in Hs. lia.
Qed.

Lemma poll_content t k ms : length k = 32%nat -> Forall is_content ms -> Forall small ms ->
  forall n c, in_session k n c -> 0 <= n -> n + Z.of_nat (length ms) < 2 ^ 64 ->
  exists c', poll_messages_from_stellar t (replicate (length ms) Idle) (frames k n ms) c =
    (Some (List.filter (wanted c) ms), c').
Proof.
  intros Hk Hc. induction Hc as [|m ms Hm Hms IH]; intros Hs n c HI Hn Hlen; [by eexists|].
  apply list.Forall_cons in Hs as [Hs1 Hs2]. simpl length in Hlen.
  pose proof (peer_size k n m Hs1) as Hsize.
  destruct (process_content t k n c m HI ltac:(lia) Hk Hm Hsize) as (c1 & E1 & HI1 & K1).
  destruct (IH Hs2 (n + 1) c1 HI1) as (c2 & E2); [lia..|].
  assert (List.filter (wanted c1) ms = List.filter (wanted c) ms) as Hw.
  { apply List.filter_ext. intros x. unfold wanted. destruct K1 as [-> -> _]. done. }
  simpl replicate. cbn [frames poll_messages_from_stellar]. rewrite read_frame by (done || apply encoded_nonempty).
  rewrite E1. unfold outcome_of. simpl List.filter.
  destruct (wanted c m); rewrite E2, Hw; by eexists.
Qed.

End session.

(** ** What is delivered *)

Section delivered.
Context `{OC : OverlayCodec} `{CR : OverlayCrypto} {CL : OverlayCryptoLaws CR}.

(** The frame passed the check of the connector in state [c]. *)
Definition checked (c : Connector) (data : Bytes) (a : AuthenticatedMessageV0) : Prop :=
  exists t r keys body, parse_authenticated_message data = Done (a, t) /\
    remote_info c = Some r /\ sequence a = remote_sequence r /\ hmac_keys c = Some keys /\
    slice 4 (Z.of_nat (length data) - 32) data = Done body /\
    hmac_sha256 (receiving keys) body = Some (mac a).

Lemma verify_auth_done a body c u c' :
  verify_auth a body c = (Done u, c') ->
  c' = c /\ exists r keys, remote_info c = Some r /\ sequence a = remote_sequence r /\ hmac_keys c = Some keys /\
    hmac_sha256 (receiving keys) body = Some (mac a).
Proof.
  unfold verify_auth. destruct (remote_info c) as [r|]; [|done].
  destruct (Z.eqb_spec (remote_sequence r) (sequence a)) as [He|]; simpl; [|done].
  destruct (hmac_keys c) as [keys|]; [|done]. unfold verify_hmac. rewrite hmac_compares. intros H.
  destruct (hmac_sha256 (receiving keys) body) as [h|] eqn:Eh; simpl in H; [|done].
  case_bool_decide; [|done]. injection H as _ <-. split; [done|]. exists r, keys. split_and!; congruence.
Qed.

Notation "'let~' x ':=' m 'in' k" := (cbind m (fun x => k))
  (at level 10, x pattern, m at level 100, k at level 200) : overlay_scope.
Notation "m ';~' k" := (cbind m (fun _ => k))
  (at level 100, k at level 200, right associativity) : overlay_scope.

(** The frame is checked before it is handled. *)
Definition check_and_handle (t : Z) (data : Bytes) (a : AuthenticatedMessageV0) (ty : MessageType)
  : C (option StellarMessage) :=
  let~ body := clift (slice 4 (Z.of_nat (length data) - 32) data) in
  verify_auth a body ;~
  increment_remote_sequence ;~
  process_stellar_message t (message a) ty (Z.of_nat (length data)).

Definition same_wishes (c c' : Connector) : Prop :=
  receive_tx_messages c' = receive_tx_messages c /\ receive_scp_messages c' = receive_scp_messages c /\
  is_handshake_created c' = is_handshake_created c.

Lemma cbind_assoc {A B D} (m : C A) (k : A -> C B) (h : B -> C D) c :
  cbind (cbind m k) h c = cbind m (fun a => cbind (k a) h) c.
Proof. unfold cbind. by destruct (m c) as [[a|e|] c1]. Qed.

Lemma delivered_inv t data c m c' :
  is_handshake_created c = true -> process_raw_message t data c = (Done (Some m), c') ->
  exists a ty, parse_authenticated_message data = Done (a, ty) /\
    check_and_handle t data a ty c = (Done (Some m), c') /\
    forall c2, same_wishes c c2 -> process_raw_message t data c2 = check_and_handle t data a ty c2.
Proof.
  intros Hc H. unfold process_raw_message in H. apply cbind_done in H as ([a ty] & c1 & E1 & H). injection E1 as E1 <-.
  exists a, ty. split; [done|].
  apply cbind_done in H as (tx & c1 & [= <- <-] & H). apply cbind_done in H as (scp & c1 & [= <- <-] & H).
  set (generic := fun c0 => cbind (cget is_handshake_created) (fun created =>
      cbind (if created then
         cbind (clift (slice 4 (Z.of_nat (length data) - 32) data)) (fun body =>
         cbind (verify_auth a body) (fun _ => increment_remote_sequence))
       else cret tt) (fun _ =>
      process_stellar_message t (message a) ty (Z.of_nat (length data)))) c0).
  assert (Hgen : forall c2, is_handshake_created c2 = true -> generic c2 = check_and_handle t data a ty c2).
  { intros c2 H2. unfold generic, check_and_handle. unfold cbind at 1, cget. rewrite H2. rewrite cbind_assoc.
    unfold cbind at 1 4. destruct (clift _ c2) as [[body|e|] c3]; [|done..]. by rewrite cbind_assoc. }
  assert (Hrun : forall c2, same_wishes c c2 -> process_raw_message t data c2 =
    match ty, receive_tx_messages c, receive_scp_messages c with
    | TypeTransaction, false, _ | TypeFloodAdvert, false, _ =>
        (increment_remote_sequence ;~ maybe_reclaim_capacity TypeTransaction (Z.of_nat (length data)) ;~ cret None) c2
    | TypeScpMessage, _, false => (increment_remote_sequence ;~ cret None) c2
    | TypeError, _, _ => match message a with ErrorMsg code _ => craise (error_of_code code) c2 | _ => cret None c2 end
    | _, _, _ => generic c2
    end).
  { intros c2 (W1 & W2 & W3). unfold process_raw_message. rewrite E1.
    unfold cbind at 1, clift. unfold cbind at 1, cget at 1. unfold cbind at 1, cget at 1. rewrite W1, W2.
    destruct ty, (receive_tx_messages c), (receive_scp_messages c); try reflexivity; by destruct (message a). }
  assert (Hall : generic c = (Done (Some m), c') /\
    forall c2, same_wishes c c2 -> process_raw_message t data c2 = generic c2).
  { destruct ty; try (split; [exact H|intros c2 W; by rewrite Hrun]).
    - by destruct (message a).
    - destruct (receive_tx_messages c); [split; [exact H|intros c2 W; by rewrite Hrun]|].
      apply cbind_done in H as (? & ? & _ & H). by apply cbind_done in H as (? & ? & _ & H).
    - destruct (receive_tx_messages c), (receive_scp_messages c);
        try (by apply cbind_done in H as (? & ? & _ & H)); (split; [exact H|intros c2 W; by rewrite Hrun]).
    - destruct (receive_tx_messages c); [split; [exact H|intros c2 W; by rewrite Hrun]|].
      apply cbind_done in H as (? & ? & _ & H). by apply cbind_done in H as (? & ? & _ & H). }
  destruct Hall as [Hg Hr]. split; [by rewrite <- Hgen|].
  intros c2 W. rewrite Hr by done. apply Hgen. destruct W as (_ & _ & ->). done.
Qed.

(** Sending changes the local sequence number and what is written only. *)
Lemma send_same m c r c' : send_to_node m c = (r, c') -> same_peer c c'.
Proof.
  unfold send_to_node, create_xdr_message, authenticate_message, increment_local_sequence.
  unfold cbind, cget, cret, cput, clift. cbv beta iota.
  destruct m; cbv beta iota; (destruct (from_authenticated_message _); [unfold write_all; simpl; destruct (broken c) eqn:Eb|..]);
    intros [= <- <-]; split; simpl; rewrite ?Eb; done.
Qed.

(** A message that is handed on leaves the session as it was. *)
Lemma handled_keeps t m ty len c c' :
  process_stellar_message t m ty len c = (Done (Some m), c') -> (forall hello, m <> Hello hello) ->
  remote_info c' = remote_info c /\ same_wishes c c'.
Proof.
  assert (Hrec : cbind (maybe_reclaim_capacity ty len) (fun _ => cret (Some m)) c = (Done (Some m), c') ->
    remote_info c' = remote_info c /\ same_wishes c c').
  { intros H. apply cbind_done in H as (? & c1 & H1 & [= <-]). unfold maybe_reclaim_capacity in H1.
    apply cbind_done in H1 as (? & ? & [= <- <-] & H1). apply cbind_done in H1 as ([o f] & ? & [= _ <-] & H1).
    apply cbind_done in H1 as (? & ? & [= _ <-] & H1). destruct o as [inner|]; [|by injection H1 as _ <-].
    destruct (send_same _ _ _ _ H1) as [S1 _ _ _ S5 S6 S7 _ _]. unfold same_wishes, is_handshake_created. by rewrite S1, S5, S6, S7. }
  intros H Hm. destruct m as [code msg|hello| | | | | | | |]; try (by apply Hrec in H); try done.
  - destruct code; try done; by injection H as <-.
  - by destruct (Hm hello).
  - by apply cbind_done in H as (? & ? & _ & H).
Qed.

Lemma handled_message t m ty len c m' c' :
  process_stellar_message t m ty len c = (Done (Some m'), c') -> m' = m.
Proof.
  unfold process_stellar_message. intros H. destruct m as [code msg|hello| | | | | | | |]; try done;
    try (by apply cbind_done in H as (? & ? & _ & H); injection H).
  - destruct code; try done; by injection H.
  - apply cbind_done in H as (? & ? & _ & H). apply cbind_done in H as (? & ? & _ & H). apply cbind_done in H as (? & ? & _ & H).
    apply cbind_done in H as (? & ? & _ & H). by injection H.
Qed.

Lemma next_sequence_ne x : next_sequence x <> x.
Proof. unfold next_sequence. pose proof (Z.div_mod (x + 1) (2 ^ 64)). pose proof (Z.mod_pos_bound (x + 1) (2 ^ 64)). nia. Qed.

End delivered.

(** ** Properties *)

Section properties.



(** The capacity given back to the node is the capacity it used: after any
    messages, what was granted and what is open in the current batch add up to
    the flood messages received, and a batch stays below its size, so that the
    node can always send. *)
Theorem flood_capacity_reclaimed l local_version remote_version :
  Forall (fun e => 44 <= e.2 < 2 ^ 31) l ->
  exists ms f', reclaims l (flow_start local_version remote_version flow_controller_default).2 = Done (ms, f') /\
    fold_right Z.add 0 (map granted ms) + messages_received_in_current_batch f' = floods l /\
    0 <= messages_received_in_current_batch f' < FLOW_CONTROL_SEND_MORE_BATCH_SIZE /\
    (flow_control_bytes_enabled f' = true ->
     0 <= bytes_received_in_current_batch f' < FLOW_CONTROL_SEND_MORE_BATCH_SIZE_BYTES).
Proof.
  intros Hl. destruct (reclaims_ok l (flow_start local_version remote_version flow_controller_default).2) as (ms & f & E & [Hf1 Hf2] & Hs);
    [by split|done|].
  exists ms, f. split; [done|]. simpl in Hs. split; [lia|]. by split.
Qed.

End properties.

(** ** Witnesses *)

Section witnesses.

Definition toy_digest (n : nat) (data : Bytes) : Bytes := replicate n 0 ++ [fold_right Z.add 0 data mod 256].

Lemma sum_app (l1 l2 : list Z) :
  fold_right Z.add 0 (l1 ++ l2) = fold_right Z.add 0 l1 + fold_right Z.add 0 l2.
Proof. induction l1 as [|x l IH]; simpl; lia. Qed.

#[export] Instance ToyCrypto : OverlayCrypto := {|
  hmac_sha256 key data := Some (toy_digest 31 (key ++ data));
  hmac_verify key data m := Some (bool_decide (toy_digest 31 (key ++ data) = m));
  sha256 := toy_digest 31;
  scalarmult_base s := s;
  scalarmult a b := toy_digest 31 (a ++ b);
  SecretKey := Bytes;
  get_public := PublicKeyTypeEd25519;
  create_signature k data := toy_digest 63 data;
  verify_signature k data sig := bool_decide (toy_digest 63 data = sig);
  envelope_type_auth_xdr := [0; 0; 0; 3];
  u64_to_xdr := to_be_bytes 8;
|}.

#[export] Instance ToyCrypto_laws : OverlayCryptoLaws ToyCrypto.
Proof.
  split.
  - intros key data _. exists (toy_digest 31 (key ++ data)). split; reflexivity.
  - intros key data m. reflexivity.
  - intros a b. change (toy_digest 31 (a ++ b) = toy_digest 31 (b ++ a)). unfold toy_digest.
    by rewrite (sum_app a b), (sum_app b a), (Z.add_comm (fold_right Z.add 0 a)).
  - intros k data. reflexivity.
  - intros k data. exact (bool_decide_eq_true_2 _ eq_refl).
Qed.

Definition toy_node : NodeInfo := mkNodeInfo 20 28 27 [49] [7].
Definition toy_info : ConnectionInfo := mkConnectionInfo (CR := ToyCrypto) [1] 0 false true false.
Definition toy_connector : Connector := (connector_start 0 [3] [5] toy_node toy_info).2.
Definition toy_cert : AuthCert :=
  match create_auth_cert (network_hash (connection_auth toy_connector)) [2] 0 [4] with Done crt => crt | _ => mkAuthCert [] 0 [] end.
Definition toy_hello : HelloMessage := mkHello 20 28 27 [7] [49] 11625 (PublicKeyTypeEd25519 [2]) toy_cert [6].


Definition toy_session : Connector :=
  (process_raw_message 0 (authenticated_to_xdr (mkAuthenticated 0 (Hello toy_hello) (replicate 32 0))) toy_connector).2.
Definition toy_frame : Bytes :=
  authenticated_to_xdr (peer_message (node_key toy_connector [4] toy_hello) 0 (ScpMessage [1])).


Lemma flood_capacity_reclaimed_witness :
  let l := replicate 41 (TypeScpMessage, 244) in
  exists ms f', reclaims l (flow_start 28 28 flow_controller_default).2 = Done (ms, f') /\
    fold_right Z.add 0 (map granted ms) + messages_received_in_current_batch f' = floods l /\
    0 <= messages_received_in_current_batch f' < FLOW_CONTROL_SEND_MORE_BATCH_SIZE /\
    (flow_control_bytes_enabled f' = true ->
     0 <= bytes_received_in_current_batch f' < FLOW_CONTROL_SEND_MORE_BATCH_SIZE_BYTES).
Proof. apply (flood_capacity_reclaimed (replicate 41 (TypeScpMessage, 244)) 28 28). repeat constructor; discriminate. Defined.

End witnesses.
